(* ===== verification/_CoqProject ===== *)
-Q . S2P
Prelude.v
Crc.v
Cell.v
Page.v
Pager.v
Wal.v
Txn.v
Buffer.v
Tree.v
Search.v
Overflow.v
Upsert.v
Rollback.v
Recovery.v
Vacuum.v
Engine.v
Server.v
Scenarios.v
