(* ===== verification/Prelude.v ===== *)
(** * RyuDB: verification of the storage engine (root file)

    RyuDB is a key-value store with multi-version transactions: a B+-tree of
    4096-byte pages behind a buffer pool, a write-ahead log with recovery, a
    vacuum, a coordinator that maps user keys to version keys, and a line server.
    This development models its Go code and proves what makes it correct.

    ** The program and the files

    Every file is a component; its definitions carry the names of the code.

    - [Prelude]: bytes and unsigned arithmetic at its width, slices with their
      capacity, the outcome of Go code ([outcome]: a result, an error, a panic,
      or a call that never returns) and the state monad over it ([M]), map
      iteration order ([MapRange]), [sort.Slice], shared lemmas and tactics.
    - [Crc]: [crc32.ChecksumIEEE], for pages and log records.
    - [Cell] ([internal/storage/cell.go]): the wire format of cells, with a
      class [Codec] for values that round-trip through cells.
    - [Page] ([page.go]): a page is its bytes; [page_wf] is the invariant,
      [cells] and [stores] the abstract contents.
    - [Pager] ([pager.go]): files with scripted faults, and the page array.
    - [Wal] ([wal.go]): records, the log file; [wal_ok w recs] says that the log
      is the list of records [recs].
    - [Txn] ([txn.go]): the transaction table and version keys.
    - [Buffer] ([buffer_manager.go]): frames, pins, latches, eviction, flushing.
      [bm_ok bm h] is the invariant when the goroutine holds [h]; [view bm] is
      the array of pages the pool implements, resident or not.
    - [Tree] ([btree.go], [vacuum.go]): the free list, overflow chains, the
      descent and the lookups; [Search] has the order of the search tree and
      [Overflow] the theorems on the free list and on chains.
    - [Upsert] ([btree.go], [recovery.go]): writes, splits, commit, rollback and
      [redoUpsertOnPage]; [Rollback] has the theorems on rolling back.
    - [Recovery] ([recovery.go], [btree.go]): analysis, redo and undo,
      checkpoints, opening and closing.
    - [Vacuum] ([vacuum.go]): the sweep.
    - [Engine] ([internal/engine/db.go]): the coordinator, written against the
      class [Index] (the source's interface) with the tree as its instance.
    - [Server] ([server.go]): a client's session, for any database that
      implements [Index].
    - [Scenarios]: whole runs of the model from an empty directory.

    A method of a Go object is a computation in [M] on its state: pages in
    files in the pool in the tree in the store ([page], [File],
    [BufferManager], [BTree], [Store]), lifted by [zoom].  A fetched page is the
    id of its pinned frame.  [tree.wal] and [bm.wal] are one log, [bm_walOn]
    telling whether they are nil.

    ** What the theorems show

    - Formats: round trips of cells, version keys and log records, exact limits
      of the 16-bit arithmetic, detection of every single-byte corruption of
      pages and records.
    - Pages: [Insert], [Get] and the rewriting of a page, on every branch.
    - Files and log: the page array; LSNs are offsets and records read back; a
      torn tail ends the scan; what a failed append leaves behind.
    - Pool: each operation implements the array of pages ([view]) up to the
      LSN field, and keeps the invariant; which records a write fetch logs; what
      a flush writes; the dirty page table.
    - Tree: the search finds the only leaf that can hold a key; the lookup
      answers the greatest visible version; the free list is a stack; chains
      round-trip.
    - Writes: the cells, the log record and the frame of a write that needs no
      split; conflicts; invisibility of uncommitted writes; commit; rollback
      against a specification of the leaves and of the log ([undo],
      [undo_log]).
    - Recovery: analysis against the list of records; redo, skipped records and
      dropped cells included; the dirty page table through a checkpoint.
    - Vacuum: no reader at or above the watermark sees a difference.
    - Coordinator and server: read-your-writes, rollback on conflict, the
      protocol of a session.

    Splits ([splitLeafCells], [insertIntoParent], [splitInternal], [grow_root])
    and the whole of recovery and opening are defined and run in [Scenarios],
    but have no general theorem: the flaws listed there contradict the natural
    ones (a split can drop a cell, hide a committed version, and is not undone;
    a rolled-back write returns after a crash).  The theorems on writes state
    which writes they cover: those that fit their leaf.

    ** Bounds and fuel

    - Loops over page pointers take [descent_fuel], one more than the pages of
      the file: a longer walk repeats a page.  For the search and for
      well-formed chains the theorems show that it is enough; running out is
      [Hang] (or, in the recursive vacuum, the stack overflow [Panic]).
    - Scans of the log take [log_fuel], one more than the bytes of the log; a
      record has at least 43, and the theorems show that it is enough; the undo
      loop takes that for each active transaction and once more.
    - The loop over a checkpoint's entries takes the bytes of the record; each
      entry needs 12 and an entry beyond the buffer panics.
    - [createOverflowChain] takes one more than the length of the value.

    ** The environment

    [f_faults] scripts the outcome of system calls, torn writes included; the
    theorems say when they need a healthy file.  Map iteration takes any order
    ([MapRange] is an argument of the theorems); clock readings and elapsed
    times are inputs.

    ** Not modelled

    Code runs as one goroutine: a mutex is nothing, a latch that is not free is
    [Hang], and interleavings are left out, so are [main], the goroutines of
    [StartCheckpointRoutine] and [StartVacuumRoutine], sockets, log output,
    the terminal client, the opening of files, and what a handle does after
    [Close]. *)

From stdpp Require Export prelude gmap strings pretty list sorting.
From Stdlib Require Export Strings.Byte NArith ZArith Lia.

#[global] Open Scope N_scope.
#[global] Open Scope general_if_scope.

(** ** Bytes *)

#[global] Instance byte_eq_dec : EqDecision byte := Byte.byte_eq_dec.

(** The value of a byte, and the truncating conversion [byte(n)]. *)
Definition b2n (b : byte) : N := Byte.to_N b.
Definition n2b (n : N) : byte := default x00 (Byte.of_N (n mod 256)).

(** ** Machine-width unsigned arithmetic *)

Definition u8 (n : N) : N := n mod 256.
Definition u16 (n : N) : N := n mod 65536.
Definition u32 (n : N) : N := n mod 4294967296.
Definition u64 (n : N) : N := n mod 18446744073709551616.

(** Subtraction on [uint16] and [uint32] wraps around. *)
Definition sub16 (a b : N) : N := u16 (a + 65536 - u16 b).
Definition sub32 (a b : N) : N := u32 (a + 4294967296 - u32 b).

(** ** Byte sequences *)

Declare Scope ryu_scope.
Delimit Scope ryu_scope with ryu.
#[global] Open Scope ryu_scope.

Abbreviation bytes := (list byte).

(** [len l] is Go's [len], as an [N]. *)
Definition len {A} (l : list A) : N := N.of_nat (length l).

(** [sub l off n] is the [n] elements of [l] from [off]. *)
Definition sub {A} (l : list A) (off n : N) : list A :=
  take (N.to_nat n) (drop (N.to_nat off) l).

(** [splice l off d] is the array [l] after [copy(l[off:], d)]. *)
Definition splice {A} (l : list A) (off : N) (d : list A) : list A :=
  take (N.to_nat off) l ++ take (length l - N.to_nat off) d
    ++ drop (N.to_nat off + length d) l.

(** [make([]byte, n)]. *)
Definition zeros (n : N) : bytes := replicate (N.to_nat n) x00.

(** [binary.LittleEndian.PutUint*] and [Uint*] on [w] bytes. *)
Fixpoint le_enc (w : nat) (n : N) : bytes :=
  match w with
  | O => []
  | S w' => n2b n :: le_enc w' (n / 256)
  end.

Fixpoint le_dec (l : bytes) : N :=
  match l with
  | [] => 0
  | b :: l' => b2n b + 256 * le_dec l'
  end.

(** [binary.BigEndian.PutUint64] and [Uint64]. *)
Definition be_enc (w : nat) (n : N) : bytes := rev (le_enc w n).
Definition be_dec (l : bytes) : N := le_dec (rev l).

(** [bytes.Compare], the lexicographic order on bytes, and [bytes.Equal]. *)
Fixpoint bytes_compare (a b : bytes) : comparison :=
  match a, b with
  | [], [] => Eq
  | [], _ :: _ => Lt
  | _ :: _, [] => Gt
  | x :: a', y :: b' =>
      match N.compare (b2n x) (b2n y) with
      | Eq => bytes_compare a' b'
      | c => c
      end
  end.

Definition bytes_ltb (a b : bytes) : bool :=
  match bytes_compare a b with Lt => true | _ => false end.
Definition bytes_leb (a b : bytes) : bool :=
  match bytes_compare a b with Gt => false | _ => true end.
Definition bytes_eqb (a b : bytes) : bool := bool_decide (a = b).

(** [string(b)] as a Rocq string, byte for byte. *)
Definition string_of_bytes (b : bytes) : string := String.string_of_list_byte b.
Definition bytes_of_string (s : string) : bytes := String.list_byte_of_string s.

(** ** Errors and outcomes

    Every [error] value the code creates or passes on.  [ErrEOF] and [ErrOS]
    stand for the errors of [os.File]; the wrapping constructors model
    [fmt.Errorf("...: %w", err)]. *)
Inductive error :=
  | ErrInsertPageType (t : N)
  | ErrGetPageType (t : N)
  | ErrPageFull
  | ErrInvalidSlot
  | ErrPageSize
  | ErrEOF
  | ErrOS
  | ErrNotInPool (id : N)
  | ErrPinZero (id : N)
  | ErrPoolFull
  | ErrLogSmall
  | ErrLogSizeMismatch
  | ErrLogChecksum
  | ErrLogCorruptSize
  | ErrFetch (id : N) (e : error)
  | ErrFetchWrite (id : N) (e : error)
  | ErrRedoFetch (id : N) (e : error)
  | ErrCheckpoint (e : error)
  | ErrInit (what : string) (e : error)
  | ErrChildZero
  | ErrKeyNotFound
  | ErrKeyDeleted
  | ErrWWActive (key : bytes) (txid : N)
  | ErrWWNewer (key : bytes) (txid : N).

#[global] Instance error_eq_dec : EqDecision error.
Proof. solve_decision. Defined.

(** [err.Error()]. *)
Fixpoint error_string (e : error) : string :=
  match e with
  | ErrInsertPageType t => "Cant perform Insert on page type : " +:+ pretty t
  | ErrGetPageType t => "Cant perform Get on page type : " +:+ pretty t
  | ErrPageFull => "page full"
  | ErrInvalidSlot => "invalid slot id"
  | ErrPageSize => "page data size is invalid"
  | ErrEOF => "EOF"
  | ErrOS => "input/output error"
  | ErrNotInPool id => "page " +:+ pretty id +:+ " is not in buffer pool"
  | ErrPinZero id => "page " +:+ pretty id +:+ " pin count is already 0"
  | ErrPoolFull => "buffer pool is full and all pages are pinned"
  | ErrLogSmall => "log record too small"
  | ErrLogSizeMismatch => "log record size mismatch"
  | ErrLogChecksum => "log record checksum mismatch (torn log detected)"
  | ErrLogCorruptSize => "corrupted log record size"
  | ErrFetch id e => "failed to fetch page " +:+ pretty id +:+ ": " +:+ error_string e
  | ErrFetchWrite id e =>
      "failed to fetch page for write " +:+ pretty id +:+ ": " +:+ error_string e
  | ErrRedoFetch id e =>
      "failed to fetch page " +:+ pretty id +:+ " during redo: " +:+ error_string e
  | ErrCheckpoint e => "failed to write checkpoint to WAL: " +:+ error_string e
  | ErrInit what e => what +:+ ": " +:+ error_string e
  | ErrChildZero => "database corrupted: child pointer is 0 (infinite loop prevented)"
  | ErrKeyNotFound => "key not found"
  | ErrKeyDeleted => "key not found (deleted)"
  | ErrWWActive key txid =>
      "write-write conflict: key " +:+ string_of_bytes key
        +:+ " is currently locked by active transaction " +:+ pretty txid
  | ErrWWNewer key txid =>
      "write-write conflict: key " +:+ string_of_bytes key
        +:+ " was modified by a newer committed transaction " +:+ pretty txid
  end.

(** How a Go call ends: it returns a value, it returns a non-nil error, it
    panics (index out of range, unlock of an unlocked mutex), or it never
    returns (it waits for a latch nobody else will release, or it loops). *)
Inductive outcome (A : Type) :=
  | Ok (a : A)
  | Err (e : error)
  | Panic
  | Hang.
Arguments Ok {A} a.
Arguments Err {A} e.
Arguments Panic {A}.
Arguments Hang {A}.

#[global] Instance outcome_eq_dec `{EqDecision A} : EqDecision (outcome A).
Proof. solve_decision. Defined.

#[global] Instance outcome_ret : MRet outcome := fun A a => Ok a.
#[global] Instance outcome_bind : MBind outcome := fun A B f m =>
  match m with
  | Ok a => f a
  | Err e => Err e
  | Panic => Panic
  | Hang => Hang
  end.

(** [v, _ := m()]: on error the value is the zero value [d]. *)
Definition or_zero {A} (d : A) (m : outcome A) : outcome A :=
  match m with
  | Err _ => Ok d
  | _ => m
  end.

Definition is_ok {A} (m : outcome A) : bool :=
  match m with Ok _ => true | _ => false end.

(** [mapM] over a list, left to right; the first failure wins. *)
Fixpoint omapM {A B} (f : A -> outcome B) (l : list A) : outcome (list B) :=
  match l with
  | [] => Ok []
  | x :: l' => y ← f x; ys ← omapM f l'; Ok (y :: ys)
  end.

(** ** Stateful code

    [M S A] is code that reads and writes a state [S].  An error is returned
    together with the state reached so far, as in Go. *)
Definition M (S A : Type) : Type := S -> outcome A * S.

#[global] Instance M_ret {S} : MRet (M S) := fun A a s => (Ok a, s).
#[global] Instance M_bind {S} : MBind (M S) := fun A B f m s =>
  match m s with
  | (Ok a, s') => f a s'
  | (Err e, s') => (Err e, s')
  | (Panic, s') => (Panic, s')
  | (Hang, s') => (Hang, s')
  end.

Definition throw {S A} (e : error) : M S A := fun s => (Err e, s).
Definition panic {S A} : M S A := fun s => (Panic, s).
Definition hang {S A} : M S A := fun s => (Hang, s).
Definition pure {S A} (m : outcome A) : M S A := fun s => (m, s).
Definition gets {S A} (f : S -> A) : M S A := fun s => (Ok (f s), s).
Definition modify {S} (f : S -> S) : M S unit := fun s => (Ok tt, f s).

(** [v, err := m()] where the caller looks at [err] itself. *)
Definition attempt {S A} (m : M S A) : M S (A + error) := fun s =>
  match m s with
  | (Ok a, s') => (Ok (inl a), s')
  | (Err e, s') => (Ok (inr e), s')
  | (Panic, s') => (Panic, s')
  | (Hang, s') => (Hang, s')
  end.

(** [m()] with its error dropped. *)
Definition ignore {S A} (m : M S A) : M S unit := _ ← attempt m; mret tt.

(** [defer d()] around the rest of the function, [m]; [d]'s error is dropped. *)
Definition deferring {S A B} (d : M S B) (m : M S A) : M S A := fun s =>
  match m s with
  | (Ok a, s') => (_ ← ignore d; mret a) s'
  | (Err e, s') => (_ ← ignore d; throw e) s'
  | r => r
  end.

(** Runs code on a part of the state. *)
Definition zoom {T S A} (get : T -> S) (put : S -> T -> T) (m : M S A) : M T A :=
  fun t => let (o, s') := m (get t) in (o, put s' t).

(** [for _, x := range l { f(x) }], stopping at the first error. *)
Fixpoint for_each {S A} (f : A -> M S unit) (l : list A) : M S unit :=
  match l with
  | [] => mret tt
  | x :: l' => _ ← f x; for_each f l'
  end.

(** ** Go slices

    A slice as the bytes it shows and the bytes of its backing array beyond
    them, which a slice expression may reach up to the capacity. *)
Record slice := Slice { sl_data : bytes; sl_rest : bytes }.

Definition slice_of (b : bytes) : slice := Slice b [].

(** [s[i]]. *)
Definition sl_index (s : slice) (i : N) : outcome byte :=
  match sl_data s !! N.to_nat i with
  | Some b => Ok b
  | None => Panic
  end.

(** [s[lo:hi]]: bounds are checked against the capacity. *)
Definition sl_cut (s : slice) (lo hi : N) : outcome slice :=
  let whole := sl_data s ++ sl_rest s in
  if (lo <=? hi) && (hi <=? len whole)
  then Ok (Slice (sub whole lo (hi - lo)) (drop (N.to_nat hi) whole))
  else Panic.

(** [binary.LittleEndian.Uint16(s[lo:lo+2])] and its like. *)
Definition sl_uint (s : slice) (lo w : N) : outcome N :=
  t ← sl_cut s lo (lo + w); Ok (le_dec (sl_data t)).

(** ** [sort.Slice]

    Go's insertion sort, the algorithm [sort.Slice] runs on at most 12
    elements.  On the lists this development sorts, whose keys are distinct,
    every sorting algorithm returns the same list ([sort_unique]).  The
    accumulator is the sorted prefix, reversed. *)
Fixpoint insert_back {A} (less : A -> A -> bool) (x : A) (acc : list A) : list A :=
  match acc with
  | [] => [x]
  | y :: acc' => if less x y then y :: insert_back less x acc' else x :: acc
  end.

Definition sort_slice {A} (less : A -> A -> bool) (l : list A) : list A :=
  rev (foldl (fun acc x => insert_back less x acc) [] l).

(** ** [for k, v := range m]

    Go leaves the iteration order of a map unspecified and lets it change
    from one loop to the next.  [map_range t m] is the order of the [t]-th
    loop; the development holds for every instance. *)
Class MapRange := {
  map_range : forall {V : Type}, nat -> gmap N V -> list (N * V);
  map_range_perm : forall (V : Type) t (m : gmap N V), map_range t m ≡ₚ map_to_list m
}.

(** The instance the examples run with. *)
#[refine] Definition canonical_range : MapRange :=
  {| map_range := fun V _ m => map_to_list m |}.
Proof. reflexivity. Defined.

(** * Lemmas *)

Create HintDb ryu.
Create Rewrite HintDb len.
#[export] Hint Constants Opaque : ryu.

(** [lia] with division and modulo by constants, which machine-width
    arithmetic needs everywhere: quotient and remainder become variables. *)
Lemma div_mod_facts (a b : N) : 0 < b -> a = b * (a / b) + a mod b /\ a mod b < b.
Proof. intros Hb. split; [apply N.Div0.div_mod | apply N.mod_lt; lia]. Qed.

Ltac gen_mod a b :=
  let H := fresh in
  assert (H := div_mod_facts a b eq_refl);
  let q := fresh "q" in let r := fresh "r" in
  set (q := N.div a b) in *; set (r := N.modulo a b) in *; clearbody q r;
  destruct H as (? & ?).
Ltac gen_mods :=
  repeat match goal with
         | |- context [N.modulo ?a (Npos ?b)] => gen_mod a (Npos b)
         | H : context [N.modulo ?a (Npos ?b)] |- _ => gen_mod a (Npos b)
         | |- context [N.div ?a (Npos ?b)] => gen_mod a (Npos b)
         | H : context [N.div ?a (Npos ?b)] |- _ => gen_mod a (Npos b)
         end.
Ltac Zify.zify_pre_hook ::= gen_mods.

(** Case analysis on the conditions of a definition, and arithmetic. *)
Ltac split_ifs :=
  repeat match goal with
         | |- context [if ?b then _ else _] => destruct b eqn:?
         | H : context [if ?b then _ else _] |- _ => destruct b eqn:?
         end.
Ltac bool_lia :=
  repeat match goal with
         | H : (_ && _)%bool = true |- _ => apply andb_true_iff in H as [? ?]
         | H : (_ || _)%bool = false |- _ => apply orb_false_iff in H as [? ?]
         | H : (_ <=? _) = true |- _ => apply N.leb_le in H
         | H : (_ <=? _) = false |- _ => apply N.leb_gt in H
         | H : (_ <? _) = true |- _ => apply N.ltb_lt in H
         | H : (_ <? _) = false |- _ => apply N.ltb_ge in H
         | H : (_ =? _) = true |- _ => apply N.eqb_eq in H
         | H : (_ =? _) = false |- _ => apply N.eqb_neq in H
         end.

(** ** Bytes *)

Lemma b2n_bound b : b2n b < 256.
Proof. pose proof (Byte.to_N_bounded b). unfold b2n. lia. Qed.

Lemma b2n_n2b n : b2n (n2b n) = n mod 256.
Proof.
  unfold b2n, n2b. destruct (Byte.of_N (n mod 256)) eqn:E; simpl.
  - by apply Byte.to_of_N.
  - apply Byte.of_N_None_iff in E. lia.
Qed.

Lemma n2b_b2n b : n2b (b2n b) = b.
Proof.
  unfold n2b. rewrite N.mod_small by apply b2n_bound.
  unfold b2n. by rewrite Byte.of_to_N.
Qed.

#[global] Instance b2n_inj : Inj (=) (=) b2n.
Proof. intros x y H. by rewrite <-(n2b_b2n x), H, n2b_b2n. Qed.

(** ** Lengths, sub-arrays and splices *)

Lemma len_nat {A} (l : list A) : N.to_nat (len l) = length l.
Proof. unfold len. lia. Qed.
Lemma len_nil {A} : len (@nil A) = 0.
Proof. done. Qed.
Lemma len_cons {A} (x : A) l : len (x :: l) = 1 + len l.
Proof. unfold len. simpl. lia. Qed.
Lemma len_app {A} (l k : list A) : len (l ++ k) = len l + len k.
Proof. unfold len. rewrite length_app. lia. Qed.
Lemma len_take {A} n (l : list A) : len (take n l) = N.min (N.of_nat n) (len l).
Proof. unfold len. rewrite length_take. lia. Qed.
Lemma len_drop {A} n (l : list A) : len (drop n l) = len l - N.of_nat n.
Proof. unfold len. rewrite length_drop. lia. Qed.
Lemma len_zeros n : len (zeros n) = n.
Proof. unfold len, zeros. rewrite length_replicate. lia. Qed.
Lemma len_fmap {A B} (f : A -> B) (l : list A) : len (f <$> l) = len l.
Proof. unfold len. by rewrite length_fmap. Qed.

Lemma len_sub {A} (l : list A) off n : off + n <= len l -> len (sub l off n) = n.
Proof. unfold sub. rewrite len_take, len_drop. lia. Qed.
Lemma len_splice {A} (l : list A) off d : len (splice l off d) = len l.
Proof.
  unfold splice. rewrite !len_app, !len_take, !len_drop. unfold len. lia.
Qed.

Lemma lookup_sub {A} (l : list A) off n i :
  sub l off n !! i = if decide (N.of_nat i < n) then l !! (N.to_nat off + i)%nat else None.
Proof.
  unfold sub. case_decide.
  - rewrite lookup_take_lt by lia. by rewrite lookup_drop.
  - apply lookup_take_ge. lia.
Qed.

Lemma lookup_splice {A} (l : list A) off d i :
  off + len d <= len l ->
  splice l off d !! i =
    if decide (N.to_nat off <= i < N.to_nat off + length d)%nat
    then d !! (i - N.to_nat off)%nat else l !! i.
Proof.
  unfold len. intros H. unfold splice.
  rewrite (take_ge d) by lia. case_decide.
  - rewrite lookup_app_r by (rewrite length_take; lia).
    rewrite lookup_app_l by (rewrite length_take; lia).
    f_equal. rewrite length_take. lia.
  - destruct (decide (i < N.to_nat off)%nat).
    + rewrite lookup_app_l by (rewrite length_take; lia). by rewrite lookup_take_lt by lia.
    + rewrite lookup_app_r by (rewrite length_take; lia).
      rewrite lookup_app_r by (rewrite length_take; lia).
      rewrite lookup_drop. f_equal. rewrite length_take. lia.
Qed.

Lemma sub_splice_eq {A} (l : list A) off d :
  off + len d <= len l -> sub (splice l off d) off (len d) = d.
Proof.
  intros H. apply list_eq. intros i. rewrite lookup_sub.
  case_decide as Hi.
  - rewrite lookup_splice by done. unfold len in *. case_decide; [f_equal|]; lia.
  - symmetry. apply lookup_ge_None. unfold len in *. lia.
Qed.

Lemma sub_splice_ne {A} (l : list A) off d off' n :
  off + len d <= len l -> off' + n <= off \/ off + len d <= off' ->
  sub (splice l off d) off' n = sub l off' n.
Proof.
  intros H Hd. apply list_eq. intros i. rewrite !lookup_sub.
  case_decide; [|done]. rewrite lookup_splice by done.
  unfold len in *. case_decide; [lia|done].
Qed.

Lemma sub_app_r {A} (l k : list A) off n :
  len l <= off -> sub (l ++ k) off n = sub k (off - len l) n.
Proof.
  unfold sub, len. intros H. rewrite drop_app, (drop_ge l) by lia.
  simpl. do 2 f_equal. lia.
Qed.

Lemma sub_app_l {A} (l k : list A) off n :
  off + n <= len l -> sub (l ++ k) off n = sub l off n.
Proof.
  unfold sub, len. intros H. rewrite drop_app_le by lia.
  apply take_app_le. rewrite length_drop. lia.
Qed.

Lemma sub_all {A} (l : list A) n : n = len l -> sub l 0 n = l.
Proof. intros ->. unfold sub, len. apply take_ge. simpl. lia. Qed.

Lemma sub_sub {A} (l : list A) off n off' n' :
  off' + n' <= n -> sub (sub l off n) off' n' = sub l (off + off') n'.
Proof.
  intros H. apply list_eq. intros i. rewrite !lookup_sub.
  repeat case_decide; try done; try lia. f_equal. lia.
Qed.

Lemma take_sub {A} (l : list A) n : take n l = sub l 0 (N.of_nat n).
Proof. unfold sub. by rewrite Nat2N.id. Qed.

Lemma splice_app {A} (l k : list A) off d :
  off + len d <= len l -> splice (l ++ k) off d = splice l off d ++ k.
Proof.
  unfold splice, len. intros H. rewrite length_app.
  rewrite take_app_le by lia. rewrite (take_ge d) by lia. rewrite (take_ge d) by lia.
  rewrite drop_app_le by lia. by rewrite <-!(assoc_L (++)).
Qed.

#[export] Hint Rewrite @len_nil @len_cons @len_app @len_take @len_drop @len_zeros
  @len_splice @len_fmap @len_nat : len.
Ltac len := autorewrite with len in *; try lia.

(** Filling a zeroed buffer from the front. *)
Lemma splice_zeros off a n d :
  off = len a -> len d <= n ->
  splice (a ++ zeros n) off d = (a ++ d) ++ zeros (n - len d).
Proof.
  intros -> H. unfold splice. rewrite len_nat, length_app.
  rewrite take_app_length, drop_app_add.
  rewrite (take_ge d).
  2: { unfold len in H. unfold zeros. rewrite length_replicate. lia. }
  rewrite (assoc_L (++)). f_equal. unfold zeros. rewrite drop_replicate. f_equal.
  unfold len. lia.
Qed.

Lemma splice_zeros_0 n d : len d <= n -> splice (zeros n) 0 d = d ++ zeros (n - len d).
Proof. apply (splice_zeros 0 []). done. Qed.

(** ** Integer encodings *)

Lemma len_le_enc w n : len (le_enc w n) = N.of_nat w.
Proof. revert n; induction w; intros n; simpl; [done|]. rewrite len_cons, IHw. lia. Qed.
Lemma len_be_enc w n : len (be_enc w n) = N.of_nat w.
Proof. unfold be_enc, len. rewrite length_rev. apply len_le_enc. Qed.
#[export] Hint Rewrite len_le_enc len_be_enc : len.

Lemma le_dec_enc w n : le_dec (le_enc w n) = n mod 256 ^ N.of_nat w.
Proof.
  revert n; induction w as [|w IH]; intros n.
  - simpl. by rewrite N.mod_1_r.
  - simpl. rewrite IH, b2n_n2b.
    replace (N.of_nat (S w)) with (N.succ (N.of_nat w)) by lia.
    rewrite N.pow_succ_r', N.Div0.mod_mul_r. lia.
Qed.

Lemma le_dec_bound l : le_dec l < 256 ^ len l.
Proof.
  induction l as [|b l IH]; simpl; [done|].
  rewrite len_cons, N.pow_add_r. change (256 ^ 1) with 256.
  pose proof (b2n_bound b). generalize dependent (256 ^ len l). lia.
Qed.

Lemma le_enc_dec l w : length l = w -> le_enc w (le_dec l) = l.
Proof.
  intros <-. induction l as [|b l IH]; simpl; [done|].
  pose proof (b2n_bound b). f_equal.
  - apply (inj b2n). rewrite b2n_n2b. lia.
  - by replace ((b2n b + 256 * le_dec l) / 256) with (le_dec l) by lia.
Qed.

Lemma le_dec_inj l k : length l = length k -> le_dec l = le_dec k -> l = k.
Proof.
  intros Hl H. rewrite <-(le_enc_dec l _ eq_refl), <-(le_enc_dec k _ eq_refl). congruence.
Qed.

Lemma be_dec_enc w n : be_dec (be_enc w n) = n mod 256 ^ N.of_nat w.
Proof. unfold be_dec, be_enc. rewrite rev_involutive. apply le_dec_enc. Qed.

(** The same at the widths the code uses. *)
Lemma le_dec_enc_small w n : n < 256 ^ N.of_nat w -> le_dec (le_enc w n) = n.
Proof. intros H. rewrite le_dec_enc. by apply N.mod_small. Qed.

(** ** The order of keys *)

Definition bytes_lt (a b : bytes) : Prop := bytes_compare a b = Lt.

Lemma bytes_compare_refl a : bytes_compare a a = Eq.
Proof. induction a; simpl; [done|]. by rewrite N.compare_refl. Qed.

Lemma bytes_compare_eq a b : bytes_compare a b = Eq <-> a = b.
Proof.
  split; [|intros ->; apply bytes_compare_refl].
  revert b; induction a as [|x a IH]; intros [|y b]; simpl; try done.
  destruct (N.compare_spec (b2n x) (b2n y)) as [E|E|E]; try done.
  intros H. f_equal; [by apply (inj b2n) | by apply IH].
Qed.

Lemma bytes_compare_antisym a b : bytes_compare b a = CompOpp (bytes_compare a b).
Proof.
  revert b; induction a as [|x a IH]; intros [|y b]; simpl; try done.
  rewrite N.compare_antisym. destruct (N.compare (b2n x) (b2n y)); simpl; auto.
Qed.

#[global] Instance bytes_lt_trans : Transitive bytes_lt.
Proof.
  unfold bytes_lt. intros a. induction a as [|x a IH]; intros [|y b] [|z c]; simpl; try done.
  destruct (N.compare_spec (b2n x) (b2n y)), (N.compare_spec (b2n y) (b2n z)),
    (N.compare_spec (b2n x) (b2n z)); try done; try lia. apply IH.
Qed.

#[global] Instance bytes_lt_irrefl : Irreflexive bytes_lt.
Proof. intros a H. unfold bytes_lt in H. by rewrite bytes_compare_refl in H. Qed.

#[global] Instance bytes_lt_strict : StrictOrder bytes_lt := {}.

#[global] Instance bytes_lt_trichotomy : Trichotomy bytes_lt.
Proof.
  intros a b. unfold strict, bytes_lt. rewrite (bytes_compare_antisym a b).
  destruct (bytes_compare a b) eqn:E; simpl; auto.
  right; left. by apply bytes_compare_eq.
Qed.

#[global] Instance bytes_lt_dec : RelDecision bytes_lt.
Proof. intros a b. unfold bytes_lt. apply _. Defined.

Lemma bytes_ltb_lt a b : bytes_ltb a b = true <-> bytes_lt a b.
Proof. unfold bytes_ltb, bytes_lt. by destruct (bytes_compare a b). Qed.

Lemma bytes_ltb_ge a b : bytes_ltb a b = false <-> a = b \/ bytes_lt b a.
Proof.
  unfold bytes_ltb, bytes_lt. rewrite (bytes_compare_antisym a b), <-bytes_compare_eq.
  destruct (bytes_compare a b); simpl; intuition congruence.
Qed.

Lemma bytes_leb_le a b : bytes_leb a b = true <-> a = b \/ bytes_lt a b.
Proof.
  unfold bytes_leb, bytes_lt. rewrite <-bytes_compare_eq.
  destruct (bytes_compare a b); intuition congruence.
Qed.

Lemma bytes_eqb_eq a b : bytes_eqb a b = true <-> a = b.
Proof. unfold bytes_eqb. apply bool_decide_eq_true. Qed.
Lemma bytes_eqb_refl a : bytes_eqb a a = true.
Proof. by apply bytes_eqb_eq. Qed.
Lemma bytes_eqb_ne a b : bytes_eqb a b = false <-> a <> b.
Proof. unfold bytes_eqb. apply bool_decide_eq_false. Qed.

Lemma bytes_compare_app p a b : bytes_compare (p ++ a) (p ++ b) = bytes_compare a b.
Proof. induction p; simpl; [done|]. by rewrite N.compare_refl. Qed.

(** Big-endian encodings of the same width compare as the numbers do: this is
    why version keys sort by transaction id. *)
Lemma le_enc_snoc w n :
  le_enc (S w) n = le_enc w n ++ [n2b (n / 256 ^ N.of_nat w)].
Proof.
  revert n; induction w as [|w IH]; intros n.
  - simpl. by rewrite N.div_1_r.
  - change (le_enc (S (S w)) n) with (n2b n :: le_enc (S w) (n / 256)).
    rewrite IH, N.Div0.div_div.
    replace (N.of_nat (S w)) with (N.succ (N.of_nat w)) by lia.
    by rewrite N.pow_succ_r'.
Qed.

Lemma be_enc_S w n :
  be_enc (S w) n = n2b (n / 256 ^ N.of_nat w) :: be_enc w (n mod 256 ^ N.of_nat w).
Proof.
  unfold be_enc. rewrite le_enc_snoc, rev_app_distr. simpl. f_equal. f_equal.
  revert n; induction w as [|w IH]; intros n; [done|].
  rewrite Nat2N.inj_succ, N.pow_succ_r'. simpl.
  rewrite N.Div0.mod_mul_r. f_equal.
  - apply (inj b2n). rewrite !b2n_n2b. generalize ((n / 256) mod 256 ^ N.of_nat w). lia.
  - rewrite IH. symmetry. rewrite IH. f_equal.
    rewrite (N.add_comm (n mod 256)), N.mul_comm, N.div_add_l by done.
    rewrite (N.div_small (n mod 256)) by (apply N.mod_lt; done).
    rewrite N.add_0_r. apply N.Div0.mod_mod.
Qed.

Lemma bytes_compare_be w a b :
  a < 256 ^ N.of_nat w -> b < 256 ^ N.of_nat w ->
  bytes_compare (be_enc w a) (be_enc w b) = N.compare a b.
Proof.
  revert a b; induction w as [|w IH]; intros a b.
  - simpl. intros Ha Hb. replace a with 0 by lia. by replace b with 0 by lia.
  - rewrite Nat2N.inj_succ, N.pow_succ_r', !be_enc_S.
    set (P := 256 ^ N.of_nat w) in *. intros Ha Hb.
    assert (HP : P <> 0) by (apply N.pow_nonzero; done).
    simpl. rewrite !b2n_n2b.
    assert (Ha' : a / P < 256) by (apply N.Div0.div_lt_upper_bound; lia).
    assert (Hb' : b / P < 256) by (apply N.Div0.div_lt_upper_bound; lia).
    rewrite !(N.mod_small (_ / P)) by done.
    rewrite IH by (apply N.mod_lt; done).
    pose proof (N.Div0.div_mod a P) as Ea. pose proof (N.Div0.div_mod b P) as Eb.
    pose proof (N.mod_lt a P HP). pose proof (N.mod_lt b P HP).
    revert Ea Eb. generalize dependent (a mod P). generalize dependent (b mod P).
    clear Ha' Hb'. generalize (a / P) (b / P). clear IH. clearbody P.
    intros qa qb rb Hrb ra Hra Ea Eb.
    destruct (N.compare_spec qa qb) as [E|E|E].
    + subst qa. destruct (N.compare_spec ra rb), (N.compare_spec a b); try done; lia.
    + symmetry. apply N.compare_lt_iff. nia.
    + symmetry. apply N.compare_gt_iff. nia.
Qed.

(** ** Sorting *)

Lemma StronglySorted_snoc {A} (R : relation A) l x :
  StronglySorted R l -> Forall (fun y => R y x) l -> StronglySorted R (l ++ [x]).
Proof.
  induction 1 as [|y l Hl IH Hy]; intros Hx; simpl; [repeat constructor|].
  apply Forall_cons in Hx as [Hyx Hx]. constructor; [by apply IH|].
  apply Forall_app; split; [done|]. by constructor.
Qed.

Lemma StronglySorted_rev {A} (R : relation A) l :
  StronglySorted R l -> StronglySorted (flip R) (rev l).
Proof.
  induction 1 as [|y l Hl IH Hy]; simpl; [constructor|].
  apply StronglySorted_snoc; [done|].
  apply Forall_rev. exact Hy.
Qed.

Lemma StronglySorted_app_intro {A} (R : relation A) l k :
  StronglySorted R l -> StronglySorted R k ->
  (forall x y, x ∈ l -> y ∈ k -> R x y) -> StronglySorted R (l ++ k).
Proof.
  induction 1 as [|x l Hl IH Hx]; intros Hk HR; simpl; [done|].
  constructor; [apply IH; [done|]; intros; apply HR; [by right|done]|].
  apply Forall_app; split; [done|]. apply Forall_forall. intros y Hy.
  apply HR; [constructor|done].
Qed.

Section sort.
Context {A : Type} (less : A -> A -> bool).

Lemma insert_back_perm x acc : insert_back less x acc ≡ₚ x :: acc.
Proof.
  induction acc as [|y acc IH]; simpl; [done|].
  destruct (less x y); [|done]. rewrite IH. apply Permutation_swap.
Qed.

Lemma sort_slice_perm l : sort_slice less l ≡ₚ l.
Proof.
  assert (H : forall acc, foldl (fun acc x => insert_back less x acc) acc l ≡ₚ acc ++ l).
  { induction l as [|x l IH]; intros acc; simpl; [by rewrite app_nil_r|].
    rewrite IH, insert_back_perm. simpl. apply Permutation_middle. }
  unfold sort_slice. rewrite <-Permutation_rev. apply H.
Qed.

Context (less_asym : forall x y, less x y = true -> less y x = false)
        (less_trans : forall x y z, less x y = false -> less y z = false -> less x z = false).

Lemma insert_back_sorted x acc :
  StronglySorted (fun a b => less a b = false) acc ->
  StronglySorted (fun a b => less a b = false) (insert_back less x acc).
Proof.
  induction 1 as [|y acc Hl IH Hy]; simpl; [repeat constructor|].
  destruct (less x y) eqn:E.
  - constructor; [done|]. rewrite (insert_back_perm x acc).
    constructor; [by apply less_asym|done].
  - constructor; [by constructor|]. constructor; [done|].
    eapply Forall_impl; [exact Hy|]. intros z Hz. by eapply less_trans.
Qed.

Lemma sort_slice_sorted l :
  StronglySorted (fun a b => less b a = false) (sort_slice less l).
Proof.
  unfold sort_slice. apply (StronglySorted_rev (fun a b => less a b = false)).
  assert (H : forall acc, StronglySorted (fun a b => less a b = false) acc ->
    StronglySorted (fun a b => less a b = false)
      (foldl (fun acc x => insert_back less x acc) acc l)).
  { induction l as [|x l IH]; intros acc Hacc; simpl; [done|].
    by apply IH, insert_back_sorted. }
  apply H. constructor.
Qed.
End sort.

(** Sorting commutes with a map that the order factors through. *)
Lemma sort_slice_fmap {A B} (f : A -> B) (less : B -> B -> bool) (l : list A) :
  sort_slice less (f <$> l) = f <$> sort_slice (fun a b => less (f a) (f b)) l.
Proof.
  assert (Hins : forall x acc, insert_back less (f x) (f <$> acc)
    = f <$> insert_back (fun a b => less (f a) (f b)) x acc).
  { intros x acc. induction acc as [|y acc IH]; simpl; [done|].
    destruct (less (f x) (f y)); simpl; [|done]. f_equal. exact IH. }
  assert (Hfold : forall acc, foldl (fun acc x => insert_back less x acc) (f <$> acc) (f <$> l)
    = f <$> foldl (fun acc x => insert_back (fun a b => less (f a) (f b)) x acc) acc l).
  { induction l as [|x l IH]; intros acc; [done|]. rewrite fmap_cons. cbn [foldl].
    by rewrite Hins, IH. }
  unfold sort_slice. specialize (Hfold []). cbn [fmap list_fmap] in Hfold. rewrite Hfold.
  symmetry. apply (map_rev f).
Qed.

(** Lists with strictly increasing keys are determined by their elements, so
    the choice of sorting algorithm is immaterial on distinct keys. *)
Lemma sort_unique {A} (key : A -> bytes) l k :
  StronglySorted (fun a b => bytes_lt (key a) (key b)) l ->
  StronglySorted (fun a b => bytes_lt (key a) (key b)) k ->
  l ≡ₚ k -> l = k.
Proof.
  apply StronglySorted_unique_strong. intros x y _ _ H1 H2.
  exfalso. apply (irreflexivity bytes_lt (key x)). by trans (key y).
Qed.

Section key_sort.
Context {A : Type} (key : A -> bytes).
Let less (a b : A) : bool := bytes_ltb (key a) (key b).

Lemma key_less_asym x y : less x y = true -> less y x = false.
Proof.
  unfold less. rewrite bytes_ltb_lt, bytes_ltb_ge. auto.
Qed.

Lemma key_less_trans x y z : less x y = false -> less y z = false -> less x z = false.
Proof.
  unfold less. rewrite !bytes_ltb_ge. intros [->|H1] [E2|H2].
  - by left.
  - by right.
  - right. by rewrite <-E2.
  - right. by trans (key y).
Qed.

Lemma key_sort_sorted l :
  NoDup (key <$> l) ->
  StronglySorted (fun a b => bytes_lt (key a) (key b)) (sort_slice less l).
Proof.
  intros Hnd. pose proof (sort_slice_sorted less key_less_asym key_less_trans l) as Hs.
  rewrite <-(sort_slice_perm less l) in Hnd.
  revert Hs Hnd. generalize (sort_slice less l) as k. clear l.
  induction 1 as [|x l Hl IH Hx]; simpl; intros Hnd; [constructor|].
  apply NoDup_cons in Hnd as [Hni Hnd].
  constructor; [by apply IH|]. rewrite Forall_forall in *. intros y Hy.
  specialize (Hx y Hy). unfold less in Hx. apply bytes_ltb_ge in Hx as [E|?]; [|done].
  destruct Hni. rewrite <-E. by apply list_elem_of_fmap_2.
Qed.
End key_sort.

Lemma sorted_keys_nodup {A} (key : A -> bytes) l :
  StronglySorted (fun a b => bytes_lt (key a) (key b)) l -> NoDup (key <$> l).
Proof.
  induction 1 as [|x l Hl IH Hx]; simpl; constructor; [|done].
  intros (y & E & Hy)%list_elem_of_fmap. rewrite Forall_forall in Hx.
  apply (irreflexivity bytes_lt (key x)). rewrite E at 2. by apply Hx.
Qed.

(** ** Outcomes and stateful code *)

Lemma omapM_ok {A B} (f : A -> outcome B) l ys :
  omapM f l = Ok ys <-> Forall2 (fun x y => f x = Ok y) l ys.
Proof.
  revert ys; induction l as [|x l IH]; intros ys; simpl.
  - split; [intros [= <-]; constructor | by inversion 1].
  - split.
    + destruct (f x) eqn:Ef; simpl; try done.
      destruct (omapM f l) eqn:Er; simpl; try done. intros [= <-].
      constructor; [done|]. by apply IH.
    + inversion 1 as [|? y ? ys' Hy Hys]; subst. simpl. rewrite Hy. simpl.
      apply IH in Hys. by rewrite Hys.
Qed.

Lemma omapM_fmap {A B} (f : A -> outcome B) (g : A -> B) l :
  Forall (fun x => f x = Ok (g x)) l -> omapM f l = Ok (g <$> l).
Proof. intros H. apply omapM_ok. induction H; simpl; constructor; auto. Qed.

(** The result of a bind whose first part is known. *)
Lemma bind_ok {S A B} (m : M S A) (k : A -> M S B) s a s' :
  m s = (Ok a, s') -> (m ≫= k) s = k a s'.
Proof. unfold mbind, M_bind. by intros ->. Qed.
Lemma bind_err {S A B} (m : M S A) (k : A -> M S B) s e s' :
  m s = (Err e, s') -> (m ≫= k) s = (Err e, s').
Proof. unfold mbind, M_bind. by intros ->. Qed.

Lemma bind_ok_inv {S A B} (m : M S A) (k : A -> M S B) s b s' :
  (m ≫= k) s = (Ok b, s') -> exists a s1, m s = (Ok a, s1) /\ k a s1 = (Ok b, s').
Proof.
  unfold mbind, M_bind. destruct (m s) as [[a|e| |] s1]; try done. intros H.
  by exists a, s1.
Qed.

Lemma attempt_ok {S A} (m : M S A) s a s' :
  m s = (Ok a, s') -> attempt m s = (Ok (inl a), s').
Proof. unfold attempt. by intros ->. Qed.
Lemma attempt_err {S A} (m : M S A) s e s' :
  m s = (Err e, s') -> attempt m s = (Ok (inr e), s').
Proof. unfold attempt. by intros ->. Qed.

(** Runs the first step of a bind, given an equation for it. *)
Ltac mstep H := rewrite (bind_ok _ _ _ _ _ H); cbv beta iota.

(** ** Slices and map iteration *)

Lemma sl_cut_ok s lo hi :
  lo <= hi -> hi <= len (sl_data s) + len (sl_rest s) ->
  sl_cut s lo hi = Ok (Slice (sub (sl_data s ++ sl_rest s) lo (hi - lo))
                             (drop (N.to_nat hi) (sl_data s ++ sl_rest s))).
Proof.
  intros H1 H2. unfold sl_cut. rewrite len_app.
  by rewrite (proj2 (N.leb_le _ _) H1), (proj2 (N.leb_le _ _) H2).
Qed.

Lemma sl_cut_panic s lo hi :
  hi < lo \/ len (sl_data s) + len (sl_rest s) < hi -> sl_cut s lo hi = Panic.
Proof.
  intros H. unfold sl_cut. rewrite len_app.
  destruct (lo <=? hi) eqn:E1, (hi <=? _) eqn:E2; try done. bool_lia. lia.
Qed.

Section map_range.
Context `{MapRange} {V : Type}.
Implicit Types m : gmap N V.

Lemma elem_of_map_range t m k v : (k, v) ∈ map_range t m <-> m !! k = Some v.
Proof. rewrite map_range_perm. apply elem_of_map_to_list. Qed.

Lemma map_range_nodup t m : NoDup (map_range t m).*1.
Proof. rewrite map_range_perm. apply NoDup_fst_map_to_list. Qed.

Lemma length_map_range t m : length (map_range t m) = size m.
Proof. rewrite map_range_perm. apply length_map_to_list. Qed.
End map_range.
