(* ===== verification/Crc.v ===== *)
(** * CRC-32

    [crc32.ChecksumIEEE], which guards pages ([page.go]) and log records
    ([wal.go]): the reflected CRC with polynomial 0xEDB88320, bit by bit, and
    the fact that it detects every corruption of a single byte. *)

From S2P Require Import Prelude.

Definition crc_poly : N := 0xEDB88320.

(** One bit of the reflected division. *)
Definition crc_bit (c : N) : N :=
  if N.odd c then N.lxor (N.div2 c) crc_poly else N.div2 c.

(** One byte: eight bits of [c xor b]. *)
Definition crc_byte (c : N) (b : byte) : N :=
  crc_bit (crc_bit (crc_bit (crc_bit
    (crc_bit (crc_bit (crc_bit (crc_bit (N.lxor c (b2n b))))))))).

Definition crc_update (c : N) (data : bytes) : N := foldl crc_byte c data.

(** [crc32.ChecksumIEEE(data)]. *)
Definition crc32 (data : bytes) : N :=
  N.lxor (crc_update 0xFFFFFFFF data) 0xFFFFFFFF.

(** ** Width *)

Definition w32 (n : N) : Prop := forall i, 32 <= i -> N.testbit n i = false.

Lemma w32_iff n : w32 n <-> n < 4294967296.
Proof.
  split.
  - intros H. destruct (decide (n = 0)) as [->|Hn]; [done|].
    change 4294967296 with (2 ^ 32). apply N.log2_lt_pow2; [lia|].
    destruct (decide (N.log2 n < 32)) as [?|Hge]; [done|].
    specialize (H (N.log2 n)). rewrite N.bit_log2 in H by done.
    discriminate H. lia.
  - intros H i Hi. destruct (decide (n = 0)) as [->|Hn]; [apply N.bits_0|].
    apply N.bits_above_log2. apply N.log2_lt_pow2; [lia|].
    apply N.lt_le_trans with (2 ^ 32); [done|]. by apply N.pow_le_mono_r.
Qed.

Lemma w32_lxor a b : w32 a -> w32 b -> w32 (N.lxor a b).
Proof. intros Ha Hb i Hi. by rewrite N.lxor_spec, Ha, Hb. Qed.

Lemma w32_div2 a : w32 a -> w32 (N.div2 a).
Proof. intros Ha i Hi. rewrite N.div2_spec, N.shiftr_spec'. apply Ha. lia. Qed.

Lemma w32_byte b : w32 (b2n b).
Proof. apply w32_iff. pose proof (b2n_bound b). lia. Qed.

Lemma w32_poly : w32 crc_poly.
Proof. by apply w32_iff. Qed.

Lemma w32_ones : w32 0xFFFFFFFF.
Proof. by apply w32_iff. Qed.

Lemma w32_bit c : w32 c -> w32 (crc_bit c).
Proof.
  intros H. unfold crc_bit.
  destruct (N.odd c); auto using w32_lxor, w32_div2, w32_poly.
Qed.

#[export] Hint Resolve w32_lxor w32_div2 w32_byte w32_poly w32_ones w32_bit : ryu.

Lemma w32_crc_byte c b : w32 c -> w32 (crc_byte c b).
Proof. intros H. unfold crc_byte. auto 20 with ryu. Qed.

Lemma w32_update data c : w32 c -> w32 (crc_update c data).
Proof.
  revert c; induction data as [|b data IH]; intros c Hc; simpl; [done|].
  by apply IH, w32_crc_byte.
Qed.

Lemma crc32_bound data : crc32 data < 4294967296.
Proof. apply w32_iff. unfold crc32. apply w32_lxor; auto using w32_update with ryu. Qed.

(** ** Injectivity *)

Lemma lxor_inj_r a b c : N.lxor a b = N.lxor a c -> b = c.
Proof.
  intros H. rewrite <-(N.lxor_0_l b), <-(N.lxor_0_l c), <-(N.lxor_nilpotent a).
  by rewrite !N.lxor_assoc, H.
Qed.

Lemma lxor_inj_l a b c : N.lxor b a = N.lxor c a -> b = c.
Proof. rewrite !(N.lxor_comm _ a). apply lxor_inj_r. Qed.

Lemma div2_odd_inj c d : N.div2 c = N.div2 d -> N.odd c = N.odd d -> c = d.
Proof.
  intros H1 H2. rewrite (N.div2_odd c), (N.div2_odd d). by rewrite H1, H2.
Qed.

(** The top bit of the polynomial tells the two cases of a step apart. *)
Lemma crc_bit_inj c d : w32 c -> w32 d -> crc_bit c = crc_bit d -> c = d.
Proof.
  intros Hc Hd. unfold crc_bit.
  assert (top : forall x, w32 x -> N.testbit (N.div2 x) 31 = false).
  { intros x Hx. rewrite N.div2_spec, N.shiftr_spec'. by apply Hx. }
  assert (Htop : N.testbit crc_poly 31 = true) by done.
  destruct (N.odd c) eqn:Ec, (N.odd d) eqn:Ed; intros H.
  - apply lxor_inj_l in H. apply div2_odd_inj; congruence.
  - apply (f_equal (fun n => N.testbit n 31)) in H.
    by rewrite N.lxor_spec, Htop, !top in H.
  - apply (f_equal (fun n => N.testbit n 31)) in H.
    by rewrite N.lxor_spec, Htop, !top in H.
  - apply div2_odd_inj; congruence.
Qed.

Lemma crc_byte_lxor_inj c d x y :
  w32 c -> w32 d -> crc_byte c x = crc_byte d y ->
  N.lxor c (b2n x) = N.lxor d (b2n y).
Proof.
  unfold crc_byte. intros Hc Hd H.
  do 8 (apply crc_bit_inj in H; [|auto 20 with ryu..]). exact H.
Qed.

Lemma crc_update_inj data c d :
  w32 c -> w32 d -> crc_update c data = crc_update d data -> c = d.
Proof.
  revert c d; induction data as [|b data IH]; intros c d Hc Hd H; simpl in H; [done|].
  apply IH in H; [|by apply w32_crc_byte..].
  apply crc_byte_lxor_inj in H; [|done..]. by apply lxor_inj_l in H.
Qed.

(** Two inputs that differ in exactly one byte have different checksums. *)
Lemma crc32_detects pre x y post :
  x <> y -> crc32 (pre ++ x :: post) <> crc32 (pre ++ y :: post).
Proof.
  intros Hxy H. apply Hxy. unfold crc32 in H. apply lxor_inj_l in H.
  unfold crc_update in H. rewrite !foldl_app in H. simpl in H.
  assert (Hw : w32 (foldl crc_byte 0xFFFFFFFF pre))
    by (apply (w32_update pre); auto with ryu).
  apply (crc_update_inj post) in H; [|by apply w32_crc_byte..].
  apply crc_byte_lxor_inj in H; [|done..].
  apply lxor_inj_r in H. by apply (inj b2n).
Qed.

(** The check value of the CRC catalogue. *)
Example crc32_check : crc32 (bytes_of_string "123456789") = 0xCBF43926.
Proof. reflexivity. Qed.
