(* ===== verification/Cell.v ===== *)
(** * Cells ([internal/storage/cell.go])

    The two kinds of cell a slotted page stores: key cells of internal nodes
    and key-value cells of leaves, their wire formats, and the decoders, whose
    offsets are computed in [uint16] as in the source. *)

From S2P Require Import Prelude.

Record KeyCell := mkKeyCell { kcKey : bytes; kcChild : N }.
Record KVCell := mkKVCell { kvKey : bytes; kvValue : bytes; kvFlag : N }.

#[global] Instance KeyCell_eq_dec : EqDecision KeyCell.
Proof. solve_decision. Defined.
#[global] Instance KVCell_eq_dec : EqDecision KVCell.
Proof. solve_decision. Defined.

Definition KEY_DELETED_FLAG : N := N.shiftl 1 1.
Definition KEY_OVERFLOW_FLAG : N := N.shiftl 1 2.

Definition NewKeyCell (pageID : N) (key : bytes) : KeyCell := mkKeyCell key pageID.
Definition NewKVCell (flag : N) (key value : bytes) : KVCell := mkKVCell key value flag.

(** [KeyCell] layout: child page id (4), key length (2), key. *)
Definition KeyCell_Size (k : KeyCell) : N := 4 + 2 + len (kcKey k).

Definition KeyCell_Serialize (k : KeyCell) : bytes :=
  let buf := zeros (KeyCell_Size k) in
  let buf := splice buf 0 (le_enc 4 (kcChild k)) in
  let buf := splice buf 4 (le_enc 2 (u16 (len (kcKey k)))) in
  splice buf 6 (kcKey k).

Definition DeserializeKeyCell (data : slice) : outcome KeyCell :=
  child ← sl_uint data 0 4;
  keyLen ← sl_uint data 4 2;
  key ← sl_cut data 6 (u16 (6 + keyLen));
  Ok (mkKeyCell (sl_data key) child).

(** [KVCell] layout: flag (1), key length (2), value length (2), key, value. *)
Definition KVCell_Size (k : KVCell) : N := 1 + 2 + 2 + len (kvKey k) + len (kvValue k).

Definition KVCell_Serialize (k : KVCell) : bytes :=
  let buf := zeros (KVCell_Size k) in
  let buf := splice buf 0 [n2b (kvFlag k)] in
  let buf := splice buf 1 (le_enc 2 (u16 (len (kvKey k)))) in
  let buf := splice buf 3 (le_enc 2 (u16 (len (kvValue k)))) in
  let buf := splice buf 5 (kvKey k) in
  splice buf (5 + len (kvKey k)) (kvValue k).

(** The cell and its [Value] field as the slice of [data] it is: slicing it
    further may reach the bytes that follow it in [data]. *)
Definition decode_kv (data : slice) : outcome (KVCell * slice) :=
  flag ← sl_index data 0;
  keyLen ← sl_uint data 1 2;
  valLen ← sl_uint data 3 2;
  key ← sl_cut data 5 (u16 (5 + keyLen));
  value ← sl_cut data (u16 (5 + keyLen)) (u16 (5 + keyLen + valLen));
  Ok (mkKVCell (sl_data key) (sl_data value) (b2n flag), value).

Definition DeserializeKVCell (data : slice) : outcome KVCell :=
  r ← decode_kv data; Ok r.1.

Definition IsDeleted (k : KVCell) : bool := negb (N.land (kvFlag k) KEY_DELETED_FLAG =? 0).
Definition IsOverflow (k : KVCell) : bool := negb (N.land (kvFlag k) KEY_OVERFLOW_FLAG =? 0).
Definition SetDeleted (k : KVCell) : KVCell :=
  mkKVCell (kvKey k) (kvValue k) (N.lor (kvFlag k) KEY_DELETED_FLAG).
Definition SetOverflow (k : KVCell) : KVCell :=
  mkKVCell (kvKey k) (kvValue k) (N.lor (kvFlag k) KEY_OVERFLOW_FLAG).

(** ** The contract of a wire format

    What the page and tree code relies on: a value within the format's bounds
    is read back from its encoding, whatever bytes follow it in the page. *)
Class Codec (A : Type) := {
  encode : A -> bytes;
  decode : slice -> outcome A;
  encodable : A -> Prop;
  decode_encode : forall a rest, encodable a -> decode (Slice (encode a) rest) = Ok a
}.

(** Cells whose lengths and offsets fit their [uint16] fields. *)
Definition key_fits (k : KeyCell) : Prop := KeyCell_Size k < 65536 /\ kcChild k < 4294967296.
Definition kv_fits (k : KVCell) : Prop := KVCell_Size k < 65536 /\ kvFlag k < 256.

(** ** Encodings as concatenations *)

Definition key_image (k : KeyCell) : bytes :=
  le_enc 4 (kcChild k) ++ le_enc 2 (u16 (len (kcKey k))) ++ kcKey k.

Definition kv_image (k : KVCell) : bytes :=
  n2b (kvFlag k) :: le_enc 2 (u16 (len (kvKey k))) ++ le_enc 2 (u16 (len (kvValue k)))
    ++ kvKey k ++ kvValue k.

Lemma KeyCell_Serialize_image k : KeyCell_Serialize k = key_image k.
Proof.
  unfold KeyCell_Serialize, KeyCell_Size, key_image.
  rewrite splice_zeros_0, !splice_zeros by len.
  replace (_ - _ - _ - _) with 0 by len.
  change (zeros 0) with (@nil byte). by rewrite app_nil_r, <-(assoc_L (++)).
Qed.

Lemma KVCell_Serialize_image k : KVCell_Serialize k = kv_image k.
Proof.
  unfold KVCell_Serialize, KVCell_Size, kv_image.
  rewrite splice_zeros_0, !splice_zeros by len.
  replace (_ - _ - _ - _ - _ - _) with 0 by len.
  change (zeros 0) with (@nil byte). by rewrite app_nil_r, <-!(assoc_L (++)).
Qed.

Lemma len_key_serialize k : len (KeyCell_Serialize k) = KeyCell_Size k.
Proof. rewrite KeyCell_Serialize_image. unfold key_image, KeyCell_Size. len. Qed.
Lemma len_kv_serialize k : len (KVCell_Serialize k) = KVCell_Size k.
Proof. rewrite KVCell_Serialize_image. unfold kv_image, KVCell_Size. len. Qed.
#[export] Hint Rewrite len_key_serialize len_kv_serialize : len.

(** ** Decoding *)

Lemma sl_cut_at off hi a b c rest :
  off = len a -> hi = len a + len b ->
  sl_cut (Slice (a ++ b ++ c) rest) off hi = Ok (Slice b (c ++ rest)).
Proof.
  intros -> ->. rewrite sl_cut_ok by (simpl; len). simpl. do 2 f_equal.
  - rewrite <-!(assoc_L (++)), sub_app_r, sub_app_l, N.sub_diag by len.
    apply sub_all. len.
  - rewrite <-!(assoc_L (++)).
    replace (N.to_nat (len a + len b)) with (length a + length b)%nat by (unfold len; lia).
    by rewrite drop_app_add, drop_app_length.
Qed.

Lemma sl_cut_end off hi a b rest :
  off = len a -> hi = len a + len b ->
  sl_cut (Slice (a ++ b) rest) off hi = Ok (Slice b rest).
Proof. intros H1 H2. rewrite <-(app_nil_r b) at 1. by rewrite (sl_cut_at off hi). Qed.

Lemma sl_uint_at off w a b c rest :
  off = len a -> w = len b ->
  sl_uint (Slice (a ++ b ++ c) rest) off w = Ok (le_dec b).
Proof. intros -> ->. unfold sl_uint. by rewrite sl_cut_at. Qed.

Lemma sl_uint_0 w b c rest :
  w = len b -> sl_uint (Slice (b ++ c) rest) 0 w = Ok (le_dec b).
Proof. apply (sl_uint_at 0 w []). done. Qed.

Lemma le_dec_u16 n : le_dec (le_enc 2 (u16 n)) = u16 n.
Proof. apply le_dec_enc_small. unfold u16. simpl. lia. Qed.

Lemma u16_small n : n < 65536 -> u16 n = n.
Proof. apply N.mod_small. Qed.

Lemma key_decode_encode k rest :
  key_fits k -> DeserializeKeyCell (Slice (KeyCell_Serialize k) rest) = Ok k.
Proof.
  unfold key_fits, KeyCell_Size. intros [Hs Hc].
  rewrite KeyCell_Serialize_image. unfold key_image, DeserializeKeyCell.
  set (c := le_enc 4 _). set (l := le_enc 2 _).
  assert (Hlc : len c = 4) by (unfold c; len). assert (Hll : len l = 2) by (unfold l; len).
  assert (Hdc : le_dec c = kcChild k) by (by apply le_dec_enc_small).
  assert (Hdl : le_dec l = len (kcKey k))
    by (unfold l; rewrite le_dec_u16; apply u16_small; lia).
  clearbody c l.
  rewrite (sl_uint_0 4 c) by len. cbn [mbind outcome_bind].
  rewrite (sl_uint_at 4 2 c l) by len. cbn [mbind outcome_bind].
  rewrite Hdl, Hdc, u16_small by lia.
  rewrite (assoc_L (++) c), (sl_cut_end 6 _ (c ++ l) (kcKey k)) by len. simpl.
  by destruct k.
Qed.

(** The decoder on the encoding of any cell whose two lengths fit their
    fields: it succeeds exactly when the end offset fits [uint16] too. *)
Lemma decode_kv_cases k rest :
  len (kvKey k) < 65536 -> len (kvValue k) < 65536 -> kvFlag k < 256 ->
  decode_kv (Slice (KVCell_Serialize k) rest)
    = if KVCell_Size k <? 65536 then Ok (k, Slice (kvValue k) rest) else Panic.
Proof.
  unfold KVCell_Size. intros Hk Hv Hf.
  rewrite KVCell_Serialize_image. unfold kv_image, decode_kv.
  change (n2b (kvFlag k) :: ?x) with ([n2b (kvFlag k)] ++ x).
  set (f := [n2b (kvFlag k)]). set (l := le_enc 2 (u16 (len (kvKey k)))).
  set (m := le_enc 2 (u16 (len (kvValue k)))).
  assert (Hlf : len f = 1) by done. assert (Hll : len l = 2) by (unfold l; len).
  assert (Hlm : len m = 2) by (unfold m; len).
  assert (Hdl : le_dec l = len (kvKey k))
    by (unfold l; rewrite le_dec_u16; by apply u16_small).
  assert (Hdm : le_dec m = len (kvValue k))
    by (unfold m; rewrite le_dec_u16; by apply u16_small).
  clearbody l m.
  change (sl_index _ 0) with (Ok (n2b (kvFlag k))). cbn [mbind outcome_bind].
  rewrite (sl_uint_at 1 2 f l) by len. cbn [mbind outcome_bind].
  rewrite (assoc_L (++) f). rewrite (sl_uint_at 3 2 (f ++ l) m) by len.
  cbn [mbind outcome_bind].
  rewrite Hdl, Hdm.
  rewrite (assoc_L (++) (f ++ l)). set (h := (f ++ l) ++ m).
  assert (Hlh : len h = 5) by (unfold h; len). clearbody h.
  destruct (1 + 2 + 2 + len (kvKey k) + len (kvValue k) <? 65536) eqn:E; bool_lia.
  - rewrite !u16_small by lia.
    rewrite (sl_cut_at 5 _ h (kvKey k)) by len. cbn [mbind outcome_bind sl_data].
    rewrite (assoc_L (++) h), (sl_cut_end _ _ (h ++ kvKey k) (kvValue k)) by len. simpl.
    rewrite b2n_n2b, N.mod_small by done. by destruct k.
  - destruct (sl_cut _ 5 _) as [key|e| |] eqn:Ek; cbn [mbind outcome_bind]; try done.
    + rewrite sl_cut_panic; [done|]. simpl. len. unfold sl_cut in Ek.
      destruct (5 <=? u16 (5 + len (kvKey k))) eqn:E5; [|done]. bool_lia.
      unfold u16 in *. lia.
    + unfold sl_cut in Ek. by destruct (_ && _).
    + unfold sl_cut in Ek. by destruct (_ && _).
Qed.

Lemma kv_decode_cases k rest :
  len (kvKey k) < 65536 -> len (kvValue k) < 65536 -> kvFlag k < 256 ->
  DeserializeKVCell (Slice (KVCell_Serialize k) rest)
    = if KVCell_Size k <? 65536 then Ok k else Panic.
Proof.
  intros Hk Hv Hf. unfold DeserializeKVCell. rewrite decode_kv_cases by done.
  by destruct (KVCell_Size k <? 65536).
Qed.

Lemma decode_kv_encode k rest :
  kv_fits k -> decode_kv (Slice (KVCell_Serialize k) rest) = Ok (k, Slice (kvValue k) rest).
Proof.
  intros [Hs Hf]. unfold KVCell_Size in Hs.
  rewrite decode_kv_cases by lia. by rewrite (proj2 (N.ltb_lt _ _)).
Qed.

#[global] Instance key_codec : Codec KeyCell := {|
  encode := KeyCell_Serialize; decode := DeserializeKeyCell; encodable := key_fits;
  decode_encode := key_decode_encode
|}.

Lemma kv_decode_encode k rest :
  kv_fits k -> DeserializeKVCell (Slice (KVCell_Serialize k) rest) = Ok k.
Proof.
  intros [Hs Hf]. unfold KVCell_Size in Hs.
  rewrite kv_decode_cases by lia. by rewrite (proj2 (N.ltb_lt _ _)).
Qed.

#[global] Instance kv_codec : Codec KVCell := {|
  encode := KVCell_Serialize; decode := DeserializeKVCell; encodable := kv_fits;
  decode_encode := kv_decode_encode
|}.

(** ** Properties *)

(** C34: a key-value cell whose key and value lengths fit their 16-bit fields is
    read back from its wire format, whatever follows it in the page, exactly
    when its whole size fits 16 bits; otherwise the decoder's [uint16] offsets
    wrap around and it panics. *)
Theorem kv_cell_roundtrip k rest :
  len (kvKey k) < 65536 -> len (kvValue k) < 65536 -> kvFlag k < 256 ->
  DeserializeKVCell (Slice (KVCell_Serialize k) rest)
    = if KVCell_Size k <? 65536 then Ok k else Panic.
Proof. apply kv_decode_cases. Qed.

Lemma kv_cell_roundtrip_witness :
  DeserializeKVCell (Slice (KVCell_Serialize (NewKVCell 2 [x61; x62] [x63])) [x00; x01])
    = Ok (NewKVCell 2 [x61; x62] [x63]).
Proof. exact (kv_cell_roundtrip (NewKVCell 2 [x61; x62] [x63]) [x00; x01] eq_refl eq_refl eq_refl). Defined.

(** A routing cell whose size fits 16 bits is read back from its wire
    format, child pointer and key, whatever follows it. *)
Theorem key_cell_roundtrip k rest :
  key_fits k -> DeserializeKeyCell (Slice (KeyCell_Serialize k) rest) = Ok k.
Proof. apply key_decode_encode. Qed.

Lemma key_cell_roundtrip_witness :
  DeserializeKeyCell (Slice (KeyCell_Serialize (NewKeyCell 7 [x61])) [x05]) = Ok (NewKeyCell 7 [x61]).
Proof. apply (key_cell_roundtrip (NewKeyCell 7 [x61]) [x05]). split; reflexivity. Defined.
