(* ===== verification/Page.v ===== *)
(** * Slotted pages ([internal/storage/page.go])

    A page is its 4096 bytes.  Header fields are read and written at the
    source's offsets; [Insert] and [Get] compute slot and cell offsets in
    [uint16].  The invariant [page_wf] describes the pages these operations
    build, [cells] is the abstract content, and [insert_cells_spec] says what
    a rewrite of a page (wipe, then insert a list of cells) stores. *)

From S2P Require Import Prelude Crc Cell.

Definition PageSize : N := 4096.
Definition HeaderSize : N := 32.
Definition Magic : N := 0xDAB0BA55.

Definition magicOffset : N := 0.
Definition checksumOffset : N := 4.
Definition pageIDOffset : N := 8.
Definition lsnOffset : N := 12.
Definition pageTypeOffset : N := 20.
Definition slotCountOffset : N := 21.
Definition freeSpaceOffset : N := 23.
Definition SlotSize : N := 4.

Definition PageTypeMeta : N := 0.
Definition PageTypeLeaf : N := 1.
Definition PageTypeInternal : N := 2.
Definition PageTypeOverflow : N := 3.
Definition PageTypeFree : N := 4.

Definition MetaPageID : N := 0.

(** The [data] of a [Page]. *)
Abbreviation page := bytes.

(** A little-endian field of [w] bytes at a constant offset. *)
Definition get_field (p : page) (off w : N) : N := le_dec (sub p off w).
Definition set_field (p : page) (off : N) (w : nat) (v : N) : page :=
  splice p off (le_enc w v).

(** ** Header accessors *)

Definition VerifyMagic (p : page) : bool := get_field p magicOffset 4 =? Magic.
Definition GetPageID (p : page) : N := get_field p pageIDOffset 4.
Definition SetPageID (id : N) (p : page) : page := set_field p pageIDOffset 4 id.
Definition GetLSN (p : page) : N := get_field p lsnOffset 8.
Definition SetLSN (lsn : N) (p : page) : page := set_field p lsnOffset 8 lsn.
Definition GetPageType (p : page) : N := get_field p pageTypeOffset 1.
Definition SetPageType (t : N) (p : page) : page := set_field p pageTypeOffset 1 t.
Definition getSlotCount (p : page) : N := get_field p slotCountOffset 2.
Definition setSlotCount (n : N) (p : page) : page := set_field p slotCountOffset 2 n.
Definition getFreeSpaceOffset (p : page) : N := get_field p freeSpaceOffset 2.
Definition setFreeSpaceOffset (o : N) (p : page) : page := set_field p freeSpaceOffset 2 o.

Definition Init (mode : N) (p : page) : page :=
  let p := set_field p magicOffset 4 Magic in
  let p := setFreeSpaceOffset (u16 PageSize) p in
  let p := setSlotCount 0 p in
  let p := SetLSN 0 p in
  SetPageType mode p.

Definition NewPage (mode : N) : page := Init mode (zeros PageSize).

Definition SetChecksum (p : page) : page :=
  let p := set_field p checksumOffset 4 0 in
  let sum := crc32 p in
  set_field p checksumOffset 4 sum.

(** The answer, and the page after the checksum field was put back. *)
Definition VerifyChecksum (p : page) : bool * page :=
  let stored := get_field p checksumOffset 4 in
  let p := set_field p checksumOffset 4 0 in
  let actual := crc32 p in
  let p := set_field p checksumOffset 4 stored in
  (stored =? actual, p).

(** ** Data operations *)

Definition holds_cells (p : page) : bool :=
  (GetPageType p =? PageTypeInternal) || (GetPageType p =? PageTypeLeaf).

(** Writes [d] into [p.data[lo:hi]], as [copy] and [PutUint16] do. *)
Definition write_range (lo hi : N) (d : bytes) : M page unit :=
  p ← gets id;
  if (lo <=? hi) && (hi <=? len p)
  then modify (fun p => splice p lo (take (N.to_nat (hi - lo)) d))
  else panic.

Definition Insert (cellData : bytes) : M page N :=
  p ← gets id;
  if negb (holds_cells p) then throw (ErrInsertPageType (GetPageType p)) else
  let slotCount := getSlotCount p in
  let freeOffset := getFreeSpaceOffset p in
  let cellSize := u16 (len cellData) in
  let neededSpace := u16 (cellSize + SlotSize) in
  let directoryEnd := u16 (HeaderSize + u16 (slotCount * SlotSize)) in
  if freeOffset <? u16 (directoryEnd + neededSpace) then throw ErrPageFull else
  let newFreeOffset := sub16 freeOffset cellSize in
  _ ← write_range newFreeOffset freeOffset cellData;
  _ ← modify (setFreeSpaceOffset newFreeOffset);
  let slotEntryOffset := u16 (HeaderSize + u16 (slotCount * SlotSize)) in
  _ ← write_range slotEntryOffset (u16 (slotEntryOffset + 2)) (le_enc 2 newFreeOffset);
  _ ← write_range (u16 (slotEntryOffset + 2)) (u16 (slotEntryOffset + 4)) (le_enc 2 cellSize);
  _ ← modify (setSlotCount (u16 (slotCount + 1)));
  mret slotCount.

Definition Get (p : page) (slotID : N) : outcome slice :=
  if negb (holds_cells p) then Err (ErrGetPageType (GetPageType p)) else
  if getSlotCount p <=? slotID then Err ErrInvalidSlot else
  let slotEntryOffset := u16 (HeaderSize + u16 (slotID * SlotSize)) in
  o ← sl_cut (slice_of p) slotEntryOffset (u16 (slotEntryOffset + 2));
  s ← sl_cut (slice_of p) (u16 (slotEntryOffset + 2)) (u16 (slotEntryOffset + 4));
  let cellOffset := le_dec (sl_data o) in
  let cellSize := le_dec (sl_data s) in
  sl_cut (slice_of p) cellOffset (u16 (cellOffset + cellSize)).

(** [c, _ := p.Get(i)]: the nil slice on error. *)
Definition Get_ (p : page) (i : N) : outcome slice := or_zero (slice_of []) (Get p i).

(** [for i := uint16(0); i < slotCount; i++ { c, _ := p.Get(i); ... }]:
    the slices in slot order. *)
Definition slot_ids (p : page) : list N := N.of_nat <$> seq 0 (N.to_nat (getSlotCount p)).
Definition all_slots (p : page) : outcome (list slice) := omapM (Get_ p) (slot_ids p).

(** [for _, c := range cells { p.Insert(c) }]: the errors are dropped. *)
Definition insert_cells (cells : list bytes) : M page unit :=
  for_each (fun c => ignore (Insert c)) cells.

(** ** Overflow, meta and free pages *)

Definition overflowNextPageOffset : N := HeaderSize.
Definition overflowDataOffset : N := 36.
Definition MaxOverflowDataSize : N := PageSize - overflowDataOffset.

Definition GetNextOverflowPageID (p : page) : N := get_field p overflowNextPageOffset 4.
Definition SetNextOverflowPageID (id : N) (p : page) : page :=
  set_field p overflowNextPageOffset 4 id.
Definition WriteOverflowData (data : bytes) (p : page) : page :=
  splice p overflowDataOffset data.
Definition ReadOverflowData (length : N) (p : page) : bytes :=
  let length := if MaxOverflowDataSize <? length then MaxOverflowDataSize else length in
  sub p overflowDataOffset length.

Definition metaRootPageOffset : N := HeaderSize.
Definition metaFirstFreePageOffset : N := 36.

Definition GetRootPageID (p : page) : N := get_field p metaRootPageOffset 4.
Definition SetRootPageID (id : N) (p : page) : page := set_field p metaRootPageOffset 4 id.
Definition GetFirstFreePageID (p : page) : N := get_field p metaFirstFreePageOffset 4.
Definition SetFirstFreePageID (id : N) (p : page) : page :=
  set_field p metaFirstFreePageOffset 4 id.

Definition freeNextPageOffset : N := HeaderSize.

Definition GetNextFreePageID (p : page) : N := get_field p freeNextPageOffset 4.
Definition SetNextFreePageID (id : N) (p : page) : page := set_field p freeNextPageOffset 4 id.

(** ** The abstract page *)

(** The slot entry of slot [i], and the cell it points to. *)
Definition slot_entry (i : N) : N := HeaderSize + i * SlotSize.
Definition slot_off (p : page) (i : N) : N := get_field p (slot_entry i) 2.
Definition slot_size (p : page) (i : N) : N := get_field p (slot_entry i + 2) 2.
Definition cell_at (p : page) (i : N) : bytes := sub p (slot_off p i) (slot_size p i).

(** What a page stores: its cells in slot order. *)
Definition cells (p : page) : list bytes := cell_at p <$> slot_ids p.

(** The bytes left between the slot directory and the cells. *)
Definition room (p : page) : N := getFreeSpaceOffset p - slot_entry (getSlotCount p).

Record page_wf (p : page) : Prop := {
  wf_len : len p = PageSize;
  wf_type : holds_cells p = true;
  wf_dir : slot_entry (getSlotCount p) <= getFreeSpaceOffset p;
  wf_free : getFreeSpaceOffset p <= PageSize;
  wf_slots : forall i, i < getSlotCount p ->
    getFreeSpaceOffset p <= slot_off p i /\ slot_off p i + slot_size p i <= PageSize
}.

(** The cells that [insert_cells] stores in [r] free bytes: each cell that
    still fits, in order; the others are dropped. *)
Fixpoint fitting (r : N) (cs : list bytes) : list bytes :=
  match cs with
  | [] => []
  | c :: cs' =>
      if len c + SlotSize <=? r then c :: fitting (r - (len c + SlotSize)) cs'
      else fitting r cs'
  end.

(** The bytes a list of cells needs: each cell and its slot. *)
Definition space (cs : list bytes) : N := foldr (fun c n => len c + SlotSize + n) 0 cs.

(** ** Field laws *)

Lemma len_set_field p off w v : len (set_field p off w v) = len p.
Proof. apply len_splice. Qed.
#[export] Hint Rewrite len_set_field : len.

Lemma get_splice_eq p off d w :
  off + len d <= len p -> w = len d -> get_field (splice p off d) off w = le_dec d.
Proof. intros H ->. unfold get_field. by rewrite sub_splice_eq. Qed.

Lemma get_splice_ne p off d off' w :
  off + len d <= len p -> off' + w <= off \/ off + len d <= off' ->
  get_field (splice p off d) off' w = get_field p off' w.
Proof. intros H1 H2. unfold get_field. by rewrite sub_splice_ne. Qed.

Lemma get_set_eq p off w v n :
  off + N.of_nat w <= len p -> v < 256 ^ N.of_nat w -> n = N.of_nat w ->
  get_field (set_field p off w v) off n = v.
Proof.
  intros H Hv ->. unfold set_field. rewrite get_splice_eq by len.
  by apply le_dec_enc_small.
Qed.

Lemma get_set_ne p off w v off' w' :
  off + N.of_nat w <= len p -> off' + w' <= off \/ off + N.of_nat w <= off' ->
  get_field (set_field p off w v) off' w' = get_field p off' w'.
Proof. intros H1 H2. apply get_splice_ne; len. Qed.

Lemma get_field_bound p off w : get_field p off w < 256 ^ w.
Proof.
  unfold get_field. eapply N.lt_le_trans; [apply le_dec_bound|].
  apply N.pow_le_mono_r; [done|]. unfold sub. len.
Qed.

Lemma slot_count_bound p : getSlotCount p < 65536.
Proof. apply (get_field_bound p slotCountOffset 2). Qed.
Lemma free_offset_bound p : getFreeSpaceOffset p < 65536.
Proof. apply (get_field_bound p freeSpaceOffset 2). Qed.

Ltac unfold_page :=
  unfold Init, SetLSN, SetPageType, SetPageID, setSlotCount, setFreeSpaceOffset,
    GetLSN, GetPageType, GetPageID, getSlotCount, getFreeSpaceOffset,
    slot_off, slot_size, slot_entry,
    magicOffset, checksumOffset, pageIDOffset, lsnOffset, pageTypeOffset,
    slotCountOffset, freeSpaceOffset, HeaderSize, SlotSize, PageSize in *.
Ltac side := first [done | len; (done || lia)].
Ltac fields :=
  repeat first [ rewrite get_set_eq by side | rewrite get_set_ne by side
               | rewrite get_splice_eq by side | rewrite get_splice_ne by side
               | rewrite sub_splice_ne by side ].

(** ** Init *)

Lemma Init_spec mode p :
  len p = PageSize -> mode < 256 ->
  len (Init mode p) = PageSize /\ GetPageType (Init mode p) = mode
  /\ getSlotCount (Init mode p) = 0 /\ getFreeSpaceOffset (Init mode p) = PageSize
  /\ GetLSN (Init mode p) = 0 /\ GetPageID (Init mode p) = GetPageID p
  /\ VerifyMagic (Init mode p) = true.
Proof.
  unfold VerifyMagic. unfold_page. change (u16 4096) with 4096. intros H Hm.
  split; [len|]. fields. by rewrite N.eqb_refl.
Qed.

(** [Init] leaves everything past the 25 header bytes it writes alone, and so
    the payload pointers of overflow, meta and free pages. *)
Lemma Init_body mode p off w :
  len p = PageSize -> 25 <= off -> get_field (Init mode p) off w = get_field p off w.
Proof. unfold_page. intros H Hoff. by fields. Qed.

Lemma cells_nil p : getSlotCount p = 0 -> cells p = [].
Proof. unfold cells, slot_ids. by intros ->. Qed.

Lemma Init_wf mode p :
  len p = PageSize -> mode = PageTypeLeaf \/ mode = PageTypeInternal ->
  page_wf (Init mode p) /\ cells (Init mode p) = [] /\ room (Init mode p) = 4064.
Proof.
  intros H Hm. destruct (Init_spec mode p) as (Hl & Ht & Hc & Hf & _); [done| |].
  { by destruct Hm as [-> | ->]. }
  split; [constructor|split; [by apply cells_nil|]].
  - done.
  - unfold holds_cells. rewrite Ht. by destruct Hm as [-> | ->].
  - rewrite Hc, Hf. done.
  - rewrite Hf. done.
  - rewrite Hc. lia.
  - unfold room. by rewrite Hc, Hf.
Qed.

(** ** Insert *)

(** The page after a successful [Insert]. *)
Definition inserted (c : bytes) (p : page) : page :=
  let n := getSlotCount p in
  let nf := getFreeSpaceOffset p - len c in
  setSlotCount (n + 1)
    (splice (splice (setFreeSpaceOffset nf (splice p nf c)) (slot_entry n) (le_enc 2 nf))
            (slot_entry n + 2) (le_enc 2 (len c))).

Lemma write_range_ok lo hi d p :
  lo <= hi -> hi <= len p -> hi - lo = len d ->
  write_range lo hi d p = (Ok tt, splice p lo d).
Proof.
  intros H1 H2 H3. unfold write_range, mbind, M_bind, gets. cbn [id].
  rewrite (proj2 (N.leb_le _ _) H1), (proj2 (N.leb_le _ _) H2). cbn.
  unfold modify. rewrite H3, len_nat. by rewrite take_ge.
Qed.

Lemma Insert_room c p :
  page_wf p -> len c + SlotSize <= room p ->
  Insert c p = (Ok (getSlotCount p), inserted c p).
Proof.
  intros [Hl Ht Hd Hf Hs] Hr. unfold room in Hr.
  assert (Hc : len c < 4096) by (unfold_page; lia).
  assert (Hn : getSlotCount p * 4 < 4096) by (unfold_page; lia).
  unfold Insert, inserted. unfold mbind at 1, M_bind at 1, gets at 1. cbn [id].
  rewrite Ht. cbn [negb]. fold (slot_entry (getSlotCount p)).
  replace (u16 (len c)) with (len c) by (unfold u16; lia).
  replace (u16 (HeaderSize + u16 (getSlotCount p * SlotSize))) with (slot_entry (getSlotCount p))
    by (unfold u16, slot_entry, HeaderSize, SlotSize; lia).
  destruct (_ <? _) eqn:E; bool_lia.
  { unfold u16, PageSize, SlotSize, slot_entry, HeaderSize in *. lia. }
  clear E.
  replace (sub16 (getFreeSpaceOffset p) (len c)) with (getFreeSpaceOffset p - len c)
    by (unfold sub16, u16, PageSize in *; lia).
  set (n := getSlotCount p) in *. set (f := getFreeSpaceOffset p) in *.
  unfold slot_entry, PageSize, SlotSize, HeaderSize in *.
  assert (Hstep : forall lo hi d (q : page) (k : M page N),
    lo <= hi -> hi <= len q -> hi - lo = len d ->
    (_ ← write_range lo hi d; k) q = k (splice q lo d)).
  { intros. by erewrite bind_ok; [|by apply write_range_ok]. }
  rewrite Hstep by lia. unfold mbind at 1, M_bind at 1, modify at 1.
  replace (u16 (32 + n * 4 + 2)) with (32 + n * 4 + 2) by (unfold u16; lia).
  replace (u16 (32 + n * 4 + 4)) with (32 + n * 4 + 4) by (unfold u16; lia).
  replace (u16 (n + 1)) with (n + 1) by (unfold u16; lia).
  rewrite !Hstep by (unfold setFreeSpaceOffset; len). done.
Qed.

(** The scalar fields and the slots of a page after a successful insert. *)
Section inserted.
Context (c : bytes) (p : page) (Hwf : page_wf p) (Hr : len c + SlotSize <= room p).
Let n := getSlotCount p.
Let f := getFreeSpaceOffset p.

Lemma inserted_arith :
  len p = 4096 /\ 32 + n * 4 + len c + 4 <= f /\ f <= 4096 /\ n < 1024.
Proof.
  destruct Hwf as [Hl _ Hd Hf _]. unfold room, slot_entry, HeaderSize, SlotSize, PageSize in *.
  subst n f. lia.
Qed.

Lemma len_inserted : len (inserted c p) = PageSize.
Proof.
  pose proof inserted_arith. unfold inserted. unfold_page. len.
Qed.

Lemma inserted_count : getSlotCount (inserted c p) = n + 1.
Proof.
  pose proof inserted_arith as (? & ? & ? & ?). unfold inserted. fold n f.
  unfold getSlotCount, setSlotCount. apply get_set_eq; [|simpl; lia|done].
  unfold_page. len.
Qed.

Lemma inserted_free : getFreeSpaceOffset (inserted c p) = f - len c.
Proof.
  pose proof inserted_arith as (? & ? & ? & ?). unfold inserted. fold n f.
  clearbody n f. unfold_page. fields. done.
Qed.

(** The fields before the slot count are kept. *)
Lemma inserted_header off w :
  off + w <= 21 -> get_field (inserted c p) off w = get_field p off w.
Proof.
  pose proof inserted_arith as (? & ? & ? & ?). intros Hoff. unfold inserted. fold n f.
  clearbody n f. unfold_page. by fields.
Qed.

(** Old cells keep their slot entries and their bytes. *)
Lemma inserted_slot_old i :
  i < n -> slot_off (inserted c p) i = slot_off p i
           /\ slot_size (inserted c p) i = slot_size p i.
Proof.
  pose proof inserted_arith as (? & ? & ? & ?). intros Hi. unfold inserted. fold n f.
  clearbody n f. unfold_page. by fields.
Qed.

Lemma inserted_slot_new :
  slot_off (inserted c p) n = f - len c /\ slot_size (inserted c p) n = len c.
Proof.
  pose proof inserted_arith as (? & ? & ? & ?). unfold inserted. fold n f.
  clearbody n f. unfold_page. split; fields; apply le_dec_enc_small; simpl; lia.
Qed.

Lemma inserted_bytes off w :
  f - len c <= off -> off + w <= 4096 ->
  sub (inserted c p) off w = sub (splice p (f - len c) c) off w.
Proof.
  pose proof inserted_arith as (? & ? & ? & ?). intros Hlo Hhi. unfold inserted. fold n f.
  clearbody n f. unfold_page. unfold set_field. by fields.
Qed.

Lemma inserted_wf : page_wf (inserted c p).
Proof.
  pose proof inserted_arith as (Hl & Ha & Hf & Hn). constructor.
  - apply len_inserted.
  - destruct Hwf as [_ Ht _ _ _]. unfold holds_cells, GetPageType in *.
    by rewrite inserted_header.
  - rewrite inserted_count, inserted_free. unfold slot_entry, HeaderSize, SlotSize. lia.
  - rewrite inserted_free. unfold PageSize. lia.
  - rewrite inserted_count, inserted_free. intros i Hi.
    destruct (decide (i = n)) as [->|Hne].
    + destruct inserted_slot_new as [-> ->]. unfold PageSize. lia.
    + destruct (inserted_slot_old i) as [-> ->]; [lia|].
      destruct (wf_slots p Hwf i) as [Hs1 Hs2]; [fold n; lia|]. fold f in Hs1. lia.
Qed.

Lemma inserted_cells : cells (inserted c p) = cells p ++ [c].
Proof.
  pose proof inserted_arith as (Hl & Ha & Hf & Hn).
  unfold cells, slot_ids. rewrite inserted_count. fold n.
  replace (N.to_nat (n + 1)) with (N.to_nat n + 1)%nat by lia.
  rewrite seq_app, !fmap_app. simpl. rewrite N2Nat.id. f_equal.
  - apply list_fmap_ext. intros k i Hk. apply list_lookup_fmap_Some in Hk as (j & -> & Hj).
    apply lookup_seq in Hj as [-> Hj]. simpl. unfold cell_at.
    destruct (inserted_slot_old (N.of_nat k)) as [-> ->]; [lia|].
    destruct (wf_slots p Hwf (N.of_nat k)) as [H1 H2]; [fold n; lia|].
    fold f in H1. unfold PageSize in *.
    rewrite inserted_bytes by lia. apply sub_splice_ne; lia.
  - unfold cell_at. destruct inserted_slot_new as [-> ->].
    rewrite inserted_bytes by lia. by rewrite sub_splice_eq by lia.
Qed.

Lemma inserted_room : room (inserted c p) = room p - (len c + SlotSize).
Proof.
  pose proof inserted_arith as (Hl & Ha & Hf & Hn). unfold room.
  rewrite inserted_count, inserted_free. fold n f.
  unfold slot_entry, HeaderSize, SlotSize in *. lia.
Qed.
End inserted.

(** Without room, [Insert] reports a full page and changes nothing.  The sum
    [cellSize + SlotSize] is computed in [uint16], hence the bound on [c]. *)
Lemma Insert_full c p :
  page_wf p -> room p < len c + SlotSize -> len c < 61000 ->
  Insert c p = (Err ErrPageFull, p).
Proof.
  intros [Hl Ht Hd Hf Hs] Hr Hc. unfold room, slot_entry, PageSize, HeaderSize, SlotSize in *.
  unfold Insert. unfold mbind at 1, M_bind at 1, gets at 1. cbn [id].
  rewrite Ht. cbn [negb]. unfold u16, SlotSize, HeaderSize.
  destruct (_ <? _) eqn:E; [done|]. bool_lia. lia.
Qed.

(** ** Get *)

Lemma len_cells p : len (cells p) = getSlotCount p.
Proof.
  unfold cells, slot_ids. rewrite !len_fmap. unfold len. rewrite length_seq. lia.
Qed.

Lemma lookup_cells p i :
  i < getSlotCount p -> cells p !! N.to_nat i = Some (cell_at p i).
Proof.
  intros Hi. unfold cells, slot_ids. rewrite !list_lookup_fmap.
  rewrite lookup_seq_lt by lia. simpl. by rewrite N2Nat.id.
Qed.

(** The bytes after cell [i] in the page. *)
Definition cell_rest (p : page) (i : N) : bytes :=
  drop (N.to_nat (slot_off p i + slot_size p i)) p.

Lemma Get_cell p i :
  page_wf p -> i < getSlotCount p -> Get p i = Ok (Slice (cell_at p i) (cell_rest p i)).
Proof.
  intros [Hl Ht Hd Hf Hs] Hi. destruct (Hs i Hi) as [H1 H2].
  unfold slot_entry, PageSize, HeaderSize, SlotSize in *.
  unfold Get. rewrite Ht. cbn [negb]. destruct (_ <=? i) eqn:E; bool_lia; [lia|].
  unfold HeaderSize, SlotSize.
  replace (u16 (32 + u16 (i * 4))) with (32 + i * 4) by (unfold u16; lia).
  replace (u16 (32 + i * 4 + 2)) with (32 + i * 4 + 2) by (unfold u16; lia).
  replace (u16 (32 + i * 4 + 4)) with (32 + i * 4 + 4) by (unfold u16; lia).
  unfold slice_of. rewrite !sl_cut_ok by (simpl; len).
  cbn [mbind outcome_bind sl_data sl_rest]. rewrite app_nil_r.
  replace (32 + i * 4 + 2 - (32 + i * 4)) with 2 by lia.
  replace (32 + i * 4 + 4 - (32 + i * 4 + 2)) with 2 by lia.
  fold (get_field p (32 + i * 4) 2) (get_field p (32 + i * 4 + 2) 2).
  change (get_field p (32 + i * 4) 2) with (slot_off p i).
  change (get_field p (32 + i * 4 + 2) 2) with (slot_size p i).
  replace (u16 (slot_off p i + slot_size p i)) with (slot_off p i + slot_size p i)
    by (unfold u16; lia).
  rewrite sl_cut_ok by (simpl; len). simpl. rewrite app_nil_r.
  unfold cell_at, cell_rest. do 3 f_equal. lia.
Qed.

Lemma Get_invalid p i :
  holds_cells p = true -> getSlotCount p <= i -> Get p i = Err ErrInvalidSlot.
Proof.
  intros Ht Hi. unfold Get. rewrite Ht. cbn [negb].
  by rewrite (proj2 (N.leb_le _ _) Hi).
Qed.

Lemma all_slots_wf p :
  page_wf p ->
  all_slots p = Ok ((fun i => Slice (cell_at p i) (cell_rest p i)) <$> slot_ids p).
Proof.
  intros Hwf. unfold all_slots. apply omapM_fmap. apply Forall_forall.
  intros i (k & -> & Hk)%list_elem_of_fmap. apply elem_of_seq in Hk.
  unfold Get_. rewrite Get_cell by (done || lia). done.
Qed.

(** ** Rewriting a page *)

Lemma ignore_ok {S A} (m : M S A) s a s' : m s = (Ok a, s') -> ignore m s = (Ok tt, s').
Proof. intros H. unfold ignore, attempt, mbind, M_bind. by rewrite H. Qed.
Lemma ignore_err {S A} (m : M S A) s e s' : m s = (Err e, s') -> ignore m s = (Ok tt, s').
Proof. intros H. unfold ignore, attempt, mbind, M_bind. by rewrite H. Qed.

(** Wiping a page and inserting [cs] stores exactly the cells of [cs] that
    fit one after the other; the dropped ones leave no trace. *)
Lemma insert_cells_spec cs p :
  page_wf p -> Forall (fun c => len c < 61000) cs ->
  exists p', insert_cells cs p = (Ok tt, p') /\ page_wf p'
    /\ cells p' = cells p ++ fitting (room p) cs
    /\ room p' = room p - space (fitting (room p) cs)
    /\ (forall off w, off + w <= 21 -> get_field p' off w = get_field p off w).
Proof.
  intros Hwf Hcs. revert p Hwf. induction Hcs as [|c cs Hc Hcs IH]; intros p Hwf; simpl.
  - exists p. rewrite app_nil_r. split; [done|]. split; [done|]. split; [done|].
    split; [lia|done].
  - unfold insert_cells. simpl. destruct (_ <=? room p) eqn:E; bool_lia.
    + assert (H := Insert_room c p Hwf E). apply ignore_ok in H. mstep H.
      destruct (IH (inserted c p)) as (p' & H1 & H2 & H3 & H4 & H5).
      { by apply inserted_wf. }
      exists p'. rewrite inserted_cells, inserted_room in * by done.
      rewrite <-(assoc_L (++)) in H3. split; [done|]. split; [done|]. split; [done|].
      simpl. split; [lia|]. intros off w Hoff.
      rewrite H5 by done. by rewrite inserted_header.
    + assert (H := Insert_full c p Hwf E Hc). apply ignore_err in H. mstep H.
      by apply IH.
Qed.

Lemma fitting_all r cs : space cs <= r -> fitting r cs = cs.
Proof.
  revert r; induction cs as [|c cs IH]; intros r H; simpl in *; [done|].
  rewrite (proj2 (N.leb_le _ _)) by lia. f_equal. apply IH. lia.
Qed.

Lemma fitting_space r cs : space (fitting r cs) <= r.
Proof.
  revert r; induction cs as [|c cs IH]; intros r; simpl; [lia|].
  destruct (_ <=? r) eqn:E; bool_lia; [|done]. simpl.
  specialize (IH (r - (len c + SlotSize))). lia.
Qed.

Lemma fitting_sublist r cs : sublist (fitting r cs) cs.
Proof.
  revert r; induction cs as [|c cs IH]; intros r; simpl; [constructor|].
  destruct (_ <=? r); by constructor.
Qed.

(** ** Checksums *)

Lemma set_field_idem p off w v v' :
  off + N.of_nat w <= len p ->
  set_field (set_field p off w v) off w v' = set_field p off w v'.
Proof.
  intros H. unfold set_field. apply list_eq. intros i.
  rewrite !lookup_splice by len.
  assert (Hl : forall u, length (le_enc w u) = w)
    by (intros u; pose proof (len_le_enc w u); unfold len in *; lia).
  rewrite !Hl. by case_decide.
Qed.

Lemma set_field_same p off w : off + N.of_nat w <= len p ->
  set_field p off w (get_field p off (N.of_nat w)) = p.
Proof.
  intros H. unfold set_field, get_field.
  assert (Hl : length (sub p off (N.of_nat w)) = w)
    by (pose proof (len_sub p off (N.of_nat w)); unfold len in *; lia).
  rewrite le_enc_dec by done. apply list_eq. intros i.
  rewrite lookup_splice by (unfold len in *; lia). case_decide; [|done].
  rewrite lookup_sub. case_decide; [f_equal|]; lia.
Qed.

Lemma splice_insert_out {A} (l : list A) off d i x :
  off + len d <= len l -> (i < N.to_nat off \/ N.to_nat off + length d <= i)%nat ->
  splice (<[i := x]> l) off d = <[i := x]> (splice l off d).
Proof.
  intros H Hi. apply list_eq. intros j.
  assert (Hl : forall k : list A, length (splice k off d) = length k)
    by (intros k; pose proof (len_splice k off d); unfold len in *; lia).
  rewrite lookup_splice by (unfold len in *; rewrite length_insert; lia).
  destruct (decide (i = j)) as [->|Hij].
  - case_decide; [lia|]. destruct (decide (j < length l)%nat).
    + rewrite !list_lookup_insert_eq by (rewrite ?Hl; done). done.
    + rewrite !lookup_ge_None_2; rewrite ?length_insert, ?Hl; (done || lia).
  - rewrite !list_lookup_insert_ne by done. by rewrite lookup_splice.
Qed.

Lemma splice_insert_in {A} (l : list A) off d i x :
  off + len d <= len l -> (N.to_nat off <= i < N.to_nat off + length d)%nat ->
  splice (<[i := x]> l) off d = splice l off d.
Proof.
  intros H Hi. apply list_eq. intros j.
  rewrite !lookup_splice by (unfold len in *; rewrite ?length_insert; lia).
  case_decide; [done|]. apply list_lookup_insert_ne. lia.
Qed.

Lemma checksum_stored p :
  len p = PageSize ->
  get_field (SetChecksum p) checksumOffset 4 = crc32 (set_field p checksumOffset 4 0)
  /\ set_field (SetChecksum p) checksumOffset 4 0 = set_field p checksumOffset 4 0.
Proof.
  unfold SetChecksum, PageSize, checksumOffset. intros H. split.
  - apply get_set_eq; [len|apply crc32_bound|done].
  - rewrite set_field_idem by len. by rewrite set_field_idem by len.
Qed.

Lemma Verify_set p :
  len p = PageSize -> VerifyChecksum (SetChecksum p) = (true, SetChecksum p).
Proof.
  intros H. destruct (checksum_stored p H) as [H1 H2].
  unfold VerifyChecksum. by rewrite H2, H1, N.eqb_refl.
Qed.

Lemma sub_insert_out {A} (l : list A) i x off n :
  (i < N.to_nat off \/ N.to_nat (off + n) <= i)%nat ->
  sub (<[i := x]> l) off n = sub l off n.
Proof.
  intros Hi. apply list_eq. intros j. rewrite !lookup_sub. case_decide; [|done].
  apply list_lookup_insert_ne. lia.
Qed.

(** Changing a byte of a field changes its value. *)
Lemma get_field_insert_in p i x y off w :
  p !! i = Some x -> x <> y -> (N.to_nat off <= i < N.to_nat (off + w))%nat ->
  get_field (<[i := y]> p) off w <> get_field p off w.
Proof.
  intros Hx Hxy Hi Heq. unfold get_field in Heq. apply le_dec_inj in Heq.
  2: { unfold sub. by rewrite !length_take, !length_drop, length_insert. }
  apply (f_equal (fun l => l !! (i - N.to_nat off)%nat)) in Heq. rewrite !lookup_sub in Heq.
  rewrite !decide_True in Heq by lia.
  replace (N.to_nat off + (i - N.to_nat off))%nat with i in Heq by lia.
  rewrite list_lookup_insert_eq, Hx in Heq by (by eapply lookup_lt_Some).
  congruence.
Qed.

Lemma get_field_insert_out p i y off w :
  (i < N.to_nat off \/ N.to_nat (off + w) <= i)%nat ->
  get_field (<[i := y]> p) off w = get_field p off w.
Proof. intros Hi. unfold get_field. by rewrite sub_insert_out. Qed.

(** Changing a byte of a range changes its checksum. *)
Lemma crc32_insert_in (l : bytes) i x y :
  l !! i = Some x -> x <> y -> crc32 (<[i := y]> l) <> crc32 l.
Proof.
  intros Hx Hxy. rewrite insert_take_drop by (by eapply lookup_lt_Some).
  rewrite <-(take_drop_middle l i x Hx) at 3. apply crc32_detects. congruence.
Qed.

Lemma Verify_corrupt p i x y :
  len p = PageSize -> SetChecksum p !! i = Some x -> x <> y ->
  (VerifyChecksum (<[i := y]> (SetChecksum p))).1 = false.
Proof.
  intros H Hx Hxy. destruct (checksum_stored p H) as [H1 H2].
  set (q := SetChecksum p) in *.
  assert (Hq : len q = 4096) by (unfold q, SetChecksum, PageSize in *; len).
  unfold VerifyChecksum. cbn [fst]. apply N.eqb_neq. intros Heq.
  unfold checksumOffset in *.
  destruct (decide (4 <= i < 8)%nat) as [Hin|Hout].
  - unfold set_field in Heq, H2. rewrite splice_insert_in in Heq by (simpl; len).
    rewrite H2 in Heq. unfold set_field in H1. rewrite <-H1 in Heq.
    revert Heq. apply (get_field_insert_in q i x y); (done || lia).
  - rewrite get_field_insert_out in Heq by lia. rewrite H1, <-H2 in Heq.
    unfold set_field in Heq. rewrite splice_insert_out in Heq by (simpl; len || lia).
    symmetry in Heq. revert Heq. apply crc32_insert_in with x; [|done].
    rewrite lookup_splice by (simpl; len). simpl. by rewrite decide_False by lia.
Qed.

(** ** Pages of encoded values

    The pages of the tree hold cells of one kind; [stores p xs] says which
    values they encode. *)
Record stores `{Codec A} (p : page) (xs : list A) : Prop := {
  st_wf : page_wf p;
  st_cells : cells p = encode <$> xs;
  st_fits : Forall encodable xs
}.

Section stores.
Context `{Codec A}.
Implicit Types (p : page) (xs : list A).

Lemma stores_count p xs : stores p xs -> getSlotCount p = len xs.
Proof. intros [_ Hc _]. rewrite <-len_cells, Hc. by rewrite len_fmap. Qed.

Lemma stores_slot p xs i x :
  stores p xs -> xs !! N.to_nat i = Some x ->
  exists rest, Get_ p i = Ok (Slice (encode x) rest) /\ decode (Slice (encode x) rest) = Ok x.
Proof.
  intros Hs Hx. pose proof (stores_count p xs Hs) as Hn. destruct Hs as [Hw Hc Hf].
  assert (Hi : i < getSlotCount p).
  { apply lookup_lt_Some in Hx. rewrite Hn. unfold len. lia. }
  exists (cell_rest p i). unfold Get_. rewrite (Get_cell p i Hw Hi).
  pose proof (lookup_cells p i Hi) as Hl. rewrite Hc, list_lookup_fmap, Hx in Hl.
  injection Hl as Hl. cbn [or_zero]. rewrite <-Hl. split; [done|].
  apply decode_encode. by eapply Forall_lookup_1.
Qed.

(** Reading and decoding every slot gives the values back. *)
Lemma stores_decode p xs :
  stores p xs ->
  exists slots, all_slots p = Ok slots /\ sl_data <$> slots = encode <$> xs
    /\ omapM decode slots = Ok xs.
Proof.
  intros Hs. pose proof (stores_count p xs Hs) as Hn. pose proof Hs as [Hw Hc Hf].
  eexists. split; [by apply all_slots_wf|]. split.
  - rewrite <-Hc. unfold cells. by rewrite <-list_fmap_compose.
  - apply omapM_ok. apply Forall2_same_length_lookup_2.
    + unfold slot_ids. rewrite !length_fmap, length_seq, Hn. unfold len. lia.
    + intros i c x Hi Hx. rewrite list_lookup_fmap in Hi.
      apply fmap_Some in Hi as (k & Hk & ->).
      unfold slot_ids in Hk. rewrite list_lookup_fmap in Hk.
      apply fmap_Some in Hk as (j & Hj & ->). apply lookup_seq in Hj as [-> Hj]. simpl.
      destruct (stores_slot p xs (N.of_nat i) x Hs) as (rest & E1 & E2).
      { by rewrite Nat2N.id. }
      unfold Get_ in E1. rewrite Get_cell in E1 by (done || lia). simpl in E1.
      injection E1 as E1 E1'. by rewrite E1, E1'.
Qed.

Lemma Init_stores mode p :
  len p = PageSize -> mode = PageTypeLeaf \/ mode = PageTypeInternal ->
  stores (Init mode p) (@nil A).
Proof.
  intros Hl Hm. destruct (Init_wf mode p Hl Hm) as (Hw & Hc & _). by constructor.
Qed.

(** The values whose encodings are [fitting]. *)
Fixpoint fitting_cells (r : N) (xs : list A) : list A :=
  match xs with
  | [] => []
  | x :: xs' =>
      if len (encode x) + SlotSize <=? r then x :: fitting_cells (r - (len (encode x) + SlotSize)) xs'
      else fitting_cells r xs'
  end.

Lemma fitting_cells_images r xs : fitting r (encode <$> xs) = encode <$> fitting_cells r xs.
Proof.
  revert r; induction xs as [|x xs IH]; intros r; cbn; [done|].
  destruct (_ <=? r); cbn; by rewrite IH.
Qed.

Lemma fitting_cells_all r xs : space (encode <$> xs) <= r -> fitting_cells r xs = xs.
Proof.
  revert r; induction xs as [|x xs IH]; intros r Hs; cbn in *; [done|].
  rewrite (proj2 (N.leb_le _ _)) by lia. f_equal. apply IH. unfold space. lia.
Qed.

Lemma fitting_cells_Forall (P : A -> Prop) r xs : Forall P xs -> Forall P (fitting_cells r xs).
Proof. intros HP. revert r. induction HP; intros r; cbn; [|destruct (_ <=? r)]; auto. Qed.

(** The cells of a page are no longer than it. *)
Lemma stored_small p xs : stores p xs -> Forall (fun x => len (encode x) < 61000) xs.
Proof.
  intros [Hw Hc _]. apply (proj1 (Forall_fmap encode (fun c => len c < 61000) xs)).
  rewrite <-Hc.
  apply Forall_forall. intros c (i & -> & _)%list_elem_of_fmap. unfold cell_at, sub.
  pose proof (wf_len _ Hw) as Hl. unfold len, PageSize in *. rewrite length_take, length_drop. lia.
Qed.

(** Wiping a page and inserting cells stores the ones that still fit. *)
Lemma rewrite_kept mode p xs :
  len p = PageSize -> mode = PageTypeLeaf \/ mode = PageTypeInternal ->
  Forall (fun x => len (encode x) < 61000) xs -> Forall encodable xs ->
  exists p', insert_cells (encode <$> xs) (Init mode p) = (Ok tt, p') /\ stores p' (fitting_cells 4064 xs)
    /\ GetPageType p' = mode /\ GetPageID p' = GetPageID p.
Proof.
  intros Hl Hm Hsm Hf. destruct (Init_wf mode p Hl Hm) as (Hw & Hc & Hr).
  destruct (insert_cells_spec (encode <$> xs) (Init mode p) Hw) as (p' & E1 & E2 & E3 & _ & E5).
  { by apply Forall_fmap. }
  rewrite Hr, Hc, fitting_cells_images in E3. exists p'. split; [done|]. split; [|split].
  - constructor; [done..|]. by apply fitting_cells_Forall.
  - unfold GetPageType in *. rewrite E5 by (unfold pageTypeOffset; lia).
    destruct (Init_spec mode p Hl) as (_ & Ht & _); [by destruct Hm as [-> | ->]|done].
  - unfold GetPageID in *. rewrite E5 by (unfold pageIDOffset; lia).
    by destruct (Init_spec mode p Hl) as (_ & _ & _ & _ & _ & Ht & _); [destruct Hm as [-> | ->]|].
Qed.

(** All of them, when they fit. *)
Lemma rewrite_stores mode p xs :
  len p = PageSize -> mode = PageTypeLeaf \/ mode = PageTypeInternal ->
  space (encode <$> xs) <= 4064 -> Forall encodable xs ->
  exists p', insert_cells (encode <$> xs) (Init mode p) = (Ok tt, p') /\ stores p' xs
    /\ GetPageType p' = mode /\ GetPageID p' = GetPageID p.
Proof.
  intros Hl Hm Hsp Hf. destruct (rewrite_kept mode p xs Hl Hm) as (p' & H1 & H2); [|done|].
  - clear -Hsp. induction xs as [|x xs IH]; cbn in *; [constructor|].
    unfold space in IH. constructor; [unfold SlotSize in *; lia|apply IH; lia].
  - exists p'. by rewrite fitting_cells_all in H2.
Qed.
End stores.

(** ** Properties *)

(** C25: [Insert] into a well-formed page appends the cell and its slot when
    both fit the free space, keeping the invariant, the earlier cells and the
    header; otherwise it reports "page full" and changes nothing.  The error
    branch needs the cell to be below 61000 bytes, where the [uint16] size
    computation does not wrap. *)
Theorem Insert_correct c p :
  page_wf p -> len c < 61000 ->
  if len c + SlotSize <=? room p then
    exists p', Insert c p = (Ok (getSlotCount p), p') /\ page_wf p' /\ cells p' = cells p ++ [c]
      /\ room p' = room p - (len c + SlotSize)
      /\ GetPageID p' = GetPageID p /\ GetLSN p' = GetLSN p /\ GetPageType p' = GetPageType p
  else Insert c p = (Err ErrPageFull, p).
Proof.
  intros Hwf Hc. destruct (_ <=? _) eqn:E; bool_lia; [|by apply Insert_full].
  exists (inserted c p). split; [by apply Insert_room|]. split; [by apply inserted_wf|].
  split; [by apply inserted_cells|]. split; [by apply inserted_room|].
  unfold GetPageID, GetLSN, GetPageType. split_and!; by apply inserted_header.
Qed.

Lemma len_zeros_page : len (zeros PageSize) = PageSize.
Proof. apply len_zeros. Qed.

Lemma Insert_correct_witness :
  exists p', Insert [x61; x62] (NewPage PageTypeLeaf) = (Ok 0, p') /\ cells p' = [[x61; x62]].
Proof.
  destruct (Init_wf PageTypeLeaf (zeros PageSize) len_zeros_page (or_introl eq_refl))
    as (Hw & Hc & Hr).
  pose proof (Insert_correct [x61; x62] (NewPage PageTypeLeaf) Hw eq_refl) as H.
  unfold NewPage in H. rewrite Hr in H.
  destruct H as (p' & E1 & _ & E2 & _). exists p'. rewrite Hc in E2. split; [|done].
  unfold NewPage. rewrite E1. do 2 f_equal.
Defined.

(** C26: wiping a page and re-inserting a list of cells, which is how the tree
    updates every page, stores exactly the cells that still fit one after the
    other; the ones that do not are dropped without an error. *)
Theorem rewrite_keeps_fitting cs mode p :
  len p = PageSize -> mode = PageTypeLeaf \/ mode = PageTypeInternal ->
  Forall (fun c => len c < 61000) cs ->
  exists p', insert_cells cs (Init mode p) = (Ok tt, p') /\ page_wf p'
    /\ cells p' = fitting 4064 cs /\ (cells p' = cs <-> space cs <= 4064).
Proof.
  intros Hl Hm Hcs. destruct (Init_wf mode p Hl Hm) as (Hw & Hc & Hr).
  destruct (insert_cells_spec cs (Init mode p) Hw Hcs) as (p' & E1 & E2 & E3 & _).
  rewrite Hc, Hr in E3. simpl in E3. exists p'. split; [done|]. split; [done|]. split; [done|].
  rewrite E3. split; [|apply fitting_all]. intros <-. apply fitting_space.
Qed.

Lemma rewrite_keeps_fitting_witness :
  exists p', insert_cells [[x61]; zeros 4100; [x62]] (Init PageTypeLeaf (zeros PageSize)) = (Ok tt, p')
    /\ cells p' = [[x61]; [x62]].
Proof.
  destruct (rewrite_keeps_fitting [[x61]; zeros 4100; [x62]] PageTypeLeaf (zeros PageSize)
    len_zeros_page (or_introl eq_refl)) as (p' & E1 & _ & E2 & _).
  - repeat constructor.
  - exists p'. split; [done|]. rewrite E2. reflexivity.
Defined.

(** C27: on a well-formed page [Get] returns the cell of every slot below the
    slot count, and "invalid slot id" for the others. *)
Theorem Get_correct p i :
  page_wf p ->
  match cells p !! N.to_nat i with
  | Some c => exists rest, Get p i = Ok (Slice c rest)
  | None => Get p i = Err ErrInvalidSlot
  end.
Proof.
  intros Hwf. destruct (decide (i < getSlotCount p)) as [Hi|Hi].
  - rewrite (lookup_cells p i Hi). eexists. by apply Get_cell.
  - rewrite lookup_ge_None_2.
    + apply Get_invalid; [by apply Hwf|lia].
    + pose proof (len_cells p). unfold len in *. lia.
Qed.

Lemma Get_correct_witness : Get (NewPage PageTypeLeaf) 3 = Err ErrInvalidSlot.
Proof.
  destruct (Init_wf PageTypeLeaf (zeros PageSize) len_zeros_page (or_introl eq_refl)) as (Hw & Hc & _).
  pose proof (Get_correct (NewPage PageTypeLeaf) 3 Hw) as H.
  unfold NewPage in H. rewrite Hc in H. exact H.
Defined.

(** C28: [SetChecksum] then [VerifyChecksum] accepts the page and leaves it as
    it is; changing any single byte of the checksummed page, in the checksum
    field or elsewhere, is detected. *)
Theorem checksum_correct p :
  len p = PageSize ->
  VerifyChecksum (SetChecksum p) = (true, SetChecksum p)
  /\ forall i x y, SetChecksum p !! i = Some x -> x <> y ->
     (VerifyChecksum (<[i := y]> (SetChecksum p))).1 = false.
Proof.
  intros H. split; [by apply Verify_set|]. intros i x y. by apply Verify_corrupt.
Qed.

Lemma checksum_correct_witness :
  (VerifyChecksum (SetChecksum (zeros PageSize))).1 = true.
Proof. by rewrite (proj1 (checksum_correct (zeros PageSize) len_zeros_page)). Defined.
