(* ===== verification/Pager.v ===== *)
(** * Files and the pager ([internal/storage/pager.go])

    An [os.File] is its bytes and the faults its next operations will meet;
    the pager stores page [id] at offset [id * 4096]. *)

From S2P Require Import Prelude Crc Cell Page.

(** ** [os.File] *)

(** [f_faults] scripts the environment: each system call takes one entry;
    [None] (or the end of the script) is success, [Some n] is an error, which
    for a write strikes after [n] bytes. *)
Record File := mkFile { f_data : bytes; f_faults : list (option N) }.

Definition new_file : File := mkFile [] [].

Definition set_data (d : bytes) (f : File) : File := mkFile d (f_faults f).

(** Consumes one entry of the script. *)
Definition next_fault : M File (option N) := fun f =>
  match f_faults f with
  | [] => (Ok None, f)
  | x :: fs => (Ok x, mkFile (f_data f) fs)
  end.

(** The bytes of a file after [d] was written at [off]; a gap is zeros. *)
Definition write_at (data : bytes) (off : N) (d : bytes) : bytes :=
  match d with
  | [] => data
  | _ => take (N.to_nat off) (data ++ zeros (off - len data)) ++ d
           ++ drop (N.to_nat (off + len d)) data
  end.

Definition WriteAt (d : bytes) (off : N) : M File unit :=
  fault ← next_fault;
  match fault with
  | None => modify (fun f => set_data (write_at (f_data f) off d) f)
  | Some n =>
      _ ← modify (fun f => set_data (write_at (f_data f) off (take (N.to_nat n) d)) f);
      throw ErrOS
  end.

(** [file.Write] on a file opened with [O_APPEND]. *)
Definition Write (d : bytes) : M File unit :=
  fault ← next_fault;
  match fault with
  | None => modify (fun f => set_data (f_data f ++ d) f)
  | Some n =>
      _ ← modify (fun f => set_data (f_data f ++ take (N.to_nat n) d) f);
      throw ErrOS
  end.

(** [file.ReadAt(buf, off)] with a buffer of [n] bytes; [off] is an [int64]. *)
Definition ReadAt (n off : N) : M File bytes :=
  fault ← next_fault;
  match fault with
  | Some _ => throw ErrOS
  | None =>
      f ← gets id;
      if 9223372036854775808 <=? off then throw ErrOS
      else if off + n <=? len (f_data f) then mret (sub (f_data f) off n)
      else throw ErrEOF
  end.

Definition Sync : M File unit :=
  fault ← next_fault;
  match fault with Some _ => throw ErrOS | None => mret tt end.

(** [file.Stat()], of which the code uses the size. *)
Definition Stat : M File N :=
  fault ← next_fault;
  match fault with Some _ => throw ErrOS | None => gets (fun f => len (f_data f)) end.

(** [file.Close()].  That a later call on the handle fails is left out: the
    program ends or opens the files again. *)
Definition CloseFile : M File unit :=
  fault ← next_fault;
  match fault with Some _ => throw ErrOS | None => mret tt end.

(** ** The pager *)

Definition ClosePager : M File unit := CloseFile.

Definition WritePage (pageID : N) (p : page) : M File unit :=
  if negb (len p =? PageSize) then throw ErrPageSize else
  WriteAt p (pageID * PageSize).

(** The page read, which replaces the contents of the argument. *)
Definition ReadPage (pageID : N) (p : page) : M File page :=
  if negb (len p =? PageSize) then throw ErrPageSize else
  ReadAt (len p) (pageID * PageSize).

Definition AllocatePage (mode : N) : M File N :=
  size ← Stat;
  let newPageID := u32 (size / PageSize) in
  let p := SetPageID newPageID (NewPage mode) in
  _ ← WritePage newPageID p;
  mret newPageID.

(** [id, _ := AllocatePage(mode)]: the new id comes back with an error of the
    write, and zero with an error of [Stat]. *)
Definition AllocatePage_ (mode : N) : M File N :=
  r ← attempt Stat;
  match r with
  | inr _ => mret 0
  | inl size =>
      let newPageID := u32 (size / PageSize) in
      let p := SetPageID newPageID (NewPage mode) in
      _ ← ignore (WritePage newPageID p);
      mret newPageID
  end.

(** ** The file as an array of pages *)

Definition n_pages (f : File) : N := len (f_data f) / PageSize.
Definition page_at (f : File) (id : N) : page := sub (f_data f) (id * PageSize) PageSize.

(** No fault is scripted. *)
Definition healthy (f : File) : Prop := f_faults f = [].

(** A database file: whole pages, as many as [uint32] ids can name, no fault. *)
Record db_file (f : File) : Prop := {
  dbf_healthy : healthy f;
  dbf_whole : len (f_data f) = n_pages f * PageSize;
  dbf_bound : n_pages f < 4294967296
}.

(** * Lemmas *)

Lemma len_write_at data off d :
  d <> [] -> len (write_at data off d) = N.max (len data) (off + len d).
Proof. intros Hd. destruct d as [|x d]; [done|]. unfold write_at. len. Qed.

Lemma lookup_write_at data off d i :
  d <> [] -> off <= len data ->
  write_at data off d !! i =
    if decide (N.to_nat off <= i < N.to_nat off + length d)%nat
    then d !! (i - N.to_nat off)%nat else data !! i.
Proof.
  intros Hd Ho. destruct d as [|x d]; [done|]. unfold write_at.
  set (dd := x :: d). replace (off - len data) with 0 by lia.
  change (zeros 0) with (@nil byte). rewrite app_nil_r.
  assert (Hl : length (take (N.to_nat off) data) = N.to_nat off)
    by (rewrite length_take; unfold len in *; lia).
  case_decide as Hi.
  - rewrite lookup_app_r by lia. rewrite Hl. by rewrite lookup_app_l by lia.
  - destruct (decide (i < N.to_nat off)%nat).
    + rewrite lookup_app_l by lia. by rewrite lookup_take_lt.
    + rewrite lookup_app_r, Hl, lookup_app_r, lookup_drop by (rewrite ?Hl; lia).
      f_equal. unfold len. lia.
Qed.

Lemma sub_write_at_eq data off d :
  d <> [] -> off <= len data -> sub (write_at data off d) off (len d) = d.
Proof.
  intros Hd Ho. apply list_eq. intros i. rewrite lookup_sub, lookup_write_at by done.
  unfold len. destruct (decide (i < length d)%nat).
  - rewrite !decide_True by lia. f_equal. lia.
  - rewrite decide_False by lia. symmetry. apply lookup_ge_None. lia.
Qed.

Lemma sub_write_at_ne data off d off' n :
  d <> [] -> off <= len data -> off' + n <= off \/ off + len d <= off' ->
  sub (write_at data off d) off' n = sub data off' n.
Proof.
  intros Hd Ho Hn. apply list_eq. intros i. rewrite !lookup_sub.
  case_decide; [|done]. rewrite lookup_write_at by done.
  unfold len in *. by rewrite decide_False by lia.
Qed.

(** ** System calls without faults *)

Lemma WriteAt_ok d off f :
  healthy f -> WriteAt d off f = (Ok tt, set_data (write_at (f_data f) off d) f).
Proof. unfold healthy. destruct f as [x fs]. simpl. by intros ->. Qed.

Lemma Write_ok d f : healthy f -> Write d f = (Ok tt, set_data (f_data f ++ d) f).
Proof. unfold healthy. destruct f as [x fs]. simpl. by intros ->. Qed.

Lemma Sync_ok f : healthy f -> Sync f = (Ok tt, f).
Proof. unfold healthy. destruct f as [x fs]. simpl. by intros ->. Qed.

Lemma Stat_ok f : healthy f -> Stat f = (Ok (len (f_data f)), f).
Proof. unfold healthy. destruct f as [x fs]. simpl. by intros ->. Qed.

Lemma ReadAt_healthy n off f :
  healthy f -> off < 9223372036854775808 ->
  ReadAt n off f = (if off + n <=? len (f_data f) then Ok (sub (f_data f) off n) else Err ErrEOF, f).
Proof.
  unfold healthy. destruct f as [x fs]. simpl. intros -> Ho.
  unfold ReadAt, mbind, M_bind, next_fault, gets. cbn.
  destruct (9223372036854775808 <=? off) eqn:E; bool_lia; [lia|].
  by destruct (_ <=? _).
Qed.

(** ** Pages of a database file *)

Lemma page_nonempty (p : page) : len p = PageSize -> p <> [].
Proof. intros H ->. done. Qed.

Section pager.
Context (f : File) (Hf : db_file f).

Lemma WritePage_at id p :
  len p = PageSize -> id <= n_pages f ->
  exists f', WritePage id p f = (Ok tt, f') /\ healthy f'
    /\ len (f_data f') = N.max (len (f_data f)) (id * PageSize + PageSize)
    /\ page_at f' id = p
    /\ (forall id', id' <> id -> page_at f' id' = page_at f id').
Proof.
  intros Hp Hid. destruct Hf as [Hh Hw _].
  assert (Ho : id * PageSize <= len (f_data f)) by (unfold PageSize in *; lia).
  assert (Hne : p <> []) by (by apply page_nonempty).
  eexists. unfold WritePage. rewrite Hp, N.eqb_refl. cbn [negb].
  split; [by apply WriteAt_ok|]. split; [done|]. split; [|split].
  - cbn. rewrite len_write_at by done. by rewrite Hp.
  - unfold page_at. cbn. rewrite <-Hp at 3. by apply sub_write_at_eq.
  - intros id' Hne'. unfold page_at. cbn. apply sub_write_at_ne; [done..|].
    rewrite Hp. unfold PageSize. lia.
Qed.

(** Overwriting a page in place. *)
Lemma WritePage_in id p :
  len p = PageSize -> id < n_pages f ->
  exists f', WritePage id p f = (Ok tt, f') /\ db_file f' /\ n_pages f' = n_pages f
    /\ page_at f' id = p /\ (forall id', id' <> id -> page_at f' id' = page_at f id').
Proof.
  intros Hp Hid. destruct Hf as [Hh Hw Hb].
  destruct (WritePage_at id p) as (f' & H1 & H2 & H3 & H4 & H5); [done|lia|].
  exists f'. assert (Hlen : len (f_data f') = len (f_data f)) by (unfold PageSize in *; lia).
  assert (Hn : n_pages f' = n_pages f) by (unfold n_pages; by rewrite Hlen).
  split; [done|]. split; [|done]. constructor; [done| |]; rewrite ?Hlen, Hn; done.
Qed.

Lemma ReadPage_in id p :
  len p = PageSize -> id < n_pages f -> ReadPage id p f = (Ok (page_at f id), f).
Proof.
  intros Hp Hid. destruct Hf as [Hh Hw Hb].
  unfold ReadPage. rewrite Hp, N.eqb_refl. cbn [negb].
  rewrite ReadAt_healthy by (done || (unfold PageSize in *; lia)).
  rewrite (proj2 (N.leb_le _ _)); [done|]. unfold PageSize in *. lia.
Qed.

Lemma ReadPage_out id p :
  len p = PageSize -> n_pages f <= id < 4294967296 -> ReadPage id p f = (Err ErrEOF, f).
Proof.
  intros Hp Hid. destruct Hf as [Hh Hw Hb].
  unfold ReadPage. rewrite Hp, N.eqb_refl. cbn [negb].
  rewrite ReadAt_healthy by (done || (unfold PageSize in *; lia)).
  rewrite (proj2 (N.leb_gt _ _)); [done|]. unfold PageSize in *. lia.
Qed.

Lemma len_page_at id : id < n_pages f -> len (page_at f id) = PageSize.
Proof.
  intros Hid. destruct Hf as [_ Hw _]. apply len_sub. unfold PageSize in *. lia.
Qed.

Lemma len_NewPage mode : len (NewPage mode) = PageSize.
Proof. unfold NewPage, Init, SetPageType, SetLSN, setSlotCount, setFreeSpaceOffset. len. Qed.

(** Allocation appends exactly one initialised page. *)
Lemma AllocatePage_ok mode :
  n_pages f + 1 < 4294967296 ->
  exists f', AllocatePage mode f = (Ok (n_pages f), f') /\ db_file f'
    /\ n_pages f' = n_pages f + 1
    /\ page_at f' (n_pages f) = SetPageID (n_pages f) (NewPage mode)
    /\ (forall id, id < n_pages f -> page_at f' id = page_at f id).
Proof.
  intros Hb'. destruct Hf as [Hh Hw Hb]. unfold AllocatePage.
  mstep (Stat_ok f Hh). fold (n_pages f).
  replace (u32 (n_pages f)) with (n_pages f) by (unfold u32; lia).
  destruct (WritePage_at (n_pages f) (SetPageID (n_pages f) (NewPage mode)))
    as (f' & H1 & H2 & H3 & H4 & H5); [|lia|].
  { unfold SetPageID. rewrite len_set_field. apply len_NewPage. }
  mstep H1. exists f'.
  assert (Hn : n_pages f' = n_pages f + 1)
    by (unfold n_pages, PageSize in *; rewrite H3, Hw; lia).
  split; [done|]. split; [|split; [done|split; [done|]]].
  - constructor; [done| |]; rewrite Hn; [|done]. unfold PageSize in *. lia.
  - intros id Hid. apply H5. lia.
Qed.
End pager.

(** A write that fails after [n] bytes leaves a torn page: [n] new bytes, then
    the old ones, and no other page is touched. *)
Lemma WritePage_torn f id p n fs :
  f_faults f = Some n :: fs -> len p = PageSize -> id < n_pages f -> 0 < n <= PageSize ->
  exists f', WritePage id p f = (Err ErrOS, f')
    /\ page_at f' id = take (N.to_nat n) p ++ drop (N.to_nat n) (page_at f id)
    /\ (forall id', id' <> id -> page_at f' id' = page_at f id').
Proof.
  intros Hfs Hp Hid Hn. destruct f as [data fs']. simpl in Hfs. subst fs'.
  unfold WritePage. rewrite Hp, N.eqb_refl. cbn [negb]. eexists. split; [done|].
  unfold n_pages, page_at in *. cbn in *.
  assert (Ho : (id + 1) * PageSize <= len data) by (unfold PageSize in *; lia).
  set (d := take (N.to_nat n) p).
  assert (Hd : len d = n) by (unfold d; unfold PageSize in *; len).
  assert (Hne : d <> []) by (intros E; rewrite E in Hd; simpl in Hd; rewrite len_nil in Hd; lia).
  split.
  - apply list_eq. intros i. rewrite lookup_sub, lookup_write_at by (unfold PageSize in *; lia || done).
    unfold len in *. destruct (decide (N.of_nat i < PageSize)) as [Hi|Hi].
    + destruct (decide (i < length d)%nat) as [Hin|Hin].
      * rewrite decide_True by lia. rewrite lookup_app_l by done. f_equal. lia.
      * rewrite decide_False by lia. rewrite lookup_app_r, lookup_drop, lookup_sub by lia.
        rewrite decide_True by lia. f_equal. lia.
    + symmetry. apply lookup_ge_None. rewrite length_app, length_drop.
      unfold sub. rewrite length_take, length_drop. unfold PageSize in *. lia.
  - intros id' Hid'. apply sub_write_at_ne; unfold PageSize in *; try done; lia.
Qed.

(** ** Properties *)

(** C35: the pager implements an array of pages: after [WritePage id p], reading
    any page of the file gives [p] at [id] and what was there before elsewhere. *)
Theorem pager_read_after_write f id p :
  db_file f -> len p = PageSize -> id < n_pages f ->
  exists f', WritePage id p f = (Ok tt, f') /\ db_file f' /\ n_pages f' = n_pages f
    /\ forall id' q, len q = PageSize -> id' < n_pages f ->
       ReadPage id' q f' = (Ok (if decide (id' = id) then p else page_at f id'), f').
Proof.
  intros Hf Hp Hid. destruct (WritePage_in f Hf id p Hp Hid) as (f' & E1 & E2 & E3 & E4 & E5).
  exists f'. split_and!; [done|done|done|]. intros id' q Hq Hid'.
  rewrite (ReadPage_in f' E2 id' q Hq) by (by rewrite E3).
  case_decide as E; [by subst|]. by rewrite E5.
Qed.

Definition two_pages : File := mkFile (zeros 8192) [].

Lemma db_file_two_pages : db_file two_pages.
Proof. constructor; [done| |]; by vm_compute. Qed.

Lemma n_pages_two : n_pages two_pages = 2.
Proof. reflexivity. Qed.

Lemma pager_read_after_write_witness :
  exists f', WritePage 1 (NewPage PageTypeLeaf) two_pages = (Ok tt, f')
    /\ ReadPage 1 (NewPage PageTypeFree) f' = (Ok (NewPage PageTypeLeaf), f').
Proof.
  destruct (pager_read_after_write two_pages 1 (NewPage PageTypeLeaf) db_file_two_pages
    (len_NewPage _)) as (f' & E1 & _ & _ & E2).
  - by rewrite n_pages_two.
  - exists f'. split; [done|]. rewrite E2; [done|apply len_NewPage|by rewrite n_pages_two].
Defined.

(** C36: [AllocatePage] appends exactly one page, initialised for its mode and
    carrying its own id, and leaves every other page alone. *)
Theorem allocate_appends f mode :
  db_file f -> n_pages f + 1 < 4294967296 ->
  exists f', AllocatePage mode f = (Ok (n_pages f), f') /\ db_file f'
    /\ n_pages f' = n_pages f + 1
    /\ page_at f' (n_pages f) = SetPageID (n_pages f) (NewPage mode)
    /\ (forall id, id < n_pages f -> page_at f' id = page_at f id).
Proof. intros Hf. by apply AllocatePage_ok. Qed.

Lemma allocate_appends_witness :
  exists f', AllocatePage PageTypeLeaf two_pages = (Ok 2, f') /\ n_pages f' = 3.
Proof.
  destruct (allocate_appends two_pages PageTypeLeaf db_file_two_pages) as (f' & E1 & _ & E2 & _).
  - by rewrite n_pages_two.
  - rewrite n_pages_two in *. by exists f'.
Defined.

(** A write that fails after [n] bytes reports the error and leaves a torn
    page, [n] new bytes and then the old ones, without touching other pages. *)
Theorem torn_write f id p n fs :
  f_faults f = Some n :: fs -> len p = PageSize -> id < n_pages f -> 0 < n <= PageSize ->
  exists f', WritePage id p f = (Err ErrOS, f')
    /\ page_at f' id = take (N.to_nat n) p ++ drop (N.to_nat n) (page_at f id)
    /\ (forall id', id' <> id -> page_at f' id' = page_at f id').
Proof. apply WritePage_torn. Qed.

Lemma torn_write_witness :
  exists f', WritePage 1 (NewPage PageTypeLeaf) (mkFile (zeros 8192) [Some 100]) = (Err ErrOS, f').
Proof.
  destruct (torn_write (mkFile (zeros 8192) [Some 100]) 1 (NewPage PageTypeLeaf) 100 []
    eq_refl (len_NewPage _)) as (f' & E & _).
  - change (n_pages (mkFile (zeros 8192) [Some 100])) with (n_pages two_pages). by rewrite n_pages_two.
  - done.
  - by exists f'.
Defined.
