(* ===== verification/Wal.v ===== *)
(** * The write-ahead log ([internal/storage/wal.go])

    Log records and their wire format, the append-only log file whose byte
    offsets are the LSNs, and checkpoint records.  [wal_ok w recs] is the
    abstraction: the log holds exactly the records [recs]. *)

From S2P Require Import Prelude Crc Cell Page Pager.

Definition LogOpInsert : N := 1.
Definition LogOpDelete : N := 2.
Definition LogOpFullPage : N := 3.
Definition LogOpCommit : N := 4.
Definition LogOpAbort : N := 5.
Definition LogOpCLR : N := 6.
Definition LogOpCheckpoint : N := 7.
Definition LogOpUndoInsert : N := 8.

Record LogRecord := mkLogRecord {
  rLSN : N;
  rTxnID : N;
  rPrevLSN : N;
  rPageID : N;
  rOpType : N;
  rKey : bytes;
  rValue : bytes
}.

#[global] Instance LogRecord_eq_dec : EqDecision LogRecord.
Proof. solve_decision. Defined.

(** ** Wire format *)

Definition record_size (l : LogRecord) : N :=
  4 + 8 + 8 + 4 + 1 + 8 + 2 + 4 + len (rKey l) + len (rValue l) + 4.

Definition LogRecord_Serialize (l : LogRecord) : bytes :=
  let totalSize := record_size l in
  let buf := zeros totalSize in
  let buf := splice buf 0 (le_enc 4 (u32 totalSize)) in
  let buf := splice buf 4 (le_enc 8 (rLSN l)) in
  let buf := splice buf 12 (le_enc 8 (rTxnID l)) in
  let buf := splice buf 20 (le_enc 4 (rPageID l)) in
  let buf := splice buf 24 [n2b (rOpType l)] in
  let buf := splice buf 25 (le_enc 8 (rPrevLSN l)) in
  let buf := splice buf 33 (le_enc 2 (u16 (len (rKey l)))) in
  let buf := splice buf 35 (le_enc 4 (u32 (len (rValue l)))) in
  let offset := 39 in
  let buf := splice buf offset (rKey l) in
  let offset := offset + len (rKey l) in
  let buf := splice buf offset (rValue l) in
  let offset := offset + len (rValue l) in
  let checksum := crc32 (sub buf 4 (offset - 4)) in
  splice buf offset (le_enc 4 checksum).

(** [DeserializeLogRecord], whose value is a slice of the buffer: it can be
    resliced over what follows it there, the checksum. *)
Definition decode_record (data : bytes) : outcome (LogRecord * slice) :=
  if len data <? 43 then Err ErrLogSmall else
  let size := get_field data 0 4 in
  if negb (size =? len data) then Err ErrLogSizeMismatch else
  let crcOffset := len data - 4 in
  let expectedCRC := get_field data crcOffset 4 in
  let actualCRC := crc32 (sub data 4 (crcOffset - 4)) in
  if negb (expectedCRC =? actualCRC) then Err ErrLogChecksum else
  let keyLen := get_field data 33 2 in
  let valLen := get_field data 35 4 in
  let offset := 39 in
  key ← sl_cut (slice_of data) offset (offset + keyLen);
  let offset := offset + keyLen in
  value ← sl_cut (slice_of data) offset (offset + valLen);
  Ok (mkLogRecord (get_field data 4 8) (get_field data 12 8) (get_field data 25 8)
        (get_field data 20 4) (get_field data 24 1) (sl_data key) (sl_data value), value).

Definition DeserializeLogRecord (data : bytes) : outcome LogRecord :=
  r ← decode_record data; Ok r.1.

(** ** The log *)

Record WAL := mkWAL { w_file : File; currentLSN : N }.

Definition on_wal_file {A} (m : M File A) : M WAL A :=
  zoom w_file (fun f w => mkWAL f (currentLSN w)) m.

Definition wal_magic : bytes := bytes_of_string "WAL" ++ [n2b 10].

(** [NewWAL] after the file was opened; a failed [Stat] leaves [stat] nil. *)
Definition NewWAL : M WAL unit :=
  stat ← on_wal_file (attempt Stat);
  match stat with
  | inr _ => panic
  | inl size =>
      size ← (if size =? 0 then
                _ ← on_wal_file (ignore (Write wal_magic));
                _ ← on_wal_file (ignore Sync);
                mret 4
              else mret size);
      modify (fun w => mkWAL (w_file w) (u64 size))
  end.

Definition Append (txnID pageID prevLSN opType : N) (key value : bytes) : M WAL N :=
  lsn ← gets currentLSN;
  let rec := mkLogRecord lsn txnID prevLSN pageID opType key value in
  let data := LogRecord_Serialize rec in
  _ ← on_wal_file (Write data);
  _ ← modify (fun w => mkWAL (w_file w) (u64 (currentLSN w + len data)));
  _ ← on_wal_file Sync;
  mret lsn.

(** The record at offset [lsn], with its value as a slice, and its size. *)
Definition read_record (lsn : N) : M WAL (LogRecord * slice * N) :=
  sizeBuf ← on_wal_file (ReadAt 4 lsn);
  let size := le_dec sizeBuf in
  if size <? 43 then throw ErrLogCorruptSize else
  buf ← on_wal_file (ReadAt size lsn);
  rec ← pure (decode_record buf);
  mret (rec, size).

(** The record alone, for callers that do not reslice the value. *)
Definition ReadRecord (lsn : N) : M WAL (LogRecord * N) :=
  r ← read_record lsn; mret (r.1.1, r.2).

Definition CloseWAL : M WAL unit := on_wal_file CloseFile.

(** The payload of a checkpoint record: the dirty page table, in map order. *)
Definition checkpoint_payload `{MapRange} (tick : nat) (dpt : gmap N N) : bytes :=
  let n := N.of_nat (size dpt) in
  let buf := zeros (4 + n * 12) in
  let buf := splice buf 0 (le_enc 4 (u32 n)) in
  fst (foldl (fun '(buf, offset) '(pageID, recLSN) =>
                let buf := splice buf offset (le_enc 4 pageID) in
                let buf := splice buf (offset + 4) (le_enc 8 recLSN) in
                (buf, offset + 12))
             (buf, 4) (map_range tick dpt)).

Definition WriteCheckpoint `{MapRange} (tick : nat) (dpt : gmap N N) : M WAL N :=
  Append 0 0 0 LogOpCheckpoint [] (checkpoint_payload tick dpt).

(** ** The abstract log *)

(** A record whose fields fit their wire format. *)
Record rec_fits (l : LogRecord) : Prop := {
  rf_lsn : rLSN l < 18446744073709551616;
  rf_txn : rTxnID l < 18446744073709551616;
  rf_prev : rPrevLSN l < 18446744073709551616;
  rf_page : rPageID l < 4294967296;
  rf_op : rOpType l < 256;
  rf_key : len (rKey l) < 65536;
  rf_size : record_size l < 4294967296
}.

(** The bytes of a list of records, and their size. *)
Definition log_bytes (recs : list LogRecord) : bytes :=
  foldr (fun r b => LogRecord_Serialize r ++ b) [] recs.
Definition log_size (recs : list LogRecord) : N := foldr (fun r n => record_size r + n) 0 recs.

(** Each record carries its own offset as its LSN. *)
Fixpoint lsns_from (lsn : N) (recs : list LogRecord) : Prop :=
  match recs with
  | [] => True
  | r :: recs' => rLSN r = lsn /\ lsns_from (lsn + record_size r) recs'
  end.

Record wal_ok (w : WAL) (recs : list LogRecord) : Prop := {
  wo_healthy : healthy (w_file w);
  wo_bytes : f_data (w_file w) = wal_magic ++ log_bytes recs;
  wo_lsn : currentLSN w = 4 + log_size recs;
  wo_lsns : lsns_from 4 recs;
  wo_fits : Forall rec_fits recs;
  wo_bound : 4 + log_size recs < 9223372036854775808
}.

(** * Lemmas *)

(** The record up to its checksum, without the size field. *)
Definition record_body (l : LogRecord) : bytes :=
  le_enc 8 (rLSN l) ++ le_enc 8 (rTxnID l) ++ le_enc 4 (rPageID l) ++ [n2b (rOpType l)]
    ++ le_enc 8 (rPrevLSN l) ++ le_enc 2 (u16 (len (rKey l)))
    ++ le_enc 4 (u32 (len (rValue l))) ++ rKey l ++ rValue l.

Definition record_image (l : LogRecord) : bytes :=
  le_enc 4 (u32 (record_size l)) ++ record_body l ++ le_enc 4 (crc32 (record_body l)).

(** The value of a record read back: its buffer goes on with the checksum. *)
Definition value_slice (l : LogRecord) : slice := Slice (rValue l) (le_enc 4 (crc32 (record_body l))).

Lemma len_record_body l : len (record_body l) = 35 + len (rKey l) + len (rValue l).
Proof. unfold record_body. len. Qed.

Lemma LogRecord_Serialize_image l : LogRecord_Serialize l = record_image l.
Proof.
  unfold LogRecord_Serialize, record_image. set (total := record_size l).
  assert (Ht : total = 43 + len (rKey l) + len (rValue l)) by (unfold total, record_size; lia).
  clearbody total.
  rewrite splice_zeros_0 by len. rewrite !splice_zeros by len.
  set (z := zeros _).
  assert (Hz : z = zeros 4) by (unfold z; f_equal; len).
  rewrite Hz. clear z Hz.
  match goal with |- context [sub (?b ++ zeros 4) 4 _] =>
    assert (Hb : b = le_enc 4 (u32 total) ++ record_body l)
      by (unfold record_body; by rewrite <-!(assoc_L (++)));
    rewrite Hb
  end.
  rewrite sub_app_l by (rewrite len_app, len_record_body; len).
  rewrite sub_app_r by len. replace (4 - len (le_enc 4 (u32 total))) with 0 by len.
  rewrite sub_all by (rewrite len_record_body; lia).
  match goal with |- context [_ ++ zeros ?n] => replace n with 0 by len end.
  change (zeros 0) with (@nil byte). by rewrite app_nil_r, <-(assoc_L (++)).
Qed.

Lemma len_record l : len (LogRecord_Serialize l) = record_size l.
Proof.
  rewrite LogRecord_Serialize_image. unfold record_image, record_size.
  rewrite !len_app, len_record_body, !len_le_enc. lia.
Qed.
#[export] Hint Rewrite len_record len_record_body : len.

(** ** Decoding a record *)

Lemma get_field_at off w a b c :
  off = len a -> w = len b -> get_field (a ++ b ++ c) off w = le_dec b.
Proof.
  intros -> ->. unfold get_field. rewrite sub_app_r, N.sub_diag, sub_app_l by len.
  by rewrite sub_all.
Qed.

Lemma get_field_0 w b c : w = len b -> get_field (b ++ c) 0 w = le_dec b.
Proof. apply (get_field_at 0 w []). done. Qed.

(** Fields of the body, from the front. *)
Lemma get_field_skip a b off w :
  len a <= off -> get_field (a ++ b) off w = get_field b (off - len a) w.
Proof. intros H. unfold get_field. by rewrite sub_app_r. Qed.

(** Walks over a concatenation of fixed-width fields to the one at the offset. *)
Ltac walk :=
  repeat (rewrite get_field_skip by len;
          match goal with
          | |- context [get_field _ (?o - ?n) _] =>
              let v := eval vm_compute in (o - n) in change (o - n) with v
          end);
  rewrite get_field_0 by len.

Section image.
Context (l : LogRecord) (Hl : rec_fits l).
Let k := len (rKey l).
Let v := len (rValue l).

Lemma record_arith : k < 65536 /\ 43 + k + v < 4294967296 /\ record_size l = 43 + k + v.
Proof.
  destruct Hl as [_ _ _ _ _ Hk Hs]. unfold record_size in *. subst k v. lia.
Qed.

Lemma record_fields :
  get_field (record_image l) 0 4 = record_size l
  /\ get_field (record_image l) 4 8 = rLSN l
  /\ get_field (record_image l) 12 8 = rTxnID l
  /\ get_field (record_image l) 20 4 = rPageID l
  /\ get_field (record_image l) 24 1 = rOpType l
  /\ get_field (record_image l) 25 8 = rPrevLSN l
  /\ get_field (record_image l) 33 2 = k
  /\ get_field (record_image l) 35 4 = v.
Proof.
  pose proof record_arith as (Hk & Hs & Hz). destruct Hl as [H1 H2 H3 H4 H5 H6 H7].
  unfold record_image, record_body. rewrite <-!(assoc_L (++)).
  repeat split; walk.
  1-4, 6: rewrite le_dec_enc_small; [unfold u32; try apply N.mod_small; done|].
  - unfold u32. simpl. lia.
  - done.
  - done.
  - done.
  - done.
  - simpl. rewrite b2n_n2b. rewrite N.mod_small by done. lia.
  - rewrite le_dec_u16. by apply u16_small.
  - rewrite le_dec_enc_small by (unfold u32; simpl; lia). unfold u32. apply N.mod_small. fold v. lia.
Qed.

Lemma record_checksum :
  get_field (record_image l) (record_size l - 4) 4 = crc32 (record_body l)
  /\ sub (record_image l) 4 (record_size l - 4 - 4) = record_body l.
Proof.
  pose proof record_arith as (Hk & Hs & Hz). pose proof (len_record_body l) as Hb.
  fold k v in Hb. rewrite Hz. unfold record_image. split.
  - rewrite (assoc_L (++)), get_field_skip by len.
    replace (_ - _) with 0 by len. unfold get_field.
    rewrite sub_all by len. apply le_dec_enc_small. apply crc32_bound.
  - rewrite sub_app_r, len_le_enc, N.sub_diag by len.
    rewrite sub_app_l, sub_all by len. done.
Qed.

Lemma record_slices :
  decode_record (LogRecord_Serialize l) = Ok (l, value_slice l).
Proof.
  pose proof record_arith as (Hk & Hs & Hz).
  destruct record_fields as (F0 & F1 & F2 & F3 & F4 & F5 & F6 & F7).
  destruct record_checksum as [C1 C2].
  pose proof (len_record l) as Hlen. rewrite LogRecord_Serialize_image in *.
  unfold decode_record. rewrite Hlen, F0, F1, F2, F3, F4, F5, F6, F7, C1, C2.
  rewrite !N.eqb_refl. cbn [negb].
  rewrite (proj2 (N.ltb_ge _ _)) by lia.
  unfold record_image, record_body, slice_of.
  match goal with |- context [le_enc 4 (u32 (record_size l)) ++ (?b ++ _) ++ ?c] =>
    assert (He : exists h, len h = 39 /\
      le_enc 4 (u32 (record_size l)) ++ record_body l ++ c = h ++ rKey l ++ rValue l ++ c)
  end.
  { exists (le_enc 4 (u32 (record_size l)) ++ le_enc 8 (rLSN l) ++ le_enc 8 (rTxnID l)
      ++ le_enc 4 (rPageID l) ++ [n2b (rOpType l)] ++ le_enc 8 (rPrevLSN l)
      ++ le_enc 2 (u16 (len (rKey l))) ++ le_enc 4 (u32 (len (rValue l)))).
    split; [len|]. unfold record_body. by rewrite <-!(assoc_L (++)). }
  destruct He as (h & Hh & He). unfold record_body in He. rewrite He.
  rewrite (sl_cut_at 39 (39 + k) h (rKey l)) by (subst k; len).
  cbn [mbind outcome_bind sl_data].
  rewrite (assoc_L (++) h), (sl_cut_at _ _ (h ++ rKey l) (rValue l)) by (subst k v; len).
  simpl. by destruct l.
Qed.

Lemma record_decode : DeserializeLogRecord (LogRecord_Serialize l) = Ok l.
Proof. unfold DeserializeLogRecord. by rewrite record_slices. Qed.
End image.

(** Any single-byte corruption of a stored record is reported as an error. *)
Lemma record_corrupt l i x y :
  rec_fits l -> LogRecord_Serialize l !! i = Some x -> x <> y ->
  DeserializeLogRecord (<[i := y]> (LogRecord_Serialize l))
    = Err (if decide (i < 4)%nat then ErrLogSizeMismatch else ErrLogChecksum).
Proof.
  intros Hl Hx Hxy. pose proof (record_arith l Hl) as (Hk & Hs & Hz).
  destruct (record_fields l Hl) as (F0 & _). destruct (record_checksum l Hl) as [C1 C2].
  pose proof (len_record l) as Hlen. rewrite LogRecord_Serialize_image in *.
  assert (Hi : (i < N.to_nat (record_size l))%nat)
    by (apply lookup_lt_Some in Hx; unfold len in Hlen; lia).
  set (d := record_image l) in *.
  assert (Hlen' : len (<[i := y]> d) = record_size l)
    by (unfold len in *; by rewrite length_insert).
  unfold DeserializeLogRecord, decode_record. rewrite Hlen'.
  rewrite (proj2 (N.ltb_ge _ _)) by lia. case_decide as Hi4.
  - rewrite (proj2 (N.eqb_neq _ _)); [done|]. rewrite <-F0.
    apply get_field_insert_in with x; (done || lia).
  - rewrite get_field_insert_out, F0, N.eqb_refl by lia. cbn [negb].
    rewrite (proj2 (N.eqb_neq _ _)); [done|].
    destruct (decide (i < N.to_nat (record_size l - 4))%nat) as [Hib|Hib].
    + rewrite get_field_insert_out, C1 by lia.
      assert (Hsub : sub (<[i := y]> d) 4 (record_size l - 4 - 4)
        = <[(i - 4)%nat := y]> (record_body l)).
      { rewrite <-C2. apply list_eq. intros j. rewrite lookup_sub.
        destruct (decide (j = (i - 4)%nat)) as [->|Hj].
        - rewrite decide_True by lia. replace (N.to_nat 4 + (i - 4))%nat with i by lia.
          rewrite !list_lookup_insert_eq; [done| |].
          + unfold sub. rewrite length_take, length_drop. unfold len in Hlen. lia.
          + by eapply lookup_lt_Some.
        - rewrite (list_lookup_insert_ne (sub _ _ _)) by done. rewrite lookup_sub.
          case_decide; [|done]. rewrite list_lookup_insert_ne by lia. done. }
      rewrite Hsub. intros Heq. symmetry in Heq. revert Heq.
      apply crc32_insert_in with x; [|done].
      rewrite <-C2, lookup_sub, decide_True by lia. rewrite <-Hx. f_equal. lia.
    + rewrite sub_insert_out, C2, <-C1 by lia.
      apply get_field_insert_in with x; (done || lia).
Qed.

(** ** Log structure *)

Lemma record_size_pos r : 43 <= record_size r.
Proof. unfold record_size. lia. Qed.

Lemma len_log_bytes recs : len (log_bytes recs) = log_size recs.
Proof.
  induction recs as [|r recs IH]; simpl; [done|]. len.
Qed.

(** Every record takes at least a byte of the log. *)
Lemma log_bytes_longer recs : (length recs <= length (log_bytes recs))%nat.
Proof.
  induction recs as [|r recs IH]; [done|]. cbn [log_bytes foldr length].
  rewrite length_app. pose proof (len_record r) as Hr. pose proof (record_size_pos r). unfold len in Hr.
  unfold log_bytes in IH. lia.
Qed.

Lemma log_bytes_app r1 r2 : log_bytes (r1 ++ r2) = log_bytes r1 ++ log_bytes r2.
Proof. induction r1 as [|r r1 IH]; simpl; [done|]. by rewrite IH, (assoc_L (++)). Qed.

Lemma log_size_app r1 r2 : log_size (r1 ++ r2) = log_size r1 + log_size r2.
Proof. induction r1 as [|r r1 IH]; simpl; lia. Qed.

Lemma lsns_from_app lsn r1 r2 :
  lsns_from lsn (r1 ++ r2) <-> lsns_from lsn r1 /\ lsns_from (lsn + log_size r1) r2.
Proof.
  revert lsn; induction r1 as [|r r1 IH]; intros lsn; simpl.
  - rewrite N.add_0_r. tauto.
  - rewrite IH, N.add_assoc. tauto.
Qed.

(** The offset of the record after [pre]. *)
Definition lsn_after (pre : list LogRecord) : N := 4 + log_size pre.

Lemma lsns_middle pre r post :
  lsns_from 4 (pre ++ r :: post) -> rLSN r = lsn_after pre.
Proof. intros H. apply lsns_from_app in H as [_ [H _]]. done. Qed.

(** The LSNs of a log increase strictly. *)
Lemma lsns_increasing lsn recs :
  lsns_from lsn recs -> StronglySorted (fun a b => rLSN a < rLSN b) recs
    /\ Forall (fun r => lsn <= rLSN r) recs.
Proof.
  revert lsn; induction recs as [|r recs IH]; intros lsn; simpl; [split; constructor|].
  intros [Hr Hs]. apply IH in Hs as [Hs Hf]. pose proof (record_size_pos r).
  split; constructor; try done; [|lia|].
  - eapply Forall_impl; [exact Hf|]. simpl. intros a Ha. lia.
  - eapply Forall_impl; [exact Hf|]. simpl. intros a Ha. lia.
Qed.

(** ** Reading *)

Lemma on_wal_file_eq {A} (m : M File A) w o f' :
  m (w_file w) = (o, f') -> on_wal_file m w = (o, mkWAL f' (currentLSN w)).
Proof. unfold on_wal_file, zoom. by intros ->. Qed.

Lemma WAL_eta w : mkWAL (w_file w) (currentLSN w) = w.
Proof. by destruct w. Qed.

Lemma ReadAt_log w n off :
  healthy (w_file w) -> off < 9223372036854775808 ->
  on_wal_file (ReadAt n off) w
    = (if off + n <=? len (f_data (w_file w)) then Ok (sub (f_data (w_file w)) off n)
       else Err ErrEOF, w).
Proof.
  intros Hh Ho. rewrite (on_wal_file_eq _ _ _ _ (ReadAt_healthy n off _ Hh Ho)).
  by rewrite WAL_eta.
Qed.

(** A log file whose bytes at [lsn] are a whole record gives that record. *)
Lemma read_record_at w lsn r a b :
  healthy (w_file w) -> lsn < 9223372036854775808 -> rec_fits r ->
  f_data (w_file w) = a ++ LogRecord_Serialize r ++ b -> len a = lsn ->
  read_record lsn w
  = (Ok (r, value_slice r, record_size r), w).
Proof.
  intros Hh Hl Hr Hd Ha. pose proof (record_size_pos r) as Hs.
  assert (Hsub : forall n, n <= record_size r ->
    on_wal_file (ReadAt n lsn) w = (Ok (sub (LogRecord_Serialize r) 0 n), w)).
  { intros n Hn. rewrite ReadAt_log by done. rewrite Hd.
    rewrite (proj2 (N.leb_le _ _)) by len. f_equal. f_equal.
    rewrite sub_app_r, Ha, N.sub_diag, sub_app_l by len. done. }
  unfold read_record. mstep (Hsub 4 ltac:(lia)).
  change (le_dec (sub (LogRecord_Serialize r) 0 4)) with (get_field (LogRecord_Serialize r) 0 4).
  destruct (record_fields r Hr) as (F0 & _). rewrite <-LogRecord_Serialize_image in F0.
  rewrite F0. rewrite (proj2 (N.ltb_ge _ _)) by lia.
  mstep (Hsub (record_size r) ltac:(lia)).
  rewrite sub_all by len. unfold mbind, M_bind, pure. by rewrite (record_slices r Hr).
Qed.

Lemma ReadRecord_at w lsn r a b :
  healthy (w_file w) -> lsn < 9223372036854775808 -> rec_fits r ->
  f_data (w_file w) = a ++ LogRecord_Serialize r ++ b -> len a = lsn ->
  ReadRecord lsn w = (Ok (r, record_size r), w).
Proof.
  intros Hh Hl Hr Hd Ha. unfold ReadRecord. by mstep (read_record_at w lsn r a b Hh Hl Hr Hd Ha).
Qed.

(** Every record of a well-formed log reads back, its value followed by the
    checksum. *)
Lemma read_record_ok w pre r post :
  wal_ok w (pre ++ r :: post) ->
  read_record (lsn_after pre) w
  = (Ok (r, value_slice r, record_size r), w).
Proof.
  intros [Hh Hb _ Hl Hf Hs].
  rewrite log_size_app in Hs. simpl in Hs. pose proof (record_size_pos r).
  apply (read_record_at w (lsn_after pre) r (wal_magic ++ log_bytes pre) (log_bytes post)).
  - done.
  - unfold lsn_after. lia.
  - rewrite Forall_app, Forall_cons in Hf. tauto.
  - rewrite Hb, log_bytes_app. by rewrite <-(assoc_L (++)).
  - rewrite len_app, len_log_bytes. done.
Qed.

Lemma ReadRecord_ok w pre r post :
  wal_ok w (pre ++ r :: post) ->
  ReadRecord (lsn_after pre) w = (Ok (r, record_size r), w).
Proof. intros Hw. unfold ReadRecord. by mstep (read_record_ok _ _ _ _ Hw). Qed.

(** At the end of the bytes, even inside a record cut short by a crash, the
    reader reports an error and so recovery stops there. *)
Lemma read_record_tail w a tail r :
  healthy (w_file w) -> rec_fits r -> len a + record_size r < 9223372036854775808 ->
  f_data (w_file w) = a ++ tail -> tail `prefix_of` LogRecord_Serialize r ->
  tail <> LogRecord_Serialize r ->
  read_record (len a) w = (Err ErrEOF, w).
Proof.
  intros Hh Hr Ha Hd [t Ht] Hne. pose proof (record_size_pos r) as Hs.
  assert (Hlt : len tail < record_size r).
  { rewrite <-len_record, Ht, len_app. destruct t as [|x t]; [by rewrite app_nil_r in Ht|].
    rewrite len_cons. lia. }
  unfold read_record. destruct (decide (4 <= len tail)) as [H4|H4].
  - assert (E : on_wal_file (ReadAt 4 (len a)) w = (Ok (sub (LogRecord_Serialize r) 0 4), w)).
    { rewrite ReadAt_log by (done || lia). rewrite Hd.
      rewrite (proj2 (N.leb_le _ _)) by len. f_equal. f_equal.
      rewrite sub_app_r, N.sub_diag, Ht, sub_app_l by len. done. }
    mstep E.
    change (le_dec (sub (LogRecord_Serialize r) 0 4)) with (get_field (LogRecord_Serialize r) 0 4).
    destruct (record_fields r Hr) as (F0 & _). rewrite <-LogRecord_Serialize_image in F0.
    rewrite F0. rewrite (proj2 (N.ltb_ge _ _)) by lia.
    apply bind_err. rewrite ReadAt_log by (done || lia). rewrite Hd.
    by rewrite (proj2 (N.leb_gt _ _)) by len.
  - apply bind_err. rewrite ReadAt_log by (done || lia). rewrite Hd.
    by rewrite (proj2 (N.leb_gt _ _)) by len.
Qed.

Lemma ReadRecord_tail w a tail r :
  healthy (w_file w) -> rec_fits r -> len a + record_size r < 9223372036854775808 ->
  f_data (w_file w) = a ++ tail -> tail `prefix_of` LogRecord_Serialize r ->
  tail <> LogRecord_Serialize r ->
  ReadRecord (len a) w = (Err ErrEOF, w).
Proof. intros. apply bind_err. by eapply read_record_tail. Qed.

Lemma read_record_end w recs :
  wal_ok w recs -> read_record (lsn_after recs) w = (Err ErrEOF, w).
Proof.
  intros [Hh Hb _ Hl Hf Hs]. unfold read_record. apply bind_err. unfold lsn_after.
  rewrite ReadAt_log by (done || lia). rewrite Hb.
  rewrite (proj2 (N.leb_gt _ _)); [done|].
  rewrite len_app, len_log_bytes. change (len wal_magic) with 4. lia.
Qed.

(** ** Appending *)

(** The record that [Append] writes next. *)
Definition next_record (w : WAL) (txnID pageID prevLSN opType : N) (key value : bytes) : LogRecord :=
  mkLogRecord (currentLSN w) txnID prevLSN pageID opType key value.

Lemma Append_ok w recs txnID pageID prevLSN opType key value :
  let r := next_record w txnID pageID prevLSN opType key value in
  wal_ok w recs -> rec_fits r ->
  4 + log_size recs + record_size r < 9223372036854775808 ->
  exists w', Append txnID pageID prevLSN opType key value w = (Ok (lsn_after recs), w')
    /\ wal_ok w' (recs ++ [r]) /\ rLSN r = lsn_after recs.
Proof.
  intros r [Hh Hb Hc Hl Hf Hs] Hr Hbound. unfold Append.
  unfold mbind at 1, M_bind at 1, gets at 1. fold (next_record w txnID pageID prevLSN opType key value).
  fold r.
  mstep (on_wal_file_eq _ w _ _ (Write_ok (LogRecord_Serialize r) _ Hh)).
  unfold mbind at 1, M_bind at 1, modify at 1. simpl.
  set (w1 := mkWAL _ _). assert (Hh1 : healthy (w_file w1)) by done.
  mstep (on_wal_file_eq _ w1 _ _ (Sync_ok _ Hh1)). rewrite WAL_eta.
  exists w1. rewrite Hc. split; [done|]. split; [|done]. constructor.
  - done.
  - cbn [w1 w_file f_data set_data]. rewrite Hb, log_bytes_app, <-(assoc_L (++)).
    cbn [log_bytes foldr]. by rewrite app_nil_r.
  - simpl. rewrite Hc, len_record, log_size_app. simpl. unfold u64. lia.
  - apply lsns_from_app. split; [done|]. simpl. split; [|done]. unfold next_record. by rewrite Hc.
  - apply Forall_app. split; [done|]. by constructor.
  - rewrite log_size_app. simpl. lia.
Qed.

(** A new log file starts with the magic bytes and LSN 4. *)
Lemma NewWAL_ok : exists w, NewWAL (mkWAL new_file 0) = (Ok tt, w) /\ wal_ok w [].
Proof. eexists. split; [reflexivity|]. by constructor. Qed.

(** Opening an existing log puts the next LSN at its end. *)
Lemma NewWAL_existing w recs :
  wal_ok w recs -> recs <> [] -> NewWAL (mkWAL (w_file w) 0) = (Ok tt, w).
Proof.
  intros [Hh Hb Hc Hl Hf Hs] Hne. unfold NewWAL.
  assert (Hst : attempt Stat (w_file w) = (Ok (inl (4 + log_size recs)), w_file w)).
  { erewrite attempt_ok; [|by apply Stat_ok]. rewrite Hb, len_app, len_log_bytes. done. }
  mstep (on_wal_file_eq _ (mkWAL (w_file w) 0) _ _ Hst).
  rewrite (proj2 (N.eqb_neq _ _)) by lia.
  unfold mbind, M_bind, mret, M_ret, modify. simpl. destruct w as [f c]. simpl in *.
  repeat f_equal. rewrite Hc. unfold u64. lia.
Qed.

(** On a healthy file [Append] succeeds, whatever the log holds. *)
Lemma Append_healthy w txnID pageID prevLSN opType key value :
  healthy (w_file w) ->
  let data := LogRecord_Serialize (next_record w txnID pageID prevLSN opType key value) in
  Append txnID pageID prevLSN opType key value w
    = (Ok (currentLSN w),
       mkWAL (set_data (f_data (w_file w) ++ data) (w_file w)) (u64 (currentLSN w + len data))).
Proof.
  intros Hh data. unfold Append.
  unfold mbind at 1, M_bind at 1, gets at 1.
  fold (next_record w txnID pageID prevLSN opType key value). fold data.
  mstep (on_wal_file_eq _ w _ _ (Write_ok data _ Hh)).
  unfold mbind at 1, M_bind at 1, modify at 1. simpl.
  set (w1 := mkWAL _ _). assert (Hh1 : healthy (w_file w1)) by done.
  mstep (on_wal_file_eq _ w1 _ _ (Sync_ok _ Hh1)). by rewrite WAL_eta.
Qed.

(** An append returns an LSN or an error. *)
Lemma Append_total txnID pageID prevLSN opType key value w r w' :
  Append txnID pageID prevLSN opType key value w = (r, w') -> r <> Panic /\ r <> Hang.
Proof.
  unfold Append, Write, Sync, next_fault, on_wal_file, zoom, mbind, M_bind, gets, modify, mret, M_ret, throw.
  destruct w as [[d fs] n]. cbn [w_file currentLSN f_faults].
  destruct fs as [|[k|] [|[k'|] fs]]; cbn; intros E; injection E as E _; by subst r.
Qed.

(** A write that fails part-way leaves the current LSN where it was. *)
Lemma Append_torn w txnID pageID prevLSN opType key value n fs :
  f_faults (w_file w) = Some n :: fs ->
  let data := LogRecord_Serialize (next_record w txnID pageID prevLSN opType key value) in
  Append txnID pageID prevLSN opType key value w
    = (Err ErrOS, mkWAL (mkFile (f_data (w_file w) ++ take (N.to_nat n) data) fs) (currentLSN w)).
Proof.
  intros Hf data. destruct w as [[fd ff] c]. simpl in Hf. subst ff. done.
Qed.

(** ** Properties *)

(** C31: a log record whose fields fit their widths is read back from its wire
    format. *)
Theorem record_roundtrip l : rec_fits l -> DeserializeLogRecord (LogRecord_Serialize l) = Ok l.
Proof. apply record_decode. Qed.

Definition sample_record : LogRecord := mkLogRecord 4 9 0 1 LogOpInsert [x6b] [x76].

Lemma sample_fits : rec_fits sample_record.
Proof. by constructor. Qed.

Lemma record_roundtrip_witness :
  DeserializeLogRecord (LogRecord_Serialize sample_record) = Ok sample_record.
Proof. exact (record_roundtrip sample_record sample_fits). Defined.

(** C32: any single corrupted byte of a stored record is reported: as a size
    mismatch in the first four bytes, as a checksum mismatch elsewhere. *)
Theorem record_corruption_detected l i x y :
  rec_fits l -> LogRecord_Serialize l !! i = Some x -> x <> y ->
  DeserializeLogRecord (<[i := y]> (LogRecord_Serialize l))
    = Err (if decide (i < 4)%nat then ErrLogSizeMismatch else ErrLogChecksum).
Proof. apply record_corrupt. Qed.

Lemma record_corruption_detected_witness :
  DeserializeLogRecord (<[24%nat := x02]> (LogRecord_Serialize sample_record)) = Err ErrLogChecksum.
Proof.
  apply (record_corruption_detected sample_record 24 x01 x02 sample_fits); [reflexivity|done].
Defined.

(** C23: [Append] returns the byte offset of its record as its LSN; that record
    and every earlier one are read back at their LSNs, and LSNs grow strictly
    along the log. *)
Theorem append_then_read w recs txnID pageID prevLSN opType key value :
  let r := next_record w txnID pageID prevLSN opType key value in
  wal_ok w recs -> rec_fits r -> 4 + log_size recs + record_size r < 9223372036854775808 ->
  exists w', Append txnID pageID prevLSN opType key value w = (Ok (rLSN r), w')
    /\ wal_ok w' (recs ++ [r])
    /\ (forall s, s ∈ recs ++ [r] -> ReadRecord (rLSN s) w' = (Ok (s, record_size s), w'))
    /\ StronglySorted (fun a b => rLSN a < rLSN b) (recs ++ [r]).
Proof.
  intros r Hok Hr Hb.
  destruct (Append_ok w recs txnID pageID prevLSN opType key value Hok Hr Hb) as (w' & E1 & E2 & E3).
  fold r in E2, E3. exists w'. rewrite E3. split; [done|]. split; [done|].
  pose proof (wo_lsns _ _ E2) as Hl. split; [|by apply (lsns_increasing 4)].
  intros s (pre & post & Hs)%list_elem_of_split. rewrite Hs in Hl, E2.
  rewrite (lsns_middle _ _ _ Hl). by apply ReadRecord_ok with post.
Qed.

Definition empty_wal : WAL := mkWAL (mkFile wal_magic []) 4.

Lemma empty_wal_ok : wal_ok empty_wal [].
Proof. by constructor. Qed.

Lemma append_then_read_witness :
  exists w', Append 9 1 0 LogOpInsert [x6b] [x76] empty_wal = (Ok 4, w')
    /\ ReadRecord 4 w' = (Ok (sample_record, 45), w').
Proof.
  destruct (append_then_read empty_wal [] 9 1 0 LogOpInsert [x6b] [x76] empty_wal_ok sample_fits
    eq_refl) as (w' & E1 & _ & E2 & _).
  exists w'. split; [exact E1|]. apply (E2 sample_record). by left.
Defined.

(** C24: a log cut inside its last record by a crash reads as end of file at
    that record, so a scan stops before it; the records before are intact. *)
Theorem torn_tail_stops w pre r tail :
  healthy (w_file w) -> rec_fits r -> 4 + log_size pre + record_size r < 9223372036854775808 ->
  Forall rec_fits pre -> lsns_from 4 pre ->
  f_data (w_file w) = wal_magic ++ log_bytes pre ++ tail ->
  tail `prefix_of` LogRecord_Serialize r -> tail <> LogRecord_Serialize r ->
  ReadRecord (lsn_after pre) w = (Err ErrEOF, w)
  /\ forall s, s ∈ pre -> ReadRecord (rLSN s) w = (Ok (s, record_size s), w).
Proof.
  intros Hh Hr Hb Hf Hl Hd Ht Hne. pose proof (len_log_bytes pre) as Hlen. split.
  - assert (E : lsn_after pre = len (wal_magic ++ log_bytes pre)) by (rewrite len_app, Hlen; done).
    rewrite E. apply (ReadRecord_tail w _ tail r); try done. by rewrite <-E.
  - intros s (p1 & p2 & Hs)%list_elem_of_split. subst pre.
    rewrite (lsns_middle _ _ _ Hl). rewrite log_size_app in Hb. simpl in Hb.
    pose proof (len_log_bytes p1) as Hl1.
    apply (ReadRecord_at w (lsn_after p1) s (wal_magic ++ log_bytes p1) (log_bytes p2 ++ tail)).
    + done.
    + unfold lsn_after. lia.
    + rewrite Forall_app, Forall_cons in Hf. tauto.
    + rewrite Hd, log_bytes_app. simpl. by rewrite <-!(assoc_L (++)).
    + rewrite len_app, Hl1. done.
Qed.

Lemma torn_tail_stops_witness :
  ReadRecord 4 (mkWAL (mkFile (wal_magic ++ take 20 (LogRecord_Serialize sample_record)) []) 24)
    = (Err ErrEOF, mkWAL (mkFile (wal_magic ++ take 20 (LogRecord_Serialize sample_record)) []) 24).
Proof.
  refine (proj1 (torn_tail_stops (mkWAL (mkFile (wal_magic ++ take 20 (LogRecord_Serialize sample_record)) []) 24)
    [] sample_record (take 20 (LogRecord_Serialize sample_record)) eq_refl sample_fits eq_refl
    (List.Forall_nil _) I eq_refl _ _)).
  - eexists. symmetry. apply take_drop.
  - intros E. apply (f_equal length) in E. vm_compute in E. discriminate.
Defined.

(** C33: when a log write fails after [n] bytes, the next successful [Append]
    returns an LSN that is [n] bytes before the record it wrote. *)
Theorem torn_append_shifts_lsn w t1 p1 v1 o1 k1 d1 t2 p2 v2 o2 k2 d2 n :
  f_faults (w_file w) = [Some n] -> currentLSN w = len (f_data (w_file w)) ->
  n <= record_size (next_record w t1 p1 v1 o1 k1 d1) ->
  let r := next_record w t2 p2 v2 o2 k2 d2 in
  exists w1 w2 a, Append t1 p1 v1 o1 k1 d1 w = (Err ErrOS, w1)
    /\ Append t2 p2 v2 o2 k2 d2 w1 = (Ok (rLSN r), w2)
    /\ f_data (w_file w2) = a ++ LogRecord_Serialize r /\ len a = rLSN r + n.
Proof.
  intros Hf Hc Hn r. rewrite (Append_torn w t1 p1 v1 o1 k1 d1 n [] Hf).
  set (w1 := mkWAL _ _). exists w1. rewrite (Append_healthy w1 t2 p2 v2 o2 k2 d2 eq_refl).
  do 2 eexists. split; [done|]. split; [done|]. split; [done|].
  simpl. rewrite Hc. len.
Qed.

Lemma torn_append_shifts_lsn_witness :
  exists w1 w2 a, Append 9 1 0 LogOpInsert [x6b] [x76] (mkWAL (mkFile wal_magic [Some 10]) 4) = (Err ErrOS, w1)
    /\ Append 9 1 0 LogOpInsert [x6b] [x76] w1 = (Ok 4, w2)
    /\ f_data (w_file w2) = a ++ LogRecord_Serialize sample_record /\ len a = 14.
Proof.
  apply (torn_append_shifts_lsn (mkWAL (mkFile wal_magic [Some 10]) 4)
    9 1 0 LogOpInsert [x6b] [x76] 9 1 0 LogOpInsert [x6b] [x76] 10 eq_refl eq_refl).
  unfold record_size, next_record. simpl. lia.
Defined.
