(* ===== verification/Txn.v ===== *)
(** * Transactions and version keys ([internal/storage/txn.go])

    The transaction table, and the encoding of a user key and a transaction
    id into one tree key. *)

From S2P Require Import Prelude.

Inductive TxnStatus := TXN_RUNNING | TXN_COMMITED | TXN_ROLLINGBACK | TXN_ROLLEDBACK.

#[global] Instance TxnStatus_eq_dec : EqDecision TxnStatus.
Proof. solve_decision. Defined.

Record TransactionManager := mkTM {
  txnTable : gmap N TxnStatus;
  lsnTable : gmap N N
}.

Definition NewTransactionManager : TransactionManager := mkTM ∅ ∅.

Definition SetStatus (txid : N) (status : TxnStatus) (t : TransactionManager) :=
  mkTM (<[txid := status]> (txnTable t)) (lsnTable t).

Definition SetLastLSN (txid lsn : N) (t : TransactionManager) :=
  mkTM (txnTable t) (<[txid := lsn]> (lsnTable t)).

(** A missing entry reads as the zero value. *)
Definition GetLastLSN (txid : N) (t : TransactionManager) : N := default 0 (lsnTable t !! txid).

Definition GetStatus (txid : N) (t : TransactionManager) : TxnStatus :=
  match txnTable t !! txid with
  | Some status => status
  | None => TXN_COMMITED
  end.

(** [TxnID(time.Now().UnixNano())]: the clock reading is the argument. *)
Definition GenerateTxID (now : N) : N := u64 now.

Definition Begin (now : N) (t : TransactionManager) : N * TransactionManager :=
  let txId := GenerateTxID now in
  (txId, mkTM (<[txId := TXN_RUNNING]> (txnTable t)) (lsnTable t)).

Definition Commit (txid : N) (t : TransactionManager) := SetStatus txid TXN_COMMITED t.
Definition Rollback (txid : N) (t : TransactionManager) := SetStatus txid TXN_ROLLEDBACK t.

Definition MaxTxID : N := 18446744073709551615.

Definition GetMinActiveTxID `{MapRange} (tick : nat) (t : TransactionManager) : N :=
  foldl (fun minTxID '(txid, status) =>
           if bool_decide (status = TXN_RUNNING)
           then if txid <? minTxID then txid else minTxID
           else minTxID)
        MaxTxID (map_range tick (txnTable t)).

(** The loop ranges over the table it deletes from, which Go allows; each
    entry is visited at most once. *)
Definition PruneTables `{MapRange} (tick : nat) (minActive : N) (t : TransactionManager) :=
  foldl (fun t '(txid, status) =>
           if negb (bool_decide (status = TXN_RUNNING)) && (txid <? minActive)
           then mkTM (delete txid (txnTable t)) (delete txid (lsnTable t))
           else t)
        t (map_range tick (txnTable t)).

(** [UserKey] + [\x00] + 8-byte big-endian [TxID]. *)
Definition BuildMVCCKey (key : bytes) (txID : N) : bytes :=
  let mvccKey := zeros (len key + 9) in
  let mvccKey := splice mvccKey 0 key in
  let mvccKey := splice mvccKey (len key) [x00] in
  splice mvccKey (len key + 1) (be_enc 8 txID).

Definition ExtractMVCCKey (mvccKey : bytes) : bytes * N :=
  let n := len mvccKey in
  if n <? 9 then (mvccKey, 0)
  else if negb (bool_decide (mvccKey !! N.to_nat (n - 9) = Some x00)) then (mvccKey, 0)
  else (take (N.to_nat (n - 9)) mvccKey, be_dec (drop (N.to_nat (n - 8)) mvccKey)).

(** * Lemmas *)

(** ** Version keys *)

Lemma BuildMVCCKey_image key txID : BuildMVCCKey key txID = key ++ x00 :: be_enc 8 txID.
Proof.
  unfold BuildMVCCKey. rewrite splice_zeros_0, !splice_zeros by len.
  match goal with |- context [_ ++ zeros ?n] => replace n with 0 by len end.
  change (zeros 0) with (@nil byte). by rewrite app_nil_r, <-!(assoc_L (++)).
Qed.

Lemma len_BuildMVCCKey key txID : len (BuildMVCCKey key txID) = len key + 9.
Proof. rewrite BuildMVCCKey_image. len. Qed.

Lemma ExtractMVCCKey_at key suffix :
  length suffix = 8%nat -> ExtractMVCCKey (key ++ x00 :: suffix) = (key, be_dec suffix).
Proof.
  intros Hs. unfold ExtractMVCCKey.
  assert (Hl : len (key ++ x00 :: suffix) = len key + 9) by (unfold len; rewrite length_app; simpl; lia).
  rewrite Hl. rewrite (proj2 (N.ltb_ge _ _)) by lia.
  replace (len key + 9 - 9) with (len key) by lia.
  replace (len key + 9 - 8) with (len key + 1) by lia.
  rewrite len_nat, list_lookup_middle by done. rewrite bool_decide_true by done. cbn [negb].
  rewrite take_app_length. f_equal. f_equal.
  replace (N.to_nat (len key + 1)) with (length key + 1)%nat by (unfold len; lia).
  by rewrite drop_app_add.
Qed.

Lemma extract_build key txID :
  txID < 18446744073709551616 -> ExtractMVCCKey (BuildMVCCKey key txID) = (key, txID).
Proof.
  intros H. rewrite BuildMVCCKey_image, ExtractMVCCKey_at.
  - by rewrite be_dec_enc, N.mod_small.
  - pose proof (len_be_enc 8 txID). unfold len in *. lia.
Qed.

(** A key that is long enough and has the separator is a version key. *)
Lemma build_extract k user txid :
  ExtractMVCCKey k = (user, txid) ->
  k = BuildMVCCKey user txid \/ (user = k /\ txid = 0).
Proof.
  unfold ExtractMVCCKey. destruct (len k <? 9) eqn:E; [intros [= <- <-]; by right|].
  bool_lia. case_bool_decide as Hz; cbn [negb]; [|intros [= <- <-]; by right].
  intros [= <- <-]. left. rewrite BuildMVCCKey_image.
  assert (Hl : length (drop (N.to_nat (len k - 8)) k) = 8%nat)
    by (rewrite length_drop; unfold len in *; lia).
  assert (Hbe : be_enc 8 (be_dec (drop (N.to_nat (len k - 8)) k)) = drop (N.to_nat (len k - 8)) k).
  { unfold be_enc, be_dec. rewrite le_enc_dec by (by rewrite length_rev). apply rev_involutive. }
  rewrite Hbe. rewrite <-(take_drop_middle k _ _ Hz) at 1. do 2 f_equal. f_equal. lia.
Qed.

(** Versions of one user key are ordered by transaction id. *)
Lemma version_order key a b :
  a < 18446744073709551616 -> b < 18446744073709551616 ->
  bytes_compare (BuildMVCCKey key a) (BuildMVCCKey key b) = N.compare a b.
Proof.
  intros Ha Hb. rewrite !BuildMVCCKey_image, bytes_compare_app. cbn [bytes_compare].
  rewrite N.compare_refl. by apply bytes_compare_be.
Qed.

(** ** The transaction table *)

Lemma GetStatus_SetStatus txid txid' status t :
  GetStatus txid (SetStatus txid' status t)
    = if decide (txid' = txid) then status else GetStatus txid t.
Proof.
  unfold GetStatus, SetStatus. simpl. case_decide as E.
  - subst. by rewrite lookup_insert_eq.
  - by rewrite lookup_insert_ne.
Qed.

Lemma GetStatus_SetLastLSN txid txid' lsn t :
  GetStatus txid (SetLastLSN txid' lsn t) = GetStatus txid t.
Proof. done. Qed.

Lemma GetLastLSN_SetStatus txid txid' status t :
  GetLastLSN txid (SetStatus txid' status t) = GetLastLSN txid t.
Proof. done. Qed.

Lemma GetLastLSN_SetLastLSN txid txid' lsn t :
  GetLastLSN txid (SetLastLSN txid' lsn t) = if decide (txid' = txid) then lsn else GetLastLSN txid t.
Proof.
  unfold GetLastLSN, SetLastLSN. simpl. case_decide as E.
  - subst. by rewrite lookup_insert_eq.
  - by rewrite lookup_insert_ne.
Qed.

Section ranges.
Context `{MapRange}.

(** The loop invariant of [GetMinActiveTxID]. *)
Lemma min_active_fold l m0 :
  let m := foldl (fun minTxID '(txid, status) =>
             if bool_decide (status = TXN_RUNNING)
             then if txid <? minTxID then txid else minTxID
             else minTxID) m0 l in
  m <= m0 /\ (forall txid, (txid, TXN_RUNNING) ∈ l -> m <= txid)
  /\ (m = m0 \/ (m, TXN_RUNNING) ∈ l).
Proof.
  revert m0; induction l as [|[txid status] l IH]; intros m0; simpl.
  - split; [lia|]. split; [intros ? Hin; inversion Hin|by left].
  - destruct (IH (if bool_decide (status = TXN_RUNNING)
                  then if txid <? m0 then txid else m0 else m0)) as (H1 & H2 & H3).
    set (m := foldl _ _ _) in *. clearbody m.
    case_bool_decide as Es; [|].
    + subst status. destruct (txid <? m0) eqn:E; bool_lia.
      * split; [lia|]. split.
        -- intros x [[= ->]|Hx]%elem_of_cons; [done|by apply H2].
        -- right. destruct H3 as [->|H3]; [by left|by right].
      * split; [done|]. split.
        -- intros x [[= ->]|Hx]%elem_of_cons; [lia|by apply H2].
        -- destruct H3 as [->|H3]; [by left|right; by right].
    + split; [done|]. split.
      * intros x [[= -> <-]|Hx]%elem_of_cons; [done|by apply H2].
      * destruct H3 as [->|H3]; [by left|right; by right].
Qed.

Lemma min_active_spec tick t :
  let m := GetMinActiveTxID tick t in
  (forall txid, txnTable t !! txid = Some TXN_RUNNING -> m <= txid)
  /\ (m = MaxTxID \/ txnTable t !! m = Some TXN_RUNNING).
Proof.
  destruct (min_active_fold (map_range tick (txnTable t)) MaxTxID) as (_ & H2 & H3).
  split.
  - intros txid Ht. apply H2. by apply elem_of_map_range.
  - destruct H3 as [H3|H3]; [by left|right]. by eapply elem_of_map_range.
Qed.

(** What [PruneTables] removes. *)
Definition prunable (minActive : N) (t : TransactionManager) (txid : N) : bool :=
  match txnTable t !! txid with
  | Some status => negb (bool_decide (status = TXN_RUNNING)) && (txid <? minActive)
  | None => false
  end.

Definition prunes (minActive txid : N) (e : N * TxnStatus) : bool :=
  (e.1 =? txid) && (negb (bool_decide (e.2 = TXN_RUNNING)) && (e.1 <? minActive)).

Lemma prune_fold minActive l t txid :
  let t' := foldl (fun t '(txid, status) =>
             if negb (bool_decide (status = TXN_RUNNING)) && (txid <? minActive)
             then mkTM (delete txid (txnTable t)) (delete txid (lsnTable t))
             else t) t l in
  let hit := existsb (prunes minActive txid) l in
  txnTable t' !! txid = (if hit then None else txnTable t !! txid)
  /\ lsnTable t' !! txid = (if hit then None else lsnTable t !! txid).
Proof.
  revert t; induction l as [|[x status] l IH]; intros t; [done|].
  cbn [foldl existsb].
  destruct (IH (if negb (bool_decide (status = TXN_RUNNING)) && (x <? minActive)
           then mkTM (delete x (txnTable t)) (delete x (lsnTable t)) else t)) as [-> ->].
  clear IH. destruct (existsb (prunes minActive txid) l); [by rewrite orb_true_r|].
  rewrite orb_false_r. unfold prunes. cbn [fst snd].
  destruct (negb _ && _) eqn:E; [|by rewrite andb_false_r].
  rewrite andb_true_r. cbn [txnTable lsnTable]. destruct (x =? txid) eqn:Ex; bool_lia.
  - subst. by rewrite !lookup_delete_eq.
  - by rewrite !lookup_delete_ne.
Qed.

Lemma prune_lookup tick minActive t txid :
  txnTable (PruneTables tick minActive t) !! txid
    = (if prunable minActive t txid then None else txnTable t !! txid)
  /\ (prunable minActive t txid = true -> lsnTable (PruneTables tick minActive t) !! txid = None)
  /\ (prunable minActive t txid = false ->
      lsnTable (PruneTables tick minActive t) !! txid = lsnTable t !! txid).
Proof.
  unfold PruneTables.
  destruct (prune_fold minActive (map_range tick (txnTable t)) t txid) as [-> ->].
  assert (Hiff : existsb (prunes minActive txid) (map_range tick (txnTable t))
    = prunable minActive t txid).
  { apply eq_true_iff_eq. rewrite existsb_exists. unfold prunable, prunes. split.
    - intros ([x status] & Hin & [E1 E2]%andb_true_iff). bool_lia. simpl in *. subst x.
      apply list_elem_of_In, elem_of_map_range in Hin. rewrite Hin.
      apply andb_true_iff. by split; [|apply N.ltb_lt].
    - destruct (txnTable t !! txid) as [status|] eqn:Et; [|done]. intros E.
      exists (txid, status). rewrite <-list_elem_of_In, elem_of_map_range.
      split; [done|]. simpl. by rewrite N.eqb_refl. }
  rewrite Hiff. destruct (prunable minActive t txid); naive_solver.
Qed.
End ranges.

(** ** Properties *)

(** C30: version keys are read back, and the tree's byte order on the versions
    of one user key is the order of their transaction ids. *)
Theorem mvcc_key_correct key a b :
  a < 18446744073709551616 -> b < 18446744073709551616 ->
  ExtractMVCCKey (BuildMVCCKey key a) = (key, a)
  /\ bytes_compare (BuildMVCCKey key a) (BuildMVCCKey key b) = N.compare a b.
Proof. intros Ha Hb. split; [by apply extract_build|by apply version_order]. Qed.

Lemma mvcc_key_correct_witness :
  ExtractMVCCKey (BuildMVCCKey [x6b] 5) = ([x6b], 5).
Proof. exact (proj1 (mvcc_key_correct [x6b] 5 6 eq_refl eq_refl)). Defined.

(** C37: the watermark [GetMinActiveTxID] is the least running transaction id,
    or the largest id when none runs, in whatever order the table is visited. *)
Theorem watermark_is_min `{MapRange} tick t :
  let m := GetMinActiveTxID tick t in
  (forall txid, txnTable t !! txid = Some TXN_RUNNING -> m <= txid)
  /\ (txnTable t !! m = Some TXN_RUNNING
      \/ m = MaxTxID /\ forall txid, txid < MaxTxID -> txnTable t !! txid <> Some TXN_RUNNING).
Proof.
  intros m. destruct (min_active_spec tick t) as [H1 H2]. fold m in H1, H2.
  split; [done|]. destruct H2 as [H2|H2]; [|by left]. right. split; [done|].
  intros txid Hlt E. specialize (H1 _ E). lia.
Qed.

(** C38: [PruneTables] drops exactly the finished transactions below the
    watermark and no other entry; a dropped transaction reads as committed
    from then on, even if it was rolled back. *)
Theorem prune_exact `{MapRange} tick minActive t txid :
  let t' := PruneTables tick minActive t in
  txnTable t' !! txid = (if prunable minActive t txid then None else txnTable t !! txid)
  /\ lsnTable t' !! txid = (if prunable minActive t txid then None else lsnTable t !! txid)
  /\ GetStatus txid t' = (if prunable minActive t txid then TXN_COMMITED else GetStatus txid t).
Proof.
  intros t'. destruct (prune_lookup tick minActive t txid) as (H1 & H2 & H3).
  fold t' in H1, H2, H3. unfold GetStatus. rewrite H1.
  destruct (prunable minActive t txid); auto.
Qed.
