(* ===== verification/Buffer.v ===== *)
(** * The buffer manager ([internal/storage/buffer_manager.go])

    Frames with their pin counts and latches, the page table, eviction and
    flushing.  Code runs as one goroutine: acquiring a latch that is not free
    is [Hang], releasing one that is not held is the runtime's fatal error
    [Panic].  A pinned frame stays in the table ([evict] never picks it), so a
    pinned page's id stands for the Go pointer to it.

    The refinement at the end says that the pool implements an array of pages:
    fetching, evicting and flushing leave the array as it is, up to the LSN
    field, and a page written through a write latch is what later fetches see. *)

From S2P Require Import Prelude Crc Cell Page Pager Wal.

(** [sync.RWMutex]: how many readers hold it, and whether a writer does. *)
Record Latch := mkLatch { l_readers : N; l_writer : bool }.

Definition free_latch : Latch := mkLatch 0 false.

Record Frame := mkFrame {
  fr_page : page;
  fr_dirty : bool;
  fr_pin : N;
  fr_latch : Latch;
  fr_recLSN : N
}.

(** [bm_wal] is the log object the tree and the manager share; [bm_walOn] says
    whether [bm.wal] points to it or is nil.  [bm_tick] counts map loops. *)
Record BufferManager := mkBM {
  bm_pager : File;
  bm_pageTable : gmap N Frame;
  bm_maxSize : N;
  bm_wal : WAL;
  bm_walOn : bool;
  bm_tick : nat
}.

Definition set_pager (f : File) (bm : BufferManager) :=
  mkBM f (bm_pageTable bm) (bm_maxSize bm) (bm_wal bm) (bm_walOn bm) (bm_tick bm).
Definition set_table (t : gmap N Frame) (bm : BufferManager) :=
  mkBM (bm_pager bm) t (bm_maxSize bm) (bm_wal bm) (bm_walOn bm) (bm_tick bm).
Definition set_bm_wal (w : WAL) (bm : BufferManager) :=
  mkBM (bm_pager bm) (bm_pageTable bm) (bm_maxSize bm) w (bm_walOn bm) (bm_tick bm).
Definition set_walOn (b : bool) (bm : BufferManager) :=
  mkBM (bm_pager bm) (bm_pageTable bm) (bm_maxSize bm) (bm_wal bm) b (bm_tick bm).
Definition bump (bm : BufferManager) :=
  mkBM (bm_pager bm) (bm_pageTable bm) (bm_maxSize bm) (bm_wal bm) (bm_walOn bm) (S (bm_tick bm)).

Definition NewBufferManager (pager : File) (maxSize : N) (wal : WAL) (walOn : bool) :=
  mkBM pager ∅ maxSize wal walOn 0.

Definition on_pager {A} (m : M File A) : M BufferManager A := zoom bm_pager set_pager m.
Definition on_wal {A} (m : M WAL A) : M BufferManager A := zoom bm_wal set_bm_wal m.

Definition alter_frame (id : N) (f : Frame -> Frame) : M BufferManager unit :=
  modify (fun bm => set_table (alter f id (bm_pageTable bm)) bm).

Definition set_page (p : page) (fr : Frame) :=
  mkFrame p (fr_dirty fr) (fr_pin fr) (fr_latch fr) (fr_recLSN fr).
Definition set_dirty (b : bool) (fr : Frame) :=
  mkFrame (fr_page fr) b (fr_pin fr) (fr_latch fr) (fr_recLSN fr).
Definition set_pin (n : N) (fr : Frame) :=
  mkFrame (fr_page fr) (fr_dirty fr) n (fr_latch fr) (fr_recLSN fr).
Definition set_latch (l : Latch) (fr : Frame) :=
  mkFrame (fr_page fr) (fr_dirty fr) (fr_pin fr) l (fr_recLSN fr).
Definition set_recLSN (lsn : N) (fr : Frame) :=
  mkFrame (fr_page fr) (fr_dirty fr) (fr_pin fr) (fr_latch fr) lsn.

(** The frame a pinned page's pointer leads to. *)
Definition get_frame (id : N) : M BufferManager Frame := fun bm =>
  match bm_pageTable bm !! id with
  | Some fr => (Ok fr, bm)
  | None => (Panic, bm)
  end.

(** Reads of and writes to the page behind the pointer. *)
Definition rd {A} (id : N) (f : page -> A) : M BufferManager A :=
  fr ← get_frame id; mret (f (fr_page fr)).
Definition wr (id : N) (f : page -> page) : M BufferManager unit :=
  alter_frame id (fun fr => set_page (f (fr_page fr)) fr).
Definition on_page {A} (id : N) (m : M page A) : M BufferManager A :=
  fr ← get_frame id;
  let (o, p) := m (fr_page fr) in
  _ ← alter_frame id (set_page p);
  pure o.

(** ** Latches *)

Definition RLock (id : N) : M BufferManager unit :=
  fr ← get_frame id;
  if l_writer (fr_latch fr) then hang
  else alter_frame id (set_latch (mkLatch (l_readers (fr_latch fr) + 1) false)).

Definition Lock (id : N) : M BufferManager unit :=
  fr ← get_frame id;
  if l_writer (fr_latch fr) || negb (l_readers (fr_latch fr) =? 0) then hang
  else alter_frame id (set_latch (mkLatch 0 true)).

Definition RUnlock (id : N) : M BufferManager unit :=
  fr ← get_frame id;
  if l_readers (fr_latch fr) =? 0 then panic
  else alter_frame id (set_latch (mkLatch (l_readers (fr_latch fr) - 1) (l_writer (fr_latch fr)))).

Definition Unlock (id : N) : M BufferManager unit :=
  fr ← get_frame id;
  if l_writer (fr_latch fr)
  then alter_frame id (set_latch (mkLatch (l_readers (fr_latch fr)) false))
  else panic.

(** ** The buffer pool *)

Section pool.
Context `{MapRange}.

(** The next [for ... range bm.pageTable]. *)
Definition range_table : M BufferManager (list (N * Frame)) := fun bm =>
  (Ok (map_range (bm_tick bm) (bm_pageTable bm)), bump bm).

Definition firstFind : M BufferManager (option (N * Frame)) :=
  l ← range_table;
  mret (find (fun '(_, frame) => fr_pin frame =? 0) l).

Definition evict : M BufferManager unit :=
  victim ← firstFind;
  match victim with
  | None => throw ErrPoolFull
  | Some (victimID, victimFrame) =>
      _ ← (if fr_dirty victimFrame then
             _ ← on_pager (WritePage victimID (fr_page victimFrame));
             alter_frame victimID (fun fr => set_recLSN 0 (set_dirty false fr))
           else mret tt);
      modify (fun bm => set_table (delete victimID (bm_pageTable bm)) bm)
  end.

Definition getFrame (pageID fallbackPageMode : N) : M BufferManager unit :=
  bm ← gets id;
  match bm_pageTable bm !! pageID with
  | Some _ => alter_frame pageID (fun fr => set_pin (u32 (fr_pin fr + 1)) fr)
  | None =>
      _ ← (if bm_maxSize bm <=? N.of_nat (size (bm_pageTable bm)) then evict else mret tt);
      p ← on_pager (ReadPage pageID (NewPage fallbackPageMode));
      modify (fun bm =>
        set_table (<[pageID := mkFrame p false 1 free_latch 0]> (bm_pageTable bm)) bm)
  end.

Definition FetchPageForRead (pageID fallbackPageMode : N) : M BufferManager unit :=
  _ ← getFrame pageID fallbackPageMode;
  RLock pageID.

(** A clean page is logged whole before it is handed out for writing. *)
Definition FetchPageForWrite (pageID fallbackPageMode : N) : M BufferManager unit :=
  _ ← getFrame pageID fallbackPageMode;
  _ ← Lock pageID;
  frame ← get_frame pageID;
  walOn ← gets bm_walOn;
  if negb (fr_dirty frame) && walOn then
    r ← attempt (on_wal (Append 0 pageID 0 LogOpFullPage [] (fr_page frame)));
    match r with
    | inr err => _ ← Unlock pageID; throw err
    | inl lsn =>
        _ ← wr pageID (SetLSN lsn);
        alter_frame pageID (set_recLSN lsn)
    end
  else mret tt.

Definition UnpinPage (pageID : N) (isDirty isWrite : bool) : M BufferManager unit :=
  bm ← gets id;
  match bm_pageTable bm !! pageID with
  | None => throw (ErrNotInPool pageID)
  | Some frame =>
      if fr_pin frame =? 0 then throw (ErrPinZero pageID) else
      _ ← alter_frame pageID (fun fr => set_pin (fr_pin fr - 1) fr);
      _ ← (if isDirty then alter_frame pageID (set_dirty true) else mret tt);
      if isWrite then Unlock pageID else RUnlock pageID
  end.

Definition FlushAll : M BufferManager unit :=
  l ← range_table;
  for_each (fun '(id, frame) =>
    if fr_dirty frame : bool then
      _ ← on_pager (WritePage id (fr_page frame));
      alter_frame id (fun fr => set_recLSN 0 (set_dirty false fr))
    else mret tt) l.

Definition CloseBufferManager : M BufferManager unit :=
  _ ← FlushAll;
  on_pager ClosePager.

Definition GetDirtyPageTable : M BufferManager (gmap N N) :=
  l ← range_table;
  mret (foldl (fun dpt '(id, frame) =>
          if fr_dirty frame : bool then <[id := fr_recLSN frame]> dpt else dpt) ∅ l).
End pool.

(** A part of the pool's state that frames and files do not touch. *)
Class Aside {V} (f : BufferManager -> V) := {
  aside_table : forall t bm, f (set_table t bm) = f bm;
  aside_pager : forall p bm, f (set_pager p bm) = f bm;
  aside_bump : forall bm, f (bump bm) = f bm
}.

#[global] Instance aside_walOn : Aside bm_walOn.
Proof. done. Qed.
#[global] Instance aside_wal : Aside bm_wal.
Proof. done. Qed.

Definition steady {V} (f : BufferManager -> V) {A} (m : M BufferManager A) : Prop :=
  forall bm, f (snd (m bm)) = f bm.

Create HintDb steady.
#[export] Hint Extern 0 (Aside _) => typeclasses eauto : steady.

Section steady.
Context {V : Type} (f : BufferManager -> V).
Context {A B : Type}.

Lemma steady_ret (a : A) : steady f (mret a).
Proof. done. Qed.
Lemma steady_throw e : steady f (throw (A := A) e).
Proof. done. Qed.
Lemma steady_panic : steady f (panic (A := A)).
Proof. done. Qed.
Lemma steady_hang : steady f (hang (A := A)).
Proof. done. Qed.
Lemma steady_pure (o : outcome A) : steady f (pure o).
Proof. done. Qed.
Lemma steady_gets (g : BufferManager -> A) : steady f (gets g).
Proof. done. Qed.
Lemma steady_bind (m : M BufferManager A) (k : A -> M BufferManager B) :
  steady f m -> (forall a, steady f (k a)) -> steady f (m ≫= k).
Proof.
  intros Hm Hk bm. unfold mbind, M_bind. specialize (Hm bm).
  destruct (m bm) as [[a| | |] bm']; cbn in *; try done. by rewrite Hk.
Qed.
Lemma steady_attempt (m : M BufferManager A) : steady f m -> steady f (attempt m).
Proof.
  intros Hm bm. specialize (Hm bm). unfold attempt. by destruct (m bm) as [[a| | |] bm'].
Qed.
Lemma steady_if (b : bool) (m1 m2 : M BufferManager A) :
  steady f m1 -> steady f m2 -> steady f (if b then m1 else m2).
Proof. by destruct b. Qed.
Lemma steady_pager `{!Aside f} (m : M File A) : steady f (on_pager m).
Proof. intros bm. unfold on_pager, zoom. destruct (m (bm_pager bm)). apply aside_pager. Qed.
Lemma steady_table `{!Aside f} (g : BufferManager -> gmap N Frame) :
  steady f (modify (fun bm => set_table (g bm) bm)).
Proof. intros bm. apply aside_table. Qed.
Lemma steady_bump `{!Aside f} : steady f (modify bump).
Proof. intros bm. apply aside_bump. Qed.
Lemma steady_alter `{!Aside f} id g : steady f (alter_frame id g).
Proof. intros bm. apply aside_table. Qed.
Lemma steady_get_frame id : steady f (get_frame id).
Proof. intros bm. unfold get_frame. by destruct (_ !! _). Qed.
Lemma steady_range_table `{!MapRange} `{!Aside f} : steady f range_table.
Proof. intros bm. apply aside_bump. Qed.
Lemma steady_for_each (g : A -> M BufferManager unit) l :
  (forall a, steady f (g a)) -> steady f (for_each g l).
Proof.
  intros Hg. induction l as [|a l IH]; intros bm; [done|]. cbn [for_each].
  unfold mbind, M_bind. specialize (Hg a bm). destruct (g a bm) as [[[]| | |] bm']; cbn in *; try done.
  by rewrite IH.
Qed.
End steady.

Lemma steady_wal {A} (m : M WAL A) : steady bm_walOn (on_wal m).
Proof. intros bm. unfold on_wal, zoom. by destruct (m (bm_wal bm)). Qed.

Lemma steady_ignore {V} (f : BufferManager -> V) {A} (m : M BufferManager A) :
  steady f m -> steady f (ignore m).
Proof. intros Hm. apply steady_bind; [by apply steady_attempt|done]. Qed.

Lemma steady_deferring {V} (f : BufferManager -> V) {A} (d : M BufferManager unit) (m : M BufferManager A) :
  steady f d -> steady f m -> steady f (deferring d m).
Proof.
  intros Hd%steady_ignore Hm bm. specialize (Hm bm). unfold deferring.
  destruct (m bm) as [[a|e| |] bm1]; try done; cbn in Hm; rewrite <-Hm.
  - apply (steady_bind f (ignore d) (fun _ => mret a) Hd (fun _ => steady_ret f a)).
  - apply (steady_bind f (ignore d) (fun _ => throw e) Hd (fun _ => steady_throw f e)).
Qed.

#[export] Hint Resolve steady_ret steady_throw steady_panic steady_hang steady_pure steady_gets
  steady_bind steady_attempt steady_ignore steady_deferring steady_if steady_pager steady_wal steady_table
  steady_bump steady_alter steady_get_frame steady_range_table steady_for_each : steady.

(** Case analysis on what the code looks at, then the hints. *)
Ltac steady :=
  repeat first
    [ progress intros
    | assumption
    | match goal with IH : _ |- _ => solve [apply IH] end
    | solve [auto with steady nocore]
    | apply steady_bind
    | apply steady_if
    | apply steady_attempt
    | apply steady_deferring
    | match goal with |- steady _ (match ?x with _ => _ end) => destruct x end ].

Section steady_pool.
Context `{MapRange}.
Context {V : Type} (f : BufferManager -> V) `{!Aside f}.

Lemma steady_rd {A} id (g : page -> A) : steady f (rd id g).
Proof. unfold rd. steady. Qed.
Lemma steady_wr id g : steady f (wr id g).
Proof. unfold wr. steady. Qed.
Lemma steady_on_page {A} id (m : M page A) : steady f (on_page id m).
Proof. unfold on_page. steady. Qed.
Lemma steady_evict : steady f evict.
Proof. unfold evict, firstFind. steady. Qed.
Lemma steady_getFrame id mode : steady f (getFrame id mode).
Proof. unfold getFrame. pose proof steady_evict. steady. Qed.
Lemma steady_fetch_read id mode : steady f (FetchPageForRead id mode).
Proof. unfold FetchPageForRead, RLock. pose proof (steady_getFrame id mode). steady. Qed.
Lemma steady_unpin id d w : steady f (UnpinPage id d w).
Proof. unfold UnpinPage, Unlock, RUnlock. steady. Qed.
End steady_pool.

Lemma steady_fetch_write `{MapRange} id mode : steady bm_walOn (FetchPageForWrite id mode).
Proof.
  unfold FetchPageForWrite, Lock, Unlock. pose proof (steady_getFrame bm_walOn id mode).
  pose proof (steady_wr bm_walOn id). steady.
Qed.

#[export] Hint Resolve steady_rd steady_wr steady_on_page steady_fetch_read
  steady_fetch_write steady_unpin : steady.

(** ** Pages up to their LSN

    Logging a page stamps a new LSN into it without marking it dirty, so the
    pool preserves pages up to that field. *)
Definition mask_lsn (p : page) : page := set_field p lsnOffset 8 0.
Definition page_eqv (p q : page) : Prop := mask_lsn p = mask_lsn q.

#[global] Instance page_eqv_equivalence : Equivalence page_eqv.
Proof.
  unfold page_eqv. split; [by intros ?|by intros ?|]. intros x y z ??. congruence.
Qed.

(** ** The array of pages *)

(** The current contents of page [id]: the frame's if resident, the file's
    otherwise. *)
Definition view (bm : BufferManager) (id : N) : page :=
  match bm_pageTable bm !! id with
  | Some fr => fr_page fr
  | None => page_at (bm_pager bm) id
  end.

Definition bm_pages (bm : BufferManager) : N := n_pages (bm_pager bm).

(** The same array, up to LSNs, in a pool of the same size. *)
Definition same_view (bm bm' : BufferManager) : Prop :=
  (bm_pages bm' = bm_pages bm /\ bm_maxSize bm' = bm_maxSize bm)
  /\ forall id, page_eqv (view bm' id) (view bm id).

(** What the goroutine holds on a page. *)
Inductive hold := HRead (n : N) | HWrite.

#[global] Instance hold_eq_dec : EqDecision hold.
Proof. solve_decision. Defined.

(** A frame agrees with the hold on it; a clean frame that nobody is writing
    agrees with the file. *)
Record frame_ok (f : File) (id : N) (fr : Frame) (ho : option hold) : Prop := {
  fo_id : id < n_pages f;
  fo_len : len (fr_page fr) = PageSize;
  fo_hold : match ho with
            | None => fr_pin fr = 0 /\ fr_latch fr = free_latch
            | Some (HRead n) => fr_pin fr = n /\ fr_latch fr = mkLatch n false /\ 0 < n < 4294967296
            | Some HWrite => fr_pin fr = 1 /\ fr_latch fr = mkLatch 0 true
            end;
  fo_clean : fr_dirty fr = false -> ho <> Some HWrite -> page_eqv (fr_page fr) (page_at f id)
}.

(** The frame of [id] is dirty or agrees with the file. *)
Definition settled (bm : BufferManager) (id : N) : Prop :=
  forall fr, bm_pageTable bm !! id = Some fr -> fr_dirty fr = false ->
    page_eqv (fr_page fr) (page_at (bm_pager bm) id).

Record bm_ok (bm : BufferManager) (h : gmap N hold) : Prop := {
  bo_file : db_file (bm_pager bm);
  bo_wal : healthy (w_file (bm_wal bm));
  bo_size : N.of_nat (size (bm_pageTable bm)) <= bm_maxSize bm;
  bo_frames : forall id fr, bm_pageTable bm !! id = Some fr -> frame_ok (bm_pager bm) id fr (h !! id);
  bo_held : forall id ho, h !! id = Some ho -> is_Some (bm_pageTable bm !! id)
}.

(** ** Lemmas on pages up to their LSN *)

Lemma len_mask p : len (mask_lsn p) = len p.
Proof. apply len_set_field. Qed.

Lemma page_eqv_len p q : page_eqv p q -> len p = len q.
Proof. intros H. rewrite <-(len_mask p), <-(len_mask q). by rewrite H. Qed.

Lemma SetLSN_eqv lsn p : len p = PageSize -> page_eqv (SetLSN lsn p) p.
Proof.
  intros H. unfold page_eqv, mask_lsn, SetLSN. apply set_field_idem.
  unfold lsnOffset, PageSize in *. lia.
Qed.

Lemma get_field_eqv p q off w :
  len p = PageSize -> page_eqv p q -> off + w <= 12 \/ 20 <= off ->
  get_field p off w = get_field q off w.
Proof.
  intros Hp Hpq Ho. pose proof (page_eqv_len p q Hpq) as Hq.
  rewrite <-(get_set_ne p 12 8 0 off w) by (unfold PageSize in *; simpl; lia).
  rewrite <-(get_set_ne q 12 8 0 off w) by (unfold PageSize in *; simpl; lia).
  unfold page_eqv, mask_lsn, lsnOffset in Hpq. by rewrite Hpq.
Qed.

Lemma sub_eqv p q off w :
  len p = PageSize -> page_eqv p q -> off + w <= 12 \/ 20 <= off -> sub p off w = sub q off w.
Proof.
  intros Hp Hpq Ho. pose proof (page_eqv_len p q Hpq) as Hq.
  rewrite <-(sub_splice_ne p 12 (le_enc 8 0) off w) by (unfold PageSize in *; len).
  rewrite <-(sub_splice_ne q 12 (le_enc 8 0) off w) by (unfold PageSize in *; len).
  unfold page_eqv, mask_lsn, set_field, lsnOffset in Hpq. by rewrite Hpq.
Qed.

(** Writing the same bytes on both sides keeps pages equivalent. *)
Lemma set_field_eqv p q off w v :
  len p = PageSize -> page_eqv p q -> off + N.of_nat w <= 12 \/ 20 <= off ->
  off + N.of_nat w <= PageSize -> page_eqv (set_field p off w v) (set_field q off w v).
Proof.
  intros Hp Hpq Ho Hw. pose proof (page_eqv_len p q Hpq) as Hq.
  assert (Hcomm : forall x, len x = PageSize ->
    mask_lsn (set_field x off w v) = set_field (mask_lsn x) off w v).
  { intros x Hx. unfold mask_lsn, set_field, lsnOffset, PageSize in *. apply list_eq. intros i.
    assert (Hl : length (le_enc w v) = w) by (pose proof (len_le_enc w v); unfold len in *; lia).
    rewrite !lookup_splice by len. rewrite Hl. simpl length.
    repeat case_decide; try done; lia. }
  unfold page_eqv. rewrite !Hcomm by (done || lia). by rewrite Hpq.
Qed.

(** The abstract page does not depend on the LSN. *)
Section eqv.
Context (p q : page) (Hlen : len p = PageSize) (Hpq : page_eqv p q).

Lemma eqv_len : len q = PageSize.
Proof. by rewrite <-(page_eqv_len p q Hpq). Qed.

Lemma eqv_type : GetPageType p = GetPageType q.
Proof. apply get_field_eqv; [done|done|right; unfold pageTypeOffset; lia]. Qed.
Lemma eqv_id : GetPageID p = GetPageID q.
Proof. apply get_field_eqv; [done|done|left; unfold pageIDOffset; lia]. Qed.
Lemma eqv_count : getSlotCount p = getSlotCount q.
Proof. apply get_field_eqv; [done|done|right; unfold slotCountOffset; lia]. Qed.
Lemma eqv_free : getFreeSpaceOffset p = getFreeSpaceOffset q.
Proof. apply get_field_eqv; [done|done|right; unfold freeSpaceOffset; lia]. Qed.
Lemma eqv_slot i : slot_off p i = slot_off q i /\ slot_size p i = slot_size q i.
Proof.
  unfold slot_off, slot_size, slot_entry, HeaderSize.
  split; apply get_field_eqv; (done || right; lia).
Qed.
Lemma eqv_body off w : 32 <= off -> get_field p off w = get_field q off w.
Proof. intros Ho. apply get_field_eqv; [done|done|right; lia]. Qed.

Lemma eqv_wf : page_wf p -> page_wf q.
Proof.
  intros [H1 H2 H3 H4 H5]. constructor.
  - apply eqv_len.
  - unfold holds_cells in *. by rewrite <-eqv_type.
  - by rewrite <-eqv_count, <-eqv_free.
  - by rewrite <-eqv_free.
  - intros i Hi. rewrite <-eqv_count in Hi. rewrite <-eqv_free.
    destruct (eqv_slot i) as [<- <-]. by apply H5.
Qed.

Lemma eqv_cells : page_wf p -> cells p = cells q.
Proof.
  intros Hwf. unfold cells, slot_ids. rewrite <-eqv_count. apply list_fmap_ext.
  intros k i Hk. apply list_lookup_fmap_Some in Hk as (j & -> & Hj).
  apply lookup_seq in Hj as [-> Hj]. simpl. unfold cell_at.
  destruct (eqv_slot (N.of_nat k)) as [<- <-]. apply sub_eqv; [done|done|right].
  pose proof (wf_slots p Hwf (N.of_nat k)) as H5. pose proof (wf_dir p Hwf).
  unfold slot_entry, HeaderSize in *. lia.
Qed.

Lemma eqv_stores `{Codec A} (xs : list A) : stores p xs -> stores q xs.
Proof.
  intros [H1 H2 H3]. constructor; [by apply eqv_wf|by rewrite <-eqv_cells|done].
Qed.
End eqv.

(** ** Lemmas on the pool *)

Lemma alter_frame_eq id f bm :
  alter_frame id f bm = (Ok tt, set_table (alter f id (bm_pageTable bm)) bm).
Proof. done. Qed.

Lemma get_frame_eq id fr bm :
  bm_pageTable bm !! id = Some fr -> get_frame id bm = (Ok fr, bm).
Proof. unfold get_frame. by intros ->. Qed.

(** Changing one resident frame. *)
Lemma bm_ok_alter bm h id fr fr' h' :
  bm_ok bm h -> bm_pageTable bm !! id = Some fr ->
  frame_ok (bm_pager bm) id fr' (h' !! id) ->
  (forall id', id' <> id -> h' !! id' = h !! id') ->
  bm_ok (set_table (<[id := fr']> (bm_pageTable bm)) bm) h'.
Proof.
  intros [H1 H2 H3 H4 H5] Hid Hfr Hh. constructor; simpl; try done.
  - rewrite map_size_insert_Some by eauto. done.
  - intros id' fr'' Hl. destruct (decide (id' = id)) as [->|Hne].
    + rewrite lookup_insert_eq in Hl. by simplify_eq.
    + rewrite lookup_insert_ne in Hl by done. rewrite Hh by done. by apply H4.
  - intros id' ho Hho. destruct (decide (id' = id)) as [->|Hne].
    + rewrite lookup_insert_eq. done.
    + rewrite lookup_insert_ne by done. rewrite Hh in Hho by done. by eapply H5.
Qed.

Lemma view_insert bm id fr id' :
  view (set_table (<[id := fr]> (bm_pageTable bm)) bm) id'
    = if decide (id' = id) then fr_page fr else view bm id'.
Proof.
  unfold view. simpl. case_decide as E.
  - subst. by rewrite lookup_insert_eq.
  - by rewrite lookup_insert_ne.
Qed.

Lemma alter_insert {V} (m : gmap N V) id f fr :
  m !! id = Some fr -> alter f id m = <[id := f fr]> m.
Proof.
  intros H. apply map_eq. intros j. rewrite lookup_alter, lookup_insert.
  repeat case_decide; try done. subst. by rewrite H.
Qed.

Lemma size_delete_S {V} (m : gmap N V) id fr :
  m !! id = Some fr -> S (size (delete id m)) = size m.
Proof.
  intros H. rewrite map_size_delete_Some by done.
  assert (size m <> 0)%nat; [|lia].
  intros E0. apply map_size_empty_inv in E0. by rewrite E0 in H.
Qed.

#[global] Instance same_view_preorder : PreOrder same_view.
Proof.
  split.
  - intros bm. split; [done|]. by intros id.
  - intros a b c [[H1 H1'] H2] [[H3 H3'] H4]. split; [split; congruence|]. intros id.
    etrans; [apply H4|apply H2].
Qed.

Section pool_lemmas.
Context `{MapRange}.

(** An unheld resident page exists when fewer pages are held than resident. *)
Lemma unheld_resident bm h :
  bm_ok bm h -> (size h < size (bm_pageTable bm))%nat ->
  exists id fr, bm_pageTable bm !! id = Some fr /\ h !! id = None.
Proof.
  intros Hok Hlt.
  destruct (decide (dom (bm_pageTable bm) ⊆ dom h)) as [Hs|Hs].
  - exfalso. apply subseteq_size in Hs. rewrite !size_dom in Hs. lia.
  - assert (Hne : dom (bm_pageTable bm) ∖ dom h <> ∅).
    { intros E. apply Hs. intros x Hx. destruct (decide (x ∈ dom h)); [done|].
      assert (x ∈ dom (bm_pageTable bm) ∖ dom h) by (apply elem_of_difference; done).
      rewrite E in *. set_solver. }
    apply set_choose_L in Hne as [x Hx].
    apply elem_of_difference in Hx as [[fr Hx]%elem_of_dom Hn%not_elem_of_dom].
    by exists x, fr.
Qed.

(** The victim is an unpinned resident frame, if there is one. *)
Lemma firstFind_spec bm h :
  bm_ok bm h ->
  exists v, firstFind bm = (Ok v, bump bm) /\
    match v with
    | Some (id, fr) => bm_pageTable bm !! id = Some fr /\ h !! id = None
    | None => forall id, is_Some (bm_pageTable bm !! id) -> is_Some (h !! id)
    end.
Proof.
  intros Hok. eexists. split; [done|].
  set (l := map_range _ _). destruct (find _ l) as [[id fr]|] eqn:E.
  - apply find_some in E as [Hin Hp]. apply N.eqb_eq in Hp.
    apply list_elem_of_In, elem_of_map_range in Hin. split; [done|].
    destruct (bo_frames _ _ Hok id fr Hin) as [_ _ Hh _].
    destruct (h !! id) as [[n|]|]; [lia|lia|done].
  - intros id [fr Hfr]. pose proof (find_none _ _ E (id, fr)) as Hn.
    simpl in Hn. rewrite N.eqb_neq in Hn.
    destruct (bo_frames _ _ Hok id fr Hfr) as [_ _ Hh _].
    destruct (h !! id) eqn:Eh; [done|]. destruct Hn; [|by apply Hh].
    apply list_elem_of_In. by apply elem_of_map_range.
Qed.

(** Removing an unheld frame that agrees with the file. *)
Lemma bm_ok_delete bm h id fr :
  bm_ok bm h -> bm_pageTable bm !! id = Some fr -> h !! id = None ->
  page_eqv (fr_page fr) (page_at (bm_pager bm) id) ->
  let bm' := set_table (delete id (bm_pageTable bm)) bm in
  bm_ok bm' h /\ same_view bm bm'.
Proof.
  intros [H1 H2 H3 H4 H5] Hid Hh Heq bm'. split.
  - constructor; simpl; try done.
    + rewrite map_size_delete_Some by done. lia.
    + intros id' fr' Hl. apply lookup_delete_Some in Hl as [_ Hl]. by apply H4.
    + intros id' ho Hho. rewrite lookup_delete_ne; [by eapply H5|congruence].
  - split; [done|]. intros id'. unfold view, bm'. simpl.
    destruct (decide (id = id')) as [->|Hne].
    + rewrite lookup_delete_eq, Hid. by symmetry.
    + by rewrite lookup_delete_ne.
Qed.

(** Writing a resident unheld frame back to the file. *)
Lemma writeback_ok bm h id fr :
  bm_ok bm h -> bm_pageTable bm !! id = Some fr ->
  exists f', WritePage id (fr_page fr) (bm_pager bm) = (Ok tt, f') /\
    let bm' := set_table (<[id := set_recLSN 0 (set_dirty false fr)]> (bm_pageTable bm))
                 (set_pager f' bm) in
    bm_ok bm' h /\ same_view bm bm' /\ bm_pages bm' = bm_pages bm
    /\ page_at f' id = fr_page fr
    /\ (forall id', id' <> id -> page_at f' id' = page_at (bm_pager bm) id').
Proof.
  intros Hok Hid. pose proof Hok as [H1 H2 H3 H4 H5].
  destruct (H4 id fr Hid) as [F1 F2 F3 F4].
  destruct (WritePage_in (bm_pager bm) H1 id (fr_page fr) F2 F1) as (f' & W1 & W2 & W3 & W4 & W5).
  exists f'. split; [done|]. intros bm'.
  assert (Hn : bm_pages bm' = bm_pages bm) by done.
  split; [|split; [|split; [|split]]]; [|split; [done|]|done|done|by intros id' Hne; apply W5].
  - constructor; simpl; try done.
    + rewrite map_size_insert_Some by eauto. done.
    + intros id' fr' Hl. destruct (decide (id' = id)) as [->|Hne].
      * rewrite lookup_insert_eq in Hl. simplify_eq. constructor; simpl; try done.
        -- by rewrite W3.
        -- intros _ _. by rewrite W4.
      * rewrite lookup_insert_ne in Hl by done. destruct (H4 id' fr' Hl) as [G1 G2 G3 G4].
        constructor; [by rewrite W3|exact G2|exact G3|]. intros Hd Hw. rewrite W5 by done. by apply G4.
    + intros id' ho Hho. destruct (decide (id' = id)) as [->|Hne].
      * rewrite lookup_insert_eq. done.
      * rewrite lookup_insert_ne by done. by eapply H5.
  - intros id'. unfold view, bm'. simpl. destruct (decide (id = id')) as [->|Hne].
    + by rewrite lookup_insert_eq, Hid.
    + rewrite lookup_insert_ne by done.
      destruct (bm_pageTable bm !! id'); [done|]. by rewrite W5.
Qed.

Lemma bm_ok_bump bm h : bm_ok bm h -> bm_ok (bump bm) h.
Proof. by intros [H1 H2 H3 H4 H5]. Qed.

Lemma on_pager_eq {A} (m : M File A) bm o f' :
  m (bm_pager bm) = (o, f') -> on_pager m bm = (o, set_pager f' bm).
Proof. unfold on_pager, zoom. by intros ->. Qed.

Lemma set_pager_id bm : set_pager (bm_pager bm) bm = bm.
Proof. by destruct bm. Qed.

(** Eviction frees a slot and leaves the array of pages as it is; it never
    touches a held page. *)
Lemma evict_ok bm h :
  bm_ok bm h -> (size h < size (bm_pageTable bm))%nat ->
  exists bm', evict bm = (Ok tt, bm') /\ bm_ok bm' h /\ same_view bm bm'
    /\ S (size (bm_pageTable bm')) = size (bm_pageTable bm)
    /\ (forall id, bm_pageTable bm !! id = None -> bm_pageTable bm' !! id = None
         /\ page_at (bm_pager bm') id = page_at (bm_pager bm) id)
    /\ bm_wal bm' = bm_wal bm.
Proof.
  intros Hok Hlt. destruct (firstFind_spec bm h Hok) as (v & E & Hv).
  destruct v as [[id fr]|].
  2: { destruct (unheld_resident bm h Hok Hlt) as (id & fr & Hid & Hn).
       destruct (Hv id) as [? ?]; [by eexists|]. congruence. }
  destruct Hv as [Hid Hn]. unfold evict. mstep E.
  pose proof (bm_ok_bump bm h Hok) as Hok1.
  destruct (fr_dirty fr) eqn:Ed.
  - destruct (writeback_ok (bump bm) h id fr Hok1 Hid) as (f' & W1 & W2 & W3 & _ & W4 & W5).
    set (bm1 := set_table (<[id := _]> _) _) in *.
    assert (Hstep : (_ ← on_pager (WritePage id (fr_page fr));
      alter_frame id (fun fr => set_recLSN 0 (set_dirty false fr))) (bump bm) = (Ok tt, bm1)).
    { mstep (on_pager_eq _ (bump bm) _ _ W1). rewrite alter_frame_eq. unfold bm1.
      simpl. by rewrite (alter_insert _ _ _ _ Hid). }
    mstep Hstep. eexists. split; [done|].
    assert (Hid1 : bm_pageTable bm1 !! id = Some (set_recLSN 0 (set_dirty false fr)))
      by apply lookup_insert_eq.
    destruct (bm_ok_delete bm1 h id _ W2 Hid1 Hn) as [D1 D2].
    { simpl. by rewrite W4. }
    split; [done|]. split; [etrans; [|exact D2]; exact W3|].
    unfold bm1. simpl. rewrite delete_insert_eq. split; [|split; [|done]].
    + by eapply size_delete_S.
    + intros id' Hid'. split; [apply lookup_delete_None; by right|]. apply W5. intros ->. congruence.
  - unfold mbind at 1, M_bind at 1, mret at 1, M_ret at 1. eexists. split; [done|].
    destruct (bm_ok_delete (bump bm) h id fr Hok1 Hid Hn) as [D1 D2].
    { destruct (bo_frames _ _ Hok id fr Hid) as [_ _ _ Hc]. apply Hc; [done|congruence]. }
    split; [done|]. split; [done|]. simpl. split; [|split; [|done]].
    + by eapply size_delete_S.
    + intros id' Hid'. split; [apply lookup_delete_None; by right|done].
Qed.
(** With every resident page held there is no victim. *)
Lemma evict_full bm h :
  bm_ok bm h -> (forall id, is_Some (bm_pageTable bm !! id) -> is_Some (h !! id)) ->
  evict bm = (Err ErrPoolFull, bump bm).
Proof.
  intros Hok Hall. destruct (firstFind_spec bm h Hok) as ([[id fr]|] & E & Hv).
  - destruct Hv as [Hid Hn]. destruct (Hall id) as [? ?]; [by eexists|]. congruence.
  - unfold evict. by mstep E.
Qed.

(** ** Fetching *)

(** The frame a page gets when it is read from the file. *)
Definition fresh_frame (p : page) : Frame := mkFrame p false 1 free_latch 0.

(** The middle state of a fetch: the page is resident and pinned once more,
    its latch not yet taken.  [room_for] is what the pool needs for that. *)
Definition room_for (bm : BufferManager) (h : gmap N hold) (id : N) : Prop :=
  is_Some (bm_pageTable bm !! id) \/ N.of_nat (size h) < bm_maxSize bm.

Lemma getFrame_resident id mode bm fr :
  bm_pageTable bm !! id = Some fr ->
  getFrame id mode bm
    = (Ok tt, set_table (<[id := set_pin (u32 (fr_pin fr + 1)) fr]> (bm_pageTable bm)) bm).
Proof.
  intros Hid. unfold getFrame. unfold mbind at 1, M_bind at 1, gets at 1.
  unfold Datatypes.id. rewrite Hid, alter_frame_eq. by rewrite (alter_insert _ _ _ _ Hid).
Qed.

Lemma getFrame_miss id mode bm h :
  bm_ok bm h -> bm_pageTable bm !! id = None -> id < bm_pages bm ->
  N.of_nat (size h) < bm_maxSize bm ->
  exists bm1, getFrame id mode bm
      = (Ok tt, set_table (<[id := fresh_frame (page_at (bm_pager bm1) id)]>
                             (bm_pageTable bm1)) bm1)
    /\ bm_ok bm1 h /\ same_view bm bm1 /\ bm_pageTable bm1 !! id = None
    /\ N.of_nat (size (bm_pageTable bm1)) < bm_maxSize bm1
    /\ page_at (bm_pager bm1) id = page_at (bm_pager bm) id /\ bm_wal bm1 = bm_wal bm.
Proof.
  intros Hok Hid Hlt Hroom. unfold getFrame.
  unfold mbind at 1, M_bind at 1, gets at 1. unfold Datatypes.id. rewrite Hid.
  assert (Hev : exists bm1,
    (if bm_maxSize bm <=? N.of_nat (size (bm_pageTable bm)) then evict else mret tt) bm = (Ok tt, bm1)
    /\ bm_ok bm1 h /\ same_view bm bm1 /\ bm_pageTable bm1 !! id = None
    /\ N.of_nat (size (bm_pageTable bm1)) < bm_maxSize bm1
    /\ page_at (bm_pager bm1) id = page_at (bm_pager bm) id /\ bm_wal bm1 = bm_wal bm).
  { pose proof (bo_size _ _ Hok) as Hsz. destruct (_ <=? _) eqn:E; bool_lia.
    - destruct (evict_ok bm h Hok) as (bm1 & E1 & E2 & E3 & E4 & E5 & E6); [lia|].
      exists bm1. split; [done|]. split; [done|]. split; [done|].
      split; [by apply E5|]. split; [|split; [by apply E5|done]]. destruct E3 as [[_ ->] _]. lia.
    - exists bm. split; [done|]. split; [done|]. split; [reflexivity|]. done. }
  destruct Hev as (bm1 & E1 & E2 & E3 & E4 & E5 & E6). mstep E1.
  assert (Hlt1 : id < n_pages (bm_pager bm1)).
  { destruct E3 as [[Ep _] _]. unfold bm_pages in *. by rewrite Ep. }
  mstep (on_pager_eq _ bm1 _ _ (ReadPage_in (bm_pager bm1) (bo_file _ _ E2) id (NewPage mode)
           (len_NewPage mode) Hlt1)).
  rewrite set_pager_id. by exists bm1.
Qed.

Lemma on_wal_eq {A} (m : M WAL A) bm o w' :
  m (bm_wal bm) = (o, w') -> on_wal m bm = (o, set_bm_wal w' bm).
Proof. unfold on_wal, zoom. by intros ->. Qed.

Lemma insert_twice id fr fr' bm :
  set_table (<[id := fr']> (bm_pageTable (set_table (<[id := fr]> (bm_pageTable bm)) bm)))
    (set_table (<[id := fr]> (bm_pageTable bm)) bm)
  = set_table (<[id := fr']> (bm_pageTable bm)) bm.
Proof. unfold set_table. simpl. by rewrite insert_insert_eq. Qed.

(** Changing a frame whose entry is known. *)
Lemma alter_frame_at id f fr bm :
  bm_pageTable bm !! id = Some fr ->
  alter_frame id f bm = (Ok tt, set_table (<[id := f fr]> (bm_pageTable bm)) bm).
Proof. intros Hfr. rewrite alter_frame_eq. by rewrite (alter_insert _ _ _ _ Hfr). Qed.

(** The latch operations on a frame whose entry is known. *)
Lemma RLock_at id fr bm :
  bm_pageTable bm !! id = Some fr -> l_writer (fr_latch fr) = false ->
  RLock id bm = (Ok tt, set_table (<[id := set_latch (mkLatch (l_readers (fr_latch fr) + 1) false) fr]>
                                     (bm_pageTable bm)) bm).
Proof.
  intros Hfr Hl. unfold RLock. mstep (get_frame_eq id _ _ Hfr). rewrite Hl.
  by apply alter_frame_at.
Qed.

Lemma Lock_at id fr bm :
  bm_pageTable bm !! id = Some fr -> fr_latch fr = free_latch ->
  Lock id bm = (Ok tt, set_table (<[id := set_latch (mkLatch 0 true) fr]> (bm_pageTable bm)) bm).
Proof.
  intros Hfr Hl. unfold Lock. mstep (get_frame_eq id _ _ Hfr). rewrite Hl.
  by apply alter_frame_at.
Qed.

Lemma RUnlock_at id fr bm n :
  bm_pageTable bm !! id = Some fr -> fr_latch fr = mkLatch n false -> n <> 0 ->
  RUnlock id bm
    = (Ok tt, set_table (<[id := set_latch (mkLatch (n - 1) false) fr]> (bm_pageTable bm)) bm).
Proof.
  intros Hfr Hl Hn. unfold RUnlock. mstep (get_frame_eq id _ _ Hfr). rewrite Hl.
  cbn [l_readers l_writer]. rewrite (proj2 (N.eqb_neq _ _) Hn). by apply alter_frame_at.
Qed.

Lemma Unlock_at id fr bm :
  bm_pageTable bm !! id = Some fr -> fr_latch fr = mkLatch 0 true ->
  Unlock id bm = (Ok tt, set_table (<[id := set_latch free_latch fr]> (bm_pageTable bm)) bm).
Proof.
  intros Hfr Hl. unfold Unlock. mstep (get_frame_eq id _ _ Hfr). rewrite Hl.
  cbn [l_readers l_writer]. by apply alter_frame_at.
Qed.

(** The number of read holds on a page. *)
Definition readers (h : gmap N hold) (id : N) : N :=
  match h !! id with Some (HRead n) => n | _ => 0 end.

(** The flags of the frame of [id]; a page that is not resident is clean. *)
Definition is_dirty (bm : BufferManager) (id : N) : bool :=
  match bm_pageTable bm !! id with Some fr => fr_dirty fr | None => false end.
Definition rec_lsn (bm : BufferManager) (id : N) : N :=
  match bm_pageTable bm !! id with Some fr => fr_recLSN fr | None => 0 end.

(** A fetch first makes the page resident with one more pin. *)
Lemma getFrame_ok id mode bm h :
  bm_ok bm h -> id < bm_pages bm -> h !! id <> Some HWrite ->
  room_for bm h id -> readers h id < 4294967295 ->
  exists bm1 p d r, getFrame id mode bm
      = (Ok tt, set_table (<[id := mkFrame p d (readers h id + 1) (mkLatch (readers h id) false) r]>
                            (bm_pageTable bm1)) bm1)
    /\ bm_ok (set_table (<[id := mkFrame p d (readers h id) (mkLatch (readers h id) false) r]>
                            (bm_pageTable bm1)) bm1) h
    /\ p = view bm id
    /\ same_view bm (set_table (<[id := mkFrame p d (readers h id) (mkLatch (readers h id) false) r]>
                            (bm_pageTable bm1)) bm1)
    /\ bm_wal bm1 = bm_wal bm /\ (d = is_dirty bm id /\ r = rec_lsn bm id).
Proof.
  intros Hok Hid Hw Hroom Hn. unfold is_dirty, rec_lsn.
  destruct (bm_pageTable bm !! id) as [[p d pin la r]|] eqn:Efr.
  - destruct (bo_frames _ _ Hok id _ Efr) as [F1 F2 F3 F4]. simpl in *.
    assert (Hpl : pin = readers h id /\ la = mkLatch (readers h id) false).
    { unfold readers. destruct (h !! id) as [[n|]|] eqn:Eh; [tauto|done|].
      by destruct F3 as [-> ->]. }
    destruct Hpl as [-> ->]. exists bm, p, d, r.
    rewrite (getFrame_resident _ _ _ _ Efr). simpl. unfold set_pin. simpl.
    replace (u32 (readers h id + 1)) with (readers h id + 1) by (unfold u32; lia).
    rewrite (insert_id _ _ _ Efr).
    assert (Hset : set_table (bm_pageTable bm) bm = bm) by (by destruct bm). rewrite Hset.
    split; [done|]. split; [done|]. split; [|done].
    unfold view. by rewrite Efr.
  - destruct Hroom as [[? ?]|Hroom]; [congruence|].
    assert (Hh : h !! id = None).
    { destruct (h !! id) eqn:Eh; [|done]. destruct (bo_held _ _ Hok _ _ Eh). congruence. }
    assert (Hr : readers h id = 0) by (unfold readers; by rewrite Hh).
    destruct (getFrame_miss id mode bm h Hok Efr Hid Hroom) as (bm1 & E1 & E2 & E3 & E4 & E5 & E6 & E7).
    exists bm1, (page_at (bm_pager bm1) id), false, 0. rewrite Hr.
    assert (Hid1 : id < n_pages (bm_pager bm1)) by (destruct E3 as [[Ep _] _]; by rewrite <-Ep in Hid).
    assert (Hv : view bm1 id = page_at (bm_pager bm1) id) by (unfold view; by rewrite E4).
    assert (Hlen := len_page_at _ (bo_file _ _ E2) id Hid1).
    split; [done|]. split; [|split; [|split; [|done]]].
    + destruct E2 as [G1 G2 G3 G4 G5]. constructor; simpl; try done.
      * rewrite map_size_insert_None by done. lia.
      * intros id' fr' Hl. destruct (decide (id' = id)) as [->|Hne].
        -- rewrite lookup_insert_eq in Hl. simplify_eq. rewrite Hh.
           constructor; simpl; done.
        -- rewrite lookup_insert_ne in Hl by done. by apply G4.
      * intros id' ho Hho. destruct (decide (id' = id)) as [->|Hne]; [congruence|].
        rewrite lookup_insert_ne by done. by eapply G5.
    + rewrite E6. unfold view. by rewrite Efr.
    + etrans; [exact E3|]. split; [done|]. intros id'. rewrite view_insert. simpl.
      case_decide; [subst; by rewrite Hv|done].
Qed.

(** Reading leaves the array alone and adds a read hold. *)
Lemma fetch_read_ok id mode bm h :
  bm_ok bm h -> id < bm_pages bm -> h !! id <> Some HWrite ->
  room_for bm h id -> readers h id < 4294967295 ->
  exists bm', FetchPageForRead id mode bm = (Ok tt, bm')
    /\ bm_ok bm' (<[id := HRead (readers h id + 1)]> h) /\ same_view bm bm'.
Proof.
  intros Hok Hid Hw Hroom Hn.
  destruct (getFrame_ok id mode bm h Hok Hid Hw Hroom Hn) as (bm1 & p & d & r & E1 & E2 & E3 & E4 & _).
  unfold FetchPageForRead. mstep E1. set (bm2 := set_table (<[id := mkFrame p d (readers h id + 1) _ r]> _) bm1) in *.
  assert (Hfr : bm_pageTable bm2 !! id
    = Some (mkFrame p d (readers h id + 1) (mkLatch (readers h id) false) r))
    by apply lookup_insert_eq.
  rewrite (RLock_at id _ _ Hfr eq_refl). unfold bm2. rewrite insert_twice.
  unfold set_latch. cbn [fr_page fr_dirty fr_pin fr_latch fr_recLSN l_readers]. eexists. split; [done|]. split.
  - rewrite <-(insert_twice id (mkFrame p d (readers h id) (mkLatch (readers h id) false) r)).
    eapply bm_ok_alter; [exact E2|apply lookup_insert_eq| |].
    + destruct (bo_frames _ _ E2 id _ (lookup_insert_eq _ _ _)) as [F1 F2 _ F4].
      rewrite lookup_insert_eq. constructor; simpl in *; [done|done| |].
      * split_and!; (done || lia).
      * intros Hd _. by apply F4.
    + intros id' Hne. by rewrite lookup_insert_ne.
  - etrans; [exact E4|]. split; [done|]. intros id'. rewrite !view_insert. by case_decide.
Qed.

(** From an unheld frame to the frame of a write fetch, whose log and LSN may
    have moved. *)
Lemma write_held bm bm1 h id p d r w q r' :
  bm_ok (set_table (<[id := mkFrame p d 0 (mkLatch 0 false) r]> (bm_pageTable bm1)) bm1) h ->
  same_view bm (set_table (<[id := mkFrame p d 0 (mkLatch 0 false) r]> (bm_pageTable bm1)) bm1) ->
  h !! id = None -> healthy (w_file w) -> page_eqv q p -> len q = PageSize ->
  let bm' := set_table (<[id := mkFrame q d (0 + 1) (mkLatch 0 true) r']> (bm_pageTable bm1))
               (set_bm_wal w bm1) in
  bm_ok bm' (<[id := HWrite]> h) /\ same_view bm bm' /\ settled bm' id.
Proof.
  intros Hok Hv Hh Hw Hq Hlq bm'.
  destruct (bo_frames _ _ Hok id _ (lookup_insert_eq _ _ _)) as [F1 F2 _ F4].
  split; [|split].
  - assert (Hok2 : bm_ok (set_bm_wal w (set_table (<[id := mkFrame p d 0 (mkLatch 0 false) r]>
                     (bm_pageTable bm1)) bm1)) h) by (destruct Hok; constructor; done).
    assert (Hok3 := bm_ok_alter _ h id (mkFrame p d 0 (mkLatch 0 false) r)
                   (mkFrame q d (0 + 1) (mkLatch 0 true) r') (<[id := HWrite]> h) Hok2
                   (lookup_insert_eq _ _ _)).
    rewrite (lookup_insert_eq h) in Hok3.
    assert (Hf : frame_ok (bm_pager bm1) id (mkFrame q d (0 + 1) (mkLatch 0 true) r') (Some HWrite)).
    { constructor; [exact F1|exact Hlq|done|]. by intros _ []. }
    specialize (Hok3 Hf). unfold set_table, set_bm_wal in *.
    cbn [bm_pageTable bm_pager bm_maxSize bm_wal bm_walOn bm_tick] in *.
    rewrite insert_insert_eq in Hok3. apply Hok3.
    intros id' Hne. by rewrite lookup_insert_ne.
  - etrans; [exact Hv|]. split; [done|]. intros id'. rewrite view_insert.
    unfold bm', view. simpl. destruct (decide (id' = id)) as [->|Hne].
    + by rewrite lookup_insert_eq.
    + by rewrite lookup_insert_ne.
  - intros fr Hfr Hd. unfold bm' in Hfr. cbn in Hfr. rewrite lookup_insert_eq in Hfr.
    injection Hfr as <-. cbn in *. etrans; [exact Hq|]. apply F4; [done|]. congruence.
Qed.

(** The log is as it was, or got the image of one page. *)
Definition log_step (id : N) (w w' : WAL) : Prop :=
  w' = w \/ exists p lsn, len p = PageSize /\ Append 0 id 0 LogOpFullPage [] p w = (Ok lsn, w').

(** What a write fetch does to the log and the frame: the image of a clean page
    is appended, before anyone can change the page, and the frame takes the LSN
    of that record; a dirty page, or any page when there is no log, is handed
    out as it is. *)
Definition image_logged (id : N) (bm bm' : BufferManager) : Prop :=
  exists fr, bm_pageTable bm' !! id = Some fr /\ fr_dirty fr = is_dirty bm id
    /\ if negb (is_dirty bm id) && bm_walOn bm then
         Append 0 id 0 LogOpFullPage [] (view bm id) (bm_wal bm) = (Ok (fr_recLSN fr), bm_wal bm')
         /\ fr_page fr = SetLSN (fr_recLSN fr) (view bm id)
       else bm_wal bm' = bm_wal bm /\ fr_page fr = view bm id /\ fr_recLSN fr = rec_lsn bm id.

(** A write fetch takes the page exclusively. *)
Lemma fetch_write_image id mode bm h :
  bm_ok bm h -> id < bm_pages bm -> h !! id = None -> room_for bm h id ->
  exists bm', FetchPageForWrite id mode bm = (Ok tt, bm')
    /\ bm_ok bm' (<[id := HWrite]> h) /\ same_view bm bm' /\ settled bm' id
    /\ image_logged id bm bm' /\ len (view bm id) = PageSize.
Proof.
  intros Hok Hid Hh Hroom.
  assert (Hr : readers h id = 0) by (unfold readers; by rewrite Hh).
  destruct (getFrame_ok id mode bm h Hok Hid) as (bm1 & p & d & r & E1 & E2 & E3 & E4 & E5 & Ed & Er);
    [congruence|done|lia|]. rewrite Hr in *.
  assert (Hwal : bm_walOn bm1 = bm_walOn bm).
  { pose proof (steady_getFrame bm_walOn id mode bm) as G. by rewrite E1 in G. }
  unfold FetchPageForWrite. mstep E1. set (bm2 := set_table (<[id := mkFrame p d (0 + 1) _ r]> _) bm1) in *.
  assert (Hfr : bm_pageTable bm2 !! id = Some (mkFrame p d (0 + 1) (mkLatch 0 false) r))
    by apply lookup_insert_eq.
  assert (Elock : Lock id bm2 = (Ok tt,
    set_table (<[id := mkFrame p d (0 + 1) (mkLatch 0 true) r]> (bm_pageTable bm1)) bm1)).
  { rewrite (Lock_at id _ _ Hfr eq_refl). unfold bm2. by rewrite insert_twice. }
  mstep Elock. set (bm3 := set_table _ bm1).
  assert (Hfr3 : bm_pageTable bm3 !! id = Some (mkFrame p d (0 + 1) (mkLatch 0 true) r))
    by apply lookup_insert_eq.
  mstep (get_frame_eq id _ _ Hfr3). unfold mbind at 1, M_bind at 1, gets at 1.
  destruct (bo_frames _ _ E2 id _ (lookup_insert_eq _ _ _)) as [_ F2 _ _]. simpl in F2.
  pose proof (bo_wal _ _ E2) as Hw. cbn [fr_dirty fr_page]. unfold image_logged. rewrite <-Ed, <-Er, <-Hwal, <-E3.
  change (bm_walOn bm3) with (bm_walOn bm1). destruct (negb d && bm_walOn bm1).
  - pose proof (Append_healthy (bm_wal bm3) 0 id 0 LogOpFullPage [] p Hw) as Ea.
    simpl in Ea. set (w' := mkWAL _ _) in Ea.
    mstep (attempt_ok _ _ _ _ (on_wal_eq _ bm3 _ _ Ea)).
    set (bm4 := set_bm_wal w' bm3). set (lsn := currentLSN (bm_wal bm3)).
    assert (Hfr4 : bm_pageTable bm4 !! id = Some (mkFrame p d (0 + 1) (mkLatch 0 true) r))
      by apply lookup_insert_eq.
    unfold wr. mstep (alter_frame_at id (fun fr => set_page (SetLSN lsn (fr_page fr)) fr) _ _ Hfr4).
    erewrite alter_frame_at by apply lookup_insert_eq. rewrite insert_twice.
    eexists. split; [done|].
    assert (G := write_held bm bm1 h id p d r w' (SetLSN lsn p) lsn E2 E4 Hh Hw (SetLSN_eqv _ _ F2)
      ltac:(unfold SetLSN; by rewrite len_set_field)).
    split; [|split; [|split; [|split; [|done]]]].
    1-3: unfold bm4, bm3; unfold set_table, set_bm_wal, set_recLSN, set_page in *; simpl in *;
      rewrite insert_insert_eq; apply G.
    eexists. split; [apply lookup_insert_eq|]. split; [done|]. cbn. split; [|done].
    rewrite <-E5. exact Ea.
  - eexists. split; [done|].
    pose proof (write_held bm bm1 h id p d r (bm_wal bm1) p r E2 E4 Hh Hw (reflexivity _) F2) as G.
    split; [|split; [|split; [|split; [|done]]]]; [unfold bm3; destruct bm1; apply G..|].
    eexists. split; [apply lookup_insert_eq|]. done.
Qed.

Lemma image_step id bm bm' :
  image_logged id bm bm' -> len (view bm id) = PageSize -> log_step id (bm_wal bm) (bm_wal bm').
Proof.
  intros (fr & _ & _ & Hc) Hl. destruct (negb _ && _); [|left; apply Hc].
  destruct Hc as [E _]. right. by exists (view bm id), (fr_recLSN fr).
Qed.

Lemma fetch_write_log id mode bm h :
  bm_ok bm h -> id < bm_pages bm -> h !! id = None -> room_for bm h id ->
  exists bm', FetchPageForWrite id mode bm = (Ok tt, bm')
    /\ bm_ok bm' (<[id := HWrite]> h) /\ same_view bm bm' /\ settled bm' id
    /\ log_step id (bm_wal bm) (bm_wal bm').
Proof.
  intros Hok Hid Hh Hroom.
  destruct (fetch_write_image id mode bm h Hok Hid Hh Hroom) as (bm' & ? & ? & ? & ? & ? & ?).
  exists bm'. do 4 (split; [done|]). by apply image_step.
Qed.


Lemma fetch_write_ok id mode bm h :
  bm_ok bm h -> id < bm_pages bm -> h !! id = None -> room_for bm h id ->
  exists bm', FetchPageForWrite id mode bm = (Ok tt, bm')
    /\ bm_ok bm' (<[id := HWrite]> h) /\ same_view bm bm' /\ settled bm' id.
Proof.
  intros Hok Hid Hh Hroom. destruct (fetch_write_log id mode bm h Hok Hid Hh Hroom) as (bm' & ? & ? & ? & ? & _).
  by exists bm'.
Qed.

(** ** Unpinning *)

(** The holds left when one hold on [id] is given back. *)
Definition release (h : gmap N hold) (id : N) : gmap N hold :=
  match h !! id with
  | Some (HRead n) => if n =? 1 then delete id h else <[id := HRead (n - 1)]> h
  | Some HWrite => delete id h
  | None => h
  end.

Definition is_write (ho : hold) : bool := match ho with HWrite => true | HRead _ => false end.

Lemma lookup_release_ne h id id' : id' <> id -> release h id !! id' = h !! id'.
Proof.
  intros Hne. unfold release. destruct (h !! id) as [[n|]|]; try done.
  - destruct (n =? 1); [by rewrite lookup_delete_ne|by rewrite lookup_insert_ne].
  - by rewrite lookup_delete_ne.
Qed.

(** The frame after [UnpinPage]. *)
Definition unpinned (fr : Frame) (ho : hold) (isDirty : bool) : Frame :=
  mkFrame (fr_page fr) (fr_dirty fr || isDirty) (fr_pin fr - 1)
    (match ho with HRead n => mkLatch (n - 1) false | HWrite => free_latch end) (fr_recLSN fr).

Lemma unpin_eq bm h id fr ho isDirty :
  bm_ok bm h -> bm_pageTable bm !! id = Some fr -> h !! id = Some ho ->
  UnpinPage id isDirty (is_write ho) bm
    = (Ok tt, set_table (<[id := unpinned fr ho isDirty]> (bm_pageTable bm)) bm).
Proof.
  intros Hok Hfr Hh. destruct (bo_frames _ _ Hok id fr Hfr) as [_ _ Hho _]. rewrite Hh in Hho.
  destruct fr as [p d pin la r]. cbn [fr_pin fr_latch] in Hho.
  assert (Hpl : pin <> 0 /\ la = match ho with HRead n => mkLatch n false | HWrite => mkLatch 0 true end).
  { destruct ho; split; try tauto; lia. }
  destruct Hpl as [Hpin Hla].
  unfold UnpinPage. unfold mbind at 1, M_bind at 1, gets at 1. unfold Datatypes.id. rewrite Hfr.
  cbn [fr_pin]. rewrite (proj2 (N.eqb_neq _ _) Hpin).
  mstep (alter_frame_at id (fun fr => set_pin (fr_pin fr - 1) fr) _ _ Hfr).
  set (bm1 := set_table _ bm).
  assert (Ed : (if isDirty then alter_frame id (set_dirty true) else mret tt) bm1
    = (Ok tt, set_table (<[id := mkFrame p (d || isDirty) (pin - 1) la r]> (bm_pageTable bm)) bm)).
  { destruct isDirty.
    - erewrite alter_frame_at by apply lookup_insert_eq. unfold bm1.
      rewrite insert_twice. by rewrite orb_true_r.
    - by rewrite orb_false_r. }
  mstep Ed. clear Ed bm1. rewrite Hla. unfold unpinned. cbn [fr_page fr_dirty fr_pin fr_recLSN].
  destruct ho as [n|]; cbn [is_write].
  - erewrite RUnlock_at; [|apply lookup_insert_eq|done|lia]. by rewrite insert_twice.
  - erewrite Unlock_at; [|apply lookup_insert_eq|done]. by rewrite insert_twice.
Qed.

(** Exactly the same array of pages. *)
Definition same_array (bm bm' : BufferManager) : Prop :=
  (bm_pages bm' = bm_pages bm /\ bm_maxSize bm' = bm_maxSize bm)
  /\ forall id, view bm' id = view bm id.

Lemma same_array_view bm bm' : same_array bm bm' -> same_view bm bm'.
Proof. intros [H1 H2]. split; [done|]. intros id. by rewrite H2. Qed.

(** Giving back a hold leaves the array exactly as it is.  Who gives back a
    write hold must say that the page is dirty, unless it still agrees with
    the file. *)
Lemma unpin_ok bm h id ho isDirty :
  bm_ok bm h -> h !! id = Some ho ->
  (ho = HWrite -> isDirty = false -> settled bm id) ->
  exists bm', UnpinPage id isDirty (is_write ho) bm = (Ok tt, bm')
    /\ bm_ok bm' (release h id) /\ same_array bm bm'.
Proof.
  intros Hok Hh Hd. destruct (bo_held _ _ Hok _ _ Hh) as [fr Hfr].
  rewrite (unpin_eq bm h id fr ho isDirty Hok Hfr Hh). eexists. split; [done|].
  destruct (bo_frames _ _ Hok id fr Hfr) as [F1 F2 F3 F4]. rewrite Hh in F3, F4.
  assert (Hv : view bm id = fr_page fr) by (unfold view; by rewrite Hfr).
  split.
  - eapply bm_ok_alter; [done|done| |intros id' Hne; by apply lookup_release_ne].
    constructor; [done|done| |].
    + unfold release. rewrite Hh. destruct ho as [n|]; cbn.
      * destruct F3 as (-> & _ & ?). destruct (n =? 1) eqn:E; bool_lia.
        -- rewrite lookup_delete_eq. subst. done.
        -- rewrite lookup_insert_eq. split_and!; (done || lia).
      * rewrite lookup_delete_eq. by destruct F3 as (-> & _).
    + cbn. intros [E1 E2]%orb_false_iff _. destruct ho; [by apply F4|].
      by apply Hd.
  - split; [done|]. intros id'. rewrite view_insert. case_decide; [by subst|done].
Qed.

(** ** Reading and writing a held page *)

Lemma held_frame bm h id ho :
  bm_ok bm h -> h !! id = Some ho ->
  exists fr, bm_pageTable bm !! id = Some fr /\ fr_page fr = view bm id
    /\ frame_ok (bm_pager bm) id fr (Some ho).
Proof.
  intros Hok Hh. destruct (bo_held _ _ Hok _ _ Hh) as [fr Hfr]. exists fr.
  split; [done|]. split; [unfold view; by rewrite Hfr|].
  rewrite <-Hh. by apply (bo_frames _ _ Hok).
Qed.

Lemma rd_ok {A} bm h id ho (f : page -> A) :
  bm_ok bm h -> h !! id = Some ho -> rd id f bm = (Ok (f (view bm id)), bm).
Proof.
  intros Hok Hh. destruct (held_frame bm h id ho Hok Hh) as (fr & Hfr & <- & _).
  unfold rd. by mstep (get_frame_eq id fr bm Hfr).
Qed.

Lemma len_view bm h id ho : bm_ok bm h -> h !! id = Some ho -> len (view bm id) = PageSize.
Proof.
  intros Hok Hh. destruct (held_frame bm h id ho Hok Hh) as (fr & Hfr & <- & Hf). by destruct Hf.
Qed.

(** [bm'] is [bm] with page [id] changed to [p]. *)
Definition array_set (bm : BufferManager) (id : N) (p : page) (bm' : BufferManager) : Prop :=
  (bm_pages bm' = bm_pages bm /\ bm_maxSize bm' = bm_maxSize bm)
  /\ view bm' id = p /\ forall id', id' <> id -> view bm' id' = view bm id'.

Lemma on_page_ok {A} bm h id (m : M page A) o p :
  bm_ok bm h -> h !! id = Some HWrite -> m (view bm id) = (o, p) -> len p = PageSize ->
  exists bm', on_page id m bm = (o, bm') /\ bm_ok bm' h /\ array_set bm id p bm'.
Proof.
  intros Hok Hh Hm Hp. destruct (held_frame bm h id _ Hok Hh) as (fr & Hfr & Hv & Hf).
  unfold on_page. mstep (get_frame_eq id fr bm Hfr). rewrite Hv, Hm.
  mstep (alter_frame_at id (set_page p) _ _ Hfr). eexists. split; [done|]. split.
  - eapply bm_ok_alter; [done|done| |done]. rewrite Hh. destruct Hf as [F1 F2 F3 F4].
    constructor; [done|done|done|]. by intros _ [].
  - split; [done|]. split; [rewrite view_insert; by case_decide|].
    intros id' Hne. rewrite view_insert. by case_decide.
Qed.

Lemma wr_ok bm h id (f : page -> page) :
  bm_ok bm h -> h !! id = Some HWrite -> len (f (view bm id)) = PageSize ->
  exists bm', wr id f bm = (Ok tt, bm') /\ bm_ok bm' h /\ array_set bm id (f (view bm id)) bm'.
Proof.
  intros Hok Hh Hp.
  destruct (on_page_ok bm h id (modify f) (Ok tt) (f (view bm id)) Hok Hh eq_refl Hp)
    as (bm' & E & E2 & E3).
  exists bm'. split; [|done]. rewrite <-E.
  destruct (held_frame bm h id _ Hok Hh) as (fr & Hfr & Hv & Hf).
  unfold wr, on_page. mstep (get_frame_eq id fr bm Hfr). unfold modify.
  mstep (alter_frame_at id (set_page (f (fr_page fr))) _ _ Hfr).
  unfold pure. by rewrite (alter_frame_at id _ _ _ Hfr).
Qed.

(** ** Errors of a fetch *)

(** A page that is not resident needs a slot. *)
Lemma getFrame_full bm h id mode :
  bm_ok bm h -> bm_pageTable bm !! id = None ->
  N.of_nat (size (bm_pageTable bm)) = bm_maxSize bm ->
  (forall id', is_Some (bm_pageTable bm !! id') -> is_Some (h !! id')) ->
  getFrame id mode bm = (Err ErrPoolFull, bump bm).
Proof.
  intros Hok Hid Hsz Hall. unfold getFrame.
  unfold mbind at 1, M_bind at 1, gets at 1. unfold Datatypes.id.
  rewrite Hid, Hsz. rewrite N.leb_refl. unfold mbind at 1, M_bind at 1.
  by rewrite (evict_full bm h Hok Hall).
Qed.

(** A page beyond the end of the file is not read. *)
Lemma getFrame_eof bm h id mode :
  bm_ok bm h -> bm_pages bm <= id < 4294967296 -> N.of_nat (size (bm_pageTable bm)) < bm_maxSize bm ->
  getFrame id mode bm = (Err ErrEOF, bm).
Proof.
  intros Hok Hid Hsz. unfold getFrame.
  unfold mbind at 1, M_bind at 1, gets at 1. unfold Datatypes.id.
  destruct (bm_pageTable bm !! id) as [fr|] eqn:Efr.
  { destruct (bo_frames _ _ Hok id fr Efr) as [F1 _ _ _]. unfold bm_pages in *. lia. }
  destruct (_ <=? _) eqn:E; bool_lia; [lia|].
  unfold mbind at 1, M_bind at 1, mret at 1, M_ret at 1. unfold mbind, M_bind.
  rewrite (on_pager_eq _ bm _ _ (ReadPage_out (bm_pager bm) (bo_file _ _ Hok) id (NewPage mode)
    (len_NewPage mode) Hid)). by rewrite set_pager_id.
Qed.

(** Holds come and go in pairs. *)
Lemma readers_none h id : h !! id = None -> readers h id = 0.
Proof. unfold readers. by intros ->. Qed.

Lemma fetch_read_new id mode bm h :
  bm_ok bm h -> id < bm_pages bm -> h !! id = None -> room_for bm h id ->
  exists bm', FetchPageForRead id mode bm = (Ok tt, bm')
    /\ bm_ok bm' (<[id := HRead 1]> h) /\ same_view bm bm'.
Proof.
  intros Hok Hid Hh Hroom.
  destruct (fetch_read_ok id mode bm h) as (bm' & E); rewrite ?readers_none in *; try done.
  - congruence.
  - by exists bm'.
Qed.

Lemma unpin_read bm h id :
  bm_ok bm (<[id := HRead 1]> h) -> h !! id = None ->
  exists bm', UnpinPage id false false bm = (Ok tt, bm') /\ bm_ok bm' h /\ same_array bm bm'.
Proof.
  intros Hok Hh.
  destruct (unpin_ok bm _ id (HRead 1) false Hok (lookup_insert_eq _ _ _)) as (bm' & E1 & E2 & E3);
    [discriminate|].
  exists bm'. split; [done|]. split; [|done].
  unfold release in E2. rewrite lookup_insert_eq in E2. simpl in E2. by rewrite delete_insert_id in E2.
Qed.

Lemma unpin_write bm h id :
  bm_ok bm (<[id := HWrite]> h) -> h !! id = None ->
  exists bm', UnpinPage id true true bm = (Ok tt, bm') /\ bm_ok bm' h /\ same_array bm bm'.
Proof.
  intros Hok Hh.
  destruct (unpin_ok bm _ id HWrite true Hok (lookup_insert_eq _ _ _)) as (bm' & E1 & E2 & E3);
    [discriminate|].
  exists bm'. split; [done|]. split; [|done].
  unfold release in E2. rewrite lookup_insert_eq in E2. by rewrite delete_insert_id in E2.
Qed.

(** ** Flushing *)

Definition flush_one : N * Frame -> M BufferManager unit := fun '(id, frame) =>
  if fr_dirty frame : bool then
    _ ← on_pager (WritePage id (fr_page frame));
    alter_frame id (fun fr => set_recLSN 0 (set_dirty false fr))
  else mret tt.

Lemma flush_one_ok bm h id fr :
  bm_ok bm h -> bm_pageTable bm !! id = Some fr ->
  exists bm', flush_one (id, fr) bm = (Ok tt, bm') /\ bm_ok bm' h /\ same_array bm bm'
    /\ is_dirty bm' id = false
    /\ page_at (bm_pager bm') id = (if fr_dirty fr then fr_page fr else page_at (bm_pager bm) id)
    /\ (forall id', id' <> id -> bm_pageTable bm' !! id' = bm_pageTable bm !! id'
         /\ page_at (bm_pager bm') id' = page_at (bm_pager bm) id').
Proof.
  intros Hok Hid. unfold flush_one, is_dirty. destruct (fr_dirty fr) eqn:Ed.
  - destruct (writeback_ok bm h id fr Hok Hid) as (f' & W1 & W2 & W3 & W4 & W5 & W6).
    mstep (on_pager_eq _ bm _ _ W1). erewrite alter_frame_at; [|exact Hid].
    eexists. split; [done|]. split; [exact W2|]. split; [split; [done|]|split; [|split]].
    + intros id'. unfold view. cbn. destruct (decide (id' = id)) as [->|Hne].
      * by rewrite lookup_insert_eq, Hid.
      * rewrite lookup_insert_ne by done. destruct (bm_pageTable bm !! id') eqn:E; [done|]. by apply W6.
    + cbn. by rewrite lookup_insert_eq.
    + done.
    + intros id' Hne. split; [by apply lookup_insert_ne|by apply W6].
  - exists bm. rewrite Hid, Ed. by split_and!.
Qed.

(** After the loop over [l] its frames are clean and written, the others as
    they were. *)
Lemma flush_loop l : forall bm h,
  bm_ok bm h -> NoDup l.*1 -> (forall id fr, (id, fr) ∈ l -> bm_pageTable bm !! id = Some fr) ->
  exists bm', for_each flush_one l bm = (Ok tt, bm') /\ bm_ok bm' h /\ same_array bm bm'
    /\ (forall id, id ∈ l.*1 -> is_dirty bm' id = false
         /\ page_at (bm_pager bm') id
            = if is_dirty bm id then view bm id else page_at (bm_pager bm) id)
    /\ (forall id, id ∉ l.*1 -> bm_pageTable bm' !! id = bm_pageTable bm !! id
         /\ page_at (bm_pager bm') id = page_at (bm_pager bm) id).
Proof.
  induction l as [|[id fr] l IH]; intros bm h Hok Hnd Hin.
  - exists bm. split_and!; try done. by intros id ?%elem_of_nil.
  - rewrite fmap_cons in Hnd. apply NoDup_cons in Hnd as [Hn Hnd]. cbn [fst] in Hn.
    pose proof (Hin id fr ltac:(by left)) as Hid.
    destruct (flush_one_ok bm h id fr Hok Hid) as (bm1 & E1 & E2 & E3 & E4 & E5 & E6).
    destruct (IH bm1 h E2 Hnd) as (bm2 & G1 & G2 & G3 & G4 & G5).
    { intros id' fr' Hl. assert (Hne : id' <> id).
      { intros ->. apply Hn. apply list_elem_of_fmap. by exists (id, fr'). }
      rewrite (proj1 (E6 id' Hne)). apply Hin. by right. }
    exists bm2. split; [cbn [for_each]; by mstep E1|]. split; [done|].
    rewrite fmap_cons. cbn [fst]. split; [|split].
    + destruct E3 as [[? ?] E3], G3 as [[? ?] G3]. split; [split; congruence|].
      intros id'. by rewrite G3, E3.
    + intros id' [->|Hl]%elem_of_cons.
      * destruct (G5 id Hn) as [G6 G7]. unfold is_dirty in *. rewrite G6, G7, E5, Hid.
        split; [done|]. unfold view. by rewrite Hid.
      * assert (Hne : id' <> id) by (intros ->; done). destruct (G4 id' Hl) as [G6 G7].
        destruct (E6 id' Hne) as [E7 E8]. split; [done|]. rewrite G7, E8.
        unfold is_dirty. rewrite E7. by rewrite (proj2 E3).
    + intros id' [Hne Hl]%not_elem_of_cons. destruct (G5 id' Hl) as [-> ->]. by apply E6.
Qed.

Lemma flush_ok bm h :
  bm_ok bm h ->
  exists bm', FlushAll bm = (Ok tt, bm') /\ bm_ok bm' h /\ same_array bm bm'
    /\ forall id, is_dirty bm' id = false
       /\ page_at (bm_pager bm') id = if is_dirty bm id then view bm id else page_at (bm_pager bm) id.
Proof.
  intros Hok. unfold FlushAll, range_table. unfold mbind, M_bind.
  destruct (flush_loop (map_range (bm_tick bm) (bm_pageTable bm)) (bump bm) h (bm_ok_bump _ _ Hok))
    as (bm' & E1 & E2 & E3 & E4 & E5).
  - apply map_range_nodup.
  - intros id fr. by rewrite elem_of_map_range.
  - exists bm'. split; [exact E1|]. split; [done|]. split; [done|]. intros id.
    destruct (bm_pageTable bm !! id) as [fr|] eqn:Hid.
    + apply E4. apply list_elem_of_fmap. exists (id, fr). split; [done|]. by rewrite elem_of_map_range.
    + destruct (E5 id) as [G1 G2].
      { intros ([id' fr] & -> & Hl)%list_elem_of_fmap. rewrite elem_of_map_range in Hl. cbn in *. congruence. }
      unfold is_dirty. rewrite G1, G2. change (bm_pageTable (bump bm)) with (bm_pageTable bm). by rewrite Hid.
Qed.

(** The dirty page table: exactly the dirty frames, with their recovery LSN. *)
Lemma dpt_loop (l : list (N * Frame)) : forall acc : gmap N N, NoDup l.*1 ->
  (forall id fr, (id, fr) ∈ l -> acc !! id = None) ->
  forall id, foldl (fun dpt '(id, frame) =>
          if fr_dirty frame : bool then <[id := fr_recLSN frame]> dpt else dpt) acc l !! id
    = match acc !! id with
      | Some r => Some r
      | None => fr ← (list_to_map l : gmap N Frame) !! id;
                if fr_dirty fr : bool then Some (fr_recLSN fr) else None
      end.
Proof.
  induction l as [|[k fr] l IH]; intros acc Hnd Hacc id; cbn [foldl list_to_map foldr].
  - rewrite lookup_empty. by destruct (acc !! id).
  - apply NoDup_cons in Hnd as [Hn Hnd]. cbn [uncurry fst snd] in *.
    assert (Hk := Hacc k fr ltac:(by left)). rewrite IH; [|done|].
    + destruct (decide (id = k)) as [->|Hne].
      * rewrite lookup_insert_eq, Hk. cbn. destruct (fr_dirty fr); [by rewrite lookup_insert_eq|].
        rewrite Hk. rewrite (not_elem_of_list_to_map_1 l k) by done. done.
      * rewrite (lookup_insert_ne _ k id) by done. destruct (fr_dirty fr); [|done].
        by rewrite lookup_insert_ne.
    + intros id' fr' Hl. specialize (Hacc id' fr' ltac:(by right)).
      assert (id' <> k). { intros ->. apply Hn, list_elem_of_fmap. by exists (k, fr'). }
      destruct (fr_dirty fr); [by rewrite lookup_insert_ne|done].
Qed.

Lemma dpt_ok bm :
  exists dpt, GetDirtyPageTable bm = (Ok dpt, bump bm) /\
    forall id, dpt !! id = (fr ← bm_pageTable bm !! id;
                            if fr_dirty fr : bool then Some (fr_recLSN fr) else None).
Proof.
  eexists. split; [done|]. intros id. rewrite dpt_loop.
  - rewrite lookup_empty.
    assert (E : (list_to_map (map_range (bm_tick bm) (bm_pageTable bm)) : gmap N Frame)
      = bm_pageTable bm).
    { etrans; [|apply list_to_map_to_list]. apply list_to_map_proper.
      - apply map_range_nodup.
      - apply map_range_perm. }
    by rewrite E.
  - apply map_range_nodup.
  - intros. apply lookup_empty.
Qed.
End pool_lemmas.

(** ** Code that leaves a part of the state alone *)

(** With the log switched off a write fetch hands out the page as it is. *)
Lemma fetch_write_exact `{MapRange} id mode bm h :
  bm_ok bm h -> bm_walOn bm = false -> id < bm_pages bm -> h !! id = None -> room_for bm h id ->
  exists bm', FetchPageForWrite id mode bm = (Ok tt, bm')
    /\ bm_ok bm' (<[id := HWrite]> h) /\ same_view bm bm' /\ settled bm' id
    /\ bm_walOn bm' = false /\ view bm' id = view bm id.
Proof.
  intros Hok Hoff Hid Hh Hroom.
  destruct (fetch_write_image id mode bm h Hok Hid Hh Hroom) as (bm' & E & K & S & T & (fr & Hfr & _ & Hi) & _).
  exists bm'. do 4 (split; [done|]).
  pose proof (steady_fetch_write id mode bm) as Hw. rewrite E in Hw. cbn in Hw. split; [congruence|].
  rewrite Hoff, andb_false_r in Hi. unfold view at 1. rewrite Hfr. apply Hi.
Qed.

(** ** Properties *)

Section pool_properties.
Context `{MapRange}.

(** C19: fetching a page for reading always succeeds when the pool has room for
    it, and leaves the array of pages (resident or not) as it is up to LSNs,
    whatever it evicts and writes back; the caller gains a read hold. *)
Theorem fetch_for_read_correct id mode bm h :
  bm_ok bm h -> id < bm_pages bm -> h !! id <> Some HWrite ->
  room_for bm h id -> readers h id < 4294967295 ->
  exists bm', FetchPageForRead id mode bm = (Ok tt, bm')
    /\ bm_ok bm' (<[id := HRead (readers h id + 1)]> h) /\ same_view bm bm'.
Proof. apply fetch_read_ok. Qed.

(** C18: fetching a page nobody holds for writing succeeds when the pool has room
    for it; the caller gains the exclusive hold and the array of pages is the
    same up to LSNs.  When the page is clean and there is a log, its full image,
    as it was before the fetch, is the one record appended to the log, and the
    frame is stamped with that record's LSN, which is also its recovery LSN;
    otherwise neither the log nor the page nor its recovery LSN changes. *)
Theorem fetch_for_write_correct id mode bm h :
  bm_ok bm h -> id < bm_pages bm -> h !! id = None -> room_for bm h id ->
  exists bm' fr, FetchPageForWrite id mode bm = (Ok tt, bm')
    /\ bm_ok bm' (<[id := HWrite]> h) /\ same_view bm bm' /\ settled bm' id
    /\ bm_pageTable bm' !! id = Some fr /\ fr_dirty fr = is_dirty bm id
    /\ if negb (is_dirty bm id) && bm_walOn bm then
         Append 0 id 0 LogOpFullPage [] (view bm id) (bm_wal bm) = (Ok (fr_recLSN fr), bm_wal bm')
         /\ fr_page fr = SetLSN (fr_recLSN fr) (view bm id)
       else bm_wal bm' = bm_wal bm /\ fr_page fr = view bm id /\ fr_recLSN fr = rec_lsn bm id.
Proof.
  intros Hok Hid Hh Hroom.
  destruct (fetch_write_image id mode bm h Hok Hid Hh Hroom) as (bm' & E & K & S & T & (fr & Hi) & _).
  by exists bm', fr.
Qed.

(** C20: giving a hold back leaves the array of pages exactly as it is, provided
    a changed page is declared dirty ([settled]: it is already marked dirty or
    agrees with the file). *)
Theorem unpin_correct bm h id ho isDirty :
  bm_ok bm h -> h !! id = Some ho ->
  (ho = HWrite -> isDirty = false -> settled bm id) ->
  exists bm', UnpinPage id isDirty (is_write ho) bm = (Ok tt, bm')
    /\ bm_ok bm' (release h id) /\ same_array bm bm'.
Proof. apply unpin_ok. Qed.

(** C21: [FlushAll] writes exactly the dirty pages: afterwards no frame is dirty,
    the file holds the contents of every page that was dirty, whoever holds it,
    and every other page of the file is as it was; the array and the holds do
    not change.  So the file agrees with the array, up to LSNs, on every page
    but one somebody is writing without having declared it dirty yet. *)
Theorem flush_correct bm h :
  bm_ok bm h ->
  exists bm', FlushAll bm = (Ok tt, bm') /\ bm_ok bm' h /\ same_array bm bm'
    /\ (forall id, is_dirty bm' id = false)
    /\ (forall id, page_at (bm_pager bm') id
          = if is_dirty bm id then view bm id else page_at (bm_pager bm) id)
    /\ forall id, h !! id <> Some HWrite \/ is_dirty bm id = true ->
         page_eqv (page_at (bm_pager bm') id) (view bm id).
Proof.
  intros Hok. destruct (flush_ok bm h Hok) as (bm' & E1 & E2 & E3 & E4).
  exists bm'. do 3 (split; [done|]). split; [by intros id; apply E4|]. split; [by intros id; apply E4|].
  intros id Hc. rewrite (proj2 (E4 id)). destruct (is_dirty bm id) eqn:Ed; [done|].
  destruct Hc as [Hc|]; [|done]. unfold is_dirty in Ed. unfold view.
  destruct (bm_pageTable bm !! id) as [fr|] eqn:Hid; [|done].
  symmetry. by apply (fo_clean _ _ _ _ (bo_frames _ _ Hok id fr Hid)).
Qed.

(** C39: eviction never takes a held page: when every resident page is held and
    the pool is full, a fetch of another page reports that and changes no
    frame. *)
Theorem pool_full_error bm h id mode :
  bm_ok bm h -> bm_pageTable bm !! id = None ->
  N.of_nat (size (bm_pageTable bm)) = bm_maxSize bm ->
  (forall id', is_Some (bm_pageTable bm !! id') -> is_Some (h !! id')) ->
  FetchPageForRead id mode bm = (Err ErrPoolFull, bump bm)
  /\ FetchPageForWrite id mode bm = (Err ErrPoolFull, bump bm).
Proof.
  intros Hok Hid Hsz Hall. pose proof (getFrame_full bm h id mode Hok Hid Hsz Hall) as E.
  split; unfold FetchPageForRead, FetchPageForWrite; by apply bind_err.
Qed.

(** C40: the dirty page table lists exactly the dirty frames, in whatever order
    the pool is walked, with their recovery LSNs.  Writing a page (fetch,
    change, unpin as dirty) puts it in the table: with the LSN it had when it
    was listed already, and otherwise with the LSN of the image that this fetch
    logged, or, without a log, with the recovery LSN the frame had (zero for a
    page that was not resident). *)
Theorem dirty_page_table_exact id mode f bm h :
  bm_ok bm h -> id < bm_pages bm -> h !! id = None -> room_for bm h id ->
  (forall p, len p = PageSize -> len (f p) = PageSize) ->
  exists dpt bm' dpt', GetDirtyPageTable bm = (Ok dpt, bump bm)
    /\ (forall x, dpt !! x = (fr ← bm_pageTable bm !! x;
                              if fr_dirty fr : bool then Some (fr_recLSN fr) else None))
    /\ (_ ← FetchPageForWrite id mode; _ ← wr id f; UnpinPage id true true) bm = (Ok tt, bm')
    /\ GetDirtyPageTable bm' = (Ok dpt', bump bm')
    /\ dpt' !! id = Some (match dpt !! id with
                          | Some lsn => lsn
                          | None => if bm_walOn bm then currentLSN (bm_wal bm) else rec_lsn bm id
                          end).
Proof.
  intros Hok Hid Hh Hroom Hf. destruct (dpt_ok bm) as (dpt & D1 & D2).
  destruct (fetch_write_image id mode bm h Hok Hid Hh Hroom)
    as (bm1 & E1 & K1 & S1 & _ & (fr & Hfr & Hdr & Hi) & Hlen).
  pose proof (lookup_insert_eq h id HWrite) as Hh1.
  destruct (wr_ok bm1 _ id f K1 Hh1) as (bm2 & E2 & K2 & _); [by apply Hf; eapply len_view|].
  pose proof E2 as E2'. unfold wr in E2'. rewrite (alter_frame_at _ _ _ _ Hfr) in E2'.
  set (fr2 := set_page (f (fr_page fr)) fr) in *.
  assert (Hfr2 : bm_pageTable bm2 !! id = Some fr2)
    by (injection E2' as <-; apply lookup_insert_eq).
  pose proof (unpin_eq bm2 _ id fr2 HWrite true K2 Hfr2 Hh1) as E3. cbn [is_write] in E3.
  set (bm3 := set_table _ bm2) in E3. destruct (dpt_ok bm3) as (dpt' & D3 & D4).
  exists dpt, bm3, dpt'. split; [done|]. split; [done|]. split; [by mstep E1; mstep E2|].
  split; [done|]. rewrite D4, D2. unfold bm3. cbn [set_table bm_pageTable]. rewrite lookup_insert_eq.
  cbn. rewrite orb_true_r. f_equal. unfold is_dirty, rec_lsn in *.
  destruct (bm_pageTable bm !! id) as [fr0|]; cbn in *.
  - destruct (fr_dirty fr0); cbn in *; [by destruct Hi as (_ & _ & ->)|].
    destruct (bm_walOn bm); [|by destruct Hi as (_ & _ & ->)].
    rewrite (Append_healthy _ _ _ _ _ _ _ (bo_wal _ _ Hok)) in Hi. by destruct Hi as [[= <- _] _].
  - destruct (bm_walOn bm); [|by destruct Hi as (_ & _ & ->)].
    rewrite (Append_healthy _ _ _ _ _ _ _ (bo_wal _ _ Hok)) in Hi. by destruct Hi as [[= <- _] _].
Qed.
End pool_properties.

(** A pool with two pages on disk and room for one frame. *)
Definition small_pool : BufferManager := mkBM two_pages ∅ 1 empty_wal true 0.

Lemma small_pool_ok : bm_ok small_pool ∅.
Proof.
  constructor; cbn.
  - apply db_file_two_pages.
  - done.
  - done.
  - intros id fr. by rewrite lookup_empty.
  - intros id ho. by rewrite lookup_empty.
Qed.

Lemma small_pool_pages : bm_pages small_pool = 2.
Proof. apply n_pages_two. Qed.

(** The same pool with a frame held for reading, which fills it. *)
Definition full_pool : BufferManager :=
  mkBM two_pages {[0 := mkFrame (zeros PageSize) false 1 (mkLatch 1 false) 0]} 1 empty_wal true 0.

Lemma full_pool_ok : bm_ok full_pool {[0 := HRead 1]}.
Proof.
  constructor; cbn.
  - apply db_file_two_pages.
  - done.
  - by rewrite map_size_singleton.
  - intros id fr Hl. apply lookup_singleton_Some in Hl as [<- <-].
    rewrite lookup_singleton_eq. constructor.
    + by rewrite n_pages_two.
    + apply len_zeros.
    + done.
    + reflexivity.
  - intros id ho Hl. apply lookup_singleton_Some in Hl as [<- _].
    by rewrite lookup_singleton_eq.
Qed.

Lemma full_pool_table :
  bm_pageTable full_pool = {[0 := mkFrame (zeros PageSize) false 1 (mkLatch 1 false) 0]}.
Proof. reflexivity. Qed.

Lemma small_pool_room id : room_for small_pool ∅ id.
Proof. right. reflexivity. Qed.

Lemma small_pool_in : 1 < bm_pages small_pool.
Proof. by rewrite small_pool_pages. Qed.

Lemma fetch_for_read_correct_witness :
  exists bm', @FetchPageForRead canonical_range 1 0 small_pool = (Ok tt, bm')
    /\ bm_ok bm' (<[1 := HRead (readers ∅ 1 + 1)]> ∅).
Proof.
  destruct (@fetch_for_read_correct canonical_range 1 0 small_pool ∅ small_pool_ok small_pool_in
    ltac:(discriminate) (small_pool_room 1) eq_refl) as (bm' & E1 & E2 & _).
  exists bm'. by split.
Defined.

Lemma fetch_for_write_correct_witness :
  exists bm' lsn, @FetchPageForWrite canonical_range 1 0 small_pool = (Ok tt, bm')
    /\ Append 0 1 0 LogOpFullPage [] (view small_pool 1) empty_wal = (Ok lsn, bm_wal bm').
Proof.
  destruct (@fetch_for_write_correct canonical_range 1 0 small_pool ∅ small_pool_ok small_pool_in
    eq_refl (small_pool_room 1)) as (bm' & fr & E1 & _ & _ & _ & _ & _ & E2 & _).
  exists bm', (fr_recLSN fr). split; [exact E1|exact E2].
Defined.

Lemma unpin_correct_witness :
  exists bm', UnpinPage 0 false false full_pool = (Ok tt, bm') /\ view bm' 0 = zeros PageSize.
Proof.
  destruct (unpin_correct full_pool {[0 := HRead 1]} 0 (HRead 1) false full_pool_ok eq_refl
    ltac:(discriminate)) as (bm' & E1 & _ & E2).
  exists bm'. split; [done|]. by rewrite (proj2 E2).
Defined.

(** A pool whose page 0 was changed and declared dirty. *)
Definition changed_page : page := SetPageID 9 (zeros PageSize).
Definition dirty_pool : BufferManager :=
  mkBM two_pages {[0 := mkFrame changed_page true 0 free_latch 4]} 1 empty_wal true 0.

Lemma dirty_pool_ok : bm_ok dirty_pool ∅.
Proof.
  constructor; cbn.
  - apply db_file_two_pages.
  - done.
  - by rewrite map_size_singleton.
  - intros id fr Hl. apply lookup_singleton_Some in Hl as [<- <-].
    rewrite lookup_empty. constructor; [by rewrite n_pages_two|by vm_compute|done|discriminate].
  - intros id ho. by rewrite lookup_empty.
Qed.

Lemma flush_correct_witness :
  exists bm', @FlushAll canonical_range dirty_pool = (Ok tt, bm')
    /\ page_at (bm_pager bm') 0 = changed_page /\ page_at (bm_pager bm') 1 = page_at two_pages 1.
Proof.
  destruct (@flush_correct canonical_range dirty_pool ∅ dirty_pool_ok)
    as (bm' & E1 & _ & _ & _ & E2 & _).
  exists bm'. split; [exact E1|]. split; [exact (E2 0)|exact (E2 1)].
Defined.

Lemma dirty_page_table_exact_witness :
  exists bm' dpt', @GetDirtyPageTable canonical_range bm' = (Ok dpt', bump bm')
    /\ dpt' !! 1 = Some 4.
Proof.
  destruct (@dirty_page_table_exact canonical_range 1 0 (SetPageID 9) small_pool ∅ small_pool_ok
    small_pool_in eq_refl (small_pool_room 1)) as (dpt & bm' & dpt' & D1 & D2 & _ & D3 & D4).
  - intros p Hp. unfold SetPageID. rewrite len_set_field. exact Hp.
  - exists bm', dpt'. split; [exact D3|]. rewrite D4, (D2 1). reflexivity.
Defined.

Lemma pool_full_error_witness :
  @FetchPageForRead canonical_range 1 0 full_pool = (Err ErrPoolFull, bump full_pool).
Proof.
  apply (@pool_full_error canonical_range full_pool {[0 := HRead 1]} 1 0 full_pool_ok).
  - reflexivity.
  - reflexivity.
  - intros id [fr Hl]. rewrite full_pool_table in Hl. apply lookup_singleton_Some in Hl as [<- _].
    exists (HRead 1). apply lookup_singleton_eq.
Defined.
