(* ===== verification/Tree.v ===== *)
(** * The tree over the buffer pool ([internal/storage/btree.go], [vacuum.go])

    Page allocation and the free list, the descent to a leaf, chains of
    overflow pages, and lookups.  None of this touches the transaction table
    or the root pointer, so it is code on the buffer manager's state; the root
    and the transaction manager are arguments.

    [tree.wal] and [bm.wal] always hold the same log or are both nil
    ([bm_walOn]).  A fetched [*Page] is the id of its pinned frame; the ids
    the code reads back from page headers are read back here too. *)

From S2P Require Import Prelude Crc Cell Page Pager Wal Txn Buffer.

Section tree.
Context `{MapRange}.

(** [c, _ := page.Get(i)] on a pinned page. *)
Definition slot (page i : N) : M BufferManager slice :=
  c ← rd page (fun p => Get_ p i); pure c.

(** [bm.UnpinPage(...)] as a statement: the error is dropped. *)
Definition Unpin (pageID : N) (isDirty isWrite : bool) : M BufferManager unit :=
  ignore (UnpinPage pageID isDirty isWrite).

(** [v, _ := wal.Append(...)]: zero on error. *)
Definition Append_ (txnID pageID prevLSN opType : N) (key value : bytes) : M BufferManager N :=
  r ← attempt (on_wal (Append txnID pageID prevLSN opType key value));
  mret (match r with inl lsn => lsn | inr _ => 0 end).

(** Logs a page's contents and stamps it, if there is a log. *)
Definition log_page (page pageID : N) : M BufferManager unit :=
  walOn ← gets bm_walOn;
  if walOn : bool then
    data ← rd page id;
    lsn ← Append_ 0 pageID 0 LogOpFullPage [] data;
    wr page (SetLSN lsn)
  else mret tt.

(** ** The free list *)

(** [allocatePage] with its last step, the call of the pager, as an argument. *)
Definition allocate_or (grow : M BufferManager N) (pageType : N) : M BufferManager N :=
  _ ← FetchPageForWrite MetaPageID PageTypeMeta;
  deferring (UnpinPage MetaPageID true true) (
    firstFree ← rd MetaPageID GetFirstFreePageID;
    if negb (firstFree =? 0) then
      _ ← FetchPageForRead firstFree PageTypeFree;
      nextFree ← rd firstFree GetNextFreePageID;
      _ ← Unpin firstFree false false;
      _ ← wr MetaPageID (SetFirstFreePageID nextFree);
      _ ← FetchPageForWrite firstFree pageType;
      _ ← wr firstFree (Init pageType);
      _ ← Unpin firstFree true true;
      mret firstFree
    else grow).

Definition allocatePage (pageType : N) : M BufferManager N :=
  allocate_or (on_pager (AllocatePage pageType)) pageType.

(** [id, _ := allocatePage(pageType)]: an error of the pager's write comes
    with the id of the page it was to write, every other error with zero. *)
Definition allocatePage_ (pageType : N) : M BufferManager N :=
  r ← attempt (allocate_or (on_pager (AllocatePage_ pageType)) pageType);
  mret (match r with inl pageID => pageID | inr _ => 0 end).

Definition deallocatePage (pageID : N) : M BufferManager unit :=
  _ ← FetchPageForWrite MetaPageID PageTypeMeta;
  deferring (UnpinPage MetaPageID true true) (
    firstFree ← rd MetaPageID GetFirstFreePageID;
    _ ← FetchPageForWrite pageID PageTypeFree;
    _ ← wr pageID (Init PageTypeFree);
    _ ← wr pageID (SetNextFreePageID firstFree);
    _ ← Unpin pageID true true;
    wr MetaPageID (SetFirstFreePageID pageID)).

(** ** The descent *)

(** The key cells of an internal page, in slot order. *)
Definition key_cells (p : page) : outcome (list KeyCell) :=
  slots ← all_slots p; omapM DeserializeKeyCell slots.
Definition kv_cells (p : page) : outcome (list KVCell) :=
  slots ← all_slots p; omapM DeserializeKVCell slots.

(** The cells of a leaf, each with its [Value] as a slice of the page. *)
Definition kv_slots (p : page) : outcome (list (KVCell * slice)) :=
  slots ← all_slots p; omapM decode_kv slots.

(** One turn of the search loop: the state is [maxMatchedKey] ([None] is
    nil) and [nextChildID]. *)
Definition match_child (key : bytes) (acc : option bytes * N) (k : KeyCell) : option bytes * N :=
  if bytes_leb (kcKey k) key then
    match acc.1 with
    | None => (Some (kcKey k), kcChild k)
    | Some m => if bytes_ltb m (kcKey k) then (Some (kcKey k), kcChild k) else acc
    end
  else acc.

Definition choose_child (key : bytes) (ks : list KeyCell) : N :=
  let '(maxMatchedKey, nextChildID) := foldl (match_child key) (None, 0) ks in
  match maxMatchedKey, ks with
  | None, k :: _ => kcChild k
  | _, _ => nextChildID
  end.

(** The loop of [findLeafPage].  The file has finitely many pages and the
    descent changes none of them: a path longer than the file repeats a page
    and then goes on for ever, which is [Hang]. *)
Fixpoint find_leaf_loop (fuel : nat) (key : bytes) (forWrite : bool) (currPageID : N)
    (path : list N) : M BufferManager (N * list N) :=
  match fuel with
  | O => hang
  | S fuel' =>
      r ← attempt (FetchPageForRead currPageID PageTypeLeaf);
      match r with
      | inr err => throw (ErrFetch currPageID err)
      | inl _ =>
          pageType ← rd currPageID GetPageType;
          if pageType =? PageTypeLeaf then
            _ ← (if forWrite then
                   _ ← Unpin currPageID false false;
                   r ← attempt (FetchPageForWrite currPageID PageTypeLeaf);
                   match r with
                   | inr err => throw (ErrFetchWrite currPageID err)
                   | inl _ => mret tt
                   end
                 else mret tt);
            mret (currPageID, path)
          else
            ks ← rd currPageID key_cells;
            ks ← pure ks;
            let nextChildID := choose_child key ks in
            _ ← Unpin currPageID false false;
            if nextChildID =? 0 then throw ErrChildZero
            else find_leaf_loop fuel' key forWrite nextChildID (path ++ [currPageID])
      end
  end.

Definition descent_fuel (bm : BufferManager) : nat := S (N.to_nat (bm_pages bm)).

Definition findLeafPage (rootPageID : N) (key : bytes) (forWrite : bool)
    : M BufferManager (N * list N) :=
  fuel ← gets descent_fuel;
  find_leaf_loop fuel key forWrite rootPageID [].

(** ** Overflow chains *)

(** The loop of [createOverflowChain]; [prevPage] is still pinned. *)
Fixpoint create_chain_loop (fuel : nat) (firstPageID : N) (prevPage : option N)
    (dataRemaining : bytes) : M BufferManager N :=
  match fuel, dataRemaining with
  | _, [] => mret firstPageID
  | O, _ => hang
  | S fuel', _ =>
      newPageID ← allocatePage PageTypeOverflow;
      _ ← FetchPageForWrite newPageID PageTypeOverflow;
      let firstPageID := if firstPageID =? 0 then newPageID else firstPageID in
      _ ← match prevPage with
          | Some prev =>
              _ ← wr prev (SetNextOverflowPageID newPageID);
              prevID ← rd prev GetPageID;
              Unpin prevID true true
          | None => mret tt
          end;
      let chunkSize := N.min (len dataRemaining) MaxOverflowDataSize in
      _ ← wr newPageID (SetNextOverflowPageID 0);
      _ ← wr newPageID (WriteOverflowData (take (N.to_nat chunkSize) dataRemaining));
      let dataRemaining := drop (N.to_nat chunkSize) dataRemaining in
      if len dataRemaining =? 0 then
        _ ← Unpin newPageID true true;
        create_chain_loop fuel' firstPageID prevPage dataRemaining
      else create_chain_loop fuel' firstPageID (Some newPageID) dataRemaining
  end.

Definition chain_metadata (firstPageID length : N) : bytes :=
  le_enc 4 firstPageID ++ le_enc 4 (u32 length).

(** Every turn of the loop takes at least one byte. *)
Definition createOverflowChain (value : bytes) : M BufferManager bytes :=
  firstPageID ← create_chain_loop (S (length value)) 0 None value;
  mret (chain_metadata firstPageID (len value)).

Fixpoint read_chain_loop (fuel : nat) (currPageID totalLength bytesRead : N) (result : bytes)
    : M BufferManager bytes :=
  if currPageID =? 0 then mret result else
  match fuel with
  | O => hang
  | S fuel' =>
      _ ← FetchPageForRead currPageID PageTypeOverflow;
      let chunkSize := sub32 totalLength bytesRead in
      let chunkSize := if MaxOverflowDataSize <? chunkSize then MaxOverflowDataSize else chunkSize in
      chunk ← rd currPageID (ReadOverflowData chunkSize);
      nextPageID ← rd currPageID GetNextOverflowPageID;
      _ ← Unpin currPageID false false;
      read_chain_loop fuel' nextPageID totalLength (u32 (bytesRead + chunkSize)) (result ++ chunk)
  end.

(** The metadata is a slice of the leaf's page. *)
Definition readOverflowChain (metadata : slice) : M BufferManager bytes :=
  currPageID ← pure (sl_uint metadata 0 4);
  totalLength ← pure (sl_uint metadata 4 4);
  fuel ← gets descent_fuel;
  read_chain_loop fuel currPageID totalLength 0 [].

(** A walk that frees pages may run into the free list it extends, so it
    gets a second file's worth of steps before it counts as endless. *)
Fixpoint free_chain_loop (fuel : nat) (currPageID : N) : M BufferManager unit :=
  if currPageID =? 0 then mret tt else
  match fuel with
  | O => hang
  | S fuel' =>
      r ← attempt (FetchPageForRead currPageID PageTypeOverflow);
      match r with
      | inr _ => mret tt
      | inl _ =>
          nextPageID ← rd currPageID GetNextOverflowPageID;
          _ ← Unpin currPageID false false;
          _ ← ignore (deallocatePage currPageID);
          free_chain_loop fuel' nextPageID
      end
  end.

Definition freeOverflowChain (metadata : slice) : M BufferManager unit :=
  currPageID ← pure (sl_uint metadata 0 4);
  fuel ← gets descent_fuel;
  free_chain_loop (fuel + fuel) currPageID.

(** ** Lookups *)

Definition isVersionVisible (kvKey mvccUserKey : bytes) (txMgr : option TransactionManager) : bool :=
  let '(userKey, readerTxID) := ExtractMVCCKey mvccUserKey in
  let '(kvKey, versionTxID) := ExtractMVCCKey kvKey in
  if negb (bytes_eqb kvKey userKey) then false else
  if readerTxID <? versionTxID then false else
  if versionTxID =? readerTxID then true else
  match txMgr with
  | Some t => bool_decide (GetStatus versionTxID t = TXN_COMMITED)
  | None => true
  end.

(** The loop of [FindLatest]: the visible version with the greatest key. *)
Definition best_slot (mvccUserKey : bytes) (txMgr : option TransactionManager)
    (cs : list (KVCell * slice)) : option (KVCell * slice) :=
  foldl (fun bestKV c =>
    if isVersionVisible (kvKey c.1) mvccUserKey txMgr then
      match bestKV with
      | None => Some c
      | Some best => if bytes_ltb (kvKey best.1) (kvKey c.1) then Some c else bestKV
      end
    else bestKV) None cs.

(** What both lookups do with the cell they found. *)
Definition cell_value (c : KVCell * slice) : M BufferManager bytes :=
  if IsOverflow c.1 then readOverflowChain c.2 else mret (kvValue c.1).

Definition FindLatest (rootPageID : N) (mvccUserKey : bytes) (txMgr : option TransactionManager)
    : M BufferManager bytes :=
  '(leaf, _) ← findLeafPage rootPageID mvccUserKey false;
  leafID ← rd leaf GetPageID;
  deferring (UnpinPage leafID false false) (
    cs ← rd leaf kv_slots;
    cs ← pure cs;
    match best_slot mvccUserKey txMgr cs with
    | None => throw ErrKeyNotFound
    | Some bestKV =>
        if kvFlag bestKV.1 =? KEY_DELETED_FLAG then throw ErrKeyDeleted
        else cell_value bestKV
    end).

(** The search loop of [Find] stops at the first equal key. *)
Fixpoint find_key (p : page) (key : bytes) (ids : list N)
    : outcome (option (KVCell * slice)) :=
  match ids with
  | [] => Ok None
  | i :: ids' =>
      cellData ← Get_ p i;
      kv ← decode_kv cellData;
      if bytes_eqb (kvKey kv.1) key then Ok (Some kv) else find_key p key ids'
  end.

Definition Find (rootPageID : N) (key : bytes) : M BufferManager bytes :=
  '(leaf, _) ← findLeafPage rootPageID key false;
  leafID ← rd leaf GetPageID;
  deferring (UnpinPage leafID false false) (
    r ← rd leaf (fun p => find_key p key (slot_ids p));
    r ← pure r;
    match r with
    | None => throw ErrKeyNotFound
    | Some kv => if IsDeleted kv.1 then throw ErrKeyNotFound else cell_value kv
    end).
End tree.

(** ** Pages of the tree *)

(** Page [id] of the array is a page of type [t] that stores [xs]. *)
Record node `{Codec A} (t : N) (bm : BufferManager) (id : N) (xs : list A) : Prop := {
  nd_id : id < bm_pages bm;
  nd_stores : stores (view bm id) xs;
  nd_type : GetPageType (view bm id) = t;
  nd_self : GetPageID (view bm id) = id
}.

Abbreviation leaf_node := (node (A := KVCell) PageTypeLeaf).
Abbreviation inner_node := (node (A := KeyCell) PageTypeInternal).

Lemma node_same `{Codec A} t bm bm' id (xs : list A) :
  same_view bm bm' -> node t bm id xs -> node t bm' id xs.
Proof.
  intros [[Hp _] Hv] [H1 H2 H3 H4]. specialize (Hv id). symmetry in Hv.
  pose proof (wf_len _ (st_wf _ _ H2)) as Hl. constructor.
  - by rewrite Hp.
  - by eapply eqv_stores.
  - by rewrite <-(eqv_type _ _ Hl Hv).
  - by rewrite <-(eqv_id _ _ Hl Hv).
Qed.

Lemma node_clash bm id (kvs : list KVCell) (ks : list KeyCell) :
  leaf_node bm id kvs -> inner_node bm id ks -> False.
Proof. intros H1 H2. pose proof (nd_type _ _ _ _ H1) as T. by rewrite (nd_type _ _ _ _ H2) in T. Qed.

(** The search path: [descends bm key id leaf path] says that from page [id]
    the search for [key] ends in [leaf], through the internal pages [path]. *)
Inductive descends (bm : BufferManager) (key : bytes) : N -> N -> list N -> Prop :=
| descends_leaf id kvs : leaf_node bm id kvs -> descends bm key id id []
| descends_inner id ks leaf path :
    inner_node bm id ks -> choose_child key ks <> 0 ->
    descends bm key (choose_child key ks) leaf path ->
    descends bm key id leaf (id :: path).

Lemma descends_same bm bm' key id leaf path :
  same_view bm bm' -> descends bm key id leaf path -> descends bm' key id leaf path.
Proof.
  intros Hs Hd. induction Hd as [id kvs Hl|id ks leaf path Hi Hc Hd IH].
  - econstructor. by eapply node_same.
  - econstructor; [by eapply node_same|done|done].
Qed.

Lemma descends_leaf_node bm key id leaf path :
  descends bm key id leaf path -> exists kvs, leaf_node bm leaf kvs.
Proof. induction 1; eauto. Qed.

Lemma stores_inj `{Codec A} p (xs ys : list A) : stores p xs -> stores p ys -> xs = ys.
Proof.
  intros Hx Hy. destruct (stores_decode p xs Hx) as (s1 & E1 & _ & F1).
  destruct (stores_decode p ys Hy) as (s2 & E2 & _ & F2). congruence.
Qed.

(** The search is deterministic, so a finite path repeats no page and is
    shorter than the file: the fuel of [findLeafPage] is enough. *)
Lemma descends_det bm key id l1 p1 l2 p2 :
  descends bm key id l1 p1 -> descends bm key id l2 p2 -> l1 = l2 /\ p1 = p2.
Proof.
  intros H1. revert l2 p2. induction H1 as [id kvs Hl|id ks leaf path Hi Hc Hd IH]; intros l2 p2 H2.
  - inversion H2 as [? kvs' Hl'|? ks' ? ? Hi']; subst; [done|].
    destruct (node_clash _ _ _ _ Hl Hi').
  - inversion H2 as [? kvs' Hl'|? ks' ? ? Hi' Hc' Hd']; subst.
    + destruct (node_clash _ _ _ _ Hl' Hi).
    + assert (ks' = ks) as ->
        by (eapply stores_inj; [exact (nd_stores _ _ _ _ Hi')|exact (nd_stores _ _ _ _ Hi)]).
      destruct (IH _ _ Hd') as [-> ->]. done.
Qed.

Lemma descends_suffix bm key id leaf path x :
  descends bm key id leaf path -> x ∈ path ->
  exists p, descends bm key x leaf (x :: p) /\ (length (x :: p) <= length path)%nat.
Proof.
  induction 1 as [|id ks leaf path Hi Hc Hd IH]; intros Hx; [by apply elem_of_nil in Hx|].
  apply elem_of_cons in Hx as [->|Hx].
  - exists path. split; [by econstructor|done].
  - destruct (IH Hx) as (p & Hp & Hlen). exists p. split; [done|]. simpl in *. lia.
Qed.

Lemma descends_nodup bm key id leaf path : descends bm key id leaf path -> NoDup path.
Proof.
  induction 1 as [|id ks leaf path Hi Hc Hd IH]; [constructor|]. constructor; [|done].
  intros Hin. destruct (descends_suffix _ _ _ _ _ _ Hd Hin) as (p & Hp & Hlen).
  assert (Hfull : descends bm key id leaf (id :: path)) by (by econstructor).
  destruct (descends_det _ _ _ _ _ _ _ Hfull Hp) as [_ E]. injection E as E. subst. simpl in Hlen. lia.
Qed.

Lemma descends_bound bm key id leaf path x :
  descends bm key id leaf path -> x ∈ path -> x < bm_pages bm /\ x <> leaf.
Proof.
  induction 1 as [|id ks leaf path Hi Hc Hd IH]; intros Hx; [by apply elem_of_nil in Hx|].
  apply elem_of_cons in Hx as [->|Hx]; [|by apply IH]. split; [apply Hi|].
  intros ->. destruct (descends_leaf_node _ _ _ _ _ Hd) as [kvs Hl].
  by destruct (node_clash _ _ _ _ Hl Hi).
Qed.

Lemma nodup_below (l : list N) n : NoDup l -> (forall x, x ∈ l -> x < n) -> (length l <= N.to_nat n)%nat.
Proof.
  intros Hnd Hb. rewrite <-(length_fmap N.to_nat l).
  assert (Hs : (N.to_nat <$> l) ⊆+ seq 0 (N.to_nat n)); [|apply submseteq_length in Hs; by rewrite length_seq in Hs].
  apply NoDup_submseteq.
  - apply NoDup_fmap; [|done]. intros x y. lia.
  - intros k (x & -> & Hx)%list_elem_of_fmap. apply elem_of_seq. specialize (Hb x Hx). lia.
Qed.

Lemma descends_fuel bm key id leaf path :
  descends bm key id leaf path -> (length path < descent_fuel bm)%nat.
Proof.
  intros Hd. unfold descent_fuel. apply Nat.lt_succ_r, nodup_below.
  - by eapply descends_nodup.
  - intros x Hx. by eapply descends_bound.
Qed.

(** ** Lemmas on composite operations *)

Lemma Unpin_eq bm bm' id d w : UnpinPage id d w bm = (Ok tt, bm') -> Unpin id d w bm = (Ok tt, bm').
Proof. apply ignore_ok. Qed.

Lemma deferring_ok {S A B} (d : M S B) (m : M S A) s a s1 b s2 :
  m s = (Ok a, s1) -> d s1 = (Ok b, s2) -> deferring d m s = (Ok a, s2).
Proof. intros E1 E2. unfold deferring. rewrite E1. by mstep (ignore_ok _ _ _ _ E2). Qed.

Lemma deferring_err {S A B} (d : M S B) (m : M S A) s e s1 b s2 :
  m s = (Err e, s1) -> d s1 = (Ok b, s2) -> deferring d m s = (Err e, s2).
Proof. intros E1 E2. unfold deferring. rewrite E1. by mstep (ignore_ok _ _ _ _ E2). Qed.

Lemma key_cells_stores p ks : stores p ks -> key_cells p = Ok ks.
Proof.
  intros Hs. destruct (stores_decode p ks Hs) as (slots & E1 & _ & E2).
  unfold key_cells. by rewrite E1.
Qed.
Lemma kv_cells_stores p kvs : stores p kvs -> kv_cells p = Ok kvs.
Proof.
  intros Hs. destruct (stores_decode p kvs Hs) as (slots & E1 & _ & E2).
  unfold kv_cells. by rewrite E1.
Qed.

(** The cells of the leaf with their values, each value with what follows it. *)
Definition slots_of (kvs : list KVCell) (cs : list (KVCell * slice)) : Prop :=
  cs.*1 = kvs /\ forall c, c ∈ cs -> exists rest, c.2 = Slice (kvValue c.1) rest.

Lemma kv_slots_stores p kvs : stores p kvs -> exists cs, kv_slots p = Ok cs /\ slots_of kvs cs.
Proof.
  intros Hs. destruct (stores_decode p kvs Hs) as (slots & E1 & E2 & _).
  unfold kv_slots. rewrite E1. cbn [mbind outcome_bind]. pose proof (st_fits _ _ Hs) as Hf.
  clear E1 Hs. revert slots E2. induction Hf as [|kv kvs Hkv Hf IH]; intros [|c slots] E2; try done.
  - exists []. split; [done|]. split; [done|]. by intros c ?%elem_of_nil.
  - injection E2 as Ec E2. destruct (IH _ E2) as (cs & E & Hc & Hr).
    destruct c as [d r]. cbn in Ec. subst d.
    exists ((kv, Slice (kvValue kv) r) :: cs). split; [|split].
    + cbn. change (encode kv) with (KVCell_Serialize kv). rewrite decode_kv_encode by done. cbn.
      by rewrite E.
    + cbn. by rewrite Hc.
    + intros c [->|Hin]%elem_of_cons; [by exists r|by apply Hr].
Qed.

Lemma size_insert_hold (h : gmap N hold) id ho :
  h !! id = None -> N.of_nat (size (<[id := ho]> h)) = N.of_nat (size h) + 1.
Proof. intros Hh. rewrite map_size_insert_None by done. lia. Qed.

Section descent.
Context `{MapRange}.

(** The hold a descent ends with. *)
Definition leaf_hold (forWrite : bool) : hold := if forWrite then HWrite else HRead 1.

Lemma find_leaf_loop_ok key forWrite h id leaf path : forall fuel acc bm,
  descends bm key id leaf path -> bm_ok bm h -> (length path < fuel)%nat ->
  N.of_nat (size h) < bm_maxSize bm ->
  h !! leaf = None -> (forall x, x ∈ path -> h !! x = None) ->
  exists bm', find_leaf_loop fuel key forWrite id acc bm = (Ok (leaf, acc ++ path), bm')
    /\ bm_ok bm' (<[leaf := leaf_hold forWrite]> h) /\ same_view bm bm'
    /\ (forWrite = true -> settled bm' leaf /\ log_step leaf (bm_wal bm) (bm_wal bm')).
Proof.
  revert id. induction path as [|x path IH]; intros id fuel acc bm Hd Hok Hf Hsz Hl Hp;
    (destruct fuel as [|fuel]; [simpl in Hf; lia|]); inversion Hd; subst; cbn [find_leaf_loop].
  - match goal with Hn : leaf_node _ _ _ |- _ => rename Hn into Hleaf end.
    destruct (fetch_read_new leaf PageTypeLeaf bm h Hok (nd_id _ _ _ _ Hleaf) Hl (or_intror Hsz))
      as (bm1 & E1 & K1 & S1). pose proof (steady_fetch_read bm_wal leaf PageTypeLeaf bm) as W1. rewrite E1 in W1.
    mstep (attempt_ok _ _ _ _ E1). apply (node_same _ _ _ _ _ S1) in Hleaf.
    mstep (rd_ok bm1 _ leaf (HRead 1) GetPageType K1 (lookup_insert_eq _ _ _)).
    rewrite (nd_type _ _ _ _ Hleaf). cbn [N.eqb Pos.eqb PageTypeLeaf].
    rewrite app_nil_r. destruct forWrite.
    + destruct (unpin_read bm1 h leaf K1 Hl) as (bm2 & E2 & K2 & S2).
      apply same_array_view in S2. pose proof (steady_unpin bm_wal leaf false false bm1) as W2. rewrite E2 in W2.
      destruct (fetch_write_log leaf PageTypeLeaf bm2 h K2) as (bm3 & E3 & K3 & S3 & T3 & G3).
      * destruct S2 as [[-> _] _]. apply Hleaf.
      * done.
      * right. destruct S1 as [[_ S1] _], S2 as [[_ S2] _]. by rewrite S2, S1.
      * exists bm3. split; [|split; [done|]].
        -- erewrite bind_ok; [reflexivity|]. mstep (Unpin_eq _ _ _ _ _ E2).
           by mstep (attempt_ok _ _ _ _ E3).
        -- split; [etrans; [exact S1|]; by etrans|]. cbn in W1, W2. rewrite W2, W1 in G3. done.
    + by exists bm1.
  - match goal with Hn : inner_node _ _ _ |- _ => rename Hn into Hin end.
    assert (Hx : h !! x = None) by (apply Hp; by left).
    destruct (fetch_read_new x PageTypeLeaf bm h Hok (nd_id _ _ _ _ Hin) Hx (or_intror Hsz))
      as (bm1 & E1 & K1 & S1). pose proof (steady_fetch_read bm_wal x PageTypeLeaf bm) as W1. rewrite E1 in W1.
    mstep (attempt_ok _ _ _ _ E1). apply (node_same _ _ _ _ _ S1) in Hin.
    mstep (rd_ok bm1 _ x (HRead 1) GetPageType K1 (lookup_insert_eq _ _ _)).
    rewrite (nd_type _ _ _ _ Hin). cbn [N.eqb Pos.eqb PageTypeLeaf PageTypeInternal].
    mstep (rd_ok bm1 _ x (HRead 1) key_cells K1 (lookup_insert_eq _ _ _)).
    rewrite (key_cells_stores _ _ (nd_stores _ _ _ _ Hin)).
    unfold mbind at 1, M_bind at 1, pure at 1.
    destruct (unpin_read bm1 h x K1 Hx) as (bm2 & E2 & K2 & S2). apply same_array_view in S2.
    pose proof (steady_unpin bm_wal x false false bm1) as W2. rewrite E2 in W2. cbn in W1, W2.
    mstep (Unpin_eq _ _ _ _ _ E2). rewrite (proj2 (N.eqb_neq _ _)) by done.
    assert (S12 : same_view bm bm2) by (by etrans).
    match goal with Hd' : descends _ _ (choose_child _ _) _ _ |- _ =>
      apply (descends_same _ _ _ _ _ _ S12) in Hd';
      destruct (IH _ fuel (acc ++ [x]) bm2 Hd' K2) as (bm3 & E3 & K3 & S3 & T3) end.
    + simpl in Hf. lia.
    + destruct S12 as [[_ ->] _]. done.
    + done.
    + intros y Hy. apply Hp. by right.
    + exists bm3. rewrite <-(assoc_L (++)) in E3. split; [done|]. split; [done|].
      split; [by etrans|]. rewrite W2, W1 in T3. done.
Qed.

(** The descent finds the leaf and the path, and holds the leaf. *)
Lemma findLeafPage_ok bm h root key forWrite leaf path :
  descends bm key root leaf path -> bm_ok bm h -> N.of_nat (size h) < bm_maxSize bm ->
  h !! leaf = None -> (forall x, x ∈ path -> h !! x = None) ->
  exists bm', findLeafPage root key forWrite bm = (Ok (leaf, path), bm')
    /\ bm_ok bm' (<[leaf := leaf_hold forWrite]> h) /\ same_view bm bm'
    /\ (forWrite = true -> settled bm' leaf /\ log_step leaf (bm_wal bm) (bm_wal bm')).
Proof.
  intros Hd Hok Hsz Hl Hp. unfold findLeafPage. unfold mbind at 1, M_bind at 1, gets at 1.
  by apply (find_leaf_loop_ok key forWrite h root leaf path _ [] bm Hd Hok (descends_fuel _ _ _ _ _ Hd)).
Qed.
End descent.

(** ** Visibility *)

(** What the visibility check computes, on version keys. *)
Definition visible (txMgr : option TransactionManager) (reader version : N) : Prop :=
  version = reader
  \/ version < reader /\ match txMgr with
                         | Some t => GetStatus version t = TXN_COMMITED
                         | None => True
                         end.

Lemma isVersionVisible_iff kvKey mvccKey txMgr :
  isVersionVisible kvKey mvccKey txMgr = true <->
  (ExtractMVCCKey kvKey).1 = (ExtractMVCCKey mvccKey).1
  /\ visible txMgr (ExtractMVCCKey mvccKey).2 (ExtractMVCCKey kvKey).2.
Proof.
  unfold isVersionVisible, visible.
  destruct (ExtractMVCCKey mvccKey) as [user reader]. destruct (ExtractMVCCKey kvKey) as [k version].
  cbn [fst snd]. destruct (bytes_eqb k user) eqn:Eu; cbn [negb].
  2: { split; [done|]. intros [-> _]. by rewrite bytes_eqb_refl in Eu. }
  apply bytes_eqb_eq in Eu as ->.
  destruct (reader <? version) eqn:El; bool_lia.
  { split; [done|]. intros [_ [->|[? _]]]; lia. }
  destruct (version =? reader) eqn:Ee; bool_lia.
  { split; [|done]. intros _. split; [done|by left]. }
  destruct txMgr as [t|].
  - rewrite bool_decide_eq_true. split.
    + intros E. split; [done|]. right. split; [lia|done].
    + intros [_ [?|[_ ?]]]; [lia|done].
  - split; [|done]. intros _. split; [done|]. right. split; [lia|done].
Qed.

(** The loop of [FindLatest] finds the visible version with the greatest key. *)
Definition is_best (mvccKey : bytes) (txMgr : option TransactionManager) (kvs : list KVCell)
    (r : option KVCell) : Prop :=
  match r with
  | None => forall kv, kv ∈ kvs -> isVersionVisible (kvKey kv) mvccKey txMgr = false
  | Some best => best ∈ kvs /\ isVersionVisible (kvKey best) mvccKey txMgr = true
      /\ forall kv, kv ∈ kvs -> isVersionVisible (kvKey kv) mvccKey txMgr = true ->
         bytes_ltb (kvKey best) (kvKey kv) = false
  end.

Lemma bytes_ltb_irrefl a : bytes_ltb a a = false.
Proof. unfold bytes_ltb. by rewrite bytes_compare_refl. Qed.

Lemma bytes_ltb_false_trans a b c :
  bytes_ltb a b = false -> bytes_ltb b c = false -> bytes_ltb a c = false.
Proof.
  rewrite !bytes_ltb_ge. intros [->|H1] [->|H2]; [by left|by right|by right|right; by etrans].
Qed.

(** The pick among the cells alone. *)
Definition best_version (mvccUserKey : bytes) (txMgr : option TransactionManager)
    (kvs : list KVCell) : option KVCell :=
  foldl (fun bestKV kv =>
    if isVersionVisible (kvKey kv) mvccUserKey txMgr then
      match bestKV with
      | None => Some kv
      | Some best => if bytes_ltb (kvKey best) (kvKey kv) then Some kv else bestKV
      end
    else bestKV) None kvs.

Lemma best_slot_version mvccKey txMgr cs :
  fst <$> best_slot mvccKey txMgr cs = best_version mvccKey txMgr cs.*1.
Proof.
  unfold best_slot, best_version. induction cs as [|c cs IH] using rev_ind; [done|].
  rewrite fmap_app. cbn [fmap list_fmap]. rewrite !foldl_app. cbn [foldl]. rewrite <-IH.
  destruct (isVersionVisible (kvKey c.1) mvccKey txMgr); [|done].
  destruct (foldl _ None cs) as [best|]; cbn [fmap option_fmap option_map]; [|done].
  by destruct (bytes_ltb (kvKey best.1) (kvKey c.1)).
Qed.

Lemma best_slot_in mvccKey txMgr cs c : best_slot mvccKey txMgr cs = Some c -> c ∈ cs.
Proof.
  unfold best_slot. revert c. induction cs as [|x cs IH] using rev_ind; intros c; [done|].
  rewrite foldl_app. cbn [foldl]. destruct (isVersionVisible (kvKey x.1) mvccKey txMgr).
  - destruct (foldl _ None cs) as [best|]; [destruct (bytes_ltb (kvKey best.1) (kvKey x.1))|];
      intros [= <-]; rewrite elem_of_app, list_elem_of_singleton; auto.
  - intros E. apply elem_of_app. left. by apply IH.
Qed.

Lemma best_version_is_best mvccKey txMgr kvs :
  is_best mvccKey txMgr kvs (best_version mvccKey txMgr kvs).
Proof.
  unfold best_version. induction kvs as [|kv kvs IH] using rev_ind.
  - intros kv Hkv. by apply elem_of_nil in Hkv.
  - rewrite foldl_app. cbn [foldl]. set (r := foldl _ _ _) in *. clearbody r.
    destruct (isVersionVisible (kvKey kv) mvccKey txMgr) eqn:Ev; destruct r as [best|]; cbn in *.
    + destruct IH as (H1 & H2 & H3). destruct (bytes_ltb (kvKey best) (kvKey kv)) eqn:El; cbn.
      * split; [set_solver|]. split; [done|]. intros kv' Hin Hv.
        apply elem_of_app in Hin as [Hin|Hin%list_elem_of_singleton]; [|subst; apply bytes_ltb_irrefl].
        specialize (H3 _ Hin Hv). apply bytes_ltb_false_trans with (kvKey best); [|done].
        apply bytes_ltb_lt in El. apply bytes_ltb_ge. by right.
      * split; [set_solver|]. split; [done|]. intros kv' Hin Hv.
        apply elem_of_app in Hin as [Hin|Hin%list_elem_of_singleton]; [by apply H3|by subst].
    + split; [set_solver|]. split; [done|]. intros kv' Hin Hv.
      apply elem_of_app in Hin as [Hin|Hin%list_elem_of_singleton]; [|subst; apply bytes_ltb_irrefl].
      by rewrite IH in Hv.
    + destruct IH as (H1 & H2 & H3). split; [set_solver|]. split; [done|]. intros kv' Hin Hv.
      apply elem_of_app in Hin as [Hin|Hin%list_elem_of_singleton]; [by apply H3|].
      subst. congruence.
    + intros kv' [Hin|Hin%list_elem_of_singleton]%elem_of_app; [by apply IH|by subst].
Qed.

Lemma best_version_in mvccKey txMgr kvs kv : best_version mvccKey txMgr kvs = Some kv -> kv ∈ kvs.
Proof.
  intros E. pose proof (best_version_is_best mvccKey txMgr kvs) as Hb. rewrite E in Hb. apply Hb.
Qed.

(** The pick depends on the visible cells alone, not on their order. *)
Lemma best_version_visible mvccKey tx tx' (kvs kvs' : list KVCell) :
  (forall a b, a ∈ kvs -> b ∈ kvs -> kvKey a = kvKey b -> a = b) ->
  (forall kv, isVersionVisible (kvKey kv) mvccKey tx' = isVersionVisible (kvKey kv) mvccKey tx) ->
  (forall kv, isVersionVisible (kvKey kv) mvccKey tx = true -> kv ∈ kvs' <-> kv ∈ kvs) ->
  best_version mvccKey tx' kvs' = best_version mvccKey tx kvs.
Proof.
  intros Hinj Hv Hin. pose proof (best_version_is_best mvccKey tx kvs) as B.
  pose proof (best_version_is_best mvccKey tx' kvs') as B'.
  destruct (best_version mvccKey tx kvs) as [b|], (best_version mvccKey tx' kvs') as [b'|];
    cbn [is_best] in B, B'; [|exfalso|exfalso|done].
  - destruct B as (B1 & B2 & B3), B' as (C1 & C2 & C3). rewrite Hv in C2. f_equal.
    assert (Hb' : b' ∈ kvs) by by apply Hin. apply Hinj; [done|done|].
    specialize (B3 b' Hb' C2).
    assert (Hc : bytes_ltb (kvKey b') (kvKey b) = false)
      by (apply C3; [by apply Hin|by rewrite Hv]).
    apply bytes_ltb_ge in B3 as [B3|B3]; [done|]. apply bytes_ltb_ge in Hc as [Hc|Hc]; [done|].
    destruct (irreflexivity bytes_lt (kvKey b)). by etrans.
  - destruct B as (B1 & B2 & _). specialize (B' b). rewrite Hv, B2 in B'. by discriminate B'; apply Hin.
  - destruct B' as (C1 & C2 & _). rewrite Hv in C2. specialize (B b'). rewrite C2 in B.
    by discriminate B; apply Hin.
Qed.

Lemma raw_before_version user txid : bytes_lt user (BuildMVCCKey user txid).
Proof.
  rewrite BuildMVCCKey_image. unfold bytes_lt. rewrite <-(app_nil_r user) at 1.
  by rewrite bytes_compare_app.
Qed.

(** No version visible to a transaction is above the transaction's own. *)
Lemma visible_below user txid txMgr k :
  txid < 18446744073709551616 ->
  isVersionVisible k (BuildMVCCKey user txid) txMgr = true ->
  k = BuildMVCCKey user txid \/ bytes_lt k (BuildMVCCKey user txid).
Proof.
  intros Ht. rewrite isVersionVisible_iff, extract_build by done. cbn [fst snd].
  destruct (ExtractMVCCKey k) as [u v] eqn:Ek. cbn [fst snd]. intros [-> Hv].
  assert (Hle : v <= txid) by (destruct Hv as [->|[? _]]; lia).
  apply build_extract in Ek as [->|[-> _]]; [|right; apply raw_before_version].
  destruct (decide (v = txid)) as [->|Hne]; [by left|]. right. unfold bytes_lt.
  rewrite version_order by lia. apply N.compare_lt_iff. lia.
Qed.

(** A transaction that has a version of the key reads that version. *)
Lemma best_own user txid txMgr kvs new :
  txid < 18446744073709551616 -> kvKey new = BuildMVCCKey user txid -> new ∈ kvs ->
  (forall kv, kv ∈ kvs -> kvKey kv = kvKey new -> kv = new) ->
  best_version (BuildMVCCKey user txid) txMgr kvs = Some new.
Proof.
  intros Ht Hk Hin Hu. pose proof (best_version_is_best (BuildMVCCKey user txid) txMgr kvs) as Hb.
  assert (Hv : isVersionVisible (kvKey new) (BuildMVCCKey user txid) txMgr = true).
  { rewrite Hk, isVersionVisible_iff. split; [done|]. by left. }
  destruct (best_version _ _ _) as [best|]; cbn [is_best] in Hb.
  - destruct Hb as (B1 & B2 & B3). f_equal. apply Hu; [done|].
    specialize (B3 _ Hin Hv). apply bytes_ltb_ge in B3 as [B3|B3]; [done|].
    apply (visible_below user txid txMgr _ Ht) in B2 as [B2|B2]; [congruence|].
    rewrite Hk in B3. destruct (irreflexivity bytes_lt (kvKey best)). by etrans.
  - rewrite (Hb _ Hin) in Hv. discriminate.
Qed.

(** ** Overflow chains as data *)

(** The pages [ids] hold [data], full pages first. *)
Fixpoint chain (bm : BufferManager) (ids : list N) (data : bytes) : Prop :=
  match ids with
  | [] => data = []
  | id :: ids' =>
      0 < id < bm_pages bm /\ len (view bm id) = PageSize
      /\ GetPageType (view bm id) = PageTypeOverflow
      /\ GetNextOverflowPageID (view bm id) = hd 0 ids'
      /\ exists chunk rest, data = chunk ++ rest /\ sub (view bm id) overflowDataOffset (len chunk) = chunk
         /\ 0 < len chunk <= MaxOverflowDataSize
         /\ (ids' <> [] -> len chunk = MaxOverflowDataSize)
         /\ chain bm ids' rest
  end.

Lemma chain_same bm bm' ids data : same_view bm bm' -> chain bm ids data -> chain bm' ids data.
Proof.
  intros [[Hp Hm] Hv]. revert data. induction ids as [|id ids IH]; intros data; [done|].
  cbn [chain]. intros (H1 & H2 & H3 & H4 & chunk & rest & -> & H5 & H6 & H7 & H8).
  specialize (Hv id). symmetry in Hv. rewrite Hp. unfold GetNextOverflowPageID in *.
  rewrite <-(eqv_type _ _ H2 Hv), <-(page_eqv_len _ _ Hv).
  rewrite <-(eqv_body _ _ H2 Hv) by (unfold overflowNextPageOffset, HeaderSize; lia).
  split; [done|]. split; [done|]. split; [done|]. split; [done|]. exists chunk, rest.
  rewrite <-(sub_eqv _ _ _ _ H2 Hv) by (unfold overflowDataOffset; lia).
  split; [done|]. split; [done|]. split; [done|]. split; [done|]. by apply IH.
Qed.

Lemma chain_nonempty bm id ids data : chain bm (id :: ids) data -> 0 < len data.
Proof.
  cbn [chain]. intros (_ & _ & _ & _ & chunk & rest & -> & _ & H6 & _). len.
Qed.

Lemma chain_len bm ids data x : chain bm ids data -> x ∈ ids -> len (view bm x) = PageSize.
Proof.
  revert data. induction ids as [|id ids IH]; intros data Hc; [by intros ?%elem_of_nil|].
  cbn [chain] in Hc. destruct Hc as (_ & H2 & _ & _ & chunk & rest & _ & _ & _ & _ & H8).
  intros [->|Hx]%elem_of_cons; [done|]. by eapply IH.
Qed.

Lemma chain_bound bm ids data x : chain bm ids data -> x ∈ ids ->
  0 < x < bm_pages bm /\ GetPageType (view bm x) = PageTypeOverflow.
Proof.
  revert data. induction ids as [|id ids IH]; intros data; [by intros _ ?%elem_of_nil|].
  cbn [chain]. intros (H1 & H2 & H3 & H4 & chunk & rest & -> & H5 & H6 & H7 & H8).
  intros [->|Hx]%elem_of_cons; [done|]. by apply (IH rest).
Qed.

(** What a cell stands for: its value, or the data of the chain it points to. *)
Definition cell_holds (bm : BufferManager) (kv : KVCell) (v : bytes) : Prop :=
  if IsOverflow kv then
    exists ids, kvValue kv = chain_metadata (hd 0 ids) (len v) /\ len v < 4294967296
      /\ NoDup ids /\ chain bm ids v
  else kvValue kv = v.

Lemma cell_holds_same bm bm' kv v : same_view bm bm' -> cell_holds bm kv v -> cell_holds bm' kv v.
Proof.
  intros Hs. unfold cell_holds. destruct (IsOverflow kv); [|done].
  intros (ids & ? & ? & ? & Hc). exists ids. split_and!; try done. by eapply chain_same.
Qed.

Section lookup.
Context `{MapRange}.

Lemma read_chain_ok h total : forall ids fuel bytesRead result data bm,
  bm_ok bm h -> N.of_nat (size h) < bm_maxSize bm -> chain bm ids data ->
  (forall x, x ∈ ids -> h !! x = None) -> (length ids <= fuel)%nat ->
  bytesRead + len data = total -> total < 4294967296 ->
  exists bm', read_chain_loop fuel (hd 0 ids) total bytesRead result bm = (Ok (result ++ data), bm')
    /\ bm_ok bm' h /\ same_view bm bm'.
Proof.
  induction ids as [|id ids IH]; intros fuel bytesRead result data bm Hok Hsz Hc Hh Hf Ht Hb.
  - cbn [chain] in Hc. subst data. exists bm. rewrite app_nil_r.
    split; [by destruct fuel|]. done.
  - destruct fuel as [|fuel]; [simpl in Hf; lia|]. pose proof (chain_nonempty _ _ _ _ Hc) as Hne.
    pose proof Hc as Hc0. cbn [chain] in Hc.
    destruct Hc as (H1 & H2 & H3 & H4 & chunk & rest & -> & H5 & H6 & H7 & H8).
    cbn [hd read_chain_loop]. rewrite (proj2 (N.eqb_neq _ _)) by lia.
    assert (Hid : h !! id = None) by (apply Hh; by left).
    destruct (fetch_read_new id PageTypeOverflow bm h Hok (proj2 H1) Hid (or_intror Hsz))
      as (bm1 & E1 & K1 & S1). mstep E1.
    assert (Hsize : sub32 total bytesRead = len (chunk ++ rest)) by (unfold sub32, u32; lia).
    rewrite Hsize.
    assert (Hchunk : (if MaxOverflowDataSize <? len (chunk ++ rest) then MaxOverflowDataSize
                      else len (chunk ++ rest)) = len chunk).
    { rewrite len_app. destruct ids as [|id' ids].
      - cbn [chain] in H8. subst rest. rewrite N.add_0_r. destruct (_ <? _) eqn:E; bool_lia; lia.
      - rewrite H7 by done. pose proof (chain_nonempty _ _ _ _ H8).
        rewrite (proj2 (N.ltb_lt _ _)) by lia. done. }
    rewrite Hchunk.
    pose proof (chain_same _ _ _ _ S1 Hc0) as Hc1. cbn [chain] in Hc1.
    destruct Hc1 as (_ & G2 & _ & G4 & _).
    mstep (rd_ok bm1 _ id (HRead 1) (ReadOverflowData (len chunk)) K1 (lookup_insert_eq _ _ _)).
    mstep (rd_ok bm1 _ id (HRead 1) GetNextOverflowPageID K1 (lookup_insert_eq _ _ _)).
    destruct (unpin_read bm1 h id K1 Hid) as (bm2 & E2 & K2 & S2). apply same_array_view in S2.
    mstep (Unpin_eq _ _ _ _ _ E2). rewrite G4.
    assert (Hdata : ReadOverflowData (len chunk) (view bm1 id) = chunk).
    { unfold ReadOverflowData. rewrite (proj2 (N.ltb_ge _ _)) by lia.
      rewrite (sub_eqv _ (view bm id)); [done|done|apply S1|unfold overflowDataOffset; lia]. }
    rewrite Hdata. replace (u32 (bytesRead + len chunk)) with (bytesRead + len chunk)
      by (rewrite len_app in *; unfold u32; lia).
    assert (S12 : same_view bm bm2) by (by etrans).
    destruct (IH fuel (bytesRead + len chunk) (result ++ chunk) rest bm2 K2) as (bm3 & E3 & K3 & S3).
    + destruct S12 as [[_ ->] _]. done.
    + by apply (chain_same _ _ _ _ S12).
    + intros x Hx. apply Hh. by right.
    + simpl in Hf. lia.
    + rewrite len_app in Ht. lia.
    + done.
    + exists bm3. rewrite <-(assoc_L (++)) in E3. split; [done|]. split; [done|]. by etrans.
Qed.

Lemma metadata_fields first length rest :
  first < 4294967296 -> length < 4294967296 ->
  sl_uint (Slice (chain_metadata first length) rest) 0 4 = Ok first
  /\ sl_uint (Slice (chain_metadata first length) rest) 4 4 = Ok length.
Proof.
  intros Hf Hl. unfold chain_metadata. split.
  - rewrite (sl_uint_0 4) by len. f_equal. by apply le_dec_enc_small.
  - rewrite <-(app_nil_r (le_enc 4 (u32 length))).
    rewrite (sl_uint_at 4 4) by len. f_equal. unfold u32. rewrite N.mod_small by done.
    by apply le_dec_enc_small.
Qed.

(** Reading a cell's value through its chain. *)
Lemma cell_value_ok bm h kv rest v :
  bm_ok bm h -> N.of_nat (size h) < bm_maxSize bm -> cell_holds bm kv v ->
  (forall x, GetPageType (view bm x) = PageTypeOverflow -> h !! x = None) ->
  exists bm', cell_value (kv, Slice (kvValue kv) rest) bm = (Ok v, bm') /\ bm_ok bm' h /\ same_view bm bm'.
Proof.
  intros Hok Hsz Hc Hh. unfold cell_value, cell_holds in *. cbn [fst snd]. destruct (IsOverflow kv).
  - destruct Hc as (ids & Hm & Hl & Hnd & Hc). unfold readOverflowChain. rewrite Hm.
    destruct (metadata_fields (hd 0 ids) (len v) rest) as [-> ->]; [|done|].
    { destruct ids as [|id ids]; [done|]. destruct (chain_bound _ _ _ id Hc) as [[_ Hb] _]; [by left|].
      pose proof (dbf_bound _ (bo_file _ _ Hok)). unfold bm_pages in Hb. simpl. lia. }
    unfold mbind, M_bind at 1, pure at 1. unfold M_bind at 1. unfold gets at 1.
    destruct (read_chain_ok h (len v) ids (descent_fuel bm) 0 [] v bm Hok Hsz Hc) as (bm' & E & R).
    + intros x Hx. apply Hh. by destruct (chain_bound _ _ _ x Hc Hx).
    + unfold descent_fuel. apply le_S, nodup_below; [done|].
      intros x Hx. by destruct (chain_bound _ _ _ x Hc Hx) as [[_ ?] _].
    + done.
    + done.
    + exists bm'. split; [|done]. exact E.
  - subst v. exists bm. split; [done|]. split; [done|]. reflexivity.
Qed.

(** A cell stands for one value: the one that reading it gives. *)
Lemma cell_holds_det bm kv v v' :
  bm_ok bm ∅ -> 0 < bm_maxSize bm -> cell_holds bm kv v -> cell_holds bm kv v' -> v = v'.
Proof.
  intros Hok Hsz H1 H2.
  destruct (cell_value_ok bm ∅ kv [] v Hok Hsz H1) as (b1 & E1 & _); [intros; apply lookup_empty|].
  destruct (cell_value_ok bm ∅ kv [] v' Hok Hsz H2) as (b2 & E2 & _); [intros; apply lookup_empty|].
  congruence.
Qed.

(** The answer of [FindLatest] for the cell it picks. *)
Definition latest_answer (bm : BufferManager) (r : option KVCell) (o : outcome bytes) : Prop :=
  match r with
  | None => o = Err ErrKeyNotFound
  | Some kv =>
      if kvFlag kv =? KEY_DELETED_FLAG then o = Err ErrKeyDeleted
      else exists v, cell_holds bm kv v /\ o = Ok v
  end.

(** Every cell's chain is in place. *)
Definition chains_ok (bm : BufferManager) (kvs : list KVCell) : Prop :=
  forall kv, kv ∈ kvs -> exists v, cell_holds bm kv v.

Lemma FindLatest_ok bm root key txMgr leaf path kvs :
  bm_ok bm ∅ -> 1 < bm_maxSize bm -> descends bm key root leaf path ->
  leaf_node bm leaf kvs ->
  (forall kv, best_version key txMgr kvs = Some kv -> exists v, cell_holds bm kv v) ->
  exists o bm', FindLatest root key txMgr bm = (o, bm')
    /\ latest_answer bm (best_version key txMgr kvs) o /\ bm_ok bm' ∅ /\ same_view bm bm'.
Proof.
  intros Hok Hsz Hd Hl Hch. unfold FindLatest.
  destruct (findLeafPage_ok bm ∅ root key false leaf path Hd Hok) as (bm1 & E1 & K1 & S1 & _);
    try (intros; apply lookup_empty); [rewrite map_size_empty; lia|].
  mstep E1. cbn [leaf_hold] in K1. pose proof (node_same _ _ _ _ _ S1 Hl) as Hl1.
  mstep (rd_ok bm1 _ leaf (HRead 1) GetPageID K1 (lookup_insert_eq _ _ _)).
  rewrite (nd_self _ _ _ _ Hl1).
  pose proof (rd_ok bm1 _ leaf (HRead 1) kv_slots K1 (lookup_insert_eq _ _ _)) as Erd.
  destruct (kv_slots_stores _ _ (nd_stores _ _ _ _ Hl1)) as (cs & Ecs & Hcs & Hrest). rewrite Ecs in Erd.
  pose proof (best_slot_version key txMgr cs) as Hbs. rewrite Hcs in Hbs.
  assert (Hbody : exists o bm2,
    (cs ← rd leaf kv_slots; cs ← pure cs;
     match best_slot key txMgr cs with
     | None => throw ErrKeyNotFound
     | Some bestKV =>
         if kvFlag bestKV.1 =? KEY_DELETED_FLAG then throw ErrKeyDeleted else cell_value bestKV
     end) bm1 = (o, bm2)
    /\ latest_answer bm (best_version key txMgr kvs) o
    /\ bm_ok bm2 (<[leaf := HRead 1]> ∅) /\ same_view bm1 bm2).
  { mstep Erd. unfold mbind at 1, M_bind at 1, pure at 1.
    pose proof (best_version_is_best key txMgr kvs) as Hb.
    destruct (best_slot key txMgr cs) as [[kv sl]|] eqn:Ebs; cbn [fmap option_fmap option_map fst] in Hbs;
      rewrite <-Hbs in *; cbn [latest_answer fst].
    - apply best_slot_in in Ebs. destruct (Hrest _ Ebs) as [rest Hsl]. cbn [snd fst] in Hsl. subst sl.
      destruct (kvFlag kv =? KEY_DELETED_FLAG).
      + exists (Err ErrKeyDeleted), bm1. done.
      + destruct (Hch kv eq_refl) as [v Hv].
        destruct (cell_value_ok bm1 _ kv rest v K1) as (bm2 & E2 & K2 & S2).
        * rewrite map_size_insert_None by apply lookup_empty. rewrite map_size_empty.
          destruct S1 as [[_ ->] _]. lia.
        * by apply (cell_holds_same _ _ _ _ S1).
        * intros x Hx. rewrite lookup_insert_ne; [apply lookup_empty|]. intros ->.
          by rewrite (nd_type _ _ _ _ Hl1) in Hx.
        * exists (Ok v), bm2. eauto 10.
    - exists (Err ErrKeyNotFound), bm1. done. }
  destruct Hbody as (o & bm2 & E2 & Ha & K2 & S2).
  destruct (unpin_read bm2 ∅ leaf K2 (lookup_empty _)) as (bm3 & E3 & K3 & S3%same_array_view).
  exists o, bm3. split.
  - destruct (best_version key txMgr kvs) as [kv|]; cbn [latest_answer] in Ha.
    + destruct (kvFlag kv =? KEY_DELETED_FLAG).
      * subst o. by apply (deferring_err _ _ _ _ _ _ _ E2 E3).
      * destruct Ha as (v & _ & ->). by apply (deferring_ok _ _ _ _ _ _ _ E2 E3).
    + subst o. by apply (deferring_err _ _ _ _ _ _ _ E2 E3).
  - split; [done|]. split; [done|]. etrans; [exact S1|]. by etrans.
Qed.
End lookup.

Lemma steady_find `{MapRange} root key forWrite : steady bm_walOn (findLeafPage root key forWrite).
Proof.
  assert (Hloop : forall fuel id path, steady bm_walOn (find_leaf_loop fuel key forWrite id path)).
  { induction fuel as [|fuel IH]; intros id path; cbn [find_leaf_loop]; unfold Unpin; steady. }
  unfold findLeafPage. steady.
Qed.
#[export] Hint Resolve steady_find : steady.

(** ** Properties *)

Section tree_properties.
Context `{MapRange}.

(** C7: [FindLatest] answers with the greatest version of the user key in the
    leaf that is visible to the reader: its value, read back through its
    overflow chain if it has one, "deleted" for a tombstone, "not found" if no
    version is visible.  It leaves every page and hold as it was. *)
Theorem find_latest_correct bm root key txMgr leaf path kvs :
  bm_ok bm ∅ -> 1 < bm_maxSize bm -> descends bm key root leaf path ->
  leaf_node bm leaf kvs -> chains_ok bm kvs ->
  exists r o bm', FindLatest root key txMgr bm = (o, bm')
    /\ is_best key txMgr kvs r /\ latest_answer bm r o /\ bm_ok bm' ∅ /\ same_view bm bm'.
Proof.
  intros Hok Hsz Hd Hl Hc.
  destruct (FindLatest_ok bm root key txMgr leaf path kvs Hok Hsz Hd Hl
    (fun kv E => Hc kv (best_version_in _ _ _ _ E))) as (o & bm' & E & R).
  exists (best_version key txMgr kvs), o, bm'. split; [done|]. split; [apply best_version_is_best|done].
Qed.

(** C29: a version is visible exactly to readers of the same user key that wrote
    it themselves, or whose id is greater while it counts as committed. *)
Theorem visibility_exact user reader writer kvUser txMgr :
  reader < 18446744073709551616 -> writer < 18446744073709551616 ->
  isVersionVisible (BuildMVCCKey kvUser writer) (BuildMVCCKey user reader) txMgr = true <->
  kvUser = user /\ (writer = reader \/ writer < reader /\
    match txMgr with Some t => GetStatus writer t = TXN_COMMITED | None => True end).
Proof.
  intros Hr Hw. rewrite isVersionVisible_iff, !extract_build by done. done.
Qed.
End tree_properties.

(** A database of three pages: the meta page, a root leaf with two versions of
    one key, and a free page. *)
Definition demo_cells : list KVCell :=
  [NewKVCell 0 (BuildMVCCKey [x6b] 5) [x61]; NewKVCell 0 (BuildMVCCKey [x6b] 7) [x62]].
Definition demo_meta : page := SetFirstFreePageID 2 (SetRootPageID 1 (NewPage PageTypeMeta)).
Definition demo_leaf : page :=
  snd (insert_cells (encode <$> demo_cells) (SetPageID 1 (NewPage PageTypeLeaf))).
Definition demo_free : page := SetPageID 2 (NewPage PageTypeFree).
Definition demo_pool : BufferManager :=
  mkBM (mkFile (demo_meta ++ demo_leaf ++ demo_free) []) ∅ 10 empty_wal true 0.
Definition demo_txns : TransactionManager := mkTM {[5 := TXN_COMMITED; 7 := TXN_RUNNING]} ∅.

Lemma demo_ok : bm_ok demo_pool ∅.
Proof.
  constructor; cbn [demo_pool bm_pager bm_pageTable bm_wal bm_maxSize].
  - constructor; by vm_compute.
  - done.
  - by vm_compute.
  - intros id fr. by rewrite lookup_empty.
  - intros id ho. by rewrite lookup_empty.
Qed.

Lemma demo_leaf_stores : stores demo_leaf demo_cells.
Proof.
  constructor.
  - constructor; [by vm_compute..|]. intros i Hi.
    assert (Hc : getSlotCount demo_leaf = 2) by by vm_compute. rewrite Hc in Hi.
    assert (i = 0 \/ i = 1) as [-> | ->] by lia; split; by vm_compute.
  - by vm_compute.
  - repeat constructor.
Qed.

Lemma demo_leaf_node : leaf_node demo_pool 1 demo_cells.
Proof.
  assert (Hv : view demo_pool 1 = demo_leaf) by by vm_compute.
  constructor; rewrite ?Hv; [by vm_compute|apply demo_leaf_stores|by vm_compute|by vm_compute].
Qed.

Lemma demo_chains : chains_ok demo_pool demo_cells.
Proof. intros kv [->|[->|[]%elem_of_nil]%elem_of_cons]%elem_of_cons; by eexists. Qed.

Lemma find_latest_correct_witness :
  exists bm', @FindLatest canonical_range 1 (BuildMVCCKey [x6b] 9) (Some demo_txns) demo_pool
    = (Ok [x61], bm').
Proof.
  destruct (@find_latest_correct canonical_range demo_pool 1 (BuildMVCCKey [x6b] 9) (Some demo_txns)
    1 [] demo_cells demo_ok eq_refl (descends_leaf _ _ _ _ demo_leaf_node) demo_leaf_node demo_chains)
    as (r & o & bm' & E & Hb & Ha & _).
  exists bm'. rewrite E. f_equal. clear E. destruct r as [kv|].
  - destruct Hb as (Hin & Hv & _).
    apply elem_of_cons in Hin as [->|[->|[]%elem_of_nil]%elem_of_cons]; [|discriminate Hv].
    destruct Ha as (v & Hh & ->). f_equal. symmetry. exact Hh.
  - exfalso. specialize (Hb _ (list_elem_of_here _ _)). discriminate Hb.
Defined.

Lemma visibility_exact_witness :
  isVersionVisible (BuildMVCCKey [x6b] 5) (BuildMVCCKey [x6b] 9) (Some demo_txns) = true.
Proof.
  apply (proj2 (visibility_exact [x6b] 9 5 [x6b] (Some demo_txns) eq_refl eq_refl)).
  split; [done|]. right. split; [done|]. reflexivity.
Defined.
