(* ===== verification/Search.v ===== *)
(** * The search order of the tree

    What makes a tree of pages a search tree, and that [findLeafPage] and its
    choice of children ([Tree]) find the only leaf that can hold a key.  The
    code has no explicit statement of this order; the routing cells that
    [insertIntoParent], [grow_root] and [splitInternal] write are meant to
    follow it: in each internal page the leftmost child has the empty key and
    every other routing key separates the keys below its left neighbour from
    the keys at and above it. *)

From S2P Require Import Prelude Crc Cell Page Pager Wal Txn Buffer Tree.

(** ** Key ranges *)

(** [lo <= k], and [k < hi] when there is an upper bound. *)
Definition above (lo k : bytes) : Prop := lo = k \/ bytes_lt lo k.
Definition below (k : bytes) (hi : option bytes) : Prop :=
  match hi with Some h => bytes_lt k h | None => True end.
Definition in_range (lo : bytes) (hi : option bytes) (k : bytes) : Prop := above lo k /\ below k hi.

#[global] Instance above_refl : Reflexive above.
Proof. by left. Qed.
#[global] Instance above_trans : Transitive above.
Proof. intros a b c [->|H1] [->|H2]; [by left|by right|by right|right; by trans b]. Qed.

Lemma above_nil k : above [] k.
Proof. destruct k; [by left|by right]. Qed.

Lemma above_leb k key : bytes_leb k key = true <-> above k key.
Proof. apply bytes_leb_le. Qed.

Lemma below_not_above k h : bytes_lt k h -> above h k -> False.
Proof.
  intros Hlt [->|Hgt]; apply (irreflexivity bytes_lt k); [done|]. by trans h.
Qed.

Lemma not_above k h : ~ above h k -> bytes_lt k h.
Proof.
  intros Hn. destruct (trichotomy bytes_lt k h) as [?|[->|?]]; [done|destruct Hn; by left|].
  destruct Hn. by right.
Qed.

#[global] Instance above_dec lo k : Decision (above lo k).
Proof. destruct (bytes_leb lo k) eqn:E; [left|right]; rewrite <-above_leb; by rewrite E. Defined.

(** ** Search trees of pages *)

(** The leaves of a subtree, left to right, with their cells. *)
Abbreviation leaf_list := (list (N * list KVCell)).

(** [subtree bm n lo hi id ls]: page [id] is the root of a search tree of
    height [n] for the keys from [lo] to [hi], with the leaves [ls].
    [children bm n lo hi ks ls]: the routing cells [ks], in key order, lead to
    such trees that split the range between them. *)
Inductive subtree (bm : BufferManager) : nat -> bytes -> option bytes -> N -> leaf_list -> Prop :=
| subtree_leaf lo hi id kvs :
    leaf_node bm id kvs -> (forall kv, kv ∈ kvs -> in_range lo hi (kvKey kv)) ->
    subtree bm 0 lo hi id [(id, kvs)]
| subtree_inner n lo hi id cs c0 ks ls :
    inner_node bm id cs -> cs ≡ₚ c0 :: ks -> kcKey c0 = [] ->
    children bm n lo hi (c0 :: ks) ls -> subtree bm (S n) lo hi id ls
with children (bm : BufferManager) : nat -> bytes -> option bytes -> list KeyCell -> leaf_list -> Prop :=
| children_last n lo hi c ls :
    kcChild c <> 0 -> subtree bm n lo hi (kcChild c) ls -> children bm n lo hi [c] ls
| children_cons n lo hi c c' ks ls ls' :
    kcChild c <> 0 -> bytes_lt lo (kcKey c') -> below (kcKey c') hi ->
    subtree bm n lo (Some (kcKey c')) (kcChild c) ls ->
    children bm n (kcKey c') hi (c' :: ks) ls' ->
    children bm n lo hi (c :: c' :: ks) (ls ++ ls').

Scheme subtree_mut := Minimality for subtree Sort Prop
  with children_mut := Minimality for children Sort Prop.
Combined Scheme tree_mut from subtree_mut, children_mut.

(** ** The choice of a child *)

(** The loop of the search keeps the greatest routing key that is at most
    [key]. *)
Definition best_route (key : bytes) (cs : list KeyCell) (acc : option bytes * N) : Prop :=
  match acc with
  | (None, _) => forall c, c ∈ cs -> ~ above (kcKey c) key
  | (Some m, child) => (exists c, c ∈ cs /\ kcKey c = m /\ kcChild c = child) /\ above m key
      /\ forall c, c ∈ cs -> above (kcKey c) key -> above (kcKey c) m
  end.

Lemma match_child_best key cs : best_route key cs (foldl (match_child key) (None, 0) cs).
Proof.
  induction cs as [|c cs IH] using rev_ind; [by intros c ?%elem_of_nil|].
  rewrite foldl_app. cbn [foldl]. destruct (foldl _ _ cs) as [m child]. unfold match_child.
  assert (Hsnoc : forall x, x ∈ cs ++ [c] -> x ∈ cs \/ x = c).
  { intros x [?|?%list_elem_of_singleton]%elem_of_app; auto. }
  destruct (bytes_leb (kcKey c) key) eqn:El.
  - apply above_leb in El. destruct m as [m|]; cbn [fst best_route] in *.
    + destruct IH as ((b & Hb & <- & <-) & Hm & IH). destruct (bytes_ltb (kcKey b) (kcKey c)) eqn:Eb.
      * apply bytes_ltb_lt in Eb. split; [exists c; set_solver|]. split; [done|].
        intros x [Hx| ->]%Hsnoc Hxk; [|done]. trans (kcKey b); [by apply IH|by right].
      * split; [exists b; set_solver|]. split; [done|]. intros x [Hx| ->]%Hsnoc Hxk; [by apply IH|].
        apply bytes_ltb_ge in Eb as [->|?]; [done|by right].
    + split; [exists c; set_solver|]. split; [done|].
      intros x [Hx| ->]%Hsnoc Hxk; [by destruct (IH x Hx)|done].
  - assert (Hc : ~ above (kcKey c) key) by (rewrite <-above_leb; by rewrite El).
    destruct m as [m|]; cbn [best_route] in *.
    + destruct IH as ((b & Hb & E) & Hm & IH). split; [exists b; split; [apply elem_of_app; by left|done]|]. split; [done|].
      intros x [Hx| ->]%Hsnoc Hxk; [by apply IH|done].
    + intros x [Hx| ->]%Hsnoc; [by apply IH|done].
Qed.

(** When one routing key is the greatest at most [key], its child is chosen. *)
Lemma choose_child_is key cs c :
  c ∈ cs -> above (kcKey c) key ->
  (forall c', c' ∈ cs -> above (kcKey c') key -> c' = c \/ bytes_lt (kcKey c') (kcKey c)) ->
  choose_child key cs = kcChild c.
Proof.
  intros Hc Hk Hu. pose proof (match_child_best key cs) as Hb. unfold choose_child.
  destruct (foldl _ _ cs) as [[m|] child]; cbn [best_route] in Hb; [|by destruct (Hb c Hc)].
  destruct Hb as ((b & Hin & <- & <-) & Hm & Hmax).
  destruct (Hu b Hin Hm) as [->|Hlt]; [done|]. destruct (below_not_above _ _ Hlt). by apply Hmax.
Qed.

(** ** Every key has one leaf *)

Section tree_order.
Context (bm : BufferManager).

(** The cells of a subtree are in its range. *)
Lemma cells_in_range :
  (forall n lo hi id ls, subtree bm n lo hi id ls ->
     forall l kvs kv, (l, kvs) ∈ ls -> kv ∈ kvs -> in_range lo hi (kvKey kv))
  /\ (forall n lo hi ks ls, children bm n lo hi ks ls ->
     forall l kvs kv, (l, kvs) ∈ ls -> kv ∈ kvs -> in_range lo hi (kvKey kv)).
Proof.
  apply tree_mut.
  - intros lo hi id kvs _ Hr l kvs' kv [= -> ->]%list_elem_of_singleton. by apply Hr.
  - intros n lo hi id cs c0 ks ls _ _ _ _ IH. exact IH.
  - intros n lo hi c ls _ _ IH. exact IH.
  - intros n lo hi c c' ks ls ls' _ Hlo Hhi _ IH1 _ IH2 l kvs kv [Hl|Hl]%elem_of_app Hkv.
    + destruct (IH1 _ _ _ Hl Hkv) as [H1 H2]. split; [done|]. destruct hi as [h|]; [|done].
      cbn in *. by trans (kcKey c').
    + destruct (IH2 _ _ _ Hl Hkv) as [H1 H2]. split; [|done]. trans (kcKey c'); [by right|done].
Qed.

(** Where the key belongs: the leaf [l], and nowhere else among [ls]. *)
Definition only_leaf (key : bytes) (ls : leaf_list) (l : N) (kvs : list KVCell) : Prop :=
  (l, kvs) ∈ ls /\ forall l' kvs' kv, (l', kvs') ∈ ls -> kv ∈ kvs' -> kvKey kv = key ->
    l' = l /\ kvs' = kvs.

Lemma only_leaf_app key ls1 ls2 lo hi l kvs :
  (forall l' kvs' kv, (l', kvs') ∈ ls2 -> kv ∈ kvs' -> in_range lo hi (kvKey kv)) ->
  ~ in_range lo hi key -> only_leaf key ls1 l kvs ->
  only_leaf key (ls1 ++ ls2) l kvs /\ only_leaf key (ls2 ++ ls1) l kvs.
Proof.
  intros Hr Hn [H1 H2]. assert (H2' : forall l' kvs' kv, (l', kvs') ∈ ls1 \/ (l', kvs') ∈ ls2 ->
    kv ∈ kvs' -> kvKey kv = key -> l' = l /\ kvs' = kvs).
  { intros l' kvs' kv [Hl|Hl] Hkv Hk; [by eapply H2|]. destruct Hn. rewrite <-Hk. by eapply Hr. }
  split; (split; [apply elem_of_app; tauto|]); intros l' kvs' kv [Hl|Hl]%elem_of_app; eauto.
Qed.

Lemma routes_above n lo hi ks ls : children bm n lo hi ks ls ->
  forall c0 ks' x, ks = c0 :: ks' -> above (kcKey c0) lo -> x ∈ ks -> above (kcKey c0) (kcKey x).
Proof.
  induction 1 as [n lo hi c ls _ _|n lo hi c c' ks ls ls' _ Hlo _ _ _ IH]; intros c0 ks' x [= <- <-] Ha.
  - by intros ->%list_elem_of_singleton.
  - intros [->|Hx]%elem_of_cons; [done|]. trans lo; [done|]. trans (kcKey c'); [by right|].
    by apply (IH c' ks).
Qed.

(** The search goes to that leaf: by induction on the tree, the child whose
    range has the key is the one [choose_child] picks. *)
Lemma descends_only :
  (forall n lo hi id ls, subtree bm n lo hi id ls -> forall key, in_range lo hi key ->
     exists l kvs path, descends bm key id l path /\ leaf_node bm l kvs /\ length path = n
       /\ only_leaf key ls l kvs)
  /\ (forall n lo hi ks ls, children bm n lo hi ks ls ->
     forall key, in_range lo hi key -> forall c0, hd_error ks = Some c0 -> above (kcKey c0) lo ->
     exists c l kvs path, c ∈ ks /\ kcChild c <> 0 /\ above (kcKey c) key
       /\ (forall c', c' ∈ ks -> above (kcKey c') key -> c' = c \/ bytes_lt (kcKey c') (kcKey c))
       /\ descends bm key (kcChild c) l path /\ leaf_node bm l kvs /\ length path = n
       /\ only_leaf key ls l kvs).
Proof.
  apply tree_mut.
  - intros lo hi id kvs Hl Hr key Hk. exists id, kvs, []. split; [by econstructor|].
    split; [done|]. split; [done|]. split; [by left|].
    by intros l' kvs' kv [= -> ->]%list_elem_of_singleton.
  - intros n lo hi id cs c0 ks ls Hn Hp H0 _ IH key Hk.
    destruct (IH key Hk c0 eq_refl) as (c & l & kvs & path & Hc & Hc0 & Ha & Hu & Hd & Hl & Hlen & Ho).
    { rewrite H0. apply above_nil. }
    assert (E : choose_child key cs = kcChild c).
    { apply choose_child_is; [by rewrite Hp|done|]. intros c'. rewrite Hp. apply Hu. }
    exists l, kvs, (id :: path). split; [|split; [done|split; [simpl; congruence|done]]].
    apply (descends_inner _ _ _ cs); [done|by rewrite E|by rewrite E].
  - intros n lo hi c ls Hc Ht IH key Hk c0 [= <-] Ha.
    destruct (IH key Hk) as (l & kvs & path & Hd & Hl & Hlen & Ho). exists c, l, kvs, path.
    split; [by left|]. split; [done|]. split; [trans lo; [done|apply Hk]|].
    split; [|done]. intros c' ->%list_elem_of_singleton _. by left.
  - intros n lo hi c c' ks ls ls' Hc Hlo Hhi Ht IH1 Hts IH2 key [Hk1 Hk2] c0 [= <-] Ha.
    destruct (decide (above (kcKey c') key)) as [Hk'|Hk'%not_above].
    + destruct (IH2 key (conj Hk' Hk2) c' eq_refl (reflexivity _))
        as (b & l & kvs & path & Hb & Hb0 & Hba & Hu & Hd & Hl & Hlen & Ho).
      exists b, l, kvs, path. split; [by right|]. do 2 (split; [done|]). split.
      * intros x [->|Hx]%elem_of_cons Hxk; [|by apply Hu]. right.
        assert (H' : above (kcKey c') (kcKey b)).
        { destruct (Hu c' ltac:(by left) Hk') as [->|?]; [reflexivity|by right]. }
        assert (H'' : bytes_lt (kcKey c) (kcKey c')) by (destruct Ha as [->|?]; [done|by trans lo]).
        destruct H' as [<-|?]; [done|by trans (kcKey c')].
      * do 3 (split; [done|]).
        refine (proj2 (only_leaf_app _ _ _ _ _ _ _ (proj1 cells_in_range _ _ _ _ _ Ht) _ Ho)).
        intros [_ Hb2]. cbn in Hb2. by apply (below_not_above key (kcKey c')).
    + destruct (IH1 key) as (l & kvs & path & Hd & Hl & Hlen & Ho); [by split|].
      exists c, l, kvs, path. split; [by left|]. split; [done|]. split; [by trans lo|]. split.
      * intros x [->|Hx]%elem_of_cons Hxk; [by left|]. exfalso.
        apply (below_not_above key (kcKey c') Hk'). trans (kcKey x); [|done].
        by apply (routes_above _ _ _ _ _ Hts c' ks).
      * do 3 (split; [done|]).
        refine (proj1 (only_leaf_app _ _ _ _ _ _ _ (proj2 cells_in_range _ _ _ _ _ Hts) _ Ho)).
        intros [Hb1 _]. by apply (below_not_above key (kcKey c')).
Qed.
End tree_order.

(** ** Properties *)

Section search_properties.
Context `{MapRange}.

(** C17: the search is complete and terminates: in a search tree of any height,
    for every key, [findLeafPage] returns, within its fuel, a leaf of the tree
    that is the only one that can hold a cell with that key, and the path of
    internal pages above it, one per level; it holds that leaf and nothing
    else, and every page keeps its contents. *)
Theorem search_finds_the_leaf bm n root ls key forWrite :
  bm_ok bm ∅ -> 0 < bm_maxSize bm -> subtree bm n [] None root ls ->
  exists leaf kvs path bm', findLeafPage root key forWrite bm = (Ok (leaf, path), bm')
    /\ length path = n /\ leaf_node bm leaf kvs /\ (leaf, kvs) ∈ ls
    /\ (forall l' kvs' kv, (l', kvs') ∈ ls -> kv ∈ kvs' -> kvKey kv = key -> l' = leaf /\ kvs' = kvs)
    /\ bm_ok bm' {[leaf := leaf_hold forWrite]} /\ same_view bm bm'.
Proof.
  intros Hok Hsz Ht.
  destruct (proj1 (descends_only bm) _ _ _ _ _ Ht key) as (leaf & kvs & path & Hd & Hl & Hlen & Ho1 & Ho2).
  { split; [apply above_nil|done]. }
  destruct (findLeafPage_ok bm ∅ root key forWrite leaf path Hd Hok Hsz) as (bm' & E & K & S & _);
    try (intros; apply lookup_empty).
  by exists leaf, kvs, path, bm'.
Qed.
End search_properties.

(** ** A tree with two leaves *)

Definition low_cells : list KVCell := [NewKVCell 0 (BuildMVCCKey [x61] 5) [x41]].
Definition high_cells : list KVCell := [NewKVCell 0 (BuildMVCCKey [x6b] 5) [x42]; NewKVCell 0 (BuildMVCCKey [x7a] 6) [x43]].
Definition routes : list KeyCell := [NewKeyCell 1 []; NewKeyCell 2 (BuildMVCCKey [x6b] 5)].

Definition page_of {A} `{Codec A} (id mode : N) (xs : list A) : page :=
  snd (insert_cells (encode <$> xs) (Init mode (SetPageID id (zeros PageSize)))).
Definition two_leaves : BufferManager :=
  mkBM (mkFile (SetRootPageID 3 (NewPage PageTypeMeta) ++ page_of 1 PageTypeLeaf low_cells
    ++ page_of 2 PageTypeLeaf high_cells ++ page_of 3 PageTypeInternal routes) []) ∅ 10 empty_wal true 0.

Lemma page_of_node `{Codec A} bm id mode (xs : list A) :
  mode = PageTypeLeaf \/ mode = PageTypeInternal -> id < 4294967296 -> id < bm_pages bm ->
  view bm id = page_of id mode xs -> space (encode <$> xs) <= 4064 -> Forall encodable xs ->
  node mode bm id xs.
Proof.
  intros Hm Hid Hb Hv Hs Hf.
  assert (Hlen : len (SetPageID id (zeros PageSize)) = PageSize)
    by (unfold SetPageID; by rewrite len_set_field, len_zeros).
  destruct (rewrite_stores mode _ xs Hlen Hm Hs Hf) as (p & E & S & T & I).
  unfold page_of in Hv. rewrite E in Hv. cbn [snd] in Hv.
  constructor; rewrite ?Hv; try done. rewrite I. unfold SetPageID, GetPageID.
  apply get_set_eq; [rewrite len_zeros; by vm_compute|done|done].
Qed.

Lemma two_leaves_ok : bm_ok two_leaves ∅.
Proof.
  constructor; cbn [two_leaves bm_pager bm_pageTable bm_wal bm_maxSize].
  - constructor; vm_compute; reflexivity.
  - reflexivity.
  - vm_compute. discriminate.
  - intros id fr. rewrite lookup_empty. discriminate.
  - intros id ho. rewrite lookup_empty. discriminate.
Qed.

Lemma two_leaves_pages : bm_pages two_leaves = 4.
Proof. vm_compute. reflexivity. Qed.

Lemma two_leaves_tree :
  subtree two_leaves 1 [] None 3 [(1, low_cells); (2, high_cells)].
Proof.
  pose proof two_leaves_pages as Hn.
  assert (H1 : leaf_node two_leaves 1 low_cells).
  { apply page_of_node; [by left|done|by rewrite Hn|vm_compute; reflexivity|vm_compute; discriminate|].
    repeat constructor. }
  assert (H2 : leaf_node two_leaves 2 high_cells).
  { apply page_of_node; [by left|done|by rewrite Hn|vm_compute; reflexivity|vm_compute; discriminate|].
    repeat constructor. }
  assert (H3 : inner_node two_leaves 3 routes).
  { apply page_of_node; [by right|done|by rewrite Hn|vm_compute; reflexivity|vm_compute; discriminate|].
    repeat constructor. }
  apply (subtree_inner _ _ _ _ _ routes (NewKeyCell 1 []) [NewKeyCell 2 (BuildMVCCKey [x6b] 5)]);
    [done|reflexivity|reflexivity|].
  apply (children_cons _ _ _ _ _ _ _ [(1, low_cells)] [(2, high_cells)]); [done|reflexivity|done| |].
  - constructor; [done|]. intros kv ->%list_elem_of_singleton. split; [apply above_nil|reflexivity].
  - constructor; [done|]. constructor; [done|].
    intros kv [->| ->%list_elem_of_singleton]%elem_of_cons; (split; [|done]); [by left|by right].
Qed.

(** The version of user key [k] by transaction 9 belongs to the right leaf. *)
Lemma search_finds_the_leaf_witness :
  exists bm', @findLeafPage canonical_range 3 (BuildMVCCKey [x6b] 9) true two_leaves = (Ok (2, [3]), bm').
Proof.
  destruct (@search_finds_the_leaf canonical_range two_leaves 1 3 [(1, low_cells); (2, high_cells)]
    (BuildMVCCKey [x6b] 9) true two_leaves_ok eq_refl two_leaves_tree)
    as (leaf & kvs & path & bm' & E & _).
  exists bm'. rewrite E. f_equal. transitivity (fst (@findLeafPage canonical_range 3 (BuildMVCCKey [x6b] 9) true two_leaves)).
  - rewrite E. reflexivity.
  - vm_compute. reflexivity.
Defined.
