(* ===== verification/Overflow.v ===== *)
(** * The free list and overflow chains, verified ([btree.go], [vacuum.go])

    Allocation and deallocation as pops and pushes of a stack of free pages,
    and the round trip of a large value through a chain of overflow pages.

    Operations are described on the array of pages: [becomes bm bm' n V] says
    that [bm'] holds [n] pages, page [id] being [V id] up to its LSN. *)

From S2P Require Import Prelude Crc Cell Page Pager Wal Txn Buffer Tree.

(** ** Pages up to their LSN, byte by byte *)

Lemma page_eqv_lookup p q :
  len p = PageSize -> len q = PageSize ->
  page_eqv p q <-> forall i, (i < 12 \/ 20 <= i)%nat -> p !! i = q !! i.
Proof.
  intros Hp Hq. unfold page_eqv, mask_lsn, set_field, lsnOffset, PageSize in *. split.
  - intros E i Hi. apply (f_equal (fun l => l !! i)) in E.
    rewrite !lookup_splice in E by len. change (length (le_enc 8 0)) with 8%nat in E.
    rewrite !decide_False in E by lia. done.
  - intros E. apply list_eq. intros i. rewrite !lookup_splice by len.
    change (length (le_enc 8 0)) with 8%nat. case_decide; [done|]. apply E. lia.
Qed.

(** A page operation that does not look at the LSN. *)
Definition respects (f : page -> page) : Prop :=
  forall p q, len p = PageSize -> page_eqv p q ->
    len (f p) = PageSize /\ page_eqv (f p) (f q).

Lemma respects_set_field off w v :
  off + N.of_nat w <= 12 \/ 20 <= off -> off + N.of_nat w <= PageSize ->
  respects (fun p => set_field p off w v).
Proof.
  intros H1 H2 p q Hp Hpq. split; [by rewrite len_set_field|]. by apply set_field_eqv.
Qed.

Lemma respects_SetLSN lsn : respects (SetLSN lsn).
Proof.
  intros p q Hp Hpq. pose proof (page_eqv_len p q Hpq) as Hq. rewrite Hp in Hq.
  split; [unfold SetLSN; by rewrite len_set_field|].
  etrans; [by apply SetLSN_eqv|]. etrans; [exact Hpq|]. symmetry. by apply SetLSN_eqv.
Qed.

Lemma respects_compose f g : respects f -> respects g -> respects (fun p => f (g p)).
Proof. intros Hf Hg p q Hp Hpq. destruct (Hg p q Hp Hpq). by apply Hf. Qed.

Lemma respects_Init mode : respects (Init mode).
Proof.
  unfold Init, setFreeSpaceOffset, setSlotCount, SetPageType, freeSpaceOffset, slotCountOffset,
    pageTypeOffset, magicOffset.
  apply (respects_compose (fun p => set_field p 20 1 mode)); [by apply respects_set_field; [right|]|].
  apply (respects_compose (SetLSN 0)); [apply respects_SetLSN|].
  apply (respects_compose (fun p => set_field p 21 2 0)); [by apply respects_set_field; [right|]|].
  apply (respects_compose (fun p => set_field p 23 2 (u16 PageSize)));
    [by apply respects_set_field; [right|]|].
  by apply respects_set_field; [left|].
Qed.

Lemma respects_splice off d :
  20 <= off -> off + len d <= PageSize -> respects (fun p => splice p off d).
Proof.
  intros Ho Hd p q Hp Hpq. pose proof (page_eqv_len p q Hpq) as Hq. rewrite Hp in Hq.
  split; [by rewrite len_splice|]. apply page_eqv_lookup; [by rewrite len_splice..|].
  rewrite page_eqv_lookup in Hpq by done. intros i Hi.
  rewrite !lookup_splice by lia. case_decide; [done|]. by apply Hpq.
Qed.

(** ** The array of pages as a function *)

Definition put (V : N -> page) (id : N) (p : page) : N -> page :=
  fun x => if decide (x = id) then p else V x.

Lemma put_eq V id p : put V id p id = p.
Proof. unfold put. by rewrite decide_True. Qed.
Lemma put_ne V id p x : x <> id -> put V id p x = V x.
Proof. intros H. unfold put. by rewrite decide_False. Qed.

Record becomes (bm bm' : BufferManager) (n : N) (V : N -> page) : Prop := {
  bc_pages : bm_pages bm' = n;
  bc_size : bm_maxSize bm' = bm_maxSize bm;
  bc_view : forall id, page_eqv (view bm' id) (V id)
}.

Lemma becomes_refl bm : becomes bm bm (bm_pages bm) (view bm).
Proof. by constructor. Qed.

Lemma becomes_same bm bm1 bm2 n V : becomes bm bm1 n V -> same_view bm1 bm2 -> becomes bm bm2 n V.
Proof.
  intros [H1 H2 H3] [[H4 H5] H6]. constructor; [congruence|congruence|]. intros id.
  etrans; [apply H6|apply H3].
Qed.

Lemma becomes_view bm bm1 V : becomes bm bm1 (bm_pages bm) V ->
  (forall id, page_eqv (V id) (view bm id)) -> same_view bm bm1.
Proof. intros [H1 H2 H3] Hv. split; [done|]. intros id. etrans; [apply H3|apply Hv]. Qed.

Lemma becomes_set bm bm1 bm2 n V id p q :
  becomes bm bm1 n V -> array_set bm1 id p bm2 -> page_eqv p q ->
  becomes bm bm2 n (put V id q).
Proof.
  intros [H1 H2 H3] ((H4 & H5) & H6 & H7) Hp. constructor; [congruence|congruence|].
  intros x. unfold put. case_decide as E; [by rewrite E, H6|]. by rewrite H7.
Qed.

Section wr.
Context `{MapRange}.

(** Writing through a write hold. *)
Lemma wr_becomes bm0 bm h id f n V :
  bm_ok bm h -> h !! id = Some HWrite -> respects f -> becomes bm0 bm n V ->
  exists bm', wr id f bm = (Ok tt, bm') /\ bm_ok bm' h /\ becomes bm0 bm' n (put V id (f (V id))).
Proof.
  intros Hok Hh Hf Hb. pose proof (len_view _ _ _ _ Hok Hh) as Hlen.
  destruct (Hf (view bm id) (V id) Hlen (bc_view _ _ _ _ Hb id)) as [Hl He].
  destruct (wr_ok bm h id f Hok Hh Hl) as (bm' & E1 & E2 & E3).
  exists bm'. split; [done|]. split; [done|]. by eapply becomes_set.
Qed.

(** ** The free list *)

(** [ids] is the stack of free pages, linked from [first]; each page carries
    its own id. *)
Fixpoint free_pages (n : N) (V : N -> page) (first : N) (ids : list N) : Prop :=
  match ids with
  | [] => first = 0
  | id :: ids' => first = id /\ 0 < id < n /\ GetPageID (V id) = id
      /\ free_pages n V (GetNextFreePageID (V id)) ids'
  end.

(** The database has its meta page and a free list that repeats no page. *)
Record free_list (n : N) (V : N -> page) (ids : list N) : Prop := {
  fl_meta : 0 < n;
  fl_nodup : NoDup ids;
  fl_list : free_pages n V (GetFirstFreePageID (V MetaPageID)) ids
}.

Lemma free_pages_in n V first ids id : free_pages n V first ids -> id ∈ ids -> 0 < id < n.
Proof.
  revert first. induction ids as [|x ids IH]; intros first; [by intros _ ?%elem_of_nil|].
  cbn. intros (_ & Hx & _ & Hr) [->|Hin]%elem_of_cons; [done|]. by eapply IH.
Qed.

Lemma free_pages_ext n n' V V' first ids :
  n <= n' -> (forall id, id ∈ ids -> GetNextFreePageID (V' id) = GetNextFreePageID (V id)
                                   /\ GetPageID (V' id) = GetPageID (V id)) ->
  free_pages n V first ids -> free_pages n' V' first ids.
Proof.
  intros Hn. revert first. induction ids as [|x ids IH]; intros first HV; [done|].
  cbn. intros (-> & Hx & Hs & Hr). destruct (HV x) as [E1 E2]; [by left|]. rewrite E1, E2.
  split; [done|]. split; [lia|]. split; [done|].
  apply IH; [|done]. intros id Hid. apply HV. by right.
Qed.

(** After a write fetch and the final unpin of a page. *)
Lemma fetch_write_new id mode bm h :
  bm_ok bm h -> id < bm_pages bm -> h !! id = None -> N.of_nat (size h) < bm_maxSize bm ->
  exists bm', FetchPageForWrite id mode bm = (Ok tt, bm')
    /\ bm_ok bm' (<[id := HWrite]> h) /\ same_view bm bm'.
Proof.
  intros Hok Hid Hh Hsz. destruct (fetch_write_ok id mode bm h Hok Hid Hh (or_intror Hsz))
    as (bm' & E & K & S & _). by exists bm'.
Qed.

Lemma page_at_beyond f id : db_file f -> n_pages f <= id -> page_at f id = [].
Proof.
  intros [_ Hw _] Hid. unfold page_at, sub. apply nil_length_inv.
  rewrite length_take, length_drop. unfold len, PageSize in *. lia.
Qed.

(** Appending a page to the file under the pool. *)
Lemma pager_allocate_ok bm h t :
  bm_ok bm h -> bm_pages bm + 1 < 4294967296 ->
  exists bm', on_pager (AllocatePage t) bm = (Ok (bm_pages bm), bm') /\ bm_ok bm' h
    /\ becomes bm bm' (bm_pages bm + 1)
         (put (view bm) (bm_pages bm) (SetPageID (bm_pages bm) (NewPage t))).
Proof.
  intros [K1 K2 K3 K4 K5] Hb.
  destruct (AllocatePage_ok (bm_pager bm) K1 t Hb) as (f' & E1 & E2 & E3 & E4 & E5).
  exists (set_pager f' bm). split; [by apply on_pager_eq|]. split.
  - constructor; try done. intros id fr Hfr. destruct (K4 id fr Hfr) as [F1 F2 F3 F4].
    constructor; cbn; [lia|done|done|]. intros Hd Hw. rewrite E5 by done. by apply F4.
  - constructor; [exact E3|done|]. intros id. unfold put, view. cbn.
    case_decide as E.
    + subst id. destruct (bm_pageTable bm !! bm_pages bm) as [fr|] eqn:Efr.
      * pose proof (fo_id _ _ _ _ (K4 _ _ Efr)). unfold bm_pages in *. lia.
      * unfold bm_pages. by rewrite E4.
    + destruct (bm_pageTable bm !! id) as [fr|] eqn:Efr; [done|].
      destruct (decide (id < n_pages (bm_pager bm))) as [Hlt|Hge]; [by rewrite E5|].
      unfold bm_pages in *. rewrite !page_at_beyond; (done || lia).
Qed.

(** The pages after a pop and after a push. *)
Definition popped (V : N -> page) (id t : N) : N -> page :=
  put (put V MetaPageID (SetFirstFreePageID (GetNextFreePageID (V id)) (V MetaPageID)))
      id (Init t (V id)).

Definition pushed (V : N -> page) (id : N) : N -> page :=
  put (put V id (SetNextFreePageID (GetFirstFreePageID (V MetaPageID)) (Init PageTypeFree (V id))))
      MetaPageID (SetFirstFreePageID id (V MetaPageID)).

Lemma respects_first_free n : respects (SetFirstFreePageID n).
Proof. unfold SetFirstFreePageID, metaFirstFreePageOffset. by apply respects_set_field; [right|]. Qed.
Lemma respects_next_free n : respects (SetNextFreePageID n).
Proof. unfold SetNextFreePageID, freeNextPageOffset. by apply respects_set_field; [right|]. Qed.

Lemma becomes_get bm0 bm h n V id ho off w :
  bm_ok bm h -> h !! id = Some ho -> becomes bm0 bm n V -> 32 <= off ->
  get_field (view bm id) off w = get_field (V id) off w.
Proof.
  intros Hok Hh Hb Ho. apply eqv_body; [by eapply len_view|apply Hb|done].
Qed.

(** The first part of both: the meta page is held for writing. *)
Lemma allocate_pop bm h t id ids :
  bm_ok bm h -> N.of_nat (size h) + 1 < bm_maxSize bm ->
  free_list (bm_pages bm) (view bm) (id :: ids) ->
  h !! MetaPageID = None -> h !! id = None ->
  exists bm', allocatePage t bm = (Ok id, bm') /\ bm_ok bm' h
    /\ becomes bm bm' (bm_pages bm) (popped (view bm) id t).
Proof.
  intros Hok Hsz [Hm Hnd (Hf & Hid & _ & Hrest)] H0 Hh.
  assert (Hne : MetaPageID <> id) by (unfold MetaPageID; lia).
  unfold allocatePage, allocate_or.
  destruct (fetch_write_new MetaPageID PageTypeMeta bm h Hok Hm H0) as (bm1 & E1 & K1 & S1); [lia|].
  mstep E1. pose proof (becomes_same _ _ _ _ _ (becomes_refl bm) S1) as B1.
  pose proof (size_insert_hold h MetaPageID HWrite H0) as Hs1.
  set (h1 := <[MetaPageID := HWrite]> h) in *.
  assert (Hm1 : h1 !! MetaPageID = Some HWrite) by apply lookup_insert_eq.
  assert (Hid1 : h1 !! id = None) by (unfold h1; by rewrite lookup_insert_ne).
  assert (Hsz1 : N.of_nat (size h1) < bm_maxSize bm1) by (rewrite (bc_size _ _ _ _ B1); lia).
  destruct (fetch_read_new id PageTypeFree bm1 h1 K1) as (bm2 & E2 & K2 & S2);
    [rewrite (bc_pages _ _ _ _ B1); lia|done|by right|].
  pose proof (becomes_same _ _ _ _ _ B1 S2) as B2.
  destruct (unpin_read bm2 h1 id K2 Hid1) as (bm3 & E3 & K3 & S3%same_array_view).
  pose proof (becomes_same _ _ _ _ _ B2 S3) as B3.
  set (next := GetNextFreePageID (view bm id)).
  destruct (wr_becomes bm bm3 h1 MetaPageID (SetFirstFreePageID next) _ _ K3 Hm1
    (respects_first_free next) B3) as (bm4 & E4 & K4 & B4).
  destruct (fetch_write_new id t bm4 h1 K4) as (bm5 & E5 & K5 & S5);
    [rewrite (bc_pages _ _ _ _ B4); lia|done|rewrite (bc_size _ _ _ _ B4), <-(bc_size _ _ _ _ B1); done|].
  pose proof (becomes_same _ _ _ _ _ B4 S5) as B5.
  destruct (wr_becomes bm bm5 _ id (Init t) _ _ K5 (lookup_insert_eq _ _ _) (respects_Init t) B5)
    as (bm6 & E6 & K6 & B6).
  destruct (unpin_write bm6 h1 id K6 Hid1) as (bm7 & E7 & K7 & S7%same_array_view).
  destruct (unpin_write bm7 h MetaPageID K7 H0) as (bm8 & E8 & K8 & S8%same_array_view).
  exists bm8. split; [|split; [done|]].
  - eapply deferring_ok; [|exact E8].
    mstep (rd_ok bm1 h1 MetaPageID HWrite GetFirstFreePageID K1 Hm1).
    unfold GetFirstFreePageID, metaFirstFreePageOffset.
    rewrite (becomes_get _ _ _ _ _ _ _ 36 4 K1 Hm1 B1) by lia. unfold GetFirstFreePageID, metaFirstFreePageOffset in Hf. rewrite Hf.
    rewrite (proj2 (N.eqb_neq _ _)) by lia. cbn [negb]. mstep E2.
    mstep (rd_ok bm2 _ id (HRead 1) GetNextFreePageID K2 (lookup_insert_eq _ _ _)).
    mstep (Unpin_eq _ _ _ _ _ E3). unfold GetNextFreePageID at 1.
    rewrite (becomes_get _ _ _ _ _ _ _ _ 4 K2 (lookup_insert_eq _ _ _) B2) by done.
    fold (GetNextFreePageID (view bm id)). fold next. mstep E4. mstep E5. mstep E6.
    by mstep (Unpin_eq _ _ _ _ _ E7).
  - apply (becomes_same _ bm7); [|done]. apply (becomes_same _ bm6); [|done].
    destruct B6 as [X1 X2 X3]. constructor; [done|done|]. intros x. rewrite X3.
    unfold popped, put. by repeat case_decide.
Qed.

Lemma allocate_grow bm h t :
  bm_ok bm h -> N.of_nat (size h) < bm_maxSize bm ->
  free_list (bm_pages bm) (view bm) [] -> bm_pages bm + 1 < 4294967296 ->
  h !! MetaPageID = None ->
  exists bm', allocatePage t bm = (Ok (bm_pages bm), bm') /\ bm_ok bm' h
    /\ becomes bm bm' (bm_pages bm + 1)
         (put (view bm) (bm_pages bm) (SetPageID (bm_pages bm) (NewPage t))).
Proof.
  intros Hok Hsz [Hm _ Hf] Hb H0. unfold allocatePage, allocate_or.
  destruct (fetch_write_new MetaPageID PageTypeMeta bm h Hok Hm H0 Hsz) as (bm1 & E1 & K1 & S1).
  mstep E1. pose proof (becomes_same _ _ _ _ _ (becomes_refl bm) S1) as B1.
  pose proof (bc_pages _ _ _ _ B1) as Hp1.
  destruct (pager_allocate_ok bm1 _ t K1) as (bm2 & E2 & K2 & B2); [by rewrite Hp1|].
  destruct (unpin_write bm2 h MetaPageID K2 H0) as (bm3 & E3 & K3 & S3%same_array_view).
  rewrite Hp1 in *. exists bm3. split; [|split; [done|]].
  - eapply deferring_ok; [|exact E3].
    mstep (rd_ok bm1 _ MetaPageID HWrite GetFirstFreePageID K1 (lookup_insert_eq _ _ _)).
    unfold GetFirstFreePageID at 1.
    rewrite (becomes_get _ _ _ _ _ _ _ _ 4 K1 (lookup_insert_eq _ _ _) B1) by done.
    fold (GetFirstFreePageID (view bm MetaPageID)). cbn in Hf. rewrite Hf. cbn [N.eqb negb]. exact E2.
  - apply (becomes_same _ bm2); [|done]. destruct B2 as [X1 X2 X3]. constructor.
    + done.
    + rewrite X2. apply B1.
    + intros x. rewrite X3. unfold put. case_decide; [done|]. apply B1.
Qed.

Lemma deallocate_push bm h id ids :
  bm_ok bm h -> N.of_nat (size h) + 1 < bm_maxSize bm ->
  free_list (bm_pages bm) (view bm) ids -> 0 < id < bm_pages bm ->
  h !! MetaPageID = None -> h !! id = None ->
  exists bm', deallocatePage id bm = (Ok tt, bm') /\ bm_ok bm' h
    /\ becomes bm bm' (bm_pages bm) (pushed (view bm) id).
Proof.
  intros Hok Hsz [Hm Hnd Hf] Hid H0 Hh.
  assert (Hne : MetaPageID <> id) by (unfold MetaPageID; lia).
  unfold deallocatePage.
  destruct (fetch_write_new MetaPageID PageTypeMeta bm h Hok Hm H0) as (bm1 & E1 & K1 & S1); [lia|].
  mstep E1. pose proof (becomes_same _ _ _ _ _ (becomes_refl bm) S1) as B1.
  pose proof (size_insert_hold h MetaPageID HWrite H0) as Hs1.
  set (h1 := <[MetaPageID := HWrite]> h) in *.
  assert (Hm1 : h1 !! MetaPageID = Some HWrite) by apply lookup_insert_eq.
  assert (Hid1 : h1 !! id = None) by (unfold h1; by rewrite lookup_insert_ne).
  destruct (fetch_write_new id PageTypeFree bm1 h1 K1) as (bm2 & E2 & K2 & S2);
    [rewrite (bc_pages _ _ _ _ B1); lia|done|rewrite (bc_size _ _ _ _ B1); lia|].
  pose proof (becomes_same _ _ _ _ _ B1 S2) as B2.
  set (first := GetFirstFreePageID (view bm MetaPageID)).
  destruct (wr_becomes bm bm2 _ id (Init PageTypeFree) _ _ K2 (lookup_insert_eq _ _ _)
    (respects_Init _) B2) as (bm3 & E3 & K3 & B3).
  destruct (wr_becomes bm bm3 _ id (SetNextFreePageID first) _ _ K3 (lookup_insert_eq _ _ _)
    (respects_next_free _) B3) as (bm4 & E4 & K4 & B4).
  destruct (unpin_write bm4 h1 id K4 Hid1) as (bm5 & E5 & K5 & S5%same_array_view).
  pose proof (becomes_same _ _ _ _ _ B4 S5) as B5.
  destruct (wr_becomes bm bm5 h1 MetaPageID (SetFirstFreePageID id) _ _ K5 Hm1
    (respects_first_free id) B5) as (bm6 & E6 & K6 & B6).
  destruct (unpin_write bm6 h MetaPageID K6 H0) as (bm7 & E7 & K7 & S7%same_array_view).
  exists bm7. split; [|split; [done|]].
  - eapply deferring_ok; [|exact E7].
    mstep (rd_ok bm1 h1 MetaPageID HWrite GetFirstFreePageID K1 Hm1).
    unfold GetFirstFreePageID at 1.
    rewrite (becomes_get _ _ _ _ _ _ _ _ 4 K1 Hm1 B1) by done.
    fold (GetFirstFreePageID (view bm MetaPageID)). fold first.
    mstep E2. mstep E3. mstep E4. by mstep (Unpin_eq _ _ _ _ _ E5).
  - apply (becomes_same _ bm6); [|done]. destruct B6 as [X1 X2 X3]. constructor; [done|done|].
    intros x. rewrite X3. unfold pushed, put. fold first.
    by repeat case_decide.
Qed.

(** ** The free list after a pop and a push *)

Lemma len_view_in bm h id : bm_ok bm h -> id < bm_pages bm -> len (view bm id) = PageSize.
Proof.
  intros [K1 _ _ K4 _] Hid. unfold view. destruct (bm_pageTable bm !! id) as [fr|] eqn:E.
  - by destruct (K4 id fr E).
  - by apply len_page_at.
Qed.

Lemma becomes_body bm bm' n V id off w :
  becomes bm bm' n V -> len (V id) = PageSize -> 32 <= off ->
  get_field (view bm' id) off w = get_field (V id) off w.
Proof.
  intros Hb Hl Ho. symmetry. apply eqv_body; [done| |done]. symmetry. apply Hb.
Qed.

Lemma free_list_becomes bm bm' n V ids :
  becomes bm bm' n V -> len (V MetaPageID) = PageSize ->
  (forall id, id ∈ ids -> len (V id) = PageSize) ->
  free_list n V ids -> free_list (bm_pages bm') (view bm') ids.
Proof.
  intros Hb Hm Hl [F1 F2 F3]. rewrite (bc_pages _ _ _ _ Hb). constructor; [done|done|].
  unfold GetFirstFreePageID, GetNextFreePageID in *.
  rewrite (becomes_body bm bm' n V MetaPageID _ _ Hb Hm) by done.
  eapply free_pages_ext; [reflexivity| |exact F3]. intros id Hid. unfold GetNextFreePageID. split.
  - apply (becomes_body bm bm' n V); [done|by apply Hl|done].
  - symmetry. apply eqv_id; [by apply Hl|]. symmetry. apply Hb.
Qed.

Lemma Init_next t p : len p = PageSize -> GetNextFreePageID (Init t p) = GetNextFreePageID p.
Proof. intros Hl. apply Init_body; [done|]. by vm_compute. Qed.

Lemma free_list_popped n V id t ids :
  len (V MetaPageID) = PageSize -> n < 4294967296 ->
  free_list n V (id :: ids) -> free_list n (popped V id t) ids.
Proof.
  intros Hl Hn [F1 F2 (F3 & F4 & _ & F5)]. apply NoDup_cons in F2 as [F2 F2'].
  constructor; [done|done|]. unfold popped.
  rewrite (put_ne _ _ _ MetaPageID), put_eq by (unfold MetaPageID; lia).
  assert (Hnext : GetNextFreePageID (V id) < 4294967296) by apply (get_field_bound _ _ 4).
  unfold GetFirstFreePageID, SetFirstFreePageID. rewrite get_set_eq.
  - eapply free_pages_ext; [reflexivity| |exact F5]. intros x Hx.
    pose proof (free_pages_in _ _ _ _ _ F5 Hx).
    rewrite !put_ne; [done|unfold MetaPageID; lia|by intros ->].
  - rewrite Hl. by vm_compute.
  - exact Hnext.
  - done.
Qed.

Lemma free_list_pushed n V id ids :
  len (V MetaPageID) = PageSize -> len (V id) = PageSize -> n < 4294967296 ->
  0 < id < n -> GetPageID (V id) = id -> id ∉ ids -> free_list n V ids -> free_list n (pushed V id) (id :: ids).
Proof.
  intros Hl Hl' Hn Hid Hself Hin [F1 F2 F3].
  assert (Hfirst : GetFirstFreePageID (V MetaPageID) < 4294967296) by apply (get_field_bound _ _ 4).
  constructor; [done|by constructor|]. cbn [free_pages].
  unfold pushed. rewrite put_eq. split; [|split; [done|split]].
  - unfold GetFirstFreePageID, SetFirstFreePageID. apply get_set_eq; [rewrite Hl; by vm_compute| |done].
    simpl. lia.
  - rewrite (put_ne _ _ _ id), put_eq by (unfold MetaPageID; lia).
    destruct (Init_spec PageTypeFree (V id) Hl' eq_refl) as (Hli & _ & _ & _ & _ & Hpi & _).
    rewrite <-Hself at 2. rewrite <-Hpi. apply get_set_ne; [rewrite Hli; by vm_compute|].
    left. by vm_compute.
  - rewrite (put_ne _ _ _ id), put_eq by (unfold MetaPageID; lia).
    assert (Hnext : forall v, v < 4294967296 ->
      GetNextFreePageID (SetNextFreePageID v (Init PageTypeFree (V id))) = v).
    { intros v Hv. apply get_set_eq; [|exact Hv|done].
      destruct (Init_spec PageTypeFree (V id) Hl' eq_refl) as [-> _]. by vm_compute. }
    rewrite Hnext by done.
    eapply free_pages_ext; [reflexivity| |exact F3]. intros x Hx.
    pose proof (free_pages_in _ _ _ _ _ F3 Hx).
    rewrite !put_ne; [done|by intros ->|unfold MetaPageID; lia].
Qed.

(** ** Allocation, whichever branch it takes *)

(** What a caller gets: a page of the asked type with its own id, taken from
    the free list or new; every page in use keeps its contents. *)
Record allocated (bm bm' : BufferManager) (t id : N) (fl fl' : list N) : Prop := {
  al_size : bm_maxSize bm' = bm_maxSize bm;
  al_pages : bm_pages bm <= bm_pages bm' <= bm_pages bm + 1;
  al_id : 0 < id < bm_pages bm';
  al_type : GetPageType (view bm' id) = t;
  al_self : GetPageID (view bm' id) = id;
  al_free : free_list (bm_pages bm') (view bm') fl';
  al_fresh : (id ∉ fl') /\ (id ∈ fl \/ bm_pages bm <= id);
  al_sub : forall x, x ∈ fl' -> x ∈ fl;
  al_root : GetRootPageID (view bm' MetaPageID) = GetRootPageID (view bm MetaPageID);
  al_keep : forall x, x < bm_pages bm -> x <> MetaPageID -> x <> id -> page_eqv (view bm' x) (view bm x)
}.

Lemma eqv_header bm bm' n V id :
  becomes bm bm' n V -> len (V id) = PageSize ->
  GetPageType (view bm' id) = GetPageType (V id) /\ GetPageID (view bm' id) = GetPageID (V id).
Proof.
  intros Hb Hl. pose proof (bc_view _ _ _ _ Hb id) as Hv. symmetry in Hv.
  by rewrite (eqv_type _ _ Hl Hv), (eqv_id _ _ Hl Hv).
Qed.

Lemma NewPage_header n t :
  n < 4294967296 -> t < 256 ->
  GetPageType (SetPageID n (NewPage t)) = t /\ GetPageID (SetPageID n (NewPage t)) = n
  /\ len (SetPageID n (NewPage t)) = PageSize.
Proof.
  intros Hn Ht. pose proof (len_NewPage t) as Hl. unfold SetPageID, GetPageType, GetPageID.
  rewrite len_set_field. split; [|split; [|done]].
  - rewrite get_set_ne by (rewrite ?Hl; unfold PageSize, pageIDOffset, pageTypeOffset; lia).
    by destruct (Init_spec t (zeros PageSize) (len_zeros _) Ht) as (_ & E & _).
  - by apply get_set_eq; [rewrite Hl; vm_compute| |].
Qed.

(** A page appended to the file. *)
Lemma allocated_new bm bm' h t :
  bm_ok bm h -> free_list (bm_pages bm) (view bm) [] -> bm_pages bm + 1 < 4294967296 -> t < 256 ->
  becomes bm bm' (bm_pages bm + 1)
    (put (view bm) (bm_pages bm) (SetPageID (bm_pages bm) (NewPage t))) ->
  allocated bm bm' t (bm_pages bm) [] [].
Proof.
  intros Hok [Hm _ Hl] Hb Ht B. pose proof (len_view_in bm h MetaPageID Hok Hm) as Hlen0.
  set (n := bm_pages bm) in *. destruct (NewPage_header n t) as (P1 & P2 & P3); [lia|done|].
  destruct (eqv_header _ _ _ _ n B) as [T1 T2]; rewrite put_eq in *; [done|].
  assert (Hmeta : put (view bm) n (SetPageID n (NewPage t)) MetaPageID = view bm MetaPageID)
    by (apply put_ne; unfold MetaPageID; lia).
  pose proof (bc_pages _ _ _ _ B) as Hp. constructor.
  - apply B.
  - fold n. lia.
  - lia.
  - by rewrite T1.
  - by rewrite T2.
  - apply (free_list_becomes _ _ _ _ _ B).
    + by rewrite Hmeta.
    + by intros x ?%elem_of_nil.
    + constructor; [lia|constructor|]. by rewrite Hmeta.
  - split; [by intros ?%elem_of_nil|]. by right.
  - done.
  - unfold GetRootPageID. by rewrite (becomes_body _ _ _ _ MetaPageID _ _ B); rewrite ?Hmeta.
  - intros x Hx Hx0 Hxid. etrans; [apply B|]. by rewrite put_ne.
Qed.

(** A page popped from the free list. *)
Lemma allocated_popped bm bm' h t id fl :
  bm_ok bm h -> free_list (bm_pages bm) (view bm) (id :: fl) -> t < 256 ->
  becomes bm bm' (bm_pages bm) (popped (view bm) id t) -> allocated bm bm' t id (id :: fl) fl.
Proof.
  intros Hok Hfl Ht B. pose proof Hfl as [Hm [Hnd _]%NoDup_cons (Hf & Hid & Hself & Hr)].
  assert (Hlen : forall x, x < bm_pages bm -> len (view bm x) = PageSize)
    by (intros; by eapply len_view_in).
  assert (Hmeta : popped (view bm) id t MetaPageID
    = SetFirstFreePageID (GetNextFreePageID (view bm id)) (view bm MetaPageID)).
  { unfold popped. rewrite put_ne, put_eq by (unfold MetaPageID; lia). done. }
  assert (Hlm : len (popped (view bm) id t MetaPageID) = PageSize).
  { rewrite Hmeta. unfold SetFirstFreePageID. rewrite len_set_field. by apply Hlen. }
  destruct (Init_spec t (view bm id)) as (I1 & I2 & _ & _ & _ & I6 & _); [apply Hlen; lia|done|].
  destruct (eqv_header _ _ _ _ id B) as [T1 T2]; unfold popped in *; rewrite put_eq in *; [done|].
  fold (popped (view bm) id t) in *.
  pose proof (bc_pages _ _ _ _ B) as Hp. pose proof (dbf_bound _ (bo_file _ _ Hok)) as Hb.
  constructor.
  - apply B.
  - lia.
  - by rewrite Hp.
  - by rewrite T1.
  - by rewrite T2, I6.
  - apply (free_list_becomes _ _ _ _ _ B); [done| |by apply free_list_popped; [apply Hlen|exact Hb|]].
    intros x Hx. pose proof (free_pages_in _ _ _ _ _ Hr Hx). unfold popped.
    rewrite !put_ne; [apply Hlen; lia|unfold MetaPageID; lia|by intros ->].
  - split; [done|]. left. by left.
  - intros x Hx. by right.
  - unfold GetRootPageID. rewrite (becomes_body _ _ _ _ MetaPageID _ _ B) by done. rewrite Hmeta.
    unfold SetFirstFreePageID. apply get_set_ne; [rewrite Hlen by done; by vm_compute|].
    left. by vm_compute.
  - intros x Hx Hx0 Hxid. etrans; [apply B|]. unfold popped. by rewrite !put_ne.
Qed.

Lemma allocate_any bm h t fl :
  bm_ok bm h -> N.of_nat (size h) + 1 < bm_maxSize bm -> t < 256 ->
  free_list (bm_pages bm) (view bm) fl -> bm_pages bm + 1 < 4294967296 ->
  h !! MetaPageID = None -> (forall x, x ∈ fl -> h !! x = None) ->
  exists id fl' bm', allocatePage t bm = (Ok id, bm') /\ bm_ok bm' h /\ h !! id = None
    /\ allocated bm bm' t id fl fl'.
Proof.
  intros Hok Hsz Ht Hfl Hb H0 Hh. destruct fl as [|id fl].
  - destruct (allocate_grow bm h t Hok ltac:(lia) Hfl Hb H0) as (bm' & E & K & B).
    exists (bm_pages bm), [], bm'. split; [done|]. split; [done|].
    split; [|by eapply allocated_new].
    destruct (h !! bm_pages bm) eqn:En; [|done]. destruct (bo_held _ _ Hok _ _ En) as [fr Hfr].
    pose proof (fo_id _ _ _ _ (bo_frames _ _ Hok _ _ Hfr)). unfold bm_pages in *. lia.
  - assert (Hid : h !! id = None) by (apply Hh; by left).
    destruct (allocate_pop bm h t id fl Hok Hsz Hfl H0 Hid) as (bm' & E & K & B).
    exists id, fl, bm'. split; [done|]. split; [done|]. split; [done|]. by eapply allocated_popped.
Qed.

(** The free list after a deallocation. *)
Lemma deallocated bm bm' h id fl :
  bm_ok bm h -> free_list (bm_pages bm) (view bm) fl -> 0 < id < bm_pages bm ->
  GetPageID (view bm id) = id -> id ∉ fl -> becomes bm bm' (bm_pages bm) (pushed (view bm) id) ->
  free_list (bm_pages bm') (view bm') (id :: fl).
Proof.
  intros Hok Hfl Hid Hself Hin B. pose proof Hfl as [Hm Hnd Hl].
  assert (Hlen : forall x, x < bm_pages bm -> len (view bm x) = PageSize)
    by (intros; by eapply len_view_in).
  pose proof (dbf_bound _ (bo_file _ _ Hok)) as Hb.
  assert (Hpush : forall x, x < bm_pages bm -> len (pushed (view bm) id x) = PageSize).
  { intros x Hx. unfold pushed, put, SetFirstFreePageID, SetNextFreePageID.
    case_decide; [rewrite len_set_field; by apply Hlen|].
    case_decide; [|by apply Hlen]. rewrite len_set_field.
    by destruct (Init_spec PageTypeFree (view bm id) (Hlen id (proj2 Hid)) eq_refl). }
  apply (free_list_becomes _ _ _ _ _ B); [by apply Hpush| |].
  - intros x [->|Hx]%elem_of_cons; apply Hpush; [lia|].
    pose proof (free_pages_in _ _ _ _ _ Hl Hx). lia.
  - apply free_list_pushed; [by apply Hlen|apply Hlen, Hid|exact Hb|exact Hid|exact Hself|exact Hin|exact Hfl].
Qed.

(** ** Creating a chain *)

(** Page [id] is an overflow page with this chunk and this successor. *)
Record data_page (bm : BufferManager) (id next : N) (chunk : bytes) : Prop := {
  dp_id : 0 < id < bm_pages bm;
  dp_len : len (view bm id) = PageSize;
  dp_type : GetPageType (view bm id) = PageTypeOverflow;
  dp_self : GetPageID (view bm id) = id;
  dp_next : GetNextOverflowPageID (view bm id) = next;
  dp_data : sub (view bm id) overflowDataOffset (len chunk) = chunk
}.

Lemma data_page_eqv bm bm' id next chunk :
  bm_pages bm <= bm_pages bm' -> page_eqv (view bm' id) (view bm id) ->
  data_page bm id next chunk -> data_page bm' id next chunk.
Proof.
  intros Hp Hv [D1 D2 D3 D4 D5 D6]. symmetry in Hv. constructor.
  - lia.
  - by rewrite <-(page_eqv_len _ _ Hv).
  - by rewrite <-(eqv_type _ _ D2 Hv).
  - by rewrite <-(eqv_id _ _ D2 Hv).
  - rewrite <-D5. symmetry. by apply eqv_body.
  - rewrite <-D6 at 2. symmetry. apply sub_eqv; [done|done|]. right. by vm_compute.
Qed.

(** A chain is its first page and the chain of the rest. *)
Lemma chain_data_page bm id ids chunk rest :
  data_page bm id (hd 0 ids) chunk -> 0 < len chunk <= MaxOverflowDataSize ->
  (ids <> [] -> len chunk = MaxOverflowDataSize) -> chain bm ids rest ->
  chain bm (id :: ids) (chunk ++ rest).
Proof.
  intros [D1 D2 D3 D4 D5 D6] Hc Hm Hr. cbn [chain]. do 4 (split; [done|]). by exists chunk, rest.
Qed.

Lemma respects_next_overflow n : respects (SetNextOverflowPageID n).
Proof. unfold SetNextOverflowPageID, overflowNextPageOffset. by apply respects_set_field; [right|]. Qed.
Lemma respects_write_overflow d : len d <= MaxOverflowDataSize -> respects (WriteOverflowData d).
Proof.
  intros Hd. unfold WriteOverflowData, MaxOverflowDataSize, overflowDataOffset, PageSize in *.
  apply respects_splice; [lia|]. unfold PageSize. lia.
Qed.

(** The page fields that overflow writes leave alone. *)
Lemma next_overflow_fields p n :
  len p = PageSize -> n < 4294967296 ->
  let q := SetNextOverflowPageID n p in
  len q = PageSize /\ GetPageType q = GetPageType p /\ GetPageID q = GetPageID p
  /\ GetNextOverflowPageID q = n
  /\ forall w, sub q overflowDataOffset w = sub p overflowDataOffset w.
Proof.
  intros Hl Hn q. unfold q, SetNextOverflowPageID, GetPageType, GetPageID, GetNextOverflowPageID.
  unfold overflowNextPageOffset, HeaderSize, overflowDataOffset, pageTypeOffset, pageIDOffset, PageSize in *.
  rewrite len_set_field. split; [done|]. rewrite !get_set_ne by lia.
  rewrite get_set_eq by (done || lia). do 3 (split; [done|]).
  intros w. unfold set_field. apply sub_splice_ne; len.
Qed.

Lemma write_overflow_fields p d :
  len p = PageSize -> len d <= MaxOverflowDataSize ->
  let q := WriteOverflowData d p in
  len q = PageSize /\ GetPageType q = GetPageType p /\ GetPageID q = GetPageID p
  /\ GetNextOverflowPageID q = GetNextOverflowPageID p /\ sub q overflowDataOffset (len d) = d.
Proof.
  intros Hl Hd q. unfold q, WriteOverflowData, GetPageType, GetPageID, GetNextOverflowPageID.
  unfold overflowNextPageOffset, HeaderSize, overflowDataOffset, pageTypeOffset, pageIDOffset,
    MaxOverflowDataSize, PageSize, overflowDataOffset in *.
  rewrite len_splice. split; [done|]. rewrite !get_splice_ne by lia.
  do 3 (split; [done|]). apply sub_splice_eq. lia.
Qed.

(** Filling the page that is held for writing. *)
Lemma fill_page bm h id chunk next :
  bm_ok bm h -> h !! id = Some HWrite -> 0 < id < bm_pages bm ->
  GetPageType (view bm id) = PageTypeOverflow -> GetPageID (view bm id) = id ->
  len chunk <= MaxOverflowDataSize -> next < 4294967296 ->
  exists bm', (_ ← wr id (SetNextOverflowPageID next); wr id (WriteOverflowData chunk)) bm = (Ok tt, bm')
    /\ bm_ok bm' h /\ data_page bm' id next chunk /\ bm_pages bm' = bm_pages bm
    /\ bm_maxSize bm' = bm_maxSize bm
    /\ forall x, x <> id -> page_eqv (view bm' x) (view bm x).
Proof.
  intros Hok Hh Hid Ht Hs Hc Hn. pose proof (len_view _ _ _ _ Hok Hh) as Hl.
  destruct (wr_becomes bm bm h id _ _ _ Hok Hh (respects_next_overflow next) (becomes_refl bm))
    as (bm1 & E1 & K1 & B1).
  destruct (wr_becomes bm bm1 h id _ _ _ K1 Hh (respects_write_overflow chunk Hc) B1)
    as (bm2 & E2 & K2 & B2).
  exists bm2. split; [by mstep E1|]. split; [done|].
  destruct (next_overflow_fields (view bm id) next Hl Hn) as (F1 & F2 & F3 & F4 & F5).
  destruct (write_overflow_fields _ chunk F1 Hc) as (G1 & G2 & G3 & G4 & G5).
  set (q := WriteOverflowData chunk (SetNextOverflowPageID next (view bm id))) in *.
  pose proof (bc_view _ _ _ _ B2 id) as Hv. rewrite !put_eq in Hv. fold q in Hv. symmetry in Hv.
  split; [|split; [apply B2|split; [apply B2|]]].
  - constructor.
    + by rewrite (bc_pages _ _ _ _ B2).
    + by rewrite <-(page_eqv_len _ _ Hv).
    + rewrite <-(eqv_type _ _ G1 Hv). congruence.
    + rewrite <-(eqv_id _ _ G1 Hv). congruence.
    + rewrite <-F4, <-G4. symmetry. by apply eqv_body.
    + rewrite <-G5 at 2. symmetry. apply sub_eqv; [done|done|]. right. by vm_compute.
  - intros x Hx. etrans; [apply B2|]. by rewrite !put_ne.
Qed.

(** Linking the previous page of the chain, held for writing, to [id]. *)
Lemma link_page bm h p id chunk :
  bm_ok bm (<[p := HWrite]> h) -> h !! p = None -> data_page bm p 0 chunk -> id < 4294967296 ->
  exists bm', (_ ← wr p (SetNextOverflowPageID id); prevID ← rd p GetPageID; Unpin prevID true true) bm
      = (Ok tt, bm')
    /\ bm_ok bm' h /\ data_page bm' p id chunk /\ bm_pages bm' = bm_pages bm
    /\ bm_maxSize bm' = bm_maxSize bm
    /\ forall x, x <> p -> page_eqv (view bm' x) (view bm x).
Proof.
  intros Hok Hh [D1 D2 D3 D4 D5 D6] Hid.
  destruct (wr_becomes bm bm _ p _ _ _ Hok (lookup_insert_eq _ _ _) (respects_next_overflow id)
    (becomes_refl bm)) as (bm1 & E1 & K1 & B1).
  destruct (next_overflow_fields (view bm p) id D2 Hid) as (F1 & F2 & F3 & F4 & F5).
  set (q := SetNextOverflowPageID id (view bm p)) in *.
  assert (Hq : forall b, page_eqv (view b p) q -> bm_pages b = bm_pages bm -> data_page b p id chunk).
  { intros b Hv Hp. symmetry in Hv. constructor.
    - by rewrite Hp.
    - by rewrite <-(page_eqv_len _ _ Hv).
    - rewrite <-(eqv_type _ _ F1 Hv). congruence.
    - rewrite <-(eqv_id _ _ F1 Hv). congruence.
    - rewrite <-F4. symmetry. by apply eqv_body.
    - rewrite <-D6 at 2. rewrite <-F5. symmetry. apply sub_eqv; [done|done|]. right. by vm_compute. }
  pose proof (bc_view _ _ _ _ B1 p) as Hv1. rewrite put_eq in Hv1.
  pose proof (Hq bm1 Hv1 (bc_pages _ _ _ _ B1)) as Hd1.
  destruct (unpin_write bm1 h p K1 Hh) as (bm2 & E2 & K2 & S2%same_array_view).
  pose proof (becomes_same _ _ _ _ _ B1 S2) as B2.
  exists bm2. split; [|split; [done|split]].
  - mstep E1. mstep (rd_ok bm1 _ p HWrite GetPageID K1 (lookup_insert_eq _ _ _)).
    rewrite (dp_self _ _ _ _ Hd1). by apply Unpin_eq.
  - apply Hq; [|apply B2]. etrans; [apply B2|]. by rewrite put_eq.
  - split; [apply B2|]. split; [apply B2|]. intros x Hx. etrans; [apply B2|]. by rewrite put_ne.
Qed.

(** The holds while the loop runs, and the page it still has to link. *)
Definition with_prev (prev : option N) (h : gmap N hold) : gmap N hold :=
  match prev with Some p => <[p := HWrite]> h | None => h end.

Definition prev_ok (bm : BufferManager) (h : gmap N hold) (fl : list N) (prev : option N) : Prop :=
  match prev with
  | Some p => h !! p = None /\ (p ∉ fl) /\ exists chunk, data_page bm p 0 chunk
  | None => True
  end.

(** What the loop leaves: the chain of [data] on pages that were free or new,
    the previous page linked to it, everything in use unchanged. *)
Record chained (bm bm' : BufferManager) (prev : option N) (data : bytes) (ids fl fl' : list N) : Prop := {
  cd_chain : chain bm' ids data;
  cd_nonempty : ids <> [];
  cd_nodup : NoDup ids;
  cd_self : forall x, x ∈ ids -> GetPageID (view bm' x) = x;
  cd_free : free_list (bm_pages bm') (view bm') fl';
  cd_fresh : forall x, x ∈ ids -> (x ∉ fl') /\ (x ∈ fl \/ bm_pages bm <= x);
  cd_sub : forall x, x ∈ fl' -> x ∈ fl;
  cd_size : bm_maxSize bm' = bm_maxSize bm;
  cd_pages : bm_pages bm <= bm_pages bm' <= bm_pages bm + len data;
  cd_root : GetRootPageID (view bm' MetaPageID) = GetRootPageID (view bm MetaPageID);
  cd_keep : forall x, x < bm_pages bm -> x <> MetaPageID -> x ∉ fl -> prev <> Some x ->
    page_eqv (view bm' x) (view bm x);
  cd_link : forall p chunk, prev = Some p -> data_page bm p 0 chunk -> data_page bm' p (hd 0 ids) chunk
}.

(** One turn of the loop up to the filled page. *)
Definition link_prev (prevPage : option N) (newPageID : N) : M BufferManager unit :=
  match prevPage with
  | Some prev =>
      _ ← wr prev (SetNextOverflowPageID newPageID);
      prevID ← rd prev GetPageID;
      Unpin prevID true true
  | None => mret tt
  end.

Lemma link_prev_ok bm h fl prev id :
  bm_ok bm (with_prev prev h) -> prev_ok bm h fl prev -> id < 4294967296 ->
  exists bm', link_prev prev id bm = (Ok tt, bm') /\ bm_ok bm' h
    /\ bm_pages bm' = bm_pages bm /\ bm_maxSize bm' = bm_maxSize bm
    /\ (forall x, prev <> Some x -> page_eqv (view bm' x) (view bm x))
    /\ (forall p chunk, prev = Some p -> data_page bm p 0 chunk -> data_page bm' p id chunk).
Proof.
  intros Hok Hp Hid. destruct prev as [p|]; cbn [with_prev link_prev prev_ok] in *.
  - destruct Hp as (Hh & _ & chunk & Hd).
    destruct (link_page bm h p id chunk Hok Hh Hd Hid) as (bm' & E & K & D & P1 & P2 & P3).
    exists bm'. split; [done|]. split; [done|]. split; [done|]. split; [done|]. split.
    + intros x Hx. apply P3. congruence.
    + intros p' chunk' [= <-] Hd'.
      destruct (link_page bm h p id chunk' Hok Hh Hd' Hid) as (bm2 & E2 & _ & D2 & _).
      congruence.
  - exists bm. split; [done|]. by split_and!.
Qed.

Definition chunk_of (data : bytes) : bytes :=
  take (N.to_nat (N.min (len data) MaxOverflowDataSize)) data.
Definition rest_of (data : bytes) : bytes :=
  drop (N.to_nat (N.min (len data) MaxOverflowDataSize)) data.

Lemma chunk_rest data : data <> [] ->
  data = chunk_of data ++ rest_of data /\ 0 < len (chunk_of data) <= MaxOverflowDataSize
  /\ (rest_of data <> [] -> len (chunk_of data) = MaxOverflowDataSize)
  /\ len data = len (chunk_of data) + len (rest_of data).
Proof.
  intros Hne. unfold chunk_of, rest_of. set (n := N.min (len data) MaxOverflowDataSize).
  assert (H0 : 0 < len data) by (destruct data; [done|rewrite len_cons; lia]).
  assert (Hn : len (take (N.to_nat n) data) = n) by (rewrite len_take; subst n; lia).
  rewrite Hn. split; [by rewrite take_drop|]. split; [subst n; unfold MaxOverflowDataSize, PageSize, overflowDataOffset; lia|].
  split.
  - intros Hr. subst n. destruct (decide (len data <= MaxOverflowDataSize)) as [Hle|]; [|lia].
    exfalso. apply Hr. apply drop_ge. unfold len in *. lia.
  - rewrite len_drop. subst n. lia.
Qed.

(** The state after one turn: page [id] was allocated, the previous page is
    linked to it, and it holds the chunk. *)
Record linked (bm bm1 bm4 : BufferManager) (h : gmap N hold) (prev : option N) (chunk : bytes)
    (id : N) (fl fl1 : list N) : Prop := {
  lk_alloc : allocated bm bm1 PageTypeOverflow id fl fl1;
  lk_ok : bm_ok bm4 (<[id := HWrite]> h);
  lk_hold : h !! id = None;
  lk_data : data_page bm4 id 0 chunk;
  lk_pages : bm_pages bm4 = bm_pages bm1;
  lk_size : bm_maxSize bm4 = bm_maxSize bm;
  lk_keep : forall x, x <> id -> prev <> Some x -> page_eqv (view bm4 x) (view bm1 x);
  lk_link : forall p chunk, prev = Some p -> data_page bm p 0 chunk -> data_page bm4 p id chunk;
  lk_prev : forall p, prev = Some p -> (p ∉ fl) /\ 0 < p < bm_pages bm /\ p <> id
}.

(** Allocation, latch, link and fill. *)
Lemma chain_step bm h fl prev data :
  data <> [] -> bm_ok bm (with_prev prev h) -> N.of_nat (size h) + 2 < bm_maxSize bm ->
  free_list (bm_pages bm) (view bm) fl -> bm_pages bm + 1 < 4294967296 ->
  h !! MetaPageID = None -> (forall x, x ∈ fl -> h !! x = None) -> prev_ok bm h fl prev ->
  exists id fl1 bm1 bm2 bm3 bm4,
    allocatePage PageTypeOverflow bm = (Ok id, bm1)
    /\ FetchPageForWrite id PageTypeOverflow bm1 = (Ok tt, bm2)
    /\ link_prev prev id bm2 = (Ok tt, bm3)
    /\ (_ ← wr id (SetNextOverflowPageID 0); wr id (WriteOverflowData (chunk_of data))) bm3 = (Ok tt, bm4)
    /\ linked bm bm1 bm4 h prev (chunk_of data) id fl fl1.
Proof.
  intros Hne Hok Hsz Hfl Hb H0 Hh Hp. destruct (chunk_rest data Hne) as (_ & Hc & _).
  assert (Hpn : forall p, prev = Some p -> h !! p = None /\ (p ∉ fl) /\ 0 < p < bm_pages bm).
  { intros p ->. destruct Hp as (? & ? & c & Hd). split; [done|]. split; [done|]. by apply (dp_id _ _ _ _ Hd). }
  assert (Hsz' : N.of_nat (size (with_prev prev h)) <= N.of_nat (size h) + 1).
  { destruct prev as [p|]; cbn; [|lia]. destruct (Hpn p eq_refl) as [? _]. rewrite size_insert_hold by done. lia. }
  destruct (allocate_any bm (with_prev prev h) PageTypeOverflow fl Hok) as (id & fl1 & bm1 & E1 & K1 & Hid & AL); try done.
  { lia. }
  { destruct prev as [p|]; cbn; [|done]. destruct (Hpn p eq_refl) as (_ & _ & ?).
    rewrite lookup_insert_ne; [done|unfold MetaPageID; lia]. }
  { intros x Hx. destruct prev as [p|]; cbn; [|by apply Hh]. destruct (Hpn p eq_refl) as (_ & Hnp & _).
    rewrite lookup_insert_ne; [by apply Hh|by intros ->]. }
  destruct (fetch_write_new id PageTypeOverflow bm1 _ K1) as (bm2 & E2 & K2 & S2); [by apply AL|done| |].
  { rewrite (al_size _ _ _ _ _ _ AL). lia. }
  assert (Hidp : forall p, prev = Some p -> p <> id).
  { intros p -> ->. cbn in Hid. by rewrite lookup_insert_eq in Hid. }
  assert (Hidh : h !! id = None).
  { destruct prev as [p|]; cbn in Hid; [|done]. by rewrite lookup_insert_ne in Hid by (by apply Hidp). }
  assert (Hcomm : <[id := HWrite]> (with_prev prev h) = with_prev prev (<[id := HWrite]> h)).
  { destruct prev as [p|]; cbn; [|done]. apply insert_insert_ne. apply not_eq_sym. by apply Hidp. }
  rewrite Hcomm in K2. pose proof (becomes_same _ _ _ _ _ (becomes_refl bm1) S2) as B2.
  assert (Hkeep2 : forall p chunk, prev = Some p -> data_page bm p 0 chunk -> data_page bm2 p 0 chunk).
  { intros p chunk Hpp Hd. destruct (Hpn p Hpp) as (_ & _ & Hb0).
    apply (data_page_eqv bm); [rewrite (bc_pages _ _ _ _ B2); apply AL| |done].
    etrans; [apply B2|]. apply AL; [lia|unfold MetaPageID; lia|by apply Hidp]. }
  pose proof (dbf_bound _ (bo_file _ _ K2)) as Hbound. pose proof (bc_pages _ _ _ _ B2) as Hp2.
  pose proof (al_id _ _ _ _ _ _ AL) as Hidr.
  destruct (link_prev_ok bm2 (<[id := HWrite]> h) fl prev id K2) as (bm3 & E3 & K3 & P1 & P2 & P3 & P4).
  { destruct prev as [p|]; cbn; [|done]. destruct Hp as (? & ? & c & Hd).
    rewrite lookup_insert_ne by (apply not_eq_sym; by apply Hidp).
    split; [done|]. split; [done|]. exists c. by apply Hkeep2. }
  { unfold bm_pages in *. lia. }
  assert (Hv3 : page_eqv (view bm3 id) (view bm1 id)).
  { etrans; [apply P3|apply B2]. intros ->. by apply (Hidp id). }
  pose proof (len_view_in _ _ _ K1 (proj2 Hidr)) as Hl1. symmetry in Hv3.
  destruct (fill_page bm3 _ id (chunk_of data) 0 K3 (lookup_insert_eq _ _ _)) as (bm4 & E4 & K4 & D4 & Q1 & Q2 & Q3).
  { rewrite P1, Hp2. done. }
  { rewrite <-(eqv_type _ _ Hl1 Hv3). apply AL. }
  { rewrite <-(eqv_id _ _ Hl1 Hv3). apply AL. }
  { apply Hc. }
  { done. }
  exists id, fl1, bm1, bm2, bm3, bm4. do 4 (split; [done|]).
  constructor; try done.
  - congruence.
  - rewrite Q2, P2, (bc_size _ _ _ _ B2). apply AL.
  - intros x Hx Hxp. etrans; [by apply Q3|]. etrans; [by apply P3|]. apply B2.
  - intros p chunk Hpp Hd. apply (data_page_eqv bm3); [by rewrite Q1|apply Q3; by apply Hidp|].
    apply P4; [done|]. by apply Hkeep2.
  - intros p Hpp. destruct (Hpn p Hpp) as (_ & ? & ?). split; [done|]. split; [done|]. by apply Hidp.
Qed.

(** What one turn leaves alone. *)
Section linked.
Context (bm bm1 bm4 : BufferManager) (h : gmap N hold) (prev : option N) (chunk : bytes)
  (id : N) (fl fl1 : list N) (L : linked bm bm1 bm4 h prev chunk id fl fl1).
Let AL := lk_alloc _ _ _ _ _ _ _ _ _ L.

Lemma linked_view x : x ∈ fl1 \/ x = MetaPageID ->
  page_eqv (view bm4 x) (view bm1 x) /\ len (view bm4 x) = PageSize.
Proof.
  intros Hx. pose proof (al_free _ _ _ _ _ _ AL) as [F1 F2 F3].
  pose proof (al_id _ _ _ _ _ _ AL) as Hidr. split.
  - apply (lk_keep _ _ _ _ _ _ _ _ _ L).
    + intros ->. destruct Hx as [?| ->]; [by apply (al_fresh _ _ _ _ _ _ AL)|].
      unfold MetaPageID in Hidr. lia.
    + intros Hpx. destruct (lk_prev _ _ _ _ _ _ _ _ _ L x Hpx) as (Hn & Hr & _).
      destruct Hx as [Hx|Hx]; [by apply Hn, AL|]. subst. unfold MetaPageID in Hr. lia.
  - apply (len_view_in bm4 _ x (lk_ok _ _ _ _ _ _ _ _ _ L)). rewrite (lk_pages _ _ _ _ _ _ _ _ _ L).
    destruct Hx as [Hx| ->]; [|done]. pose proof (free_pages_in _ _ _ _ _ F3 Hx). lia.
Qed.

Lemma linked_free : free_list (bm_pages bm4) (view bm4) fl1.
Proof.
  pose proof (al_free _ _ _ _ _ _ AL) as [F1 F2 F3]. rewrite (lk_pages _ _ _ _ _ _ _ _ _ L).
  constructor; [done|done|]. destruct (linked_view MetaPageID (or_intror eq_refl)) as [Hv Hl].
  unfold GetFirstFreePageID. rewrite (eqv_body _ (view bm1 MetaPageID)) by done.
  eapply free_pages_ext; [reflexivity| |exact F3]. intros x Hx.
  destruct (linked_view x (or_introl Hx)) as [Hvx Hlx].
  split; [by apply eqv_body|by apply eqv_id].
Qed.

Lemma linked_keep x : x < bm_pages bm -> x <> MetaPageID -> x ∉ fl -> prev <> Some x ->
  page_eqv (view bm4 x) (view bm x).
Proof.
  intros Hx Hx0 Hxf Hxp.
  assert (x <> id) by (intros ->; destruct (al_fresh _ _ _ _ _ _ AL) as [_ [?|?]]; [done|lia]).
  etrans; [by apply (lk_keep _ _ _ _ _ _ _ _ _ L)|]. by apply AL.
Qed.

Lemma linked_root : GetRootPageID (view bm4 MetaPageID) = GetRootPageID (view bm MetaPageID).
Proof.
  rewrite <-(al_root _ _ _ _ _ _ AL).
  destruct (linked_view MetaPageID (or_intror eq_refl)) as [Hv Hl]. by apply eqv_body.
Qed.

(** The last chunk: the page is unpinned and the chain is complete. *)
Lemma linked_last bm5 : 0 < len chunk <= MaxOverflowDataSize -> same_array bm4 bm5 ->
  chained bm bm5 prev chunk [id] fl fl1.
Proof.
  intros Hc [[T1 T2] T3].
  assert (Hd5 : forall x n c, data_page bm4 x n c -> data_page bm5 x n c).
  { intros. apply (data_page_eqv bm4); [by rewrite T1|by rewrite T3|done]. }
  pose proof (al_pages _ _ _ _ _ _ AL). pose proof (lk_pages _ _ _ _ _ _ _ _ _ L) as Hp4.
  constructor; rewrite ?T1, ?T2, ?T3, ?Hp4; try done.
  - rewrite <-(app_nil_r chunk). apply chain_data_page; [|done..]. apply Hd5, (lk_data _ _ _ _ _ _ _ _ _ L).
  - by apply NoDup_singleton.
  - intros x ->%list_elem_of_singleton. apply (dp_self _ _ _ _ (Hd5 _ _ _ (lk_data _ _ _ _ _ _ _ _ _ L))).
  - destruct linked_free as [F1 F2 F3]. rewrite Hp4 in *. constructor; [done|done|]. rewrite T3.
    eapply free_pages_ext; [reflexivity| |exact F3]. intros. by rewrite T3.
  - intros x ->%list_elem_of_singleton. apply AL.
  - apply AL.
  - apply (lk_size _ _ _ _ _ _ _ _ _ L).
  - lia.
  - apply linked_root.
  - intros. rewrite T3. by apply linked_keep.
  - intros p c Hpp Hd. apply Hd5. by apply (lk_link _ _ _ _ _ _ _ _ _ L).
Qed.

(** A chunk before the rest of the chain. *)
Lemma linked_cons bm5 rest ids fl' : len chunk = MaxOverflowDataSize ->
  chained bm4 bm5 (Some id) rest ids fl1 fl' -> chained bm bm5 prev (chunk ++ rest) (id :: ids) fl fl'.
Proof.
  intros Hc [C1 C2 C3 Cs C4 C5 C6 C7 C8 C9 C10 C11].
  pose proof (al_pages _ _ _ _ _ _ AL). pose proof (al_id _ _ _ _ _ _ AL).
  pose proof (al_fresh _ _ _ _ _ _ AL) as [Hidfl Hidfr].
  pose proof (lk_pages _ _ _ _ _ _ _ _ _ L) as Hp4. rewrite Hp4 in *.
  assert (Hmax : 0 < MaxOverflowDataSize) by done.
  constructor; try done.
  - apply chain_data_page; [|lia|done|done]. apply (C11 id); [done|]. apply (lk_data _ _ _ _ _ _ _ _ _ L).
  - constructor; [|done]. intros Hx. destruct (C5 id Hx) as [_ [?|?]]; [done|lia].
  - intros x [->|Hx]%elem_of_cons; [|by apply Cs].
    by apply (dp_self _ _ _ _ (C11 id chunk eq_refl (lk_data _ _ _ _ _ _ _ _ _ L))).
  - intros x [->|Hx]%elem_of_cons; [split; [intros ?; by apply Hidfl, C6|done]|].
    destruct (C5 x Hx) as [? Hx']. split; [done|]. destruct Hx' as [?|?]; [left; by apply AL|right; lia].
  - intros x Hx. apply AL. by apply C6.
  - rewrite C7. apply (lk_size _ _ _ _ _ _ _ _ _ L).
  - rewrite len_app. lia.
  - rewrite C9. apply linked_root.
  - intros x Hx Hx0 Hxf Hxp. etrans; [|by apply linked_keep].
    apply C10; [lia|done|intros ?; by apply Hxf, AL|]. intros [= ->]. destruct Hidfr; [done|lia].
  - intros p c Hpp Hd. destruct (lk_prev _ _ _ _ _ _ _ _ _ L p Hpp) as (Hpf & Hpr & Hpi).
    apply (data_page_eqv bm4); [lia| |by apply (lk_link _ _ _ _ _ _ _ _ _ L)].
    apply C10; [lia|unfold MetaPageID; lia|intros ?; by apply Hpf, AL|congruence].
Qed.
End linked.

(** The loop body in terms of its named steps. *)
Lemma create_chain_unfold fuel first prev data :
  data <> [] ->
  create_chain_loop (S fuel) first prev data =
    (newPageID ← allocatePage PageTypeOverflow;
     _ ← FetchPageForWrite newPageID PageTypeOverflow;
     let first := if first =? 0 then newPageID else first in
     _ ← link_prev prev newPageID;
     _ ← wr newPageID (SetNextOverflowPageID 0);
     _ ← wr newPageID (WriteOverflowData (chunk_of data));
     if len (rest_of data) =? 0 then
       _ ← Unpin newPageID true true;
       create_chain_loop fuel first prev (rest_of data)
     else create_chain_loop fuel first (Some newPageID) (rest_of data)).
Proof. destruct data; done. Qed.

Lemma bind_assoc2 {S B} (m1 m2 : M S unit) (k : M S B) s s' :
  (_ ← m1; m2) s = (Ok tt, s') -> (_ ← m1; _ ← m2; k) s = k s'.
Proof.
  unfold mbind, M_bind. destruct (m1 s) as [[[]| | |] s1]; try discriminate. by intros ->.
Qed.

Lemma create_loop_ok : forall fuel data first prev bm h fl,
  (length data <= fuel)%nat -> data <> [] -> bm_ok bm (with_prev prev h) ->
  N.of_nat (size h) + 2 < bm_maxSize bm -> free_list (bm_pages bm) (view bm) fl ->
  bm_pages bm + len data < 4294967296 -> h !! MetaPageID = None ->
  (forall x, x ∈ fl -> h !! x = None) -> prev_ok bm h fl prev ->
  exists ids fl' bm', create_chain_loop fuel first prev data bm
      = (Ok (if first =? 0 then hd 0 ids else first), bm')
    /\ bm_ok bm' h /\ chained bm bm' prev data ids fl fl'.
Proof.
  induction fuel as [|fuel IH]; intros data first prev bm h fl Hf Hne Hok Hsz Hfl Hb H0 Hh Hp.
  { destruct data; [done|]. simpl in Hf. lia. }
  destruct (chunk_rest data Hne) as (Hdata & Hc & Hfull & Hlen).
  destruct (chain_step bm h fl prev data Hne Hok Hsz Hfl) as
    (id & fl1 & bm1 & bm2 & bm3 & bm4 & E1 & E2 & E3 & E4 & L); try done; [lia|].
  rewrite create_chain_unfold by done. mstep E1. mstep E2. mstep E3. rewrite (bind_assoc2 _ _ _ _ _ E4).
  pose proof L as [AL K4 Hid D4 Q1 Q2 _ _ _]. pose proof (al_id _ _ _ _ _ _ AL) as Hidr.
  pose proof (al_pages _ _ _ _ _ _ AL). destruct (len (rest_of data) =? 0) eqn:Er; bool_lia.
  - assert (Hr : rest_of data = []) by (destruct (rest_of data); [done|rewrite len_cons in Er; lia]).
    destruct (unpin_write bm4 h id K4 Hid) as (bm5 & E5 & K5 & S5). mstep (Unpin_eq _ _ _ _ _ E5).
    exists [id], fl1, bm5. rewrite Hr. split; [by destruct fuel|]. split; [done|].
    rewrite Hdata, Hr, app_nil_r. by eapply linked_last.
  - assert (Hrne : rest_of data <> []) by (intros E; by rewrite E in Er).
    destruct (IH (rest_of data) (if first =? 0 then id else first) (Some id) bm4 h fl1)
      as (ids & fl' & bm5 & E5 & K5 & CD); try done.
    + unfold len in *. lia.
    + by rewrite Q2.
    + by apply (linked_free bm bm1 bm4 h prev (chunk_of data) id fl).
    + rewrite Q1. lia.
    + intros x Hx. apply Hh. by apply AL.
    + split; [done|]. split; [apply AL|]. by exists (chunk_of data).
    + exists (id :: ids), fl', bm5. rewrite E5. split; [|split; [done|]].
      * do 2 f_equal. destruct (first =? 0) eqn:Ef; [|by rewrite Ef].
        rewrite (proj2 (N.eqb_neq _ _)) by lia. done.
      * rewrite Hdata. by eapply linked_cons; [|apply Hfull|].
Qed.

(** ** The whole chain *)

Lemma createOverflowChain_ok bm h fl value :
  bm_ok bm h -> value <> [] -> N.of_nat (size h) + 2 < bm_maxSize bm ->
  free_list (bm_pages bm) (view bm) fl -> bm_pages bm + len value < 4294967296 ->
  h !! MetaPageID = None -> (forall x, x ∈ fl -> h !! x = None) ->
  exists ids fl' bm', createOverflowChain value bm = (Ok (chain_metadata (hd 0 ids) (len value)), bm')
    /\ bm_ok bm' h /\ chained bm bm' None value ids fl fl'.
Proof.
  intros Hok Hne Hsz Hfl Hb H0 Hh.
  destruct (create_loop_ok (S (length value)) value 0 None bm h fl) as (ids & fl' & bm' & E & K & CD);
    try done; [lia|].
  exists ids, fl', bm'. split; [|done]. unfold createOverflowChain. by mstep E.
Qed.

(** ** Freeing a chain *)

Lemma chain_ext bm bm' ids data :
  bm_pages bm <= bm_pages bm' -> (forall x, x ∈ ids -> page_eqv (view bm' x) (view bm x)) ->
  chain bm ids data -> chain bm' ids data.
Proof.
  revert data. induction ids as [|id ids IH]; intros data Hp Hv; [done|]. cbn [chain].
  intros (H1 & H2 & H3 & H4 & chunk & rest & -> & H5 & H6 & H7 & H8).
  assert (Hid : page_eqv (view bm id) (view bm' id)) by (symmetry; apply Hv; by left).
  unfold GetNextOverflowPageID in *.
  rewrite <-(eqv_type _ _ H2 Hid), <-(page_eqv_len _ _ Hid).
  rewrite <-(eqv_body _ _ H2 Hid) by (unfold overflowNextPageOffset, HeaderSize; lia).
  split; [lia|]. split; [done|]. split; [done|]. split; [done|]. exists chunk, rest.
  rewrite <-(sub_eqv _ _ _ _ H2 Hid) by (unfold overflowDataOffset; lia).
  split; [done|]. split; [done|]. split; [done|]. split; [done|]. apply IH; [done| |done].
  intros x Hx. apply Hv. by right.
Qed.

(** A chain on pages of its own: none of them free, each with its own id. *)
Record own_chain (bm : BufferManager) (fl ids : list N) (data : bytes) : Prop := {
  oc_chain : chain bm ids data;
  oc_nodup : NoDup ids;
  oc_used : forall x, x ∈ ids -> x ∉ fl;
  oc_self : forall x, x ∈ ids -> GetPageID (view bm x) = x
}.

(** What freeing the pages [ids] leaves: they are on top of the free list, the
    first one deepest, and every other page is as it was. *)
Record freed (bm bm' : BufferManager) (fl ids : list N) : Prop := {
  fd_free : free_list (bm_pages bm') (view bm') (rev ids ++ fl);
  fd_pages : bm_pages bm' = bm_pages bm;
  fd_size : bm_maxSize bm' = bm_maxSize bm;
  fd_root : GetRootPageID (view bm' MetaPageID) = GetRootPageID (view bm MetaPageID);
  fd_keep : forall x, x <> MetaPageID -> x ∉ ids -> page_eqv (view bm' x) (view bm x)
}.

Lemma freed_nil bm bm' fl h :
  bm_ok bm h -> same_view bm bm' -> free_list (bm_pages bm) (view bm) fl -> freed bm bm' fl [].
Proof.
  intros Hok Hs Hfl. pose proof (fl_meta _ _ _ Hfl) as H0. pose proof Hs as [[P Q] V].
  pose proof (len_view_in bm h MetaPageID Hok H0) as Hlen. constructor; [|done|done| |by intros].
  - apply (free_list_becomes bm bm' (bm_pages bm) (view bm)); [|done| |done].
    + by eapply becomes_same; [apply becomes_refl|].
    + intros id Hid. eapply len_view_in; [done|]. by eapply free_pages_in; [apply Hfl|].
  - unfold GetRootPageID. symmetry. apply eqv_body; [done| |done]. symmetry. apply V.
Qed.

(** The pointer to the root is not the pointer to the free list. *)
Lemma pushed_root bm bm' h id fl :
  bm_ok bm h -> free_list (bm_pages bm) (view bm) fl -> id <> MetaPageID ->
  becomes bm bm' (bm_pages bm) (pushed (view bm) id) ->
  GetRootPageID (view bm' MetaPageID) = GetRootPageID (view bm MetaPageID).
Proof.
  intros Hok Hfl Hid B. pose proof (len_view_in bm h MetaPageID Hok (fl_meta _ _ _ Hfl)) as Hlen.
  assert (Hp : pushed (view bm) id MetaPageID = SetFirstFreePageID id (view bm MetaPageID))
    by (unfold pushed; by rewrite put_eq).
  unfold GetRootPageID. rewrite (becomes_body _ _ _ _ MetaPageID _ _ B), Hp; [|rewrite Hp|done].
  - unfold SetFirstFreePageID. apply get_set_ne; [rewrite Hlen; by vm_compute|]. left. by vm_compute.
  - unfold SetFirstFreePageID. by rewrite len_set_field.
Qed.

(** One page back to the free list. *)
Lemma deallocate_freed bm h id fl :
  bm_ok bm h -> N.of_nat (size h) + 1 < bm_maxSize bm ->
  free_list (bm_pages bm) (view bm) fl -> 0 < id < bm_pages bm -> GetPageID (view bm id) = id ->
  id ∉ fl -> h !! MetaPageID = None -> h !! id = None ->
  exists bm', deallocatePage id bm = (Ok tt, bm') /\ bm_ok bm' h /\ freed bm bm' fl [id].
Proof.
  intros Hok Hsz Hfl Hid Hself Hin H0 Hh.
  destruct (deallocate_push bm h id fl Hok Hsz Hfl Hid H0 Hh) as (bm' & E & K & B).
  exists bm'. split; [done|]. split; [done|]. constructor.
  - by apply (deallocated bm bm' h).
  - apply B.
  - apply B.
  - apply (pushed_root bm bm' h id fl); try done. unfold MetaPageID. lia.
  - intros x Hx Hxi. apply not_elem_of_cons in Hxi as [Hxi _]. etrans; [apply B|].
    unfold pushed. by rewrite !put_ne.
Qed.

Lemma freed_trans bm bm1 bm2 fl ids ids' :
  freed bm bm1 fl ids -> freed bm1 bm2 (rev ids ++ fl) ids' -> freed bm bm2 fl (ids ++ ids').
Proof.
  intros [F1 F2 F3 F4 F5] [G1 G2 G3 G4 G5]. constructor; try congruence.
  - by rewrite rev_app_distr, <-(assoc_L (++)).
  - intros x Hx Hin. rewrite elem_of_app in Hin. etrans; [apply G5|apply F5]; tauto.
Qed.

(** What is left of a chain when its first page is freed. *)
Lemma own_chain_rest bm bm1 fl id ids data :
  own_chain bm fl (id :: ids) data -> freed bm bm1 fl [id] ->
  exists rest, own_chain bm1 (id :: fl) ids rest.
Proof.
  intros [O1 [O2 O2']%NoDup_cons O3 O4] F. pose proof O1 as Hc. cbn [chain] in O1.
  destruct O1 as (H1 & H2 & _ & _ & chunk & rest & -> & _ & _ & _ & H8). exists rest.
  assert (Hk : forall x, x ∈ ids -> page_eqv (view bm1 x) (view bm x) /\ len (view bm x) = PageSize).
  { intros x Hx. destruct (chain_bound _ _ _ x H8 Hx) as [Hb _].
    split; [|exact (chain_len _ _ _ _ H8 Hx)]. apply (fd_keep _ _ _ _ F); [unfold MetaPageID; lia|].
    intros ->%list_elem_of_singleton. done. }
  constructor; [|done| |].
  - apply (chain_ext bm bm1); [by rewrite (fd_pages _ _ _ _ F)| |exact H8]. intros x Hx. by apply Hk.
  - intros x Hx [->|Hin]%elem_of_cons; [done|]. by apply (O3 x); [right|].
  - intros x Hx. destruct (Hk x Hx) as [Hv Hl]. symmetry in Hv. rewrite <-(eqv_id _ _ Hl Hv).
    apply O4. by right.
Qed.

(** Freeing other pages leaves a chain alone. *)
Lemma own_chain_frame bm bm' fl freed_ids ids data :
  own_chain bm fl ids data -> freed bm bm' fl freed_ids -> (forall x, x ∈ ids -> x ∉ freed_ids) ->
  own_chain bm' (rev freed_ids ++ fl) ids data.
Proof.
  intros [O1 O2 O3 O4] F Hd.
  assert (Hk : forall x, x ∈ ids -> page_eqv (view bm' x) (view bm x) /\ len (view bm x) = PageSize).
  { intros x Hx. split; [|exact (chain_len _ _ _ _ O1 Hx)].
    destruct (chain_bound _ _ _ x O1 Hx) as [Hb _].
    apply (fd_keep _ _ _ _ F); [unfold MetaPageID; lia|by apply Hd]. }
  constructor; [|done| |].
  - apply (chain_ext bm bm'); [by rewrite (fd_pages _ _ _ _ F)| |exact O1]. intros x Hx. by apply Hk.
  - intros x Hx [Hin|Hin]%elem_of_app; [|by apply (O3 x)].
    apply (Hd x Hx). by apply list_elem_of_In, in_rev, list_elem_of_In.
  - intros x Hx. destruct (Hk x Hx) as [V L]. symmetry in V. rewrite <-(eqv_id _ _ L V). by apply O4.
Qed.

(** The walk frees every page of the chain. *)
Lemma free_chain_ok h : forall ids fuel data bm fl,
  bm_ok bm h -> N.of_nat (size h) + 1 < bm_maxSize bm -> free_list (bm_pages bm) (view bm) fl ->
  own_chain bm fl ids data -> h !! MetaPageID = None -> (forall x, x ∈ ids -> h !! x = None) ->
  (length ids <= fuel)%nat ->
  exists bm', free_chain_loop fuel (hd 0 ids) bm = (Ok tt, bm') /\ bm_ok bm' h /\ freed bm bm' fl ids.
Proof.
  induction ids as [|id ids IH]; intros fuel data bm fl Hok Hsz Hfl Ho H0 Hh Hf.
  { exists bm. split; [by destruct fuel|]. split; [done|]. by eapply freed_nil. }
  destruct fuel as [|fuel]; [simpl in Hf; lia|]. pose proof (oc_chain _ _ _ _ Ho) as Hc. cbn [chain] in Hc.
  destruct Hc as (H1 & H2 & H3 & H4 & _). cbn [hd free_chain_loop].
  rewrite (proj2 (N.eqb_neq _ _)) by lia.
  assert (Hid : h !! id = None) by (apply Hh; by left).
  destruct (fetch_read_new id PageTypeOverflow bm h Hok (proj2 H1) Hid) as (bm1 & E1 & K1 & S1); [right; lia|].
  destruct (unpin_read bm1 h id K1 Hid) as (bm2 & E2 & K2 & S2%same_array_view).
  assert (S : same_view bm bm2) by (by etrans). pose proof S as [[P Q] V].
  pose proof (fd_free _ _ _ _ (freed_nil bm bm2 fl h Hok S Hfl)) as Hfl2. cbn [rev app] in Hfl2.
  assert (Hv : page_eqv (view bm id) (view bm2 id)) by (symmetry; apply V).
  destruct (deallocate_freed bm2 h id fl K2) as (bm3 & E3 & K3 & F3); try done.
  { by rewrite Q. }
  { by rewrite P. }
  { rewrite <-(eqv_id _ _ H2 Hv). apply (oc_self _ _ _ _ Ho). by left. }
  { apply (oc_used _ _ _ _ Ho). by left. }
  assert (F : freed bm bm3 fl [id]).
  { apply (freed_trans bm bm2 bm3 fl [] [id]); [by eapply freed_nil|done]. }
  destruct (own_chain_rest bm bm3 fl id ids data Ho F) as (rest & Ho').
  destruct (IH fuel rest bm3 (id :: fl) K3) as (bm4 & E4 & K4 & F4); try done.
  { rewrite (fd_size _ _ _ _ F). done. }
  { apply (fd_free _ _ _ _ F). }
  { intros x Hx. apply Hh. by right. }
  { simpl in Hf. lia. }
  exists bm4. split; [|split; [done|]].
  - mstep (attempt_ok _ _ _ _ E1).
    mstep (rd_ok bm1 _ id (HRead 1) GetNextOverflowPageID K1 (lookup_insert_eq _ _ _)).
    mstep (Unpin_eq _ _ _ _ _ E2). mstep (ignore_ok _ _ _ _ E3).
    assert (Hn : GetNextOverflowPageID (view bm1 id) = hd 0 ids).
    { rewrite <-H4. symmetry. unfold GetNextOverflowPageID. apply eqv_body; [done| |done]. symmetry. apply S1. }
    rewrite Hn. exact E4.
  - by apply (freed_trans bm bm3 bm4 fl [id] ids).
Qed.

(** [freeOverflowChain] on the metadata of a chain. *)
Lemma freeOverflowChain_ok bm h fl ids data rest :
  bm_ok bm h -> N.of_nat (size h) + 1 < bm_maxSize bm -> free_list (bm_pages bm) (view bm) fl ->
  own_chain bm fl ids data -> len data < 4294967296 -> h !! MetaPageID = None ->
  (forall x, x ∈ ids -> h !! x = None) ->
  exists bm', freeOverflowChain (Slice (chain_metadata (hd 0 ids) (len data)) rest) bm = (Ok tt, bm')
    /\ bm_ok bm' h /\ freed bm bm' fl ids.
Proof.
  intros Hok Hsz Hfl Ho Hl H0 Hh. pose proof (oc_chain _ _ _ _ Ho) as Hc.
  assert (Hhd : hd 0 ids < 4294967296).
  { destruct ids as [|id ids]; [done|]. destruct (chain_bound _ _ _ id Hc) as [[_ Hb] _]; [by left|].
    pose proof (dbf_bound _ (bo_file _ _ Hok)). unfold bm_pages in Hb. simpl. lia. }
  destruct (metadata_fields (hd 0 ids) (len data) rest Hhd Hl) as [E1 _].
  destruct (free_chain_ok h ids (descent_fuel bm + descent_fuel bm) data bm fl) as (bm' & E & R); try done.
  { assert ((length ids <= N.to_nat (bm_pages bm))%nat); [|unfold descent_fuel; lia].
    apply nodup_below; [apply Ho|]. intros x Hx. by destruct (chain_bound _ _ _ x Hc Hx) as [[_ ?] _]. }
  exists bm'. split; [|done]. unfold freeOverflowChain. rewrite E1.
  unfold mbind, M_bind, pure, gets. exact E.
Qed.
End wr.

(** ** Properties *)

Section overflow_properties.
Context `{MapRange}.

(** C14: a non-empty value, of any length that 32-bit page ids and lengths allow,
    survives its chain of overflow pages: what [createOverflowChain] stores,
    [readOverflowChain] reads back from the metadata it returned, whatever
    follows the metadata in the leaf; the pages come from the free list or the
    end of the file, and every other page in use keeps its contents. *)
Theorem overflow_roundtrip bm fl value rest :
  bm_ok bm ∅ -> value <> [] -> 2 < bm_maxSize bm ->
  free_list (bm_pages bm) (view bm) fl -> bm_pages bm + len value < 4294967296 ->
  exists metadata ids fl' bm' bm'',
    createOverflowChain value bm = (Ok metadata, bm')
    /\ chained bm bm' None value ids fl fl'
    /\ readOverflowChain (Slice metadata rest) bm' = (Ok value, bm'') /\ bm_ok bm'' ∅ /\ same_view bm' bm''.
Proof.
  intros Hok Hne Hsz Hfl Hb.
  destruct (createOverflowChain_ok bm ∅ fl value Hok Hne Hsz Hfl Hb (lookup_empty _)
    (fun x _ => lookup_empty x)) as (ids & fl' & bm' & E & K & CD).
  pose (kv := NewKVCell KEY_OVERFLOW_FLAG [] (chain_metadata (hd 0 ids) (len value))).
  destruct (cell_value_ok bm' ∅ kv rest value K) as (bm'' & E' & K' & S').
  - rewrite (cd_size _ _ _ _ _ _ _ CD). change (N.of_nat (size ∅)) with 0. lia.
  - unfold cell_holds. cbn. exists ids. split; [done|]. split; [lia|].
    split; [apply CD|apply CD].
  - intros. apply lookup_empty.
  - eexists _, ids, fl', bm', bm''. by split_and!.
Qed.

(** C22: the free list is a stack: a deallocated page goes on top of it and is the
    one the next allocation hands out, initialised for its new type, and the
    list is then what it was.  Both operations leave the root pointer and the
    contents of every page but that one and the meta page alone, and the file
    does not grow. *)
Theorem free_list_is_stack bm fl id t :
  bm_ok bm ∅ -> 1 < bm_maxSize bm -> t < 256 ->
  free_list (bm_pages bm) (view bm) fl -> 0 < id < bm_pages bm -> GetPageID (view bm id) = id ->
  id ∉ fl ->
  exists bm' bm'', deallocatePage id bm = (Ok tt, bm') /\ bm_ok bm' ∅
    /\ free_list (bm_pages bm') (view bm') (id :: fl) /\ bm_pages bm' = bm_pages bm
    /\ GetRootPageID (view bm' MetaPageID) = GetRootPageID (view bm MetaPageID)
    /\ (forall x, x <> MetaPageID -> x <> id -> page_eqv (view bm' x) (view bm x))
    /\ allocatePage t bm' = (Ok id, bm'') /\ bm_ok bm'' ∅
    /\ free_list (bm_pages bm'') (view bm'') fl /\ bm_pages bm'' = bm_pages bm
    /\ GetRootPageID (view bm'' MetaPageID) = GetRootPageID (view bm MetaPageID)
    /\ GetPageType (view bm'' id) = t /\ GetPageID (view bm'' id) = id
    /\ (forall x, x <> MetaPageID -> x <> id -> page_eqv (view bm'' x) (view bm x)).
Proof.
  intros Hok Hsz Ht Hfl Hid Hself Hin.
  destruct (deallocate_freed bm ∅ id fl Hok Hsz Hfl Hid Hself Hin (lookup_empty _) (lookup_empty _))
    as (bm' & E & K & [F1 F2 F3 F4 F5]). cbn [rev app] in F1.
  destruct (allocate_pop bm' ∅ t id fl K) as (bm'' & E' & K' & B');
    [by rewrite F3|done|apply lookup_empty|apply lookup_empty|].
  destruct (allocated_popped bm' bm'' ∅ t id fl K F1 Ht B') as [_ _ _ A4 A5 A6 _ _ A9 _].
  assert (V' : forall x, x <> MetaPageID -> x <> id -> page_eqv (view bm' x) (view bm x)).
  { intros x Hx Hxi. apply F5; [done|]. by intros ?%list_elem_of_singleton. }
  exists bm', bm''. do 9 (split; [done|]). split; [by rewrite (bc_pages _ _ _ _ B')|].
  split; [by rewrite A9|]. do 2 (split; [done|]).
  intros x Hx Hxi. etrans; [apply (bc_view _ _ _ _ B')|]. unfold popped. rewrite !put_ne by done. by apply V'.
Qed.

(** [allocatePage] hands out a page of the asked type that nobody uses, from
    the free list or else from the end of the file, and keeps the free list
    well-formed, the root pointer, and the contents of every page in use. *)
Theorem allocate_is_fresh bm t fl :
  bm_ok bm ∅ -> 1 < bm_maxSize bm -> t < 256 ->
  free_list (bm_pages bm) (view bm) fl -> bm_pages bm + 1 < 4294967296 ->
  exists id fl' bm', allocatePage t bm = (Ok id, bm') /\ bm_ok bm' ∅
    /\ allocated bm bm' t id fl fl'.
Proof.
  intros Hok Hsz Ht Hfl Hb.
  destruct (allocate_any bm ∅ t fl Hok Hsz Ht Hfl Hb (lookup_empty _) (fun x _ => lookup_empty x))
    as (id & fl' & bm' & E & K & _ & AL).
  by exists id, fl', bm'.
Qed.
End overflow_properties.

Lemma demo_free_list : free_list (bm_pages demo_pool) (view demo_pool) [2].
Proof.
  constructor; [by vm_compute|by apply NoDup_singleton|].
  cbn [free_pages]. repeat split; by vm_compute.
Qed.

Lemma overflow_roundtrip_witness :
  exists metadata bm' bm'', @createOverflowChain canonical_range [x61; x62; x63] demo_pool = (Ok metadata, bm')
    /\ @readOverflowChain canonical_range (slice_of metadata) bm' = (Ok [x61; x62; x63], bm'').
Proof.
  destruct (@overflow_roundtrip canonical_range demo_pool [2] [x61; x62; x63] [] demo_ok
    ltac:(discriminate) eq_refl demo_free_list eq_refl) as (m & ids & fl' & bm' & bm'' & E1 & _ & E2 & _).
  exists m, bm', bm''. split; [exact E1|exact E2].
Defined.

Lemma free_list_is_stack_witness :
  exists bm' bm'', @deallocatePage canonical_range 1 demo_pool = (Ok tt, bm')
    /\ @allocatePage canonical_range PageTypeOverflow bm' = (Ok 1, bm'').
Proof.
  destruct (@free_list_is_stack canonical_range demo_pool [2] 1 PageTypeOverflow demo_ok eq_refl eq_refl
    demo_free_list) as (bm' & bm'' & E1 & _ & _ & _ & _ & _ & E2 & _).
  - split; vm_compute; reflexivity.
  - vm_compute. reflexivity.
  - intros E. apply list_elem_of_singleton in E. discriminate E.
  - exists bm', bm''. split; [exact E1|exact E2].
Defined.

Lemma allocate_is_fresh_witness :
  exists id bm', @allocatePage canonical_range PageTypeLeaf demo_pool = (Ok id, bm').
Proof.
  destruct (@allocate_is_fresh canonical_range demo_pool PageTypeLeaf [2] demo_ok eq_refl eq_refl
    demo_free_list eq_refl) as (id & fl' & bm' & E & _).
  exists id, bm'. exact E.
Defined.
