(* ===== verification/Upsert.v ===== *)
(** * Writes to the tree ([internal/storage/btree.go], [recovery.go])

    Inserting, updating and deleting versions ([upsertCell]), leaf and
    internal splits, and the end of a transaction ([Commit], [Rollback]).
    This is the code that also writes the root pointer and the transaction
    table, so it runs on the state of the whole tree. *)

From S2P Require Import Prelude Crc Cell Page Pager Wal Txn Buffer Tree Overflow.

(** The tree, and the transaction manager its callers pass ([None] is nil). *)
Record BTree := mkTree {
  t_bm : BufferManager;
  t_root : N;
  t_txm : option TransactionManager
}.

Definition set_bm (bm : BufferManager) (t : BTree) := mkTree bm (t_root t) (t_txm t).
Definition set_root (id : N) (t : BTree) := mkTree (t_bm t) id (t_txm t).
Definition set_txm (m : option TransactionManager) (t : BTree) := mkTree (t_bm t) (t_root t) m.

Definition on_bm {A} (m : M BufferManager A) : M BTree A := zoom t_bm (fun bm t => set_bm bm t) m.

(** A method call on [txMgr]: nil panics. *)
Definition on_txm (f : TransactionManager -> TransactionManager) : M BTree unit := fun t =>
  match t_txm t with
  | Some m => (Ok tt, set_txm (Some (f m)) t)
  | None => (Panic, t)
  end.
Definition get_txm {A} (f : TransactionManager -> A) : M BTree A := fun t =>
  match t_txm t with
  | Some m => (Ok (f m), t)
  | None => (Panic, t)
  end.

(** ** Sorting cells

    [sort.Slice] decodes the keys of the cells it compares: it compares
    nothing when there are fewer than two, and every cell otherwise. *)
Definition kv_key (c : bytes) : outcome bytes :=
  kv ← DeserializeKVCell (slice_of c); Ok (kvKey kv).
Definition kc_key (c : bytes) : outcome bytes :=
  k ← DeserializeKeyCell (slice_of c); Ok (kcKey k).

(** The order of routing keys: the empty key is the smallest. *)
Definition route_less (ki kj : bytes) : bool :=
  if len ki =? 0 then true else if len kj =? 0 then false else bytes_ltb ki kj.

Definition sort_by (key : bytes -> outcome bytes) (less : bytes -> bytes -> bool)
    (cells : list bytes) : outcome (list bytes) :=
  match cells with
  | [] | [_] => Ok cells
  | _ =>
      keys ← omapM key cells;
      Ok ((sort_slice (fun a b => less a.1 b.1) (zip keys cells)).*2)
  end.

Definition sort_kv : list bytes -> outcome (list bytes) := sort_by kv_key bytes_ltb.
Definition sort_routing : list bytes -> outcome (list bytes) := sort_by kc_key route_less.

(** ** Physiological redo and undo *)

(** The cells of the page after the operation. *)
Definition redo_cells (key value : bytes) (opType : N) (cs : list (bytes * KVCell)) : list bytes :=
  let flag := if opType =? LogOpDelete then KEY_DELETED_FLAG else 0 in
  let cellBytes := KVCell_Serialize (NewKVCell flag key value) in
  let '(cells, keyExists) :=
    foldl (fun '(cells, keyExists) '(c, kv) =>
      if bytes_eqb (kvKey kv) key
      then (if negb (opType =? LogOpUndoInsert) then cells ++ [cellBytes] else cells, true)
      else (cells ++ [c], keyExists)) ([], false) cs in
  if negb keyExists && negb (opType =? LogOpUndoInsert) then cells ++ [cellBytes] else cells.

(** The cells of a leaf with their decoding, in slot order. *)
Definition leaf_cells (p : page) : outcome (list (bytes * KVCell)) :=
  slots ← all_slots p;
  kvs ← omapM DeserializeKVCell slots;
  Ok (zip (sl_data <$> slots) kvs).

Definition redoUpsertOnPage (key value : bytes) (opType : N) : M page unit :=
  p ← gets id;
  cs ← pure (leaf_cells p);
  let cells := redo_cells key value opType cs in
  _ ← modify (Init (GetPageType p));
  insert_cells cells.

Section upsert.
Context `{MapRange}.

(** The part of [Rollback] and [Recover] that undoes one record: the page,
    then a compensation record.  A page that cannot be fetched is skipped. *)
Definition undo_record (txid : N) (rec : LogRecord) : M BufferManager unit :=
  if (rOpType rec =? LogOpInsert) || (rOpType rec =? LogOpDelete) then
    r ← attempt (FetchPageForWrite (rPageID rec) PageTypeLeaf);
    match r with
    | inr _ => mret tt
    | inl _ =>
        let inverseOp := if rOpType rec =? LogOpDelete then LogOpInsert else LogOpUndoInsert in
        _ ← on_page (rPageID rec) (redoUpsertOnPage (rKey rec) (rValue rec) inverseOp);
        clrLSN ← Append_ txid (rPageID rec) (rPrevLSN rec) LogOpCLR (rKey rec) (rValue rec);
        _ ← wr (rPageID rec) (SetLSN clrLSN);
        Unpin (rPageID rec) true true
    end
  else mret tt.

(** [tree.wal.ReadRecord]: a nil log panics. *)
Definition read_log (lsn : N) : M BufferManager (LogRecord * N) :=
  walOn ← gets bm_walOn;
  if walOn : bool then on_wal (ReadRecord lsn) else panic.

(** The loop of [Rollback] over the chain of previous LSNs.  LSNs are
    offsets in the log: a chain longer than the log repeats one. *)
Fixpoint rollback_loop (fuel : nat) (txid lsn : N) : M BufferManager unit :=
  if lsn =? 0 then mret tt else
  match fuel with
  | O => hang
  | S fuel' =>
      '(rec, _) ← read_log lsn;
      _ ← undo_record txid rec;
      rollback_loop fuel' txid (rPrevLSN rec)
  end.

Definition log_fuel (bm : BufferManager) : nat := S (length (f_data (w_file (bm_wal bm)))).

Definition Rollback (txid : N) : M BTree unit :=
  _ ← on_txm (SetStatus txid TXN_ROLLINGBACK);
  lsn ← get_txm (GetLastLSN txid);
  _ ← on_bm (fuel ← gets log_fuel; rollback_loop fuel txid lsn);
  walOn ← gets (fun t => bm_walOn (t_bm t));
  _ ← (if walOn : bool then on_bm (ignore (on_wal (Append txid 0 0 LogOpAbort [] [])))
       else mret tt);
  on_txm (SetStatus txid TXN_ROLLEDBACK).

Definition Commit (txid : N) : M BTree unit :=
  walOn ← gets (fun t => bm_walOn (t_bm t));
  _ ← (if walOn : bool then
         prevLSN ← get_txm (GetLastLSN txid);
         lsn ← on_bm (on_wal (Append txid 0 prevLSN LogOpCommit [] []));
         on_txm (SetLastLSN txid lsn)
       else mret tt);
  on_txm (SetStatus txid TXN_COMMITED).

(** ** Splits *)

(** The page behind a fetch whose error the code ignores: using the nil
    page panics. *)
Definition must {A} (m : M BufferManager A) : M BufferManager A :=
  r ← attempt m;
  match r with inl a => mret a | inr _ => panic end.

(** The data of every slot of a pinned page. *)
Definition slot_data (page : N) : M BufferManager (list bytes) :=
  slots ← rd page all_slots;
  slots ← pure slots;
  mret (sl_data <$> slots).

(** A new root above the two halves of the old one. *)
Definition grow_root (leftChildID : N) (routingCell : bytes) : M BTree unit :=
  newRootID ← on_bm (allocatePage_ PageTypeInternal);
  _ ← on_bm (must (FetchPageForWrite newRootID PageTypeInternal));
  let leftPointer := KeyCell_Serialize (NewKeyCell leftChildID []) in
  _ ← on_bm (on_page newRootID (ignore (Insert leftPointer)));
  _ ← on_bm (on_page newRootID (ignore (Insert routingCell)));
  _ ← modify (set_root newRootID);
  _ ← on_bm (log_page newRootID newRootID);
  r ← on_bm (attempt (FetchPageForWrite MetaPageID PageTypeMeta));
  _ ← match r with
      | inr _ => mret tt
      | inl _ =>
          _ ← on_bm (wr MetaPageID (SetRootPageID newRootID));
          _ ← on_bm (log_page MetaPageID MetaPageID);
          on_bm (Unpin MetaPageID true true)
      end;
  on_bm (UnpinPage newRootID true true).

(** [splitInternal] up to its last line: the node's id and the routing cell
    that go to the parent. *)
Definition splitInternal (internalNode : N) (newCell : bytes) : M BufferManager (N * bytes) :=
  cells ← slot_data internalNode;
  cells ← pure (sort_routing (cells ++ [newCell]));
  _ ← wr internalNode (Init PageTypeInternal);
  newInternalID ← allocatePage_ PageTypeInternal;
  _ ← must (FetchPageForWrite newInternalID PageTypeInternal);
  let mid := (length cells / 2)%nat in
  _ ← on_page internalNode (insert_cells (take mid cells));
  midCell ← pure (match cells !! mid with
                  | Some c => DeserializeKeyCell (slice_of c)
                  | None => Panic
                  end);
  let routingKey := kcKey midCell in
  let firstRightCell := KeyCell_Serialize (NewKeyCell (kcChild midCell) []) in
  _ ← on_page newInternalID (ignore (Insert firstRightCell));
  _ ← on_page newInternalID (insert_cells (drop (S mid) cells));
  let routingCell := KeyCell_Serialize (NewKeyCell newInternalID routingKey) in
  nodeID ← rd internalNode GetPageID;
  _ ← log_page internalNode nodeID;
  _ ← log_page newInternalID newInternalID;
  nodeID ← rd internalNode GetPageID;
  _ ← Unpin nodeID true true;
  _ ← Unpin newInternalID true true;
  nodeID ← rd internalNode GetPageID;
  mret (nodeID, routingCell).

(** [path] is the stack of parents, the next one first. *)
Fixpoint insertIntoParent (path : list N) (leftChildID : N) (routingCell : bytes)
    : M BTree unit :=
  match path with
  | [] => grow_root leftChildID routingCell
  | parentID :: path =>
      _ ← on_bm (FetchPageForWrite parentID PageTypeInternal);
      r ← on_bm (attempt (on_page parentID (Insert routingCell)));
      match r with
      | inl _ => on_bm (
          cells ← slot_data parentID;
          cells ← pure (sort_routing cells);
          _ ← wr parentID (Init PageTypeInternal);
          _ ← on_page parentID (insert_cells cells);
          _ ← log_page parentID parentID;
          UnpinPage parentID true true)
      | inr err =>
          if bool_decide (error_string err = "page full") then
            '(leftID, routingCell) ← on_bm (splitInternal parentID routingCell);
            insertIntoParent path leftID routingCell
          else
            _ ← on_bm (Unpin parentID false true);
            throw err
      end
  end.

Definition splitLeafCells (leaf : N) (path : list N) (cells : list bytes) : M BTree unit :=
  cells ← pure (sort_kv cells);
  _ ← on_bm (wr leaf (Init PageTypeLeaf));
  newLeafID ← on_bm (allocatePage PageTypeLeaf);
  _ ← on_bm (FetchPageForWrite newLeafID PageTypeLeaf);
  let mid := (length cells / 2)%nat in
  _ ← on_bm (on_page leaf (insert_cells (take mid cells)));
  _ ← on_bm (on_page newLeafID (insert_cells (drop mid cells)));
  routingKey ← pure (match cells !! mid with Some c => kv_key c | None => Panic end);
  let routingCell := KeyCell_Serialize (NewKeyCell newLeafID routingKey) in
  leafID ← on_bm (rd leaf GetPageID);
  _ ← on_bm (log_page leaf leafID);
  newID ← on_bm (rd newLeafID GetPageID);
  _ ← on_bm (log_page newLeafID newID);
  leafID ← on_bm (rd leaf GetPageID);
  _ ← on_bm (Unpin leafID true true);
  _ ← on_bm (Unpin newLeafID true true);
  leafID ← on_bm (rd leaf GetPageID);
  insertIntoParent (rev path) leafID routingCell.

(** ** Upsert *)

(** First-updater-wins: the conflict a stored version raises. *)
Definition ww_conflict (txMgr : option TransactionManager) (key kvKey : bytes) : option error :=
  let '(writerUserKey, writerTxID) := ExtractMVCCKey key in
  let '(kvUserKey, kvTxID) := ExtractMVCCKey kvKey in
  match txMgr with
  | None => None
  | Some t =>
      if bytes_eqb kvUserKey writerUserKey && negb (kvTxID =? writerTxID) then
        let status := GetStatus kvTxID t in
        if bool_decide (status = TXN_RUNNING) then Some (ErrWWActive writerUserKey kvTxID)
        else if bool_decide (status = TXN_COMMITED) && (writerTxID <? kvTxID)
             then Some (ErrWWNewer writerUserKey kvTxID)
        else None
      else None
  end.

(** The loop over the slots: the cells to keep, whether the key was among
    them, and the space they need. *)
Fixpoint upsert_loop (leaf : N) (key cellBytes : bytes) (ids : list N)
    (acc : list bytes * bool * N) : M BTree (list bytes * bool * N) :=
  match ids with
  | [] => mret acc
  | i :: ids' =>
      let '(cells, keyExists, totalSpaceNeeded) := acc in
      c ← on_bm (slot leaf i);
      '(kv, metadata) ← pure (decode_kv c);
      txMgr ← gets t_txm;
      _ ← match ww_conflict txMgr key (kvKey kv) with
          | Some err =>
              leafID ← on_bm (rd leaf GetPageID);
              _ ← on_bm (Unpin leafID false true);
              throw err
          | None => mret tt
          end;
      if bytes_eqb (kvKey kv) key then
        _ ← (if IsOverflow kv then on_bm (freeOverflowChain metadata) else mret tt);
        upsert_loop leaf key cellBytes ids'
          (cells ++ [cellBytes], true, totalSpaceNeeded + (SlotSize + len cellBytes))
      else
        upsert_loop leaf key cellBytes ids'
          (cells ++ [sl_data c], keyExists, totalSpaceNeeded + (SlotSize + len (sl_data c)))
  end.

Definition MaxInlineValueSize : N := 1024.

(** The log record of the write, which becomes the transaction's last. *)
Definition log_upsert (leaf : N) (key value : bytes) (flag : N) : M BTree unit :=
  walOn ← gets (fun t => bm_walOn (t_bm t));
  if walOn : bool then
    let '(_, writerTxID) := ExtractMVCCKey key in
    let op := if flag =? KEY_DELETED_FLAG then LogOpDelete else LogOpInsert in
    txMgr ← gets t_txm;
    let prevLSN := match txMgr with Some t => GetLastLSN writerTxID t | None => 0 end in
    leafID ← on_bm (rd leaf GetPageID);
    r ← on_bm (attempt (on_wal (Append writerTxID leafID prevLSN op key value)));
    match r with
    | inr errAppend =>
        leafID ← on_bm (rd leaf GetPageID);
        _ ← on_bm (Unpin leafID true true);
        throw errAppend
    | inl lsn =>
        _ ← (match txMgr with
             | Some _ => on_txm (SetLastLSN writerTxID lsn)
             | None => mret tt
             end);
        on_bm (wr leaf (SetLSN lsn))
    end
  else mret tt.

Definition upsertCell (key value : bytes) (flag : N) : M BTree unit :=
  root ← gets t_root;
  '(leaf, path) ← on_bm (findLeafPage root key true);
  ids ← on_bm (rd leaf slot_ids);
  '(value, flag) ← (if MaxInlineValueSize <? len value then
                      metadata ← on_bm (createOverflowChain value);
                      mret (metadata, N.lor flag KEY_OVERFLOW_FLAG)
                    else mret (value, flag));
  let cellBytes := KVCell_Serialize (NewKVCell flag key value) in
  '(cells, keyExists, totalSpaceNeeded) ← upsert_loop leaf key cellBytes ids ([], false, HeaderSize);
  let '(cells, totalSpaceNeeded) :=
    if keyExists : bool then (cells, totalSpaceNeeded)
    else (cells ++ [cellBytes], totalSpaceNeeded + (SlotSize + len cellBytes)) in
  if totalSpaceNeeded <=? PageSize then
    cells ← pure (sort_kv cells);
    _ ← on_bm (wr leaf (Init PageTypeLeaf));
    _ ← on_bm (on_page leaf (insert_cells cells));
    _ ← log_upsert leaf key value flag;
    leafID ← on_bm (rd leaf GetPageID);
    on_bm (UnpinPage leafID true true)
  else splitLeafCells leaf path cells.

Definition BTree_Insert (key value : bytes) : M BTree unit := upsertCell key value 0.
Definition BTree_Delete (key : bytes) : M BTree unit := upsertCell key [] KEY_DELETED_FLAG.
End upsert.

(** * Lemmas *)

(** ** Sorting encoded cells *)

Definition sort_cells_by {A} (key : A -> bytes) (less : bytes -> bytes -> bool) : list A -> list A :=
  sort_slice (fun a b => less (key a) (key b)).
Definition sort_kvs : list KVCell -> list KVCell := sort_cells_by kvKey bytes_ltb.

Lemma sort_by_encoded `{Codec A} (get : bytes -> outcome bytes) (key : A -> bytes) less (xs : list A) :
  (forall x, x ∈ xs -> get (encode x) = Ok (key x)) ->
  sort_by get less (encode <$> xs) = Ok (encode <$> sort_cells_by key less xs).
Proof.
  intros Hget. destruct xs as [|x [|y xs]]; [done|done|].
  set (l := x :: y :: xs) in *. unfold sort_by.
  change (encode <$> l) with (encode x :: encode y :: (encode <$> xs)).
  change (encode x :: encode y :: (encode <$> xs)) with (encode <$> l).
  assert (Hm : omapM get (encode <$> l) = Ok (key <$> l)).
  { clearbody l. clear -Hget. induction l as [|x l IH]; [done|]. cbn.
    rewrite Hget by (by left). cbn. rewrite IH; [done|]. intros z Hz. apply Hget. by right. }
  rewrite Hm. cbn [mbind outcome_bind].
  assert (Hz : zip (key <$> l) (encode <$> l) = (fun z => (key z, encode z)) <$> l).
  { clearbody l. clear. induction l as [|x l IH]; [done|]. cbn. by f_equal. }
  rewrite Hz, sort_slice_fmap, <-list_fmap_compose. done.
Qed.

Lemma kv_key_encode kv : kv_fits kv -> kv_key (KVCell_Serialize kv) = Ok (kvKey kv).
Proof. intros Hf. unfold kv_key, slice_of. by rewrite kv_decode_encode. Qed.

Lemma sort_kv_encoded kvs :
  Forall kv_fits kvs -> sort_kv (KVCell_Serialize <$> kvs) = Ok (KVCell_Serialize <$> sort_kvs kvs).
Proof.
  intros Hf. apply (@sort_by_encoded KVCell kv_codec kv_key kvKey bytes_ltb kvs). intros kv Hkv.
  apply kv_key_encode. rewrite Forall_forall in Hf. by apply Hf.
Qed.

Lemma sort_kvs_perm kvs : sort_kvs kvs ≡ₚ kvs.
Proof. apply sort_slice_perm. Qed.

(** ** The cells after an upsert *)

Definition same_key (key : bytes) (kv : KVCell) : bool := bytes_eqb (kvKey kv) key.
Definition replace_cell (new kv : KVCell) : KVCell := if same_key (kvKey new) kv then new else kv.

Definition upserted (new : KVCell) (kvs : list KVCell) : list KVCell :=
  sort_kvs (if existsb (same_key (kvKey new)) kvs then replace_cell new <$> kvs else kvs ++ [new]).

(** A leaf's cells, in strictly increasing key order. *)
Definition sorted_kvs (kvs : list KVCell) : Prop :=
  StronglySorted (fun a b => bytes_lt (kvKey a) (kvKey b)) kvs.

Lemma sorted_lookup kvs i j a b :
  sorted_kvs kvs -> kvs !! i = Some a -> kvs !! j = Some b -> (i < j)%nat ->
  bytes_lt (kvKey a) (kvKey b).
Proof.
  intros Hs. revert i j. induction Hs as [|x l Hl IH Hx]; [done|].
  intros [|i] [|j] Ha Hb Hij; cbn in *; try lia; simplify_eq.
  - rewrite Forall_forall in Hx. apply Hx. by eapply list_elem_of_lookup_2.
  - apply (IH i j); try done. lia.
Qed.

Lemma key_inj kvs a b : sorted_kvs kvs -> a ∈ kvs -> b ∈ kvs -> kvKey a = kvKey b -> a = b.
Proof.
  intros Hs (i & Hi)%list_elem_of_lookup (j & Hj)%list_elem_of_lookup E.
  destruct (lt_eq_lt_dec i j) as [[Hl| ->]|Hl]; [|congruence|].
  - destruct (irreflexivity bytes_lt (kvKey a)). rewrite E at 2. by eapply (sorted_lookup kvs i j).
  - destruct (irreflexivity bytes_lt (kvKey a)). rewrite E at 1. by eapply (sorted_lookup kvs j i).
Qed.

Lemma same_key_iff key kv : same_key key kv = true <-> kvKey kv = key.
Proof. apply bytes_eqb_eq. Qed.

Lemma replace_keys new (kvs : list KVCell) : kvKey <$> (replace_cell new <$> kvs) = kvKey <$> kvs.
Proof.
  rewrite <-list_fmap_compose. apply list_fmap_ext. intros _ kv _. unfold replace_cell. cbn.
  destruct (same_key (kvKey new) kv) eqn:E; [|done]. by apply same_key_iff in E.
Qed.

(** An upsert keeps the leaf sorted with distinct keys, puts the new cell in,
    and keeps exactly the cells with other keys. *)
Lemma upserted_sorted new kvs : sorted_kvs kvs -> sorted_kvs (upserted new kvs).
Proof.
  intros Hs. apply sorted_keys_nodup in Hs. apply key_sort_sorted.
  destruct (existsb (same_key (kvKey new)) kvs) eqn:E.
  - by rewrite replace_keys.
  - rewrite fmap_app. apply NoDup_app. split; [done|]. split; [|by apply NoDup_singleton].
    intros k Hk ->%list_elem_of_singleton. apply list_elem_of_fmap in Hk as (kv & Ek & Hin).
    rewrite <-not_true_iff_false, existsb_exists in E. apply E. exists kv.
    split; [by apply list_elem_of_In|]. by apply same_key_iff.
Qed.

Lemma elem_of_upserted new kvs kv :
  kv ∈ upserted new kvs <-> kv = new \/ kv ∈ kvs /\ kvKey kv <> kvKey new.
Proof.
  unfold upserted. rewrite sort_kvs_perm.
  destruct (existsb (same_key (kvKey new)) kvs) eqn:E.
  - apply existsb_exists in E as (old & Hin & Hk%same_key_iff). apply list_elem_of_In in Hin.
    rewrite list_elem_of_fmap. split.
    + intros (x & -> & Hx). unfold replace_cell.
      destruct (same_key (kvKey new) x) eqn:Ex; [by left|]. right. split; [done|].
      rewrite <-same_key_iff. by rewrite Ex.
    + intros [->|[Hx Hne]].
      * exists old. split; [|done]. unfold replace_cell. by rewrite (proj2 (same_key_iff _ _) Hk).
      * exists kv. split; [|done]. unfold replace_cell. destruct (same_key (kvKey new) kv) eqn:Ex; [|done].
        by apply same_key_iff in Ex.
  - rewrite elem_of_app, list_elem_of_singleton. split; [|intros [->|[? _]]; [by right|by left]].
    intros [Hin| ->]; [|by left]. right. split; [done|]. intros Hk.
    rewrite <-not_true_iff_false, existsb_exists in E. apply E. exists kv.
    split; [by apply list_elem_of_In|]. by apply same_key_iff.
Qed.

Lemma upserted_fits new kvs : kv_fits new -> Forall kv_fits kvs -> Forall kv_fits (upserted new kvs).
Proof.
  intros Hn Hf. apply Forall_forall. intros kv Hkv. apply elem_of_upserted in Hkv as [->|[Hin _]]; [done|].
  rewrite Forall_forall in Hf. by apply Hf.
Qed.

(** The space of cells does not depend on their order. *)
#[global] Instance space_proper : Proper (Permutation ==> eq) space.
Proof. intros cs cs'. unfold space. induction 1; simpl; lia. Qed.

(** What the loop collects from the cells [kvs] when none of them conflicts. *)
Definition collected (new : KVCell) (kvs : list KVCell) (acc : list bytes * bool * N)
    : list bytes * bool * N :=
  let '(cells, keyExists, total) := acc in
  (cells ++ (KVCell_Serialize <$> (replace_cell new <$> kvs)),
   keyExists || existsb (same_key (kvKey new)) kvs,
   total + space (KVCell_Serialize <$> (replace_cell new <$> kvs))).

Lemma space_app a b : space (a ++ b) = space a + space b.
Proof. unfold space. induction a as [|c a IH]; [done|]. cbn. rewrite IH. lia. Qed.

Lemma space_elem cs c : c ∈ cs -> len c <= space cs.
Proof. induction 1 as [c cs|c d cs _ IH]; unfold space in *; cbn; lia. Qed.

Lemma replace_absent new (kvs : list KVCell) :
  existsb (same_key (kvKey new)) kvs = false -> replace_cell new <$> kvs = kvs.
Proof.
  intros E. rewrite <-(list_fmap_id kvs) at 2. apply list_fmap_ext. intros i kv Hkv. unfold replace_cell.
  destruct (same_key (kvKey new) kv) eqn:Ek; [|done].
  rewrite <-not_true_iff_false, existsb_exists in E. destruct E. exists kv. split; [|done].
  apply list_elem_of_In. by eapply list_elem_of_lookup_2.
Qed.

(** The space the leaf needs once [key] has a cell with [n] bytes of value. *)
Definition cell_space (key : bytes) (n : N) : N := SlotSize + (5 + len key + n).
Definition leaf_space (key : bytes) (n : N) (kvs : list KVCell) : N :=
  foldr (fun kv acc =>
      (if same_key key kv then cell_space key n else SlotSize + KVCell_Size kv) + acc)
    (HeaderSize + if existsb (same_key key) kvs then 0 else cell_space key n) kvs.

Lemma replaced_space new kvs z :
  foldr (fun kv acc =>
    (if same_key (kvKey new) kv then cell_space (kvKey new) (len (kvValue new))
     else SlotSize + KVCell_Size kv) + acc) z kvs
  = z + space (KVCell_Serialize <$> (replace_cell new <$> kvs)).
Proof.
  induction kvs as [|kv kvs IH]; [cbn; lia|]. cbn [foldr fmap list_fmap space].
  rewrite IH, len_kv_serialize. unfold replace_cell, cell_space.
  destruct (same_key (kvKey new) kv); unfold space, KVCell_Size; lia.
Qed.

Lemma upserted_space new kvs :
  HeaderSize + space (KVCell_Serialize <$> upserted new kvs)
  = leaf_space (kvKey new) (len (kvValue new)) kvs.
Proof.
  unfold leaf_space. rewrite replaced_space. unfold upserted.
  rewrite sort_kvs_perm.
  destruct (existsb (same_key (kvKey new)) kvs) eqn:E; [lia|].
  rewrite fmap_app, space_app. cbn [fmap list_fmap].
  rewrite (replace_absent _ _ E). cbn [space foldr]. rewrite len_kv_serialize. unfold cell_space, space, KVCell_Size. lia.
Qed.

(** The collected cells, completed with the new one when its key is new. *)
Lemma collected_all new kvs :
  let '(cells, keyExists, total) := collected new kvs ([], false, HeaderSize) in
  (if keyExists : bool then (cells, total)
   else (cells ++ [KVCell_Serialize new], total + (SlotSize + len (KVCell_Serialize new))))
  = (KVCell_Serialize <$> (if existsb (same_key (kvKey new)) kvs then replace_cell new <$> kvs
       else kvs ++ [new]),
     leaf_space (kvKey new) (len (kvValue new)) kvs).
Proof.
  unfold collected. cbn [app orb]. unfold leaf_space. rewrite replaced_space.
  destruct (existsb (same_key (kvKey new)) kvs) eqn:E.
  - done.
  - rewrite (replace_absent _ _ E), fmap_app. f_equal. rewrite len_kv_serialize. unfold cell_space, KVCell_Size. lia.
Qed.

(** Cells that fit the leaf fit its page. *)
Lemma room_fits new kvs :
  Forall kv_fits kvs -> kvFlag new < 256 ->
  leaf_space (kvKey new) (len (kvValue new)) kvs <= PageSize ->
  Forall kv_fits (upserted new kvs) /\ space (KVCell_Serialize <$> upserted new kvs) <= 4064.
Proof.
  intros Hf Hfg Hroom. pose proof (upserted_space new kvs) as Hsp.
  split; [|unfold HeaderSize, PageSize in *; lia].
  apply upserted_fits; [|done]. split; [|done].
  assert (Hin : new ∈ upserted new kvs) by (apply elem_of_upserted; by left).
  pose proof (space_elem (KVCell_Serialize <$> upserted new kvs) (KVCell_Serialize new)
    (list_elem_of_fmap_2 _ _ _ Hin)) as Hle. rewrite len_kv_serialize in Hle.
  unfold HeaderSize, PageSize in *. lia.
Qed.

(** ** Physiological redo and undo *)

(** The cells a redo or undo record leaves. *)
Definition op_cell (key value : bytes) (opType : N) : KVCell :=
  NewKVCell (if opType =? LogOpDelete then KEY_DELETED_FLAG else 0) key value.

Definition redone (key value : bytes) (opType : N) (kvs : list KVCell) : list KVCell :=
  if opType =? LogOpUndoInsert then filter (fun kv => kvKey kv <> key) kvs
  else if existsb (same_key key) kvs then replace_cell (op_cell key value opType) <$> kvs
  else kvs ++ [op_cell key value opType].

Lemma leaf_cells_stores p kvs :
  stores p kvs -> leaf_cells p = Ok ((fun kv => (KVCell_Serialize kv, kv)) <$> kvs).
Proof.
  intros Hs. destruct (stores_decode p kvs Hs) as (slots & E1 & E2 & E3). unfold leaf_cells.
  rewrite E1. cbn [mbind outcome_bind].
  change (omapM DeserializeKVCell slots) with (omapM decode slots). rewrite E3. cbn [mbind outcome_bind].
  rewrite E2. f_equal. clear. induction kvs as [|kv kvs IH]; [done|]. cbn. by f_equal.
Qed.

Lemma redo_fold key value op kvs : forall cells e,
  foldl (fun '(cells, keyExists) '(c, kv) =>
      if bytes_eqb (kvKey kv) key
      then (if negb (op =? LogOpUndoInsert)
            then cells ++ [KVCell_Serialize (op_cell key value op)] else cells, true)
      else (cells ++ [c], keyExists)) (cells, e) ((fun kv => (KVCell_Serialize kv, kv)) <$> kvs)
  = (cells ++ (KVCell_Serialize <$>
       (if op =? LogOpUndoInsert then filter (fun kv => kvKey kv <> key) kvs
        else replace_cell (op_cell key value op) <$> kvs)),
     e || existsb (same_key key) kvs).
Proof.
  induction kvs as [|kv kvs IH]; intros cells e.
  - cbn. rewrite orb_false_r. destruct (op =? LogOpUndoInsert); by rewrite app_nil_r.
  - rewrite fmap_cons. cbn [foldl existsb].
    rewrite fmap_cons, filter_cons. fold (same_key key kv).
    assert (Hr : replace_cell (op_cell key value op) kv
      = if same_key key kv then op_cell key value op else kv) by done.
    rewrite Hr. clear Hr. destruct (same_key key kv) eqn:Ek.
    + rewrite IH, decide_False by (apply same_key_iff in Ek; by intros ?).
      rewrite orb_true_r. destruct (op =? LogOpUndoInsert); cbn [negb]; [done|].
      by rewrite fmap_cons, <-(assoc_L (++)).
    + assert (Hne : kvKey kv <> key) by (intros ?%same_key_iff; congruence).
      rewrite IH, decide_True by done. cbn [orb].
      destruct (op =? LogOpUndoInsert); by rewrite fmap_cons, <-(assoc_L (++)).
Qed.

Lemma redo_cells_redone key value op kvs :
  redo_cells key value op ((fun kv => (KVCell_Serialize kv, kv)) <$> kvs)
  = KVCell_Serialize <$> redone key value op kvs.
Proof.
  unfold redo_cells, redone. cbv zeta. fold (op_cell key value op).
  rewrite (redo_fold key value op kvs [] false). cbn [app orb].
  destruct (op =? LogOpUndoInsert) eqn:Eo; cbn [negb]; [by rewrite andb_false_r|].
  destruct (existsb (same_key key) kvs) eqn:E; cbn [negb andb]; [done|].
  rewrite fmap_app. by rewrite (replace_absent (op_cell key value op)).
Qed.

Lemma redone_keys key value op kvs :
  op <> LogOpUndoInsert -> existsb (same_key key) (redone key value op kvs) = true.
Proof.
  intros Ho. unfold redone. rewrite (proj2 (N.eqb_neq _ _) Ho).
  destruct (existsb (same_key key) kvs) eqn:E.
  - apply existsb_exists in E as (kv & Hin & Hk). apply existsb_exists.
    exists (op_cell key value op). split; [|apply bytes_eqb_refl].
    apply list_elem_of_In, list_elem_of_fmap. exists kv. split; [|by apply list_elem_of_In].
    unfold replace_cell. cbn [op_cell NewKVCell kvKey]. by rewrite Hk.
  - rewrite existsb_app. cbn [existsb]. unfold same_key at 2. cbn. by rewrite bytes_eqb_refl, orb_true_r.
Qed.

(** Doing a record again changes nothing. *)
Lemma redone_idemp key value op kvs :
  redone key value op (redone key value op kvs) = redone key value op kvs.
Proof.
  destruct (decide (op = LogOpUndoInsert)) as [->|Ho].
  - unfold redone. cbn. by rewrite list_filter_filter_l by done.
  - unfold redone at 1. rewrite (redone_keys key value op kvs Ho), (proj2 (N.eqb_neq _ _) Ho).
    rewrite <-(list_fmap_id (redone key value op kvs)) at 2. apply list_fmap_ext. intros i kv Hkv.
    apply list_elem_of_lookup_2 in Hkv. unfold replace_cell.
    destruct (same_key (kvKey (op_cell key value op)) kv) eqn:Ek; [|done]. cbn in Ek. symmetry. cbn [id].
    unfold redone in Hkv. rewrite (proj2 (N.eqb_neq _ _) Ho) in Hkv.
    destruct (existsb (same_key key) kvs) eqn:E.
    + apply list_elem_of_fmap in Hkv as (kv0 & -> & Hin). unfold replace_cell in *. cbn in *.
      destruct (same_key key kv0) eqn:E0; [done|congruence].
    + apply elem_of_app in Hkv as [Hin|Hin%list_elem_of_singleton]; [|done].
      rewrite <-not_true_iff_false, existsb_exists in E. destruct E. exists kv.
      split; [by apply list_elem_of_In|done].
Qed.

Lemma redone_Forall (P : KVCell -> Prop) key value op kvs :
  P (op_cell key value op) -> Forall P kvs -> Forall P (redone key value op kvs).
Proof.
  intros Hn Hk. unfold redone. destruct (op =? LogOpUndoInsert).
  - rewrite Forall_forall in Hk |- *. intros kv [_ Hin]%list_elem_of_filter. by apply Hk.
  - destruct (existsb (same_key key) kvs).
    + apply Forall_fmap. eapply Forall_impl; [exact Hk|]. intros kv Hkv. cbn. unfold replace_cell.
      by destruct (same_key _ kv).
    + apply Forall_app. by split; [|constructor].
Qed.

(** The cells that do not fit any more are dropped. *)
Lemma redo_kept key value op p kvs :
  stores p kvs -> GetPageType p = PageTypeLeaf -> Forall kv_fits (redone key value op kvs) ->
  Forall (fun kv => KVCell_Size kv < 61000) (redone key value op kvs) ->
  exists p', redoUpsertOnPage key value op p = (Ok tt, p')
    /\ stores p' (fitting_cells 4064 (redone key value op kvs))
    /\ GetPageType p' = PageTypeLeaf /\ GetPageID p' = GetPageID p.
Proof.
  intros Hs Ht Hf Hsm.
  destruct (@rewrite_kept KVCell kv_codec PageTypeLeaf p (redone key value op kvs)
    (wf_len _ (st_wf _ _ Hs)) (or_introl eq_refl)) as (p' & E & R); [|done|].
  { eapply Forall_impl; [exact Hsm|]. intros kv Hkv. cbn. by rewrite len_kv_serialize. }
  exists p'. split; [|done]. unfold redoUpsertOnPage. unfold mbind at 1, M_bind at 1, gets at 1.
  cbn [id]. rewrite (leaf_cells_stores _ _ Hs). unfold mbind at 1, M_bind at 1, pure at 1.
  rewrite redo_cells_redone, Ht. exact E.
Qed.

Lemma space_small kvs : space (KVCell_Serialize <$> kvs) <= 4064 ->
  Forall (fun kv => KVCell_Size kv < 61000) kvs.
Proof.
  unfold space. induction kvs as [|kv kvs IH]; cbn; [constructor|]. rewrite len_kv_serialize.
  constructor; [unfold SlotSize in *; lia|]. apply IH. lia.
Qed.

Lemma redo_ok key value op p kvs :
  stores p kvs -> GetPageType p = PageTypeLeaf -> Forall kv_fits (redone key value op kvs) ->
  space (KVCell_Serialize <$> redone key value op kvs) <= 4064 ->
  exists p', redoUpsertOnPage key value op p = (Ok tt, p') /\ stores p' (redone key value op kvs)
    /\ GetPageType p' = PageTypeLeaf /\ GetPageID p' = GetPageID p.
Proof.
  intros Hs Ht Hf Hsp. destruct (redo_kept key value op p kvs Hs Ht Hf (space_small _ Hsp)) as (p' & E & S & R).
  rewrite fitting_cells_all in S by exact Hsp. by exists p'.
Qed.

(** Redoing a logged write gives the cells of the write. *)
Lemma redone_upserted key value op kvs :
  op <> LogOpUndoInsert -> redone key value op kvs ≡ₚ upserted (op_cell key value op) kvs.
Proof.
  intros Ho. unfold redone, upserted. rewrite (proj2 (N.eqb_neq _ _) Ho). by rewrite sort_kvs_perm.
Qed.

(** Undoing an insert leaves the cells with other keys. *)
Lemma undone_insert key value new kvs :
  kvKey new = key -> (forall kv, kv ∈ kvs -> kvKey kv <> key) ->
  redone key value LogOpUndoInsert (upserted new kvs) ≡ₚ kvs.
Proof.
  intros Hk Hne. change (redone key value LogOpUndoInsert (upserted new kvs))
    with (filter (fun kv => kvKey kv <> key) (upserted new kvs)).
  assert (E : existsb (same_key (kvKey new)) kvs = false).
  { apply not_true_iff_false. rewrite existsb_exists. intros (kv & Hin & Hs%same_key_iff).
    apply list_elem_of_In in Hin. apply (Hne kv Hin). congruence. }
  unfold upserted. rewrite E, sort_kvs_perm, filter_app, filter_cons, decide_False by (by intros ?).
  rewrite filter_nil, app_nil_r. clear E. induction kvs as [|kv kvs IH]; [done|].
  rewrite filter_cons, decide_True by (apply Hne; by left). f_equiv. apply IH.
  intros kv' Hin. apply Hne. by right.
Qed.

Lemma fits_perm kvs kvs' : kvs ≡ₚ kvs' ->
  Forall kv_fits kvs' /\ space (KVCell_Serialize <$> kvs') <= 4064 ->
  Forall kv_fits kvs /\ space (KVCell_Serialize <$> kvs) <= 4064.
Proof. intros Hp [H1 H2]. by rewrite Hp. Qed.

(** ** Steps on the tree's state *)

Lemma on_bm_eq {A} (m : M BufferManager A) t o bm' :
  m (t_bm t) = (o, bm') -> on_bm m t = (o, set_bm bm' t).
Proof. unfold on_bm, zoom. by intros ->. Qed.

Lemma set_bm_id t : set_bm (t_bm t) t = t.
Proof. by destruct t. Qed.

Section upsert_lemmas.
Context `{MapRange}.

Lemma slot_ok bm h id ho kvs i kv :
  bm_ok bm h -> h !! id = Some ho -> stores (view bm id) kvs -> kvs !! N.to_nat i = Some kv ->
  exists rest, slot id i bm = (Ok (Slice (KVCell_Serialize kv) rest), bm)
    /\ decode_kv (Slice (KVCell_Serialize kv) rest) = Ok (kv, Slice (kvValue kv) rest).
Proof.
  intros Hok Hh Hs Hi. destruct (stores_slot _ _ _ _ Hs Hi) as (rest & E1 & _).
  exists rest. split; [|apply decode_kv_encode; by eapply Forall_lookup_1; [apply Hs|]]. unfold slot.
  mstep (rd_ok bm h id ho (fun p => Get_ p i) Hok Hh). by rewrite E1.
Qed.

(** First updater wins, as a relation: the stored version [kv] is a version of
    the same user key by another transaction that is still running, or that
    committed and is younger than the writer. *)
Definition conflicts (m : TransactionManager) (key : bytes) (kv : KVCell) : Prop :=
  let '(user, writer) := ExtractMVCCKey key in
  let '(user', other) := ExtractMVCCKey (kvKey kv) in
  user' = user /\ other <> writer
  /\ (GetStatus other m = TXN_RUNNING \/ GetStatus other m = TXN_COMMITED /\ writer < other).

(** The error it raises. *)
Definition conflict_error (m : TransactionManager) (key : bytes) (kv : KVCell) : error :=
  let '(user, _) := ExtractMVCCKey key in
  let '(_, other) := ExtractMVCCKey (kvKey kv) in
  match GetStatus other m with
  | TXN_RUNNING => ErrWWActive user other
  | _ => ErrWWNewer user other
  end.

Definition no_conflict (txMgr : option TransactionManager) (key : bytes) (kvs : list KVCell) : Prop :=
  forall m kv, txMgr = Some m -> kv ∈ kvs -> ~ conflicts m key kv.

Lemma ww_some m key kv : conflicts m key kv ->
  ww_conflict (Some m) key (kvKey kv) = Some (conflict_error m key kv).
Proof.
  unfold conflicts, conflict_error, ww_conflict. destruct (ExtractMVCCKey key) as [user writer].
  destruct (ExtractMVCCKey (kvKey kv)) as [user' other]. intros (-> & Hne & Hs).
  rewrite bytes_eqb_refl, (proj2 (N.eqb_neq _ _) Hne). cbn [negb andb].
  destruct Hs as [->|[-> Hlt]]; [done|]. cbn. by rewrite (proj2 (N.ltb_lt _ _) Hlt).
Qed.

Lemma ww_none txMgr key kvs kv :
  no_conflict txMgr key kvs -> kv ∈ kvs -> ww_conflict txMgr key (kvKey kv) = None.
Proof.
  intros Hn Hin. destruct txMgr as [m|].
  2: { unfold ww_conflict. by destruct (ExtractMVCCKey key), (ExtractMVCCKey (kvKey kv)). }
  specialize (Hn m kv eq_refl Hin). unfold conflicts in Hn. unfold ww_conflict.
  destruct (ExtractMVCCKey key) as [user writer]. destruct (ExtractMVCCKey (kvKey kv)) as [user' other].
  destruct (bytes_eqb user' user) eqn:Eu; [|done]. apply bytes_eqb_eq in Eu as ->.
  destruct (other =? writer) eqn:Eo; [done|]. bool_lia. cbn [negb andb].
  case_bool_decide as H1; [destruct Hn; auto|]. case_bool_decide as H2; [|done]. cbn [andb].
  destruct (writer <? other) eqn:El; [|done]. bool_lia. destruct Hn; auto.
Qed.

(** The cell being replaced owns no overflow chain. *)
Definition inline_old (key : bytes) (kvs : list KVCell) : Prop :=
  forall kv, kv ∈ kvs -> kvKey kv = key -> IsOverflow kv = false.

Lemma upsert_loop_prefix t h leaf ho new kvs rest : forall mid pre post acc,
  bm_ok (t_bm t) h -> h !! leaf = Some ho -> stores (view (t_bm t) leaf) kvs ->
  kvs = pre ++ mid ++ post -> no_conflict (t_txm t) (kvKey new) mid -> inline_old (kvKey new) mid ->
  upsert_loop leaf (kvKey new) (KVCell_Serialize new)
    ((N.of_nat <$> seq (length pre) (length mid)) ++ rest) acc t
  = upsert_loop leaf (kvKey new) (KVCell_Serialize new) rest (collected new mid acc) t.
Proof.
  induction mid as [|kv mid IH]; intros pre post acc Hok Hh Hs E Hc Ho.
  - destruct acc as [[cells e] total]. cbn. by rewrite app_nil_r, orb_false_r, N.add_0_r.
  - cbn [length seq fmap list_fmap app upsert_loop]. destruct acc as [[cells e] total].
    destruct (slot_ok (t_bm t) h leaf ho kvs (N.of_nat (length pre)) kv Hok Hh Hs) as (r & E1 & E2).
    { rewrite Nat2N.id, E. by apply list_lookup_middle. }
    pose proof (on_bm_eq _ t _ _ E1) as E1'. rewrite set_bm_id in E1'. mstep E1'.
    rewrite E2. unfold mbind at 1, M_bind at 1, pure at 1. unfold mbind at 1, M_bind at 1, gets at 1.
    rewrite (ww_none _ _ _ kv Hc) by (by left). unfold mbind at 1, M_bind at 1, mret at 1, M_ret at 1.
    assert (IH' : forall acc', upsert_loop leaf (kvKey new) (KVCell_Serialize new)
        ((N.of_nat <$> seq (S (length pre)) (length mid)) ++ rest) acc' t
      = upsert_loop leaf (kvKey new) (KVCell_Serialize new) rest (collected new mid acc') t).
    { intros acc'. specialize (IH (pre ++ [kv]) post acc'). rewrite length_app in IH. cbn in IH.
      rewrite Nat.add_1_r in IH. apply IH; try done.
      - by rewrite <-(assoc_L (++)).
      - intros m x Hm Hx. apply (Hc m x Hm). by right.
      - intros x Hx. apply Ho. by right. }
    destruct (bytes_eqb (kvKey kv) (kvKey new)) eqn:Ek.
    + rewrite (Ho kv) by (try (by left); by apply bytes_eqb_eq).
      unfold mbind at 1, M_bind at 1, mret at 1, M_ret at 1. rewrite IH'. f_equal.
      assert (Hr : replace_cell new kv = new) by (unfold replace_cell, same_key; by rewrite Ek).
      unfold collected. cbn [fmap list_fmap existsb]. rewrite Hr. unfold same_key at 2. rewrite Ek.
      cbn [space foldr orb]. rewrite orb_true_r, <-(assoc_L (++)). cbn [app].
      f_equal. unfold space. lia.
    + rewrite IH'. f_equal.
      assert (Hr : replace_cell new kv = kv) by (unfold replace_cell, same_key; by rewrite Ek).
      unfold collected. cbn [fmap list_fmap existsb]. rewrite Hr. unfold same_key at 2. rewrite Ek.
      cbn [space foldr orb sl_data]. rewrite <-(assoc_L (++)). cbn [app].
      f_equal. unfold space. lia.
Qed.

Lemma stores_ids p (kvs : list KVCell) :
  stores p kvs -> slot_ids p = N.of_nat <$> seq 0 (length kvs).
Proof. intros Hs. unfold slot_ids. rewrite (stores_count _ _ Hs). f_equal. unfold len. by rewrite Nat2N.id. Qed.

(** What becomes of the chain of the version that is replaced: [freed] are its
    pages, none when the leaf has no such version or it is stored inline. *)
Inductive old_version (bm : BufferManager) (fl : list N) (key : bytes) (kvs : list KVCell)
    : list N -> Prop :=
| old_inline : inline_old key kvs -> old_version bm fl key kvs []
| old_overflow pre old post v freed :
    kvs = pre ++ old :: post -> inline_old key pre -> inline_old key post ->
    kvKey old = key -> IsOverflow old = true ->
    kvValue old = chain_metadata (hd 0 freed) (len v) -> len v < 4294967296 ->
    own_chain bm fl freed v -> old_version bm fl key kvs freed.

Lemma old_version_chain bm fl key kvs freed :
  old_version bm fl key kvs freed -> exists v, own_chain bm fl freed v.
Proof.
  intros [_|pre old post v ids _ _ _ _ _ _ _ Ho]; [exists []|by exists v].
  constructor; [done|constructor|by intros x ?%elem_of_nil|by intros x ?%elem_of_nil].
Qed.

(** A chain is not on the leaf nor on the meta page. *)
Lemma own_chain_off bm fl ids v id :
  own_chain bm fl ids v -> id ∈ ids -> 0 < id < bm_pages bm /\ GetPageType (view bm id) = PageTypeOverflow.
Proof. intros Ho Hid. by eapply chain_bound; [apply Ho|]. Qed.

Lemma old_version_off bm fl key kvs freed leaf :
  old_version bm fl key kvs freed -> GetPageType (view bm leaf) = PageTypeLeaf -> leaf ∉ freed.
Proof.
  intros (v & Ho)%old_version_chain Ht Hin. destruct (own_chain_off _ _ _ _ _ Ho Hin) as [_ T].
  by rewrite Ht in T.
Qed.

Lemma collected_app new a b acc : collected new (a ++ b) acc = collected new b (collected new a acc).
Proof.
  destruct acc as [[cells e] total]. unfold collected.
  by rewrite !fmap_app, space_app, existsb_app, (assoc_L (++)), orb_assoc, N.add_assoc.
Qed.

Lemma steady_free metadata : steady bm_walOn (freeOverflowChain metadata).
Proof.
  assert (Hd : forall x, steady bm_walOn (deallocatePage x)) by (intros; unfold deallocatePage, Unpin; steady).
  assert (Hl : forall fuel x, steady bm_walOn (free_chain_loop fuel x)).
  { induction fuel as [|fuel IH]; intros x; cbn [free_chain_loop]; unfold Unpin; steady. }
  unfold freeOverflowChain. steady.
Qed.

(** A page that is not freed keeps its contents. *)
Lemma freed_node `{Codec A} bm bm' fl ids ty id (xs : list A) :
  freed bm bm' fl ids -> id <> MetaPageID -> id ∉ ids -> node ty bm id xs -> node ty bm' id xs.
Proof.
  intros [_ Hp _ _ Hk] Hz Hid [N1 N2 N3 N4]. specialize (Hk id Hz Hid). symmetry in Hk.
  pose proof (wf_len _ (st_wf _ _ N2)) as Hl. constructor.
  - by rewrite Hp.
  - by eapply eqv_stores.
  - by rewrite <-(eqv_type _ _ Hl Hk).
  - by rewrite <-(eqv_id _ _ Hl Hk).
Qed.

(** The turn of the loop at the version to replace, when it has a chain. *)
Lemma upsert_loop_replace t h leaf ho new fl pre old post v ids rest acc :
  bm_ok (t_bm t) h -> h !! leaf = Some ho -> leaf_node (t_bm t) leaf (pre ++ old :: post) ->
  N.of_nat (size h) + 1 < bm_maxSize (t_bm t) -> h !! MetaPageID = None ->
  (forall x, GetPageType (view (t_bm t) x) = PageTypeOverflow -> h !! x = None) ->
  free_list (bm_pages (t_bm t)) (view (t_bm t)) fl -> no_conflict (t_txm t) (kvKey new) [old] ->
  kvKey old = kvKey new -> IsOverflow old = true ->
  kvValue old = chain_metadata (hd 0 ids) (len v) -> len v < 4294967296 ->
  own_chain (t_bm t) fl ids v ->
  exists bm', upsert_loop leaf (kvKey new) (KVCell_Serialize new) (N.of_nat (length pre) :: rest) acc t
      = upsert_loop leaf (kvKey new) (KVCell_Serialize new) rest (collected new [old] acc) (set_bm bm' t)
    /\ bm_ok bm' h /\ freed (t_bm t) bm' fl ids /\ bm_walOn bm' = bm_walOn (t_bm t).
Proof.
  intros Hok Hh Hl Hsz H0 Hty Hfl Hc Hk Hov Hv Hlen Ho. pose proof (nd_stores _ _ _ _ Hl) as Hs.
  destruct (slot_ok (t_bm t) h leaf ho _ (N.of_nat (length pre)) old Hok Hh Hs) as (r & E1 & E2).
  { rewrite Nat2N.id. by apply list_lookup_middle. }
  destruct (freeOverflowChain_ok (t_bm t) h fl ids v r Hok Hsz Hfl Ho Hlen H0) as (bm' & E3 & K3 & F3).
  { intros x Hx. apply Hty. by destruct (own_chain_off _ _ _ _ _ Ho Hx). }
  exists bm'. split; [|split; [done|split; [done|]]].
  - cbn [upsert_loop]. destruct acc as [[cells e] total].
    pose proof (on_bm_eq _ t _ _ E1) as E1'. rewrite set_bm_id in E1'. mstep E1'.
    rewrite E2. unfold mbind at 1, M_bind at 1, pure at 1. unfold mbind at 1, M_bind at 1, gets at 1.
    rewrite (ww_none _ _ [old] old Hc) by (by left). unfold mbind at 1, M_bind at 1, mret at 1, M_ret at 1.
    rewrite Hk, bytes_eqb_refl, Hov, Hv. mstep (on_bm_eq _ t _ _ E3). f_equal.
    unfold collected. cbn [fmap list_fmap existsb]. unfold replace_cell, same_key.
    rewrite Hk, bytes_eqb_refl. cbn [space foldr orb]. rewrite orb_true_r. f_equal. unfold space. cbn. lia.
  - pose proof (steady_free (Slice (chain_metadata (hd 0 ids) (len v)) r) (t_bm t)) as G. by rewrite E3 in G.
Qed.

(** The loop over the slots frees the chain of the version it replaces. *)
Lemma upsert_loop_ok t h leaf ho new fl freed_ids kvs acc :
  bm_ok (t_bm t) h -> h !! leaf = Some ho -> leaf_node (t_bm t) leaf kvs -> leaf <> MetaPageID ->
  N.of_nat (size h) + 1 < bm_maxSize (t_bm t) -> h !! MetaPageID = None ->
  (forall x, GetPageType (view (t_bm t) x) = PageTypeOverflow -> h !! x = None) ->
  free_list (bm_pages (t_bm t)) (view (t_bm t)) fl ->
  no_conflict (t_txm t) (kvKey new) kvs -> old_version (t_bm t) fl (kvKey new) kvs freed_ids ->
  exists bm', upsert_loop leaf (kvKey new) (KVCell_Serialize new) (slot_ids (view (t_bm t) leaf)) acc t
      = (Ok (collected new kvs acc), set_bm bm' t)
    /\ bm_ok bm' h /\ freed (t_bm t) bm' fl freed_ids /\ bm_walOn bm' = bm_walOn (t_bm t).
Proof.
  intros Hok Hh Hl Hm Hsz H0 Hty Hfl Hc Hold. pose proof (nd_stores _ _ _ _ Hl) as Hs.
  pose proof (old_version_off _ _ _ _ _ leaf Hold (nd_type _ _ _ _ Hl)) as Hoff.
  rewrite (stores_ids _ _ Hs).
  destruct Hold as [Hi|pre old post v ids -> Hp Hq Hk Hov Hv Hlen Ho].
  - exists (t_bm t). rewrite set_bm_id. split; [|split; [done|split; [by eapply freed_nil|done]]].
    rewrite <-(app_nil_r (N.of_nat <$> _)).
    by rewrite (upsert_loop_prefix t h leaf ho new kvs [] kvs [] []) by (rewrite ?app_nil_r; done).
  - assert (Hsub : forall l, (forall x, x ∈ l -> x ∈ pre ++ old :: post) -> no_conflict (t_txm t) (kvKey new) l).
    { intros l Hin m x Hm' Hx. apply (Hc m x Hm'). by apply Hin. }
    rewrite length_app, seq_app, fmap_app. cbn [length seq plus].
    rewrite (upsert_loop_prefix t h leaf ho new _ _ pre [] (old :: post))
      by (try done; apply Hsub; intros x Hx; apply elem_of_app; by left).
    rewrite fmap_cons.
    destruct (upsert_loop_replace t h leaf ho new fl pre old post v ids
      (N.of_nat <$> seq (S (length pre)) (length post)) (collected new pre acc))
      as (bm' & E & K & F & W); try done.
    { apply Hsub. intros x ->%list_elem_of_singleton. apply elem_of_app. right. by left. }
    exists bm'. split; [|done]. rewrite E.
    replace (S (length pre)) with (length (pre ++ [old])) by (rewrite length_app; simpl; lia).
    rewrite <-(app_nil_r (N.of_nat <$> _)).
    rewrite (upsert_loop_prefix (set_bm bm' t) h leaf ho new (pre ++ old :: post) [] post (pre ++ [old]) []); try done.
    + by rewrite <-!collected_app.
    + cbn [set_bm t_bm]. apply (nd_stores PageTypeLeaf bm' leaf). by eapply freed_node.
    + rewrite app_nil_r, <-(assoc_L (++)). done.
    + apply Hsub. intros x Hx. apply elem_of_app. right. by right.
Qed.

(** A conflict gives the leaf back untouched and ends the write. *)
Lemma upsert_loop_conflict t m leaf new kvs kv pre post acc :
  bm_ok (t_bm t) {[leaf := HWrite]} -> leaf_node (t_bm t) leaf kvs -> settled (t_bm t) leaf ->
  kvs = pre ++ kv :: post -> no_conflict (t_txm t) (kvKey new) pre -> inline_old (kvKey new) pre ->
  t_txm t = Some m -> conflicts m (kvKey new) kv ->
  exists bm', upsert_loop leaf (kvKey new) (KVCell_Serialize new)
      (slot_ids (view (t_bm t) leaf)) acc t = (Err (conflict_error m (kvKey new) kv), set_bm bm' t)
    /\ bm_ok bm' ∅ /\ same_array (t_bm t) bm'
    /\ bm_walOn bm' = bm_walOn (t_bm t) /\ bm_wal bm' = bm_wal (t_bm t).
Proof.
  intros Hok Hl Hset E Hc Ho Hm Hw%ww_some. rewrite <-Hm in Hw. pose proof (nd_stores _ _ _ _ Hl) as Hs.
  pose proof (lookup_singleton_eq leaf HWrite) as Hh. rewrite (stores_ids _ _ Hs), E.
  rewrite length_app, seq_app, fmap_app. cbn [plus].
  rewrite (upsert_loop_prefix t _ leaf HWrite new kvs _ pre [] (kv :: post)) by done.
  cbn [length seq fmap list_fmap]. set (acc' := collected _ _ _). clearbody acc'.
  destruct acc' as [[cells e] total]. cbn [upsert_loop].
  destruct (slot_ok (t_bm t) _ leaf HWrite kvs (N.of_nat (length pre)) kv Hok Hh Hs) as (r & E1 & E2).
  { rewrite Nat2N.id, E. by apply list_lookup_middle. }
  pose proof (on_bm_eq _ t _ _ E1) as E1'. rewrite set_bm_id in E1'. mstep E1'.
  rewrite E2. unfold mbind at 1, M_bind at 1, pure at 1. unfold mbind at 1, M_bind at 1, gets at 1.
  rewrite Hw. pose proof (on_bm_eq _ t _ _ (rd_ok (t_bm t) _ leaf HWrite GetPageID Hok Hh)) as E3.
  rewrite set_bm_id, (nd_self _ _ _ _ Hl) in E3.
  destruct (unpin_ok (t_bm t) _ leaf HWrite false Hok Hh) as (bm' & E4 & K4 & S4); [by intros _ _|].
  exists bm'. split.
  - unfold mbind at 1, M_bind at 1. mstep E3. by mstep (on_bm_eq _ t _ _ (Unpin_eq _ _ _ _ _ E4)).
  - pose proof (steady_unpin bm_walOn leaf false true (t_bm t)) as G1.
    pose proof (steady_unpin bm_wal leaf false true (t_bm t)) as G2.
    cbn [is_write] in E4. rewrite E4 in G1, G2. split; [|done].
    unfold release in K4. rewrite Hh in K4. by rewrite delete_singleton_eq in K4.
Qed.

(** The descent of a write, on the tree. *)
Lemma find_for_write t key leaf path kvs :
  bm_ok (t_bm t) ∅ -> 0 < bm_maxSize (t_bm t) -> descends (t_bm t) key (t_root t) leaf path ->
  leaf_node (t_bm t) leaf kvs ->
  exists bm1, on_bm (findLeafPage (t_root t) key true) t = (Ok (leaf, path), set_bm bm1 t)
    /\ bm_ok bm1 {[leaf := HWrite]} /\ same_view (t_bm t) bm1 /\ settled bm1 leaf
    /\ leaf_node bm1 leaf kvs /\ bm_walOn bm1 = bm_walOn (t_bm t)
    /\ log_step leaf (bm_wal (t_bm t)) (bm_wal bm1).
Proof.
  intros Hok Hsz Hd Hl.
  destruct (findLeafPage_ok (t_bm t) ∅ (t_root t) key true leaf path Hd Hok Hsz (lookup_empty _)
    (fun x _ => lookup_empty x)) as (bm1 & E & K & S & T).
  exists bm1. split; [by apply on_bm_eq|]. split; [done|]. split; [done|].
  split; [by apply T|]. split; [by eapply node_same|].
  pose proof (steady_find (t_root t) key true (t_bm t)) as G. rewrite E in G. split; [done|by apply T].
Qed.

(** Rewriting the leaf that is held for writing. *)
Lemma rewrite_leaf bm h leaf kvs kvs' :
  bm_ok bm h -> h !! leaf = Some HWrite -> leaf_node bm leaf kvs ->
  space (KVCell_Serialize <$> kvs') <= 4064 -> Forall kv_fits kvs' ->
  exists bm', (_ ← wr leaf (Init PageTypeLeaf); on_page leaf (insert_cells (KVCell_Serialize <$> kvs'))) bm
      = (Ok tt, bm')
    /\ bm_ok bm' h /\ leaf_node bm' leaf kvs' /\ bm_pages bm' = bm_pages bm
    /\ bm_maxSize bm' = bm_maxSize bm /\ (forall id, id <> leaf -> view bm' id = view bm id)
    /\ bm_walOn bm' = bm_walOn bm.
Proof.
  intros Hok Hh Hl Hsp Hf. pose proof (nd_stores _ _ _ _ Hl) as Hs.
  pose proof (wf_len _ (st_wf _ _ Hs)) as Hlen.
  destruct (wr_ok bm h leaf (Init PageTypeLeaf) Hok Hh) as (bm1 & E1 & K1 & ((P1 & Q1) & V1 & W1)).
  { by destruct (Init_spec PageTypeLeaf _ Hlen eq_refl). }
  destruct (@rewrite_stores KVCell kv_codec PageTypeLeaf (view bm leaf) kvs' Hlen (or_introl eq_refl) Hsp Hf)
    as (p' & E2 & S2 & T2 & I2).
  rewrite <-V1 in E2.
  destruct (on_page_ok bm1 h leaf _ _ p' K1 Hh E2) as (bm2 & E3 & K3 & ((P3 & Q3) & V3 & W3)).
  { apply (wf_len _ (st_wf _ _ S2)). }
  exists bm2. split; [by mstep E1|]. split; [done|]. split; [|split; [congruence|split; [congruence|split]]].
  - constructor; rewrite ?V3; [rewrite P3, P1; apply Hl|done|done|].
    rewrite I2. apply Hl.
  - intros id Hid. by rewrite W3, W1.
  - pose proof (steady_wr bm_walOn leaf (Init PageTypeLeaf) bm) as G1. rewrite E1 in G1.
    pose proof (steady_on_page bm_walOn leaf (insert_cells (KVCell_Serialize <$> kvs')) bm1) as G2.
    change KVCell_Serialize with (encode (A := KVCell)) in G2. rewrite E3 in G2. cbn in *. congruence.
Qed.

(** The log record of a write of [t]'s transaction on [leaf]. *)
Definition prev_lsn (key : bytes) (m : option TransactionManager) : N :=
  match m with Some m => GetLastLSN (ExtractMVCCKey key).2 m | None => 0 end.

Definition write_op (flag : N) : N := if flag =? KEY_DELETED_FLAG then LogOpDelete else LogOpInsert.

(** The write went through the log: its record was appended last, the page is
    stamped with the record's LSN, and the transaction's last LSN is the
    record's.  Without a log nothing is written. *)
Definition logged (key value : bytes) (flag leaf : N) (t : BTree) (t' : BTree) : Prop :=
  if bm_walOn (t_bm t) then
    exists w lsn,
      Append (ExtractMVCCKey key).2 leaf (prev_lsn key (t_txm t)) (write_op flag) key value w
        = (Ok lsn, bm_wal (t_bm t'))
      /\ GetLSN (view (t_bm t') leaf) = u64 lsn
      /\ t_txm t' = SetLastLSN (ExtractMVCCKey key).2 lsn <$> t_txm t
  else t_txm t' = t_txm t.

Lemma GetLSN_SetLSN lsn p : len p = PageSize -> GetLSN (SetLSN lsn p) = u64 lsn.
Proof.
  intros Hp. unfold GetLSN, SetLSN, set_field.
  by rewrite get_splice_eq, le_dec_enc by (rewrite ?len_le_enc, ?Hp; unfold lsnOffset, PageSize; lia).
Qed.

(** Logging the write stamps the leaf and records the LSN for the transaction. *)
Lemma log_upsert_ok t h leaf key value flag kvs :
  bm_ok (t_bm t) h -> h !! leaf = Some HWrite -> leaf_node (t_bm t) leaf kvs ->
  exists t', log_upsert leaf key value flag t = (Ok tt, t')
    /\ bm_ok (t_bm t') h /\ same_view (t_bm t) (t_bm t') /\ leaf_node (t_bm t') leaf kvs
    /\ t_root t' = t_root t /\ logged key value flag leaf t t'.
Proof.
  intros Hok Hh Hl. unfold log_upsert, logged. unfold mbind at 1, M_bind at 1, gets at 1.
  destruct (bm_walOn (t_bm t)) eqn:Ew; [|by exists t].
  destruct (ExtractMVCCKey key) as [user writer] eqn:Ek. cbn [snd].
  unfold mbind at 1, M_bind at 1, gets at 1.
  pose proof (on_bm_eq _ t _ _ (rd_ok (t_bm t) h leaf HWrite GetPageID Hok Hh)) as E1.
  rewrite set_bm_id, (nd_self _ _ _ _ Hl) in E1. mstep E1.
  assert (Hp : prev_lsn key (t_txm t) = match t_txm t with Some m => GetLastLSN writer m | None => 0 end)
    by (unfold prev_lsn; by rewrite Ek). rewrite <-Hp. clear Hp.
  change (if flag =? KEY_DELETED_FLAG then LogOpDelete else LogOpInsert) with (write_op flag).
  pose proof (Append_healthy (bm_wal (t_bm t)) writer leaf (prev_lsn key (t_txm t)) (write_op flag)
    key value (bo_wal _ _ Hok)) as Ea.
  cbv zeta in Ea. set (w' := mkWAL _ _) in Ea. set (lsn := currentLSN (bm_wal (t_bm t))) in *.
  pose proof (attempt_ok _ _ _ _ (on_wal_eq _ _ _ _ Ea)) as E2.
  mstep (on_bm_eq _ t _ _ E2). set (bm1 := set_bm_wal w' (t_bm t)).
  assert (K1 : bm_ok bm1 h) by (destruct Hok; by constructor).
  assert (S1 : same_view (t_bm t) bm1) by done.
  pose proof (node_same _ _ _ _ _ S1 Hl) as Hl1. pose proof (wf_len _ (st_wf _ _ (nd_stores _ _ _ _ Hl1))) as Hlen.
  destruct (wr_ok bm1 h leaf (SetLSN lsn) K1 Hh) as (bm2 & E3 & K2 & ((P2 & Q2) & V2 & W2)).
  { unfold SetLSN. by rewrite len_set_field. }
  assert (S2 : same_view bm1 bm2).
  { split; [done|]. intros id. destruct (decide (id = leaf)) as [->|Hne]; [|by rewrite W2].
    rewrite V2. by apply SetLSN_eqv. }
  assert (Hw : bm_wal bm2 = w') by (unfold wr, alter_frame, modify in E3; by injection E3 as <-).
  exists (mkTree bm2 (t_root t) (SetLastLSN writer lsn <$> t_txm t)).
  split; [|split; [done|split; [by etrans|split; [by eapply node_same|split; [done|]]]]].
  - destruct (t_txm t) as [m|] eqn:Em.
    + unfold on_txm at 1. unfold mbind, M_bind. cbn [set_bm t_txm]. rewrite Em.
      by rewrite (on_bm_eq _ (set_txm _ (set_bm bm1 t)) _ _ E3).
    + unfold mbind at 1, M_bind at 1, mret at 1, M_ret at 1.
      rewrite (on_bm_eq _ (set_bm bm1 t) _ _ E3). unfold set_bm. cbn. by rewrite Em.
  - exists (bm_wal (t_bm t)), lsn. cbn [t_bm t_txm]. rewrite Hw, V2. split; [done|].
    split; [by apply GetLSN_SetLSN|done].
Qed.
(** ** What a write stores *)

(** A value over the inline limit is stored as the metadata of its chain. *)
Definition large (value : bytes) : bool := MaxInlineValueSize <? len value.
Definition stored_len (value : bytes) : N := if large value then 8 else len value.
Definition stored_flag (value : bytes) (flag : N) : N :=
  if large value then N.lor flag KEY_OVERFLOW_FLAG else flag.

Definition store_value (value : bytes) (flag : N) : M BTree (bytes * N) :=
  if MaxInlineValueSize <? len value then
    metadata ← on_bm (createOverflowChain value);
    mret (metadata, N.lor flag KEY_OVERFLOW_FLAG)
  else mret (value, flag).

(** The pages in use apart from the leaf keep their contents. *)
Definition keeps (bm bm' : BufferManager) (fl : list N) (leaf : N) : Prop :=
  bm_pages bm <= bm_pages bm' /\ bm_maxSize bm' = bm_maxSize bm
  /\ forall x, x < bm_pages bm -> x <> MetaPageID -> x ∉ fl -> x <> leaf ->
       page_eqv (view bm' x) (view bm x).

(** The cell stands for the value, on chain pages that satisfy [P]. *)
Definition cell_on (P : N -> Prop) (bm : BufferManager) (kv : KVCell) (v : bytes) : Prop :=
  if IsOverflow kv then
    exists ids, kvValue kv = chain_metadata (hd 0 ids) (len v) /\ len v < 4294967296
      /\ NoDup ids /\ chain bm ids v /\ forall x, x ∈ ids -> P x
  else kvValue kv = v.

Lemma cell_on_holds P bm kv v : cell_on P bm kv v -> cell_holds bm kv v.
Proof.
  unfold cell_on, cell_holds. destruct (IsOverflow kv); [|done].
  intros (ids & ? & ? & ? & ? & _). by exists ids.
Qed.

(** A chain lies on overflow pages, so it survives a change to other pages. *)
Lemma cell_on_ext P bm bm' kv v :
  bm_pages bm <= bm_pages bm' ->
  (forall x, P x -> 0 < x < bm_pages bm -> GetPageType (view bm x) = PageTypeOverflow ->
     page_eqv (view bm' x) (view bm x)) ->
  cell_on P bm kv v -> cell_on P bm' kv v.
Proof.
  intros Hp Hv. unfold cell_on. destruct (IsOverflow kv); [|done].
  intros (ids & E1 & E2 & E3 & E4 & E5). exists ids. split_and!; try done.
  apply (chain_ext bm bm'); [done| |done]. intros x Hx.
  destruct (chain_bound _ _ _ x E4 Hx) as [Hb Ht]. by apply Hv; [apply E5| |].
Qed.

Lemma len_chain_metadata id n : len (chain_metadata id n) = 8.
Proof. unfold chain_metadata. by rewrite len_app, !len_le_enc. Qed.

Lemma steady_create value : steady bm_walOn (createOverflowChain value).
Proof.
  assert (Hlog : forall x y, steady bm_walOn (log_page x y)) by (intros; unfold log_page, Append_; steady).
  assert (Hd : forall t, steady bm_walOn (allocatePage t)) by (intros; unfold allocatePage, allocate_or; steady).
  assert (Hl : forall fuel data first prev, steady bm_walOn (create_chain_loop fuel first prev data)).
  { induction fuel as [|fuel IH]; intros [|b data] first prev; cbn [create_chain_loop];
      unfold Unpin; steady. }
  unfold createOverflowChain. steady.
Qed.

(** Storing the value leaves the leaf alone. *)
Lemma free_list_keep bm bm' h fl :
  bm_ok bm h -> free_list (bm_pages bm) (view bm) fl -> bm_pages bm' = bm_pages bm ->
  (forall x, x = MetaPageID \/ x ∈ fl -> page_eqv (view bm' x) (view bm x)) ->
  free_list (bm_pages bm') (view bm') fl
  /\ GetRootPageID (view bm' MetaPageID) = GetRootPageID (view bm MetaPageID).
Proof.
  intros Hok [F1 F2 F3] Hp Hv.
  assert (Hb : forall x, x = MetaPageID \/ x ∈ fl ->
    page_eqv (view bm x) (view bm' x) /\ len (view bm x) = PageSize).
  { intros x Hx. split; [symmetry; by apply Hv|]. eapply len_view_in; [done|].
    destruct Hx as [->|Hx]; [done|]. by eapply free_pages_in. }
  destruct (Hb MetaPageID (or_introl eq_refl)) as [V0 L0]. split.
  - rewrite Hp. constructor; [done|done|]. unfold GetFirstFreePageID in *.
    rewrite <-(eqv_body _ _ L0 V0) by done. eapply free_pages_ext; [reflexivity| |exact F3].
    intros x Hx. destruct (Hb x (or_intror Hx)) as [Vx Lx]. symmetry in Vx.
    unfold GetNextFreePageID. symmetry in Vx.
    by rewrite (eqv_body _ _ Lx Vx), (eqv_id _ _ Lx Vx).
  - unfold GetRootPageID. symmetry. by apply eqv_body.
Qed.

(** Where the pages of a new chain come from. *)
Definition was_free (bm : BufferManager) (fl : list N) (x : N) : Prop := x ∈ fl \/ bm_pages bm <= x.

(** What storing the value leaves: the pages in use and the root pointer are as
    they were, and the free list is a part of what it was. *)
Record stored_value (bm bm' : BufferManager) (fl fl' : list N) (kv : KVCell) (value : bytes) : Prop := {
  sv_cell : cell_on (was_free bm fl) bm' kv value;
  sv_pages : bm_pages bm <= bm_pages bm';
  sv_size : bm_maxSize bm' = bm_maxSize bm;
  sv_free : free_list (bm_pages bm') (view bm') fl';
  sv_sub : forall x, x ∈ fl' -> x ∈ fl;
  sv_root : GetRootPageID (view bm' MetaPageID) = GetRootPageID (view bm MetaPageID);
  sv_on : bm_walOn bm' = bm_walOn bm;
  sv_keep : forall x, x < bm_pages bm -> x <> MetaPageID -> x ∉ fl -> page_eqv (view bm' x) (view bm x)
}.

Lemma stored_node `{Codec A} bm bm' fl fl' kv v ty id (xs : list A) :
  stored_value bm bm' fl fl' kv v -> id <> MetaPageID -> id ∉ fl -> node ty bm id xs -> node ty bm' id xs.
Proof.
  intros S Hz Hid [N1 N2 N3 N4]. pose proof (sv_keep _ _ _ _ _ _ S id N1 Hz Hid) as Hk. symmetry in Hk.
  pose proof (wf_len _ (st_wf _ _ N2)) as Hl. pose proof (sv_pages _ _ _ _ _ _ S). constructor.
  - lia.
  - by eapply eqv_stores.
  - by rewrite <-(eqv_type _ _ Hl Hk).
  - by rewrite <-(eqv_id _ _ Hl Hk).
Qed.

Lemma store_value_ok t fl leaf key value flag kvs :
  bm_ok (t_bm t) {[leaf := HWrite]} -> 3 < bm_maxSize (t_bm t) ->
  free_list (bm_pages (t_bm t)) (view (t_bm t)) fl -> bm_pages (t_bm t) + len value < 4294967296 ->
  leaf_node (t_bm t) leaf kvs -> leaf <> MetaPageID -> leaf ∉ fl ->
  flag = 0 \/ flag = KEY_DELETED_FLAG ->
  exists sv bm' fl', store_value value flag t = (Ok (sv, stored_flag value flag), set_bm bm' t)
    /\ bm_ok bm' {[leaf := HWrite]} /\ len sv = stored_len value
    /\ stored_value (t_bm t) bm' fl fl' (NewKVCell (stored_flag value flag) key sv) value
    /\ (large value = false -> sv = value /\ bm' = t_bm t).
Proof.
  intros Hok Hsz Hfl Hb Hl H0 Hin Hfg. unfold store_value, stored_flag, stored_len.
  fold (large value). destruct (large value) eqn:El.
  - destruct (createOverflowChain_ok (t_bm t) _ fl value Hok) as (ids & fl' & bm' & E & K & CD); try done.
    + intros ->. done.
    + rewrite map_size_singleton. lia.
    + by rewrite lookup_singleton_ne.
    + intros x Hx. apply lookup_singleton_ne. by intros ->.
    + pose proof (steady_create value (t_bm t)) as Hw. rewrite E in Hw.
      pose proof (cd_pages _ _ _ _ _ _ _ CD) as Hp.
      eexists _, bm', fl'. split; [mstep (on_bm_eq _ t _ _ E); done|]. split; [done|].
      split; [apply len_chain_metadata|]. split; [|done]. constructor; [|lia|apply CD|apply CD|apply CD|apply CD|exact Hw|].
      * unfold cell_on.
        assert (Hov : IsOverflow (NewKVCell (N.lor flag KEY_OVERFLOW_FLAG) key
          (chain_metadata (hd 0 ids) (len value))) = true) by (by destruct Hfg as [-> | ->]).
        rewrite Hov. exists ids. split; [done|]. split; [lia|]. split; [apply CD|]. split; [apply CD|].
        intros x Hx. by apply (cd_fresh _ _ _ _ _ _ _ CD).
      * intros x X1 X2 X3. by apply (cd_keep _ _ _ _ _ _ _ CD).
  - exists value, (t_bm t), fl. split; [by destruct t|]. split_and!; try done.
    constructor; try done. unfold cell_on. by destruct Hfg as [-> | ->].
Qed.

(** ** The whole upsert, when the leaf has room *)

(** The database, and a leaf in use that the key leads to. *)
Record reaches (t : BTree) (fl : list N) (key value : bytes) (leaf : N) (path : list N)
    (kvs : list KVCell) : Prop := {
  re_ok : bm_ok (t_bm t) ∅;
  re_size : 3 < bm_maxSize (t_bm t);
  re_free : free_list (bm_pages (t_bm t)) (view (t_bm t)) fl;
  re_pages : bm_pages (t_bm t) + len value < 4294967296;
  re_path : descends (t_bm t) key (t_root t) leaf path;
  re_leaf : leaf_node (t_bm t) leaf kvs;
  re_meta : leaf <> MetaPageID;
  re_used : leaf ∉ fl
}.

(** What a write that succeeds without a split relies on: no version in the leaf
    conflicts, the chain of the replaced version (pages [old]) is its own, and
    the cells fit the leaf. *)
Record writable (t : BTree) (fl old : list N) (key value : bytes) (leaf : N) (path : list N)
    (kvs : list KVCell) : Prop := {
  wb_reaches : reaches t fl key value leaf path kvs;
  wb_conflict : no_conflict (t_txm t) key kvs;
  wb_old : old_version (t_bm t) fl key kvs old;
  wb_room : leaf_space key (stored_len value) kvs <= PageSize
}.

(** The cell that ends up in the leaf. *)
Definition stored_cell (key value : bytes) (flag : N) (sv : bytes) : KVCell :=
  NewKVCell (stored_flag value flag) key sv.

(** What the write leaves behind. *)
Record written (t t' : BTree) (fl old : list N) (key value : bytes) (flag leaf : N)
    (kvs : list KVCell) (sv : bytes) : Prop := {
  wn_ok : bm_ok (t_bm t') ∅;
  wn_root : t_root t' = t_root t;
  wn_rootptr : GetRootPageID (view (t_bm t') MetaPageID) = GetRootPageID (view (t_bm t) MetaPageID);
  wn_leaf : leaf_node (t_bm t') leaf (upserted (stored_cell key value flag sv) kvs);
  wn_value : cell_holds (t_bm t') (stored_cell key value flag sv) value;
  wn_inline : large value = false -> sv = value;
  wn_free : exists fl', free_list (bm_pages (t_bm t')) (view (t_bm t')) (rev old ++ fl')
              /\ forall x, x ∈ fl' -> x ∈ fl;
  wn_keep : keeps (t_bm t) (t_bm t') (old ++ fl) leaf;
  wn_log : logged key sv (stored_flag value flag) leaf t t'
}.

Lemma UnpinPage_wal bm x d w bm' o : UnpinPage x d w bm = (o, bm') -> bm_wal bm' = bm_wal bm.
Proof. intros E. pose proof (steady_unpin bm_wal x d w bm) as G. by rewrite E in G. Qed.

Lemma logged_same key value flag leaf t t' bm' :
  logged key value flag leaf t t' -> same_array (t_bm t') bm' -> bm_wal bm' = bm_wal (t_bm t') ->
  logged key value flag leaf t (set_bm bm' t').
Proof.
  unfold logged. destruct (bm_walOn (t_bm t)); [|done]. intros (w & lsn & E1 & E2 & E3) [_ V] E.
  exists w, lsn. cbn [set_bm t_bm t_txm]. by rewrite E, V.
Qed.

Lemma stored_flag_bound value flag : flag = 0 \/ flag = KEY_DELETED_FLAG -> stored_flag value flag < 256.
Proof. unfold stored_flag. by intros [-> | ->]; destruct (large value). Qed.

(** The part of [upsertCell] after the loop, when the cells fit. *)
Lemma write_back_ok t leaf key value flag new kvs :
  bm_ok (t_bm t) {[leaf := HWrite]} -> leaf_node (t_bm t) leaf kvs ->
  Forall kv_fits (upserted new kvs) ->
  space (KVCell_Serialize <$> upserted new kvs) <= 4064 ->
  exists t', (_ ← on_bm (wr leaf (Init PageTypeLeaf));
      _ ← on_bm (on_page leaf (insert_cells (KVCell_Serialize <$> upserted new kvs)));
      _ ← log_upsert leaf key value flag;
      leafID ← on_bm (rd leaf GetPageID);
      on_bm (UnpinPage leafID true true)) t = (Ok tt, t')
    /\ bm_ok (t_bm t') ∅ /\ t_root t' = t_root t /\ leaf_node (t_bm t') leaf (upserted new kvs)
    /\ (bm_pages (t_bm t') = bm_pages (t_bm t) /\ bm_maxSize (t_bm t') = bm_maxSize (t_bm t))
    /\ (forall x, x <> leaf -> page_eqv (view (t_bm t') x) (view (t_bm t) x))
    /\ logged key value flag leaf t t'.
Proof.
  intros Hok Hl Hf Hs. pose proof (lookup_singleton_eq leaf HWrite) as Hh.
  destruct (rewrite_leaf (t_bm t) _ leaf kvs _ Hok Hh Hl Hs Hf)
    as (bm1 & E1 & K1 & N1 & P1 & Q1 & V1 & W1).
  destruct (log_upsert_ok (set_bm bm1 t) _ leaf key value flag _ K1 Hh N1)
    as (t2 & E2 & K2 & ((P2 & Q2) & S2) & N2 & R2 & L2).
  pose proof (on_bm_eq _ t2 _ _ (rd_ok (t_bm t2) _ leaf HWrite GetPageID K2 Hh)) as E3.
  rewrite set_bm_id, (nd_self _ _ _ _ N2) in E3.
  destruct (unpin_ok (t_bm t2) _ leaf HWrite true K2 Hh) as (bm4 & E4 & K4 & S4); [by intros _ [=]|].
  unfold release in K4. rewrite Hh, delete_singleton_eq in K4.
  exists (set_bm bm4 t2). split; [|split; [done|split; [done|split; [|split; [|split]]]]].
  - rewrite (bind_assoc2 _ _ _ t (set_bm bm1 t)).
    2:{ pose proof (on_bm_eq _ t _ _ E1) as E1'. unfold on_bm, zoom, mbind, M_bind in *.
        by destruct (wr leaf (Init PageTypeLeaf) (t_bm t)) as [[[]| | |] bm']. }
    mstep E2. mstep E3. exact (on_bm_eq _ t2 _ _ E4).
  - eapply node_same; [|done]. by apply same_array_view.
  - cbn in *. destruct S4 as [[P4 Q4] _]. split; congruence.
  - intros x Hx. destruct S4 as [_ S4]. cbn [set_bm t_bm]. rewrite S4, S2. cbn [set_bm t_bm]. by rewrite V1.
  - assert (L2' : logged key value flag leaf t t2).
    { unfold logged in *. cbn [set_bm t_bm t_txm] in L2. by rewrite W1 in L2. }
    apply (logged_same _ _ _ _ _ _ _ L2' S4). by apply (UnpinPage_wal _ _ _ _ _ _ E4).
Qed.

(** [upsertCell] once the leaf is found and the value stored. *)
Definition upsert_tail (leaf : N) (path : list N) (ids : list N) (key value : bytes) (flag : N)
    : M BTree unit :=
  let cellBytes := KVCell_Serialize (NewKVCell flag key value) in
  '(cells, keyExists, totalSpaceNeeded) ← upsert_loop leaf key cellBytes ids ([], false, HeaderSize);
  let '(cells, totalSpaceNeeded) :=
    if keyExists : bool then (cells, totalSpaceNeeded)
    else (cells ++ [cellBytes], totalSpaceNeeded + (SlotSize + len cellBytes)) in
  if totalSpaceNeeded <=? PageSize then
    cells ← pure (sort_kv cells);
    _ ← on_bm (wr leaf (Init PageTypeLeaf));
    _ ← on_bm (on_page leaf (insert_cells cells));
    _ ← log_upsert leaf key value flag;
    leafID ← on_bm (rd leaf GetPageID);
    on_bm (UnpinPage leafID true true)
  else splitLeafCells leaf path cells.

Lemma upsertCell_unfold key value flag t :
  upsertCell key value flag t =
  ('(leaf, path) ← on_bm (findLeafPage (t_root t) key true);
   ids ← on_bm (rd leaf slot_ids);
   '(value, flag) ← store_value value flag;
   upsert_tail leaf path ids key value flag) t.
Proof. done. Qed.

(** The loop, the rewrite of the leaf and the log record. *)
Lemma upsert_tail_ok t fl old leaf path new kvs :
  bm_ok (t_bm t) {[leaf := HWrite]} -> 3 < bm_maxSize (t_bm t) ->
  free_list (bm_pages (t_bm t)) (view (t_bm t)) fl -> leaf <> MetaPageID -> leaf ∉ fl ->
  leaf_node (t_bm t) leaf kvs ->
  no_conflict (t_txm t) (kvKey new) kvs -> old_version (t_bm t) fl (kvKey new) kvs old -> kvFlag new < 256 ->
  leaf_space (kvKey new) (len (kvValue new)) kvs <= PageSize ->
  exists t' bm1, upsert_tail leaf path (slot_ids (view (t_bm t) leaf)) (kvKey new) (kvValue new) (kvFlag new) t
      = (Ok tt, t')
    /\ freed (t_bm t) bm1 fl old
    /\ bm_ok (t_bm t') ∅ /\ t_root t' = t_root t /\ leaf_node (t_bm t') leaf (upserted new kvs)
    /\ (bm_pages (t_bm t') = bm_pages bm1 /\ bm_maxSize (t_bm t') = bm_maxSize bm1)
    /\ (forall x, x <> leaf -> page_eqv (view (t_bm t') x) (view bm1 x))
    /\ (free_list (bm_pages (t_bm t')) (view (t_bm t')) (rev old ++ fl)
        /\ GetRootPageID (view (t_bm t') MetaPageID) = GetRootPageID (view (t_bm t) MetaPageID))
    /\ logged (kvKey new) (kvValue new) (kvFlag new) leaf t t'.
Proof.
  intros Hok Hsz Hfl H0 Hin Hl Hc Ho Hfg Hroom. pose proof (lookup_singleton_eq leaf HWrite) as Hh.
  assert (Hn : NewKVCell (kvFlag new) (kvKey new) (kvValue new) = new) by by destruct new.
  destruct (room_fits new kvs (st_fits _ _ (nd_stores _ _ _ _ Hl)) Hfg Hroom) as [Hf Hsp].
  pose proof (old_version_off _ _ _ _ _ leaf Ho (nd_type _ _ _ _ Hl)) as Hoff.
  destruct (upsert_loop_ok t _ leaf HWrite new fl old kvs ([], false, HeaderSize) Hok Hh Hl H0)
    as (bm1 & E1 & K1 & F1 & W1); try done.
  { rewrite map_size_singleton. lia. }
  { by rewrite lookup_singleton_ne. }
  { intros x Hx. apply lookup_singleton_ne. intros <-. by rewrite (nd_type _ _ _ _ Hl) in Hx. }
  pose proof (freed_node _ _ _ _ _ _ _ F1 H0 Hoff Hl) as Hl1.
  destruct (write_back_ok (set_bm bm1 t) leaf (kvKey new) (kvValue new) (kvFlag new) new kvs K1 Hl1 Hf Hsp)
    as (t' & E & K & R & N & P & V & L).
  exists t', bm1. split; [|split; [done|split; [done|split; [done|split; [done|split; [done|split; [done|split]]]]]]].
  - unfold upsert_tail. cbv zeta. rewrite Hn. mstep E1.
    pose proof (collected_all new kvs) as Hall.
    destruct (collected new kvs ([], false, HeaderSize)) as [[cells e] total]. rewrite Hall.
    rewrite (proj2 (N.leb_le _ _) Hroom).
    rewrite sort_kv_encoded; [unfold mbind at 1, M_bind at 1, pure at 1; exact E|].
    rewrite Forall_forall in Hf |- *. intros kv Hkv. apply Hf. unfold upserted. by rewrite sort_kvs_perm.
  - destruct (free_list_keep bm1 (t_bm t') _ _ K1 (fd_free _ _ _ _ F1)) as [G1 G2]; [apply P| |].
    { intros x Hx. apply V. intros ->. destruct Hx as [?|Hx]; [done|].
      apply elem_of_app in Hx as [Hx|Hx]; [|done]. apply Hoff.
      by apply list_elem_of_In, in_rev, list_elem_of_In. }
    split; [done|]. rewrite G2. apply F1.
  - unfold logged in *. cbn [set_bm t_bm t_txm] in L. by rewrite W1 in L.
Qed.

Lemma free_list_same bm bm' h fl :
  bm_ok bm h -> same_view bm bm' -> free_list (bm_pages bm) (view bm) fl ->
  free_list (bm_pages bm') (view bm') fl
  /\ GetRootPageID (view bm' MetaPageID) = GetRootPageID (view bm MetaPageID).
Proof. intros Hok [[P Q] V] Hfl. by apply (free_list_keep bm bm' h). Qed.

Lemma old_version_ext bm bm' fl fl' key kvs old :
  bm_pages bm <= bm_pages bm' -> (forall x, x ∈ fl' -> x ∈ fl) ->
  (forall x, 0 < x < bm_pages bm -> x ∉ fl -> page_eqv (view bm' x) (view bm x)) ->
  old_version bm fl key kvs old -> old_version bm' fl' key kvs old.
Proof.
  intros Hp Hfl Hv [Hi|pre o post v ids -> Hpr Hpo Hk Hov Hval Hlen [O1 O2 O3 O4]]; [by constructor|].
  econstructor; [done|done|done|done|done|done|done|].
  assert (Hx : forall x, x ∈ ids -> page_eqv (view bm' x) (view bm x) /\ len (view bm x) = PageSize).
  { intros x Hx. split; [|by eapply chain_len]. apply Hv; [by eapply chain_bound|by apply O3]. }
  constructor; [|done| |].
  - apply (chain_ext bm bm'); [done| |done]. intros x Hin. by apply Hx.
  - intros x Hin ?%Hfl. by apply (O3 x).
  - intros x Hin. destruct (Hx x Hin) as [V Hl]. symmetry in V. rewrite <-(eqv_id _ _ Hl V). by apply O4.
Qed.

(** Up to the loop: the leaf is latched and the value stored. *)
Lemma upsert_prepare t fl key value flag leaf path kvs :
  reaches t fl key value leaf path kvs -> flag = 0 \/ flag = KEY_DELETED_FLAG ->
  exists sv bm1 bm2 fl', len sv = stored_len value
    /\ (forall k, ('(leaf, path) ← on_bm (findLeafPage (t_root t) key true);
                   ids ← on_bm (rd leaf slot_ids);
                   '(value, flag) ← store_value value flag;
                   k leaf path ids value flag) t
         = k leaf path (slot_ids (view bm2 leaf)) sv (stored_flag value flag) (set_bm bm2 t) :> (outcome unit * BTree))
    /\ same_view (t_bm t) bm1 /\ log_step leaf (bm_wal (t_bm t)) (bm_wal bm1)
    /\ bm_walOn bm1 = bm_walOn (t_bm t) /\ settled bm1 leaf
    /\ bm_ok bm2 {[leaf := HWrite]} /\ leaf_node bm2 leaf kvs
    /\ stored_value bm1 bm2 fl fl' (NewKVCell (stored_flag value flag) key sv) value
    /\ (large value = false -> sv = value /\ bm2 = bm1).
Proof.
  intros [Hok Hsz Hfl Hb Hd Hl H0 Hin] Hfg.
  destruct (find_for_write t key leaf path kvs Hok ltac:(lia) Hd Hl)
    as (bm1 & E1 & K1 & S1 & T1 & N1 & W1 & G1).
  pose proof (lookup_singleton_eq leaf HWrite) as Hh.
  pose proof (on_bm_eq _ (set_bm bm1 t) _ _ (rd_ok bm1 _ leaf HWrite slot_ids K1 Hh)) as E2.
  change (set_bm bm1 (set_bm bm1 t)) with (set_bm bm1 t) in E2. pose proof S1 as [[P1 Q1] V1].
  destruct (store_value_ok (set_bm bm1 t) fl leaf key value flag kvs) as
    (sv & bm2 & fl' & E3 & K2 & L2 & S2 & I2); cbn [set_bm t_bm]; try done; try congruence.
  { exact (proj1 (free_list_same _ _ _ _ Hok S1 Hfl)). }
  cbn [set_bm t_bm] in S2. pose proof (stored_node _ _ _ _ _ _ _ _ _ S2 H0 Hin N1) as N2.
  exists sv, bm1, bm2, fl'. split; [done|]. split; [|done].
  intros k. mstep E1. mstep E2. mstep E3. cbn [set_bm t_bm].
  by rewrite (stores_ids _ _ (nd_stores _ _ _ _ N1)), (stores_ids _ _ (nd_stores _ _ _ _ N2)).
Qed.

Lemma upsertCell_ok t fl old key value flag leaf path kvs :
  writable t fl old key value leaf path kvs -> flag = 0 \/ flag = KEY_DELETED_FLAG ->
  exists sv t', upsertCell key value flag t = (Ok tt, t')
    /\ len sv = stored_len value /\ written t t' fl old key value flag leaf kvs sv.
Proof.
  intros [Hre Hc Ho Hroom] Hfg. pose proof Hre as [Hok Hsz Hfl Hb Hd Hl H0 Hin].
  destruct (upsert_prepare t fl key value flag leaf path kvs Hre Hfg)
    as (sv & bm1 & bm2 & fl' & L2 & E & S1 & _ & W1 & _ & K2 & N2 & S2 & I2).
  pose proof S1 as [[P1 Q1] V1]. pose proof S2 as [C2 P2 Q2 F2 B2 R2 W2 V2].
  assert (Ho2 : old_version bm2 fl' key kvs old).
  { apply (old_version_ext (t_bm t) _ fl); [lia|done| |done]. intros x Hx Hxf. etrans; [|apply V1].
    apply V2; [lia|unfold MetaPageID; lia|done]. }
  destruct (upsert_tail_ok (set_bm bm2 t) fl' old leaf path (stored_cell key value flag sv) kvs)
    as (t' & bm3 & E4 & F3 & K4 & R4 & N4 & [P4 Q4] & V4 & [G4 G5] & L4);
    cbn [set_bm t_bm t_txm stored_cell NewKVCell kvKey kvValue kvFlag] in *; try done.
  { by rewrite Q2, Q1. }
  { by intros ?%B2. }
  { by apply stored_flag_bound. }
  { by rewrite L2. }
  pose proof (fd_pages _ _ _ _ F3) as P3. pose proof (fd_size _ _ _ _ F3) as Q3.
  assert (Hoff : forall x, x ∈ old -> 0 < x < bm_pages (t_bm t) /\ x ∉ fl).
  { destruct (old_version_chain _ _ _ _ _ Ho) as [v Hv]. intros x Hx.
    destruct (own_chain_off _ _ _ _ _ Hv Hx). split; [done|]. by apply (oc_used _ _ _ _ Hv). }
  exists sv, t'. split; [rewrite upsertCell_unfold, E; exact E4|]. split; [done|].
  constructor; [done|done| |done| |by apply I2|by exists fl'| |].
  - rewrite G5, R2. by apply (free_list_same (t_bm t) bm1 ∅ fl).
  - eapply cell_on_holds. apply (cell_on_ext _ bm2); [lia| |exact C2].
    intros x Hx Hxb Hxt. etrans; [apply V4; intros ->; by rewrite (nd_type _ _ _ _ N2) in Hxt|].
    apply (fd_keep _ _ _ _ F3); [unfold MetaPageID; lia|]. intros Hxo. destruct (Hoff x Hxo).
    destruct Hx as [?|?]; [done|lia].
  - split; [lia|]. split; [congruence|]. intros x X1 X2 X3 X4. rewrite not_elem_of_app in X3.
    destruct X3 as [X3 X3']. etrans; [by apply V4|]. etrans; [by apply (fd_keep _ _ _ _ F3)|].
    etrans; [|apply V1]. apply V2; [lia|done|done].
  - unfold logged in *. cbn [set_bm t_bm t_txm] in L4. by rewrite W2, W1 in L4.
Qed.

(** ** A conflicting upsert *)

(** Nothing but the leaf's latch is taken, and it is given back. *)
Lemma upsert_conflict t fl m key value flag leaf path pre kv post :
  reaches t fl key value leaf path (pre ++ kv :: post) -> flag = 0 \/ flag = KEY_DELETED_FLAG ->
  large value = false ->
  t_txm t = Some m -> no_conflict (t_txm t) key pre -> inline_old key pre -> conflicts m key kv ->
  exists bm', upsertCell key value flag t = (Err (conflict_error m key kv), set_bm bm' t)
    /\ bm_ok bm' ∅ /\ same_view (t_bm t) bm' /\ bm_walOn bm' = bm_walOn (t_bm t)
    /\ log_step leaf (bm_wal (t_bm t)) (bm_wal bm').
Proof.
  intros Hre Hfg Hv Hm Hc Ho Hw.
  destruct (upsert_prepare t fl key value flag leaf path _ Hre Hfg)
    as (sv & bm1 & bm2 & fl' & L2 & E & S1 & G1 & W1 & T1 & K2 & N2 & S2 & I2).
  destruct (I2 Hv) as [-> ->].
  destruct (upsert_loop_conflict (set_bm bm1 t) m leaf (stored_cell key value flag value) _ kv pre post
    ([], false, HeaderSize) K2 N2 T1 eq_refl Hc Ho Hm Hw) as (bm3 & E3 & K3 & A3%same_array_view & O3 & X3).
  cbn [set_bm t_bm] in O3, X3, A3.
  exists bm3. split; [|split; [done|split; [by etrans|split; [congruence|by rewrite X3]]]].
  rewrite upsertCell_unfold, E. unfold upsert_tail. cbv zeta. unfold mbind at 1, M_bind at 1.
  cbn [set_bm t_bm stored_cell NewKVCell kvKey] in E3. unfold stored_cell in E3. by rewrite E3.
Qed.

(** ** Reading after a write *)

Lemma descends_ext bm bm' key root leaf path kvs :
  bm_pages bm <= bm_pages bm' -> leaf_node bm' leaf kvs ->
  (forall x, x ∈ path -> page_eqv (view bm' x) (view bm x)) ->
  descends bm key root leaf path -> descends bm' key root leaf path.
Proof.
  intros Hp Hl Hv Hd. induction Hd as [id kvs0 Hl0|id ks leaf path Hi Hc Hd IH].
  - by econstructor.
  - econstructor; [|done|apply IH; [done|]].
    + assert (He : page_eqv (view bm id) (view bm' id)) by (symmetry; apply Hv; by left).
      destruct Hi as [N1 N2 N3 N4]. pose proof (wf_len _ (st_wf _ _ N2)) as Hlen.
      constructor; [lia|by eapply eqv_stores|by rewrite <-(eqv_type _ _ Hlen He)|
        by rewrite <-(eqv_id _ _ Hlen He)].
    + intros x Hx. apply Hv. by right.
Qed.

(** The internal pages above a leaf are not pages of a chain. *)
Lemma descends_inner_page bm key root leaf path x :
  descends bm key root leaf path -> x ∈ path -> GetPageType (view bm x) = PageTypeInternal.
Proof.
  induction 1 as [|id ks leaf path Hi Hc Hd IH]; [by intros ?%elem_of_nil|].
  intros [->|Hx]%elem_of_cons; [apply Hi|by apply IH].
Qed.

Lemma path_not_old t fl old key value leaf path kvs root key' leaf' path' x :
  writable t fl old key value leaf path kvs -> descends (t_bm t) key' root leaf' path' -> x ∈ path' ->
  x ∉ old.
Proof.
  intros Hw Hd Hx Hxo. destruct (old_version_chain _ _ _ _ _ (wb_old _ _ _ _ _ _ _ _ Hw)) as [v Hv].
  destruct (own_chain_off _ _ _ _ _ Hv Hxo) as [_ T].
  by rewrite (descends_inner_page _ _ _ _ _ _ Hd Hx) in T.
Qed.

(** The pages of a tree are in use. *)
Definition path_used (fl path : list N) : Prop :=
  forall x, x ∈ path -> x <> MetaPageID /\ x ∉ fl.

Lemma written_descends t t' fl old key value flag leaf path kvs sv :
  writable t fl old key value leaf path kvs -> path_used fl path ->
  written t t' fl old key value flag leaf kvs sv ->
  descends (t_bm t') key (t_root t') leaf path.
Proof.
  intros Hw Hu Hn. pose proof (re_path _ _ _ _ _ _ _ (wb_reaches _ _ _ _ _ _ _ _ Hw)) as Hd.
  pose proof Hn as [_ -> _ Hl _ _ _ (Hp & _ & Hk) _].
  apply (descends_ext (t_bm t) _ key (t_root t) leaf path _ Hp Hl); [|done].
  intros x Hx. destruct (descends_bound _ _ _ _ _ _ Hd Hx), (Hu x Hx). apply Hk; try done.
  rewrite not_elem_of_app. split; [|done]. intros Hxo.
  by destruct (path_not_old _ _ _ _ _ _ _ _ _ _ _ _ _ Hw Hd Hx).
Qed.

(** The writer reads its own write back. *)
Lemma written_latest t t' fl old user txid value flag leaf path kvs sv :
  txid < 18446744073709551616 ->
  writable t fl old (BuildMVCCKey user txid) value leaf path kvs -> path_used fl path ->
  written t t' fl old (BuildMVCCKey user txid) value flag leaf kvs sv ->
  exists o bm', FindLatest (t_root t') (BuildMVCCKey user txid) (t_txm t') (t_bm t') = (o, bm')
    /\ latest_answer (t_bm t') (Some (stored_cell (BuildMVCCKey user txid) value flag sv)) o
    /\ bm_ok bm' ∅ /\ same_view (t_bm t') bm'.
Proof.
  intros Ht Hw Hu Hn. pose proof (written_descends _ _ _ _ _ _ _ _ _ _ _ Hw Hu Hn) as Hd.
  destruct Hn as [N1 N2 _ N3 N4 N5 _ (K1 & K2 & K3) N7].
  set (new := stored_cell (BuildMVCCKey user txid) value flag sv) in *.
  assert (Hb : best_version (BuildMVCCKey user txid) (t_txm t') (upserted new kvs) = Some new).
  { apply best_own; [done|done|apply elem_of_upserted; by left|].
    intros kv Hkv Hk. apply elem_of_upserted in Hkv as [?|[_ ?]]; done. }
  rewrite <-Hb. apply (FindLatest_ok _ _ _ _ leaf path (upserted new kvs)); try done.
  - pose proof (re_size _ _ _ _ _ _ _ (wb_reaches _ _ _ _ _ _ _ _ Hw)). lia.
  - rewrite Hb. intros kv [= <-]. eauto.
Qed.

Lemma written_size t t' fl old key value flag leaf path kvs sv :
  writable t fl old key value leaf path kvs -> written t t' fl old key value flag leaf kvs sv ->
  3 < bm_maxSize (t_bm t').
Proof.
  intros Hw Hn. destruct (wn_keep _ _ _ _ _ _ _ _ _ _ Hn) as (_ & -> & _).
  apply (re_size _ _ _ _ _ _ _ (wb_reaches _ _ _ _ _ _ _ _ Hw)).
Qed.

(** A transaction reads its own insert, whatever the size of the value. *)
Lemma insert_then_find t fl old user txid value leaf path kvs :
  txid < 18446744073709551616 ->
  writable t fl old (BuildMVCCKey user txid) value leaf path kvs -> path_used fl path ->
  exists t' bm', BTree_Insert (BuildMVCCKey user txid) value t = (Ok tt, t')
    /\ FindLatest (t_root t') (BuildMVCCKey user txid) (t_txm t') (t_bm t') = (Ok value, bm')
    /\ bm_ok bm' ∅.
Proof.
  intros Ht Hw Hu. destruct (upsertCell_ok t fl old _ value 0 leaf path kvs Hw (or_introl eq_refl))
    as (sv & t' & E & _ & Hn).
  destruct (written_latest _ _ _ _ _ _ _ _ _ _ _ _ Ht Hw Hu Hn) as (o & bm' & E' & Ha & K & _).
  exists t', bm'. split; [done|]. split; [|done]. rewrite E'. f_equal.
  unfold latest_answer in Ha. assert (Hd : (kvFlag (stored_cell (BuildMVCCKey user txid) value 0 sv) =? KEY_DELETED_FLAG) = false).
  { cbn. unfold stored_flag. by destruct (large value). }
  rewrite Hd in Ha. destruct Ha as (v & Hv & ->). f_equal.
  refine (cell_holds_det _ _ _ _ (wn_ok _ _ _ _ _ _ _ _ _ _ Hn) _ Hv (wn_value _ _ _ _ _ _ _ _ _ _ Hn)).
  pose proof (written_size _ _ _ _ _ _ _ _ _ _ _ Hw Hn). lia.
Qed.

(** A transaction reads its own delete, whatever older versions remain. *)
Lemma delete_then_find t fl old user txid leaf path kvs :
  txid < 18446744073709551616 ->
  writable t fl old (BuildMVCCKey user txid) [] leaf path kvs -> path_used fl path ->
  exists t' bm', BTree_Delete (BuildMVCCKey user txid) t = (Ok tt, t')
    /\ FindLatest (t_root t') (BuildMVCCKey user txid) (t_txm t') (t_bm t') = (Err ErrKeyDeleted, bm')
    /\ bm_ok bm' ∅.
Proof.
  intros Ht Hw Hu. destruct (upsertCell_ok t fl old _ [] KEY_DELETED_FLAG leaf path kvs Hw (or_intror eq_refl))
    as (sv & t' & E & _ & Hn).
  destruct (written_latest _ _ _ _ _ _ _ _ _ _ _ _ Ht Hw Hu Hn) as (o & bm' & E' & Ha & K & _).
  exists t', bm'. split; [done|]. split; [|done]. rewrite E'. f_equal. exact Ha.
Qed.

(** ** Other readers *)

Lemma visible_statuses kv key (tx tx' : option TransactionManager) :
  (forall id, match tx', tx with
              | Some m', Some m => GetStatus id m' = GetStatus id m
              | None, None => True
              | _, _ => False
              end) ->
  isVersionVisible kv key tx' = isVersionVisible kv key tx.
Proof.
  intros Hs. unfold isVersionVisible. destruct (ExtractMVCCKey key) as [u r].
  destruct (ExtractMVCCKey kv) as [k v]. specialize (Hs v).
  destruct tx' as [m'|], tx as [m|]; try done. by rewrite Hs.
Qed.

(** A version of a transaction that has not committed is not picked by others. *)
Lemma other_pick t t' new kvs user txid user' reader m :
  txid < 18446744073709551616 -> reader < 18446744073709551616 -> reader <> txid ->
  kvKey new = BuildMVCCKey user txid -> t_txm t = Some m -> GetStatus txid m <> TXN_COMMITED ->
  sorted_kvs kvs ->
  (forall id, match t_txm t', t_txm t with
              | Some m', Some m => GetStatus id m' = GetStatus id m
              | None, None => True
              | _, _ => False
              end) ->
  best_version (BuildMVCCKey user' reader) (t_txm t') (upserted new kvs)
  = best_version (BuildMVCCKey user' reader) (t_txm t) kvs.
Proof.
  intros Ht Hr Hne Hkey Hm Hst Hs Hl. apply best_version_visible.
  - intros a b Ha Hb. by apply (key_inj kvs).
  - intros kv. by apply visible_statuses.
  - intros kv Hv. rewrite elem_of_upserted, Hkey.
    assert (Hk : kvKey kv <> BuildMVCCKey user txid).
    { intros Hk. rewrite Hk, isVersionVisible_iff, !extract_build in Hv by done. cbn [fst snd] in Hv.
      destruct Hv as [_ [?|[_ Hc]]]; [congruence|]. by rewrite Hm in Hc. }
    split; [|by right]. intros [->|[? _]]; [congruence|done].
Qed.

(** The cell holds the value, on pages that are not in [fl]. *)
Definition cell_used (fl : list N) : BufferManager -> KVCell -> bytes -> Prop :=
  cell_on (fun x => x ∉ fl).

Lemma cell_used_keeps fl bm bm' leaf kv v :
  keeps bm bm' fl leaf -> GetPageType (view bm leaf) = PageTypeLeaf ->
  cell_used fl bm kv v -> cell_holds bm' kv v.
Proof.
  intros (Hp & _ & Hk) Ht Hu. eapply cell_on_holds, cell_on_ext; [exact Hp| |exact Hu].
  intros x Hx Hb Hxt. apply Hk; [lia|unfold MetaPageID; lia|done|]. intros ->. by rewrite Ht in Hxt.
Qed.

Lemma logged_statuses key value flag leaf t t' : logged key value flag leaf t t' ->
  forall id, match t_txm t', t_txm t with
             | Some m', Some m => GetStatus id m' = GetStatus id m
             | None, None => True
             | _, _ => False
             end.
Proof.
  unfold logged. intros Hl id. destruct (bm_walOn (t_bm t)).
  - destruct Hl as (w & lsn & _ & _ & ->). by destruct (t_txm t).
  - rewrite Hl. by destruct (t_txm t).
Qed.

End upsert_lemmas.
(** ** Properties *)

Section upsert_properties.
Context `{MapRange}.

(** C3: a write ([Insert], or [Delete] with its tombstone flag) whose cells fit the
    leaf without a split, and which no version in the leaf conflicts with,
    succeeds: its cell is in the leaf in key order, in place of the same
    transaction's version of the key if there is one, and every other cell is
    kept.  A value over the inline limit goes to an overflow chain the cell
    points to; the chain of a replaced version, on pages of its own, goes back
    to the free list.  The
    other pages in use and the root pointer keep their contents, the root
    stays, no page is left pinned or latched, and the log record is the last
    one appended, with its LSN on the leaf and as the transaction's last. *)
Theorem upsert_correct t fl old key value flag leaf path kvs :
  writable t fl old key value leaf path kvs -> flag = 0 \/ flag = KEY_DELETED_FLAG ->
  sorted_kvs kvs ->
  exists sv t', upsertCell key value flag t = (Ok tt, t')
    /\ written t t' fl old key value flag leaf kvs sv
    /\ sorted_kvs (upserted (stored_cell key value flag sv) kvs)
    /\ forall kv, kv ∈ upserted (stored_cell key value flag sv) kvs <->
         kv = stored_cell key value flag sv \/ kv ∈ kvs /\ kvKey kv <> key.
Proof.
  intros Hw Hf Hs. destruct (upsertCell_ok t fl old key value flag leaf path kvs Hw Hf) as (sv & t' & E & _ & Hn).
  exists sv, t'. split; [done|]. split; [done|]. split; [by apply upserted_sorted|].
  intros kv. apply elem_of_upserted.
Qed.

(** C4: a write by a transaction that has not committed, when it fits its leaf
    without a split and conflicts with nothing there, is invisible to every
    other reader: a lookup of any user key that leads to the written leaf
    answers the same before and after it, values in overflow chains included
    (each chain on pages of its own, in use and not those of the version the
    write replaces). *)
Theorem uncommitted_invisible t fl old user txid value flag leaf path kvs m user' reader path' :
  txid < 18446744073709551616 -> reader < 18446744073709551616 -> reader <> txid ->
  writable t fl old (BuildMVCCKey user txid) value leaf path kvs -> flag = 0 \/ flag = KEY_DELETED_FLAG ->
  t_txm t = Some m -> GetStatus txid m <> TXN_COMMITED ->
  sorted_kvs kvs ->
  (forall kv, kv ∈ kvs -> kvKey kv <> BuildMVCCKey user txid -> exists v, cell_used (old ++ fl) (t_bm t) kv v) ->
  descends (t_bm t) (BuildMVCCKey user' reader) (t_root t) leaf path' -> path_used fl path' ->
  exists t' o bm1 bm2, upsertCell (BuildMVCCKey user txid) value flag t = (Ok tt, t')
    /\ FindLatest (t_root t) (BuildMVCCKey user' reader) (t_txm t) (t_bm t) = (o, bm1)
    /\ FindLatest (t_root t') (BuildMVCCKey user' reader) (t_txm t') (t_bm t') = (o, bm2).
Proof.
  intros Ht Hr Hne Hw Hfg Hm Hst Hs Hu Hd Hpu.
  destruct (upsertCell_ok t fl old _ value flag leaf path kvs Hw Hfg) as (sv & t' & E & _ & Hn).
  pose proof Hn as [N1 N2 _ N3 N4 N5 _ N6 N7]. pose proof Hw as [[B1 B2 B3 B4 B5 B6 B7 B8] _ _ _].
  set (new := stored_cell (BuildMVCCKey user txid) value flag sv) in *.
  pose proof (other_pick t t' new kvs user txid user' reader m Ht Hr Hne eq_refl Hm Hst Hs
    (logged_statuses _ _ _ _ _ _ N7)) as Hb.
  assert (Hheld : forall kv, best_version (BuildMVCCKey user' reader) (t_txm t) kvs = Some kv ->
    exists v, cell_holds (t_bm t) kv v /\ cell_holds (t_bm t') kv v).
  { intros kv Hkv. pose proof (best_version_is_best (BuildMVCCKey user' reader) (t_txm t) kvs) as Hbest.
    rewrite Hkv in Hbest. destruct Hbest as (Hin & Hv & _).
    destruct (Hu kv Hin) as [v Hv'].
    { intros Hk. rewrite Hk, isVersionVisible_iff, !extract_build in Hv by done. cbn [fst snd] in Hv.
      destruct Hv as [_ [?|[_ Hc]]]; [congruence|]. by rewrite Hm in Hc. }
    exists v. split; [by eapply cell_on_holds|]. by eapply cell_used_keeps; [exact N6|apply B6|exact Hv']. }
  destruct (FindLatest_ok (t_bm t) (t_root t) (BuildMVCCKey user' reader) (t_txm t) leaf path' kvs B1)
    as (o & bm1 & E1 & A1 & _); [lia|done|done| |].
  { intros kv Hkv. destruct (Hheld kv Hkv) as (v & Hv & _). by exists v. }
  pose proof N6 as (K1 & K2 & K3).
  assert (Hd' : descends (t_bm t') (BuildMVCCKey user' reader) (t_root t') leaf path').
  { rewrite N2. eapply descends_ext; [exact K1|exact N3| |exact Hd]. intros x Hx.
    destruct (descends_bound _ _ _ _ _ _ Hd Hx), (Hpu x Hx). apply K3; try done.
    rewrite not_elem_of_app. split; [|done].
    exact (path_not_old _ _ _ _ _ _ _ _ _ _ _ _ _ Hw Hd Hx). }
  destruct (FindLatest_ok (t_bm t') (t_root t') (BuildMVCCKey user' reader) (t_txm t') leaf path'
    (upserted new kvs) N1)
    as (o' & bm2 & E2 & A2 & _); [lia|exact Hd'|exact N3| |].
  { rewrite Hb. intros kv Hkv. destruct (Hheld kv Hkv) as (v & _ & Hv). by exists v. }
  exists t', o, bm1, bm2. split; [done|]. split; [done|]. rewrite E2. f_equal. rewrite Hb in A2.
  destruct (best_version (BuildMVCCKey user' reader) (t_txm t) kvs) as [kv|]; cbn [latest_answer] in *; [|congruence].
  destruct (kvFlag kv =? KEY_DELETED_FLAG); [congruence|].
  destruct (Hheld kv eq_refl) as (v & H1 & H2). destruct A1 as (v1 & G1 & ->), A2 as (v2 & G2 & ->). f_equal.
  rewrite <-(cell_holds_det (t_bm t) kv v v1) by (done || lia).
  by rewrite <-(cell_holds_det (t_bm t') kv v v2) by (done || lia).
Qed.

(** C12: first updater wins.  When the first cell of the leaf that conflicts is a
    version of the same user key by another transaction [other], and [other] is
    still running, or has committed and has the greater id, the write of an
    inline value fails with the error for that case and that transaction; every
    page is as it was, nothing stays pinned or latched, and the root and the
    transaction table are unchanged.  (If the writer's own earlier version
    comes before that cell, it is one without an overflow chain.) *)
Theorem conflict_aborts_write t fl m user txid other value flag leaf path pre kv post :
  txid < 18446744073709551616 ->
  reaches t fl (BuildMVCCKey user txid) value leaf path (pre ++ kv :: post) ->
  flag = 0 \/ flag = KEY_DELETED_FLAG -> len value <= MaxInlineValueSize -> t_txm t = Some m ->
  no_conflict (t_txm t) (BuildMVCCKey user txid) pre -> inline_old (BuildMVCCKey user txid) pre ->
  ExtractMVCCKey (kvKey kv) = (user, other) -> other <> txid ->
  GetStatus other m = TXN_RUNNING \/ GetStatus other m = TXN_COMMITED /\ txid < other ->
  exists bm', upsertCell (BuildMVCCKey user txid) value flag t
      = (Err (if bool_decide (GetStatus other m = TXN_RUNNING) then ErrWWActive user other
              else ErrWWNewer user other), set_bm bm' t)
    /\ bm_ok bm' ∅ /\ same_view (t_bm t) bm'.
Proof.
  intros Ht Hre Hfg Hv Hm Hc Ho Hkv Hne Hs.
  assert (Hw : conflicts m (BuildMVCCKey user txid) kv) by (unfold conflicts; by rewrite extract_build, Hkv).
  assert (Hl : large value = false) by (unfold large; by apply N.ltb_ge).
  destruct (upsert_conflict t fl m _ value flag leaf path pre kv post Hre Hfg Hl Hm Hc Ho Hw)
    as (bm' & E & K & S & _).
  exists bm'. split; [|done]. rewrite E. unfold conflict_error. rewrite extract_build, Hkv by done.
  by destruct Hs as [->|[-> _]].
Qed.

(** C16: redoing the log record of an inline write on the page as it was before
    the write gives exactly the cells of the write (in another order), and
    redoing it again changes nothing. *)
Theorem redo_replays_write key value op p kvs :
  stores p kvs -> GetPageType p = PageTypeLeaf -> op = LogOpInsert \/ op = LogOpDelete ->
  leaf_space key (len value) kvs <= PageSize ->
  exists p' p'', redoUpsertOnPage key value op p = (Ok tt, p')
    /\ stores p' (redone key value op kvs)
    /\ redone key value op kvs ≡ₚ upserted (op_cell key value op) kvs
    /\ redoUpsertOnPage key value op p' = (Ok tt, p'') /\ stores p'' (redone key value op kvs).
Proof.
  intros Hs Ht Hop Hroom. assert (Ho : op <> LogOpUndoInsert) by by destruct Hop as [-> | ->].
  pose proof (redone_upserted key value op kvs Ho) as Hp.
  assert (Hfl : kvFlag (op_cell key value op) < 256) by by destruct Hop as [-> | ->].
  destruct (fits_perm _ _ Hp (room_fits (op_cell key value op) kvs (st_fits _ _ Hs) Hfl Hroom)) as [Hf Hsp].
  destruct (redo_ok key value op p kvs Hs Ht Hf Hsp) as (p' & E1 & S1 & T1 & _).
  destruct (redo_ok key value op p' _ S1 T1) as (p'' & E2 & S2 & _); rewrite ?redone_idemp; try done.
  exists p', p''. rewrite redone_idemp in S2. done.
Qed.

(** Undoing the insert of a version the leaf did not have gives back the
    cells from before the insert. *)
Theorem undo_insert_restores key value flag p kvs :
  stores p (upserted (NewKVCell flag key value) kvs) -> GetPageType p = PageTypeLeaf ->
  (forall kv, kv ∈ kvs -> kvKey kv <> key) -> Forall kv_fits kvs ->
  space (KVCell_Serialize <$> kvs) <= 4064 ->
  exists p' kvs', redoUpsertOnPage key value LogOpUndoInsert p = (Ok tt, p')
    /\ stores p' kvs' /\ kvs' ≡ₚ kvs.
Proof.
  intros Hs Ht Hne Hf Hsp.
  pose proof (undone_insert key value (NewKVCell flag key value) kvs eq_refl Hne) as Hp.
  destruct (fits_perm _ _ Hp (conj Hf Hsp)) as [Hf' Hsp'].
  destruct (redo_ok key value LogOpUndoInsert p _ Hs Ht Hf' Hsp') as (p' & E & S & _).
  by exists p', (redone key value LogOpUndoInsert (upserted (NewKVCell flag key value) kvs)).
Qed.

(** Undoing a delete does not give back the cells from before it: the
    tombstone of the version becomes a live cell with the empty value. *)
Theorem undo_delete_revives key p kvs :
  stores p kvs -> GetPageType p = PageTypeLeaf -> leaf_space key 0 kvs <= PageSize ->
  exists p' kvs', redoUpsertOnPage key [] LogOpInsert p = (Ok tt, p')
    /\ stores p' kvs' /\ NewKVCell 0 key [] ∈ kvs'.
Proof.
  intros Hs Ht Hroom. assert (Ho : LogOpInsert <> LogOpUndoInsert) by done.
  pose proof (redone_upserted key [] LogOpInsert kvs Ho) as Hp.
  destruct (fits_perm _ _ Hp (room_fits (op_cell key [] LogOpInsert) kvs (st_fits _ _ Hs) eq_refl Hroom)) as [Hf Hsp].
  destruct (redo_ok key [] LogOpInsert p kvs Hs Ht Hf Hsp) as (p' & E1 & S1 & _).
  exists p', (redone key [] LogOpInsert kvs). split; [done|]. split; [done|].
  rewrite Hp. apply elem_of_upserted. by left.
Qed.

(** C13: [Commit] with a log is decided by the append of the commit record, which
    is chained to the transaction's last record.  When it succeeds
    the transaction reads as committed and the record is its last one, and no page,
    no other status and no other entry of the LSN table changes; when the
    append fails, [Commit] returns its error and the transaction table, every
    status in it included, is as it was. *)
Theorem commit_correct t txid m r w' :
  bm_walOn (t_bm t) = true -> t_txm t = Some m ->
  Append txid 0 (GetLastLSN txid m) LogOpCommit [] [] (bm_wal (t_bm t)) = (r, w') ->
  match r with
  | Ok lsn => exists t' m', Commit txid t = (Ok tt, t')
      /\ t_bm t' = set_bm_wal w' (t_bm t) /\ t_root t' = t_root t /\ t_txm t' = Some m'
      /\ GetStatus txid m' = TXN_COMMITED /\ GetLastLSN txid m' = lsn
      /\ forall x, x <> txid -> GetStatus x m' = GetStatus x m /\ GetLastLSN x m' = GetLastLSN x m
  | Err e => exists t', Commit txid t = (Err e, t')
      /\ t_bm t' = set_bm_wal w' (t_bm t) /\ t_root t' = t_root t /\ t_txm t' = Some m
  | _ => False
  end.
Proof.
  intros Hw Hm Ea.
  assert (Hstep : forall A (k : N -> M BTree A),
    (prevLSN ← get_txm (GetLastLSN txid); lsn ← on_bm (on_wal (Append txid 0 prevLSN LogOpCommit [] [])); k lsn) t
    = match r with
      | Ok lsn => k lsn (set_bm (set_bm_wal w' (t_bm t)) t)
      | Err e => (Err e, set_bm (set_bm_wal w' (t_bm t)) t)
      | Panic => (Panic, set_bm (set_bm_wal w' (t_bm t)) t)
      | Hang => (Hang, set_bm (set_bm_wal w' (t_bm t)) t)
      end).
  { intros A k. unfold get_txm. unfold mbind at 1, M_bind at 1. rewrite Hm.
    unfold mbind at 1, M_bind at 1. rewrite (on_bm_eq _ t _ _ (on_wal_eq _ _ _ _ Ea)). by destruct r. }
  assert (Hc : Commit txid t = (_ ← (prevLSN ← get_txm (GetLastLSN txid);
      lsn ← on_bm (on_wal (Append txid 0 prevLSN LogOpCommit [] []));
      on_txm (SetLastLSN txid lsn)); on_txm (SetStatus txid TXN_COMMITED)) t).
  { unfold Commit. unfold mbind at 1, M_bind at 1, gets at 1. by rewrite Hw. }
  unfold mbind at 1, M_bind at 1 in Hc. rewrite Hstep in Hc. rewrite Hc. clear Hc Hstep.
  destruct r as [lsn|e| |]; [| |by destruct (proj1 (Append_total _ _ _ _ _ _ _ _ _ Ea))
    |by destruct (proj2 (Append_total _ _ _ _ _ _ _ _ _ Ea))].
  - exists (mkTree (set_bm_wal w' (t_bm t)) (t_root t) (Some (SetStatus txid TXN_COMMITED (SetLastLSN txid lsn m)))),
      (SetStatus txid TXN_COMMITED (SetLastLSN txid lsn m)).
    split; [unfold on_txm; cbn [set_bm t_txm]; by rewrite Hm|]. do 3 (split; [done|]).
    split; [by rewrite GetStatus_SetStatus, decide_True|].
    split; [by rewrite GetLastLSN_SetStatus, GetLastLSN_SetLastLSN, decide_True|].
    intros x Hx. rewrite GetStatus_SetStatus, GetStatus_SetLastLSN, decide_False by done.
    split; [done|]. by rewrite GetLastLSN_SetStatus, GetLastLSN_SetLastLSN, decide_False.
  - exists (set_bm (set_bm_wal w' (t_bm t)) t). done.
Qed.
End upsert_properties.

(** ** Witnesses *)

Definition demo_tree : BTree := mkTree demo_pool 1 (Some demo_txns).

Lemma demo_reaches user txid value :
  len value < 4000000000 -> reaches demo_tree [2] (BuildMVCCKey user txid) value 1 [] demo_cells.
Proof.
  intros Hv. constructor.
  - exact demo_ok.
  - reflexivity.
  - exact demo_free_list.
  - assert (Hp : bm_pages demo_pool = 3) by (vm_compute; reflexivity).
    cbn [demo_tree t_bm]. rewrite Hp. lia.
  - eapply descends_leaf. exact demo_leaf_node.
  - exact demo_leaf_node.
  - discriminate.
  - intros E%list_elem_of_singleton. discriminate.
Qed.

Lemma demo_writable user txid value :
  no_conflict (Some demo_txns) (BuildMVCCKey user txid) demo_cells ->
  leaf_space (BuildMVCCKey user txid) (stored_len value) demo_cells <= PageSize ->
  len value < 4000000000 ->
  writable demo_tree [2] [] (BuildMVCCKey user txid) value 1 [] demo_cells.
Proof.
  intros Hc Hr Hv. constructor.
  - apply demo_reaches. exact Hv.
  - exact Hc.
  - constructor. intros kv Hkv _. apply elem_of_cons in Hkv as [->|[->|[]%elem_of_nil]%elem_of_cons]; reflexivity.
  - exact Hr.
Qed.

Lemma demo_no_conflict key kvs :
  Forall (fun kv => ww_conflict (Some demo_txns) key (kvKey kv) = None) kvs ->
  no_conflict (Some demo_txns) key kvs.
Proof.
  rewrite Forall_forall. intros Hf m kv [= <-] Hin Hc. specialize (Hf kv Hin).
  rewrite (ww_some _ _ _ Hc) in Hf. discriminate.
Qed.

Lemma upsert_correct_witness :
  exists t', @upsertCell canonical_range (BuildMVCCKey [x6b] 7) [x63] 0 demo_tree = (Ok tt, t').
Proof.
  destruct (@upsert_correct canonical_range demo_tree [2] [] (BuildMVCCKey [x6b] 7) [x63] 0 1 [] demo_cells)
    as (sv & t' & E & _).
  - apply demo_writable; [apply demo_no_conflict; repeat constructor|vm_compute; discriminate|reflexivity].
  - by left.
  - repeat constructor.
  - exists t'. exact E.
Defined.

Lemma uncommitted_invisible_witness :
  exists t' bm1 bm2, @upsertCell canonical_range (BuildMVCCKey [x6b] 7) [x63] 0 demo_tree = (Ok tt, t')
    /\ @FindLatest canonical_range 1 (BuildMVCCKey [x6b] 9) (Some demo_txns) demo_pool = (Ok [x61], bm1)
    /\ @FindLatest canonical_range (t_root t') (BuildMVCCKey [x6b] 9) (t_txm t') (t_bm t') = (Ok [x61], bm2).
Proof.
  destruct (@uncommitted_invisible canonical_range demo_tree [2] [] [x6b] 7 [x63] 0 1 [] demo_cells demo_txns
    [x6b] 9 []) as (t' & o & bm1 & bm2 & E & E1 & E2).
  - reflexivity.
  - reflexivity.
  - discriminate.
  - apply demo_writable; [apply demo_no_conflict; repeat constructor|vm_compute; discriminate|reflexivity].
  - left. reflexivity.
  - reflexivity.
  - vm_compute. discriminate.
  - repeat constructor.
  - intros kv Hkv _. apply elem_of_cons in Hkv as [->|[->|[]%elem_of_nil]%elem_of_cons]; eexists; reflexivity.
  - eapply descends_leaf. exact demo_leaf_node.
  - intros x []%elem_of_nil.
  - assert (Ho : o = Ok [x61]).
    { transitivity (fst (@FindLatest canonical_range (t_root demo_tree) (BuildMVCCKey [x6b] 9) (t_txm demo_tree)
        (t_bm demo_tree))); [rewrite E1; reflexivity|vm_compute; reflexivity]. }
    subst o. exists t', bm1, bm2. split; [exact E|]. split; [exact E1|exact E2].
Defined.

Lemma conflict_aborts_write_witness :
  exists bm', @upsertCell canonical_range (BuildMVCCKey [x6b] 9) [x63] 0 demo_tree
    = (Err (ErrWWActive [x6b] 7), set_bm bm' demo_tree).
Proof.
  destruct (@conflict_aborts_write canonical_range demo_tree [2] demo_txns [x6b] 9 7 [x63] 0 1 []
    (take 1 demo_cells) (NewKVCell 0 (BuildMVCCKey [x6b] 7) [x62]) []) as (bm' & E & _).
  - reflexivity.
  - apply demo_reaches. reflexivity.
  - left. reflexivity.
  - vm_compute. discriminate.
  - reflexivity.
  - apply demo_no_conflict. repeat constructor.
  - intros kv [->|[]%elem_of_nil]%elem_of_cons _. reflexivity.
  - vm_compute. reflexivity.
  - discriminate.
  - left. vm_compute. reflexivity.
  - exists bm'. exact E.
Defined.

Lemma redo_replays_write_witness :
  exists p', redoUpsertOnPage (BuildMVCCKey [x6b] 7) [x63] LogOpInsert demo_leaf = (Ok tt, p')
    /\ kv_cells p' = Ok [NewKVCell 0 (BuildMVCCKey [x6b] 5) [x61]; NewKVCell 0 (BuildMVCCKey [x6b] 7) [x63]].
Proof.
  destruct (redo_replays_write (BuildMVCCKey [x6b] 7) [x63] LogOpInsert demo_leaf demo_cells)
    as (p' & p'' & E & S & _).
  - exact demo_leaf_stores.
  - vm_compute. reflexivity.
  - left. reflexivity.
  - vm_compute. discriminate.
  - exists p'. split; [exact E|]. rewrite (kv_cells_stores _ _ S). vm_compute. reflexivity.
Defined.

(** The demo leaf is the demo version 5 with version 7 inserted. *)
Lemma undo_insert_restores_witness :
  exists p' kvs', redoUpsertOnPage (BuildMVCCKey [x6b] 7) [x62] LogOpUndoInsert demo_leaf = (Ok tt, p')
    /\ kv_cells p' = Ok kvs' /\ kvs' ≡ₚ take 1 demo_cells.
Proof.
  destruct (undo_insert_restores (BuildMVCCKey [x6b] 7) [x62] 0 demo_leaf (take 1 demo_cells))
    as (p' & kvs' & E & S & P).
  - assert (Hu : upserted (NewKVCell 0 (BuildMVCCKey [x6b] 7) [x62]) (take 1 demo_cells) = demo_cells)
      by (vm_compute; reflexivity). rewrite Hu. exact demo_leaf_stores.
  - vm_compute. reflexivity.
  - intros kv [->|[]%elem_of_nil]%elem_of_cons. vm_compute. discriminate.
  - repeat constructor.
  - vm_compute. discriminate.
  - exists p', kvs'. split; [exact E|]. split; [exact (kv_cells_stores _ _ S)|exact P].
Defined.

Lemma undo_delete_revives_witness :
  exists p' kvs', redoUpsertOnPage (BuildMVCCKey [x6b] 7) [] LogOpInsert demo_leaf = (Ok tt, p')
    /\ kv_cells p' = Ok kvs' /\ NewKVCell 0 (BuildMVCCKey [x6b] 7) [] ∈ kvs'.
Proof.
  destruct (undo_delete_revives (BuildMVCCKey [x6b] 7) demo_leaf demo_cells) as (p' & kvs' & E & S & I).
  - exact demo_leaf_stores.
  - vm_compute. reflexivity.
  - vm_compute. discriminate.
  - exists p', kvs'. split; [exact E|]. split; [exact (kv_cells_stores _ _ S)|exact I].
Defined.

Lemma commit_correct_witness :
  exists t' m', Commit 7 demo_tree = (Ok tt, t') /\ t_txm t' = Some m' /\ GetStatus 7 m' = TXN_COMMITED.
Proof.
  destruct (commit_correct demo_tree 7 demo_txns _ _ eq_refl eq_refl eq_refl)
    as (t' & m' & E & _ & _ & Em & Es & _).
  exists t', m'. split; [exact E|]. split; [exact Em|exact Es].
Defined.
