(* ===== verification/Rollback.v ===== *)
(** * Rolling a transaction back ([Rollback] of [internal/storage/btree.go])

    The walk along a transaction's chain of log records, undoing each insert
    and each delete on its leaf, is shown to do to every leaf exactly what the
    specification says while the log grows by exactly the compensation records
    the specification lists.  The code is in
    [Upsert]; this file has its lemmas and theorem. *)

From S2P Require Import Prelude Crc Cell Page Pager Wal Txn Buffer Tree Overflow Upsert.

(** * Specification *)

(** The leaves of the tree by page, with their cells, none overfull. *)
Abbreviation leaves := (gmap N (list KVCell)).

Definition leaves_ok (bm : BufferManager) (L : leaves) : Prop := forall id kvs,
  L !! id = Some kvs -> leaf_node bm id kvs /\ space (KVCell_Serialize <$> kvs) <= 4064.

(** Undoing one record on the cells of its leaf: an insert is taken out; a delete
    becomes a live cell with the value of its log record. *)
Definition undo_op (r : LogRecord) : N :=
  if rOpType r =? LogOpDelete then LogOpInsert else LogOpUndoInsert.
Definition undo_leaf (r : LogRecord) (kvs : list KVCell) : list KVCell :=
  if rOpType r =? LogOpDelete then
    (fun kv => if bytes_eqb (kvKey kv) (rKey r) then NewKVCell 0 (rKey r) (rValue r) else kv) <$> kvs
  else filter (fun kv => kvKey kv <> rKey r) kvs.

Definition undo (L : leaves) (r : LogRecord) : leaves := alter (undo_leaf r) (rPageID r) L.

(** The records of a transaction, latest first, linked by their previous LSNs. *)
Fixpoint txn_chain (recs : list LogRecord) (lsn : N) (rs : list LogRecord) : Prop :=
  match rs with
  | [] => lsn = 0
  | r :: rs' => lsn <> 0 /\ r ∈ recs /\ rLSN r = lsn /\ rPrevLSN r < lsn
      /\ txn_chain recs (rPrevLSN r) rs'
  end.

(** The record is an insert, or a delete whose version is still in its leaf; a
    delete has the empty value. *)
Definition undoable (L : leaves) (r : LogRecord) : Prop :=
  exists kvs, L !! rPageID r = Some kvs
    /\ (rOpType r = LogOpInsert
        \/ rOpType r = LogOpDelete /\ rValue r = [] /\ rKey r ∈ kvKey <$> kvs).

(** So is each record of the chain when its turn comes. *)
Fixpoint all_undoable (L : leaves) (rs : list LogRecord) : Prop :=
  match rs with
  | [] => True
  | r :: rs' => undoable L r /\ all_undoable (undo L r) rs'
  end.

(** ** What the rollback writes to the log *)

(** The image of a page, as a write fetch logs it. *)
Definition is_image (id : N) (r : LogRecord) : Prop :=
  rTxnID r = 0 /\ rPrevLSN r = 0 /\ rPageID r = id /\ rOpType r = LogOpFullPage
  /\ rKey r = [] /\ len (rValue r) = PageSize.

(** The compensation record of [r]: it repeats the change and points to the
    record before [r] in the transaction's chain. *)
Definition is_clr (txid : N) (r clr : LogRecord) : Prop :=
  rTxnID clr = txid /\ rPrevLSN clr = rPrevLSN r /\ rPageID clr = rPageID r
  /\ rOpType clr = LogOpCLR /\ rKey clr = rKey r /\ rValue clr = rValue r.

Definition is_abort (txid : N) (r : LogRecord) : Prop :=
  rTxnID r = txid /\ rPrevLSN r = 0 /\ rPageID r = 0 /\ rOpType r = LogOpAbort
  /\ rKey r = [] /\ rValue r = [].

(** For one record: its compensation record, after the image of the page if the
    page was clean. *)
Definition undo_entry (txid : N) (r : LogRecord) (seg : list LogRecord) : Prop :=
  exists clr, is_clr txid r clr
    /\ (seg = [clr] \/ exists im, is_image (rPageID r) im /\ seg = [im; clr]).

(** For the whole chain, latest record first. *)
Definition undo_log (txid : N) (rs ext : list LogRecord) : Prop :=
  exists segs, Forall2 (undo_entry txid) rs segs /\ ext = concat segs.

(** What the log may grow by: the image of the page and a compensation record
    for each record undone. *)
Definition undo_cost (rs : list LogRecord) : N :=
  foldr (fun r n => 4139 + record_size r + n) 0 rs.

(** * Lemmas *)

Lemma in_log recs r : lsns_from 4 recs -> r ∈ recs ->
  exists pre post, recs = pre ++ r :: post /\ rLSN r = lsn_after pre.
Proof.
  intros Hl (pre & post & ->)%list_elem_of_split. exists pre, post. split; [done|].
  by eapply lsns_middle.
Qed.

Lemma page_image_fits w id p :
  len p = PageSize -> id < 4294967296 -> currentLSN w < 18446744073709551616 ->
  let r := next_record w 0 id 0 LogOpFullPage [] p in rec_fits r /\ record_size r = 4139.
Proof.
  intros Hp Hid Hl r. assert (Hs : record_size r = 4139).
  { unfold r, record_size, next_record, u16, u32. cbn [rKey rValue]. rewrite Hp. reflexivity. }
  split; [|done]. constructor; try done. by rewrite Hs.
Qed.

Lemma wal_lsn w recs : wal_ok w recs -> currentLSN w < 18446744073709551616.
Proof. intros [_ _ -> _ _ Hb]. lia. Qed.

(** A fetched page leaves a well-formed log. *)
Lemma log_step_ok id w w' recs :
  wal_ok w recs -> log_step id w w' -> id < 4294967296 ->
  4 + log_size recs + 4139 < 9223372036854775808 ->
  exists ext, wal_ok w' (recs ++ ext) /\ log_size ext <= 4139
    /\ (ext = [] \/ exists im, is_image id im /\ ext = [im]).
Proof.
  intros Hw [->|(p & lsn & Hp & E)] Hid Hb.
  { exists []. rewrite app_nil_r. split; [done|]. split; [cbn; lia|by left]. }
  destruct (page_image_fits w id p Hp Hid (wal_lsn _ _ Hw)) as [Hf Hs].
  destruct (Append_ok w recs 0 id 0 LogOpFullPage [] p Hw Hf) as (w2 & E2 & W2 & _); [by rewrite Hs|].
  rewrite E in E2. injection E2 as _ ->. eexists. split; [exact W2|]. split; [cbn; by rewrite Hs|].
  right. eexists. split; [|done]. by repeat split.
Qed.

Section rollback.
Context `{MapRange}.

(** A chain in the log is no longer than the log. *)
Lemma chain_below recs : forall rs lsn, txn_chain recs lsn rs ->
  (forall r, r ∈ rs -> r ∈ recs /\ rLSN r <= lsn) /\ NoDup (rLSN <$> rs).
Proof.
  induction rs as [|r rs IH]; intros lsn.
  - intros _. split; [intros r Hr%elem_of_nil; done|constructor].
  - cbn [txn_chain]. intros (H0 & Hin & Hl & Hp & Hc). destruct (IH _ Hc) as [H1 H2]. split.
    + intros x [->|Hx]%elem_of_cons; [split; [done|lia]|]. destruct (H1 x Hx). split; [done|lia].
    + rewrite fmap_cons. constructor; [|done]. intros (x & Hx & Hin')%list_elem_of_fmap.
      destruct (H1 x Hin'). lia.
Qed.

Lemma chain_fuel bm recs rs lsn :
  wal_ok (bm_wal bm) recs -> txn_chain recs lsn rs -> (length rs < log_fuel bm)%nat.
Proof.
  intros Hw Hc. destruct (chain_below _ _ _ Hc) as [H1 H2]. unfold log_fuel.
  assert (Hle : (length (rLSN <$> rs) <= length (rLSN <$> recs))%nat).
  { apply submseteq_length, NoDup_submseteq; [done|]. intros x (r & -> & Hr)%list_elem_of_fmap.
    apply list_elem_of_fmap. exists r. split; [done|]. by apply H1. }
  rewrite !length_fmap in Hle. rewrite (wo_bytes _ _ Hw), length_app.
  pose proof (log_bytes_longer recs). lia.
Qed.

Lemma filter_space (P : KVCell -> Prop) `{!forall x, Decision (P x)} kvs :
  space (KVCell_Serialize <$> filter P kvs) <= space (KVCell_Serialize <$> kvs).
Proof.
  unfold space. induction kvs as [|kv kvs IH]; [done|]. rewrite filter_cons.
  case_decide; cbn [fmap list_fmap foldr]; lia.
Qed.

(** What undoing one record does to the leaf and the log. *)
Record undone (bm bm' : BufferManager) (txid : N) (r : LogRecord) (recs : list LogRecord) (L : leaves)
    (ext : list LogRecord) : Prop := {
  un_ok : bm_ok bm' ∅;
  un_wal : wal_ok (bm_wal bm') (recs ++ ext);
  un_cost : log_size ext <= 4139 + record_size r;
  un_entry : undo_entry txid r ext;
  un_leaves : leaves_ok bm' (undo L r);
  un_size : bm_pages bm' = bm_pages bm /\ bm_maxSize bm' = bm_maxSize bm;
  un_on : bm_walOn bm' = bm_walOn bm;
  un_rest : forall id, id <> rPageID r -> page_eqv (view bm' id) (view bm id)
}.

Lemma on_page_wal {A} id (m : M page A) bm o bm' : on_page id m bm = (o, bm') -> bm_wal bm' = bm_wal bm.
Proof.
  unfold on_page, mbind, M_bind, get_frame. destruct (bm_pageTable bm !! id) as [fr|]; [|by intros [= _ <-]].
  destruct (m (fr_page fr)) as [o' p]. unfold alter_frame, modify, pure. by intros [= _ <-].
Qed.

Lemma steady_undo txid r : steady bm_walOn (undo_record txid r).
Proof. unfold undo_record, Append_, Unpin. steady. Qed.

(** The cells that undoing leaves fit the page. *)
Lemma redone_undo L r kvs : undoable L r -> L !! rPageID r = Some kvs ->
  redone (rKey r) (rValue r) (undo_op r) kvs = undo_leaf r kvs.
Proof.
  intros (kvs' & Hk & Hop) Hk'. assert (kvs' = kvs) as -> by congruence.
  unfold redone, undo_op, undo_leaf. destruct Hop as [->|(-> & Hv & Hin)]; [done|]. cbn.
  assert (Hx : existsb (same_key (rKey r)) kvs = true).
  { apply list_elem_of_fmap in Hin as (kv & Ek & Hin). apply existsb_exists. exists kv.
    split; [by apply list_elem_of_In|]. by apply same_key_iff. }
  by rewrite Hx.
Qed.

Lemma undo_leaf_fits L r kvs : undoable L r -> L !! rPageID r = Some kvs ->
  Forall kv_fits kvs -> space (KVCell_Serialize <$> kvs) <= 4064 ->
  Forall kv_fits (undo_leaf r kvs) /\ space (KVCell_Serialize <$> undo_leaf r kvs) <= 4064.
Proof.
  intros (kvs' & Hk & Hop) Hk' Hf Hs. assert (kvs' = kvs) as -> by congruence. clear Hk Hk'.
  unfold undo_leaf. destruct Hop as [->|(-> & Hv & _)]; cbn [N.eqb Pos.eqb LogOpInsert LogOpDelete].
  - split; [|etrans; [apply filter_space|exact Hs]]. rewrite Forall_forall in Hf |- *.
    intros kv [_ Hkv]%list_elem_of_filter. by apply Hf.
  - rewrite Hv. set (g := fun kv => if bytes_eqb (kvKey kv) (rKey r) then NewKVCell 0 (rKey r) [] else kv).
    assert (Hg : forall kv, kv_fits kv -> kv_fits (g kv) /\ KVCell_Size (g kv) <= KVCell_Size kv).
    { intros kv [F1 F2]. unfold g. destruct (bytes_eqb (kvKey kv) (rKey r)) eqn:Ek; [|by split].
      apply bytes_eqb_eq in Ek. unfold kv_fits, KVCell_Size in *. cbn [NewKVCell kvKey kvValue kvFlag].
      rewrite Ek in *. rewrite len_nil. split; [split|]; lia. }
    clearbody g. split.
    + apply Forall_fmap. eapply Forall_impl; [exact Hf|]. intros kv Hkv. by apply Hg.
    + etrans; [|exact Hs]. clear -Hf Hg. unfold space. induction Hf as [|kv kvs Hkv Hf IH]; [done|].
      cbn [fmap list_fmap foldr]. rewrite !len_kv_serialize. destruct (Hg kv Hkv). lia.
Qed.

(** The leaf after the undo, as the page code computes it. *)
Lemma undo_page bm L r kvs :
  leaves_ok bm L -> undoable L r -> L !! rPageID r = Some kvs ->
  exists p', redoUpsertOnPage (rKey r) (rValue r) (undo_op r) (view bm (rPageID r)) = (Ok tt, p')
    /\ stores p' (undo_leaf r kvs) /\ GetPageType p' = PageTypeLeaf /\ GetPageID p' = rPageID r.
Proof.
  intros HL Hu Hk. destruct (HL _ _ Hk) as [Hl Hsp]. pose proof (nd_stores _ _ _ _ Hl) as St.
  destruct (undo_leaf_fits L r kvs Hu Hk (st_fits _ _ St) Hsp) as [Hf Hs].
  pose proof (redone_undo L r kvs Hu Hk) as Er.
  destruct (redo_ok (rKey r) (rValue r) (undo_op r) (view bm (rPageID r)) kvs St (nd_type _ _ _ _ Hl))
    as (p' & E & S & T & I); [by rewrite Er..|].
  exists p'. rewrite Er in S. rewrite I, (nd_self _ _ _ _ Hl). done.
Qed.

Lemma leaves_undo bm bm' L r kvs p' :
  leaves_ok bm L -> undoable L r -> L !! rPageID r = Some kvs -> bm_pages bm' = bm_pages bm ->
  stores p' (undo_leaf r kvs) -> GetPageType p' = PageTypeLeaf ->
  GetPageID p' = rPageID r -> page_eqv (view bm' (rPageID r)) p' ->
  (forall id, id <> rPageID r -> page_eqv (view bm' id) (view bm id)) ->
  leaves_ok bm' (undo L r).
Proof.
  intros HL Hu Hk Hp S T I Hv Ho id kvs' Hin. unfold undo in Hin.
  destruct (decide (id = rPageID r)) as [->|Hne].
  - rewrite lookup_alter_eq, Hk in Hin. injection Hin as <-. destruct (HL _ _ Hk) as [Hl Hsp].
    pose proof (wf_len _ (st_wf _ _ S)) as Hlen. symmetry in Hv.
    destruct (undo_leaf_fits L r kvs Hu Hk (st_fits _ _ (nd_stores _ _ _ _ Hl)) Hsp) as [_ Hs].
    split; [|exact Hs].
    constructor; [rewrite Hp; apply Hl|by eapply eqv_stores|by rewrite <-(eqv_type _ _ Hlen Hv)|
      by rewrite <-(eqv_id _ _ Hlen Hv)].
  - rewrite lookup_alter_ne in Hin by done. destruct (HL _ _ Hin) as [[N1 N2 N3 N4] Hsp].
    pose proof (wf_len _ (st_wf _ _ N2)) as Hlen. specialize (Ho id Hne). symmetry in Ho.
    split; [|done]. constructor; [by rewrite Hp|by eapply eqv_stores|by rewrite <-(eqv_type _ _ Hlen Ho)|
      by rewrite <-(eqv_id _ _ Hlen Ho)].
Qed.

Lemma undo_record_ok bm txid r recs L :
  bm_ok bm ∅ -> 0 < bm_maxSize bm -> wal_ok (bm_wal bm) recs -> leaves_ok bm L -> undoable L r ->
  rec_fits r -> txid < 18446744073709551616 ->
  4 + log_size recs + (4139 + record_size r) < 9223372036854775808 ->
  exists bm' ext, undo_record txid r bm = (Ok tt, bm') /\ undone bm bm' txid r recs L ext.
Proof.
  intros Hok Hsz Hw HL Hu Hf Ht Hb. pose proof Hu as (kvs & Hk & Hop). destruct (HL _ _ Hk) as [Hl _].
  destruct (fetch_write_log (rPageID r) PageTypeLeaf bm ∅ Hok (nd_id _ _ _ _ Hl) (lookup_empty _))
    as (bm1 & E1 & K1 & S1 & T1 & G1); [by right; rewrite map_size_empty|].
  set (h := <[rPageID r := HWrite]> (∅ : gmap N hold)) in *.
  assert (Hh : h !! rPageID r = Some HWrite) by apply lookup_insert_eq.
  destruct (log_step_ok _ _ _ _ Hw G1 (rf_page _ Hf)) as (e1 & W1 & C1 & I1); [lia|].
  assert (HL1 : leaves_ok bm1 L).
  { intros id k Hin. destruct (HL _ _ Hin). split; [by eapply node_same|done]. }
  destruct (undo_page bm1 L r kvs HL1 Hu Hk) as (p' & E2 & S2 & T2 & I2).
  pose proof (wf_len _ (st_wf _ _ S2)) as Hlen.
  destruct (on_page_ok bm1 _ _ _ _ p' K1 Hh E2 Hlen) as (bm2 & E3 & K2 & ((P2 & Q2) & V2 & O2)).
  pose proof (on_page_wal _ _ _ _ _ E3) as W2. rewrite <-W2 in W1.
  set (clr := next_record (bm_wal bm2) txid (rPageID r) (rPrevLSN r) LogOpCLR (rKey r) (rValue r)).
  assert (Hcs : record_size clr = record_size r) by done.
  assert (Hcf : rec_fits clr).
  { destruct Hf. constructor; try done. exact (wal_lsn _ _ W1). }
  destruct (Append_ok _ _ txid (rPageID r) (rPrevLSN r) LogOpCLR (rKey r) (rValue r) W1 Hcf)
    as (w3 & E4 & W3 & _); [fold clr; rewrite Hcs, log_size_app; lia|]. fold clr in W3.
  set (lsn := lsn_after (recs ++ e1)) in *. set (bm3 := set_bm_wal w3 bm2).
  assert (K3 : bm_ok bm3 h) by (destruct K2; constructor; try done; apply (wo_healthy _ _ W3)).
  destruct (wr_ok bm3 h (rPageID r) (SetLSN lsn) K3 Hh) as (bm4 & E5 & K4 & ((P4 & Q4) & V4 & O4)).
  { unfold SetLSN. rewrite len_set_field. change (view bm3 (rPageID r)) with (view bm2 (rPageID r)).
    by rewrite V2. }
  assert (W4 : bm_wal bm4 = w3) by (unfold wr, alter_frame, modify in E5; by injection E5 as <-).
  destruct (unpin_ok bm4 _ _ HWrite true K4 Hh) as (bm5 & E6 & K5 & [[P5 Q5] V5]); [by intros _ [=]|].
  pose proof (UnpinPage_wal _ _ _ _ _ _ E6) as W5.
  assert (Hrun : undo_record txid r bm = (Ok tt, bm5)).
  { unfold undo_record. fold (undo_op r).
    assert (Hops : ((rOpType r =? LogOpInsert) || (rOpType r =? LogOpDelete)) = true)
      by (by destruct Hop as [->|(-> & _)]). rewrite Hops.
    mstep (attempt_ok _ _ _ _ E1). mstep E3.
    assert (Ea : Append_ txid (rPageID r) (rPrevLSN r) LogOpCLR (rKey r) (rValue r) bm2 = (Ok lsn, bm3)).
    { unfold Append_. by mstep (attempt_ok _ _ _ _ (on_wal_eq _ _ _ _ E4)). }
    mstep Ea. mstep E5. by apply Unpin_eq. }
  exists bm5, (e1 ++ [clr]). split; [done|]. destruct S1 as [[P1 Q1] S1].
  change (view bm3) with (view bm2) in *.
  change (bm_pages bm3) with (bm_pages bm2) in P4. change (bm_maxSize bm3) with (bm_maxSize bm2) in Q4.
  assert (Hv : page_eqv (view bm5 (rPageID r)) p') by (rewrite V5, V4, V2; by apply SetLSN_eqv).
  assert (Ho : forall id, id <> rPageID r -> page_eqv (view bm5 id) (view bm id)).
  { intros id Hne. rewrite V5, O4 by done. cbn. rewrite O2 by done. apply S1. }
  constructor.
  - unfold release in K5. rewrite Hh in K5. unfold h in K5. by rewrite delete_insert_eq, delete_empty in K5.
  - by rewrite W5, W4, (assoc_L (++)).
  - rewrite log_size_app. cbn [log_size foldr]. rewrite Hcs. unfold log_size in *. lia.
  - exists clr. split; [done|]. destruct I1 as [->|(im & Him & ->)]; [by left|]. right. by exists im.
  - eapply (leaves_undo bm); try done. congruence.
  - split; congruence.
  - pose proof (steady_undo txid r bm) as G. by rewrite Hrun in G.
  - done.
Qed.

Lemma read_log_ok bm recs r : bm_walOn bm = true -> wal_ok (bm_wal bm) recs -> r ∈ recs ->
  read_log (rLSN r) bm = (Ok (r, record_size r), bm).
Proof.
  intros Hon Hw Hin. destruct (in_log recs r (wo_lsns _ _ Hw) Hin) as (pre & post & -> & ->).
  unfold read_log. unfold mbind, M_bind, gets. rewrite Hon.
  rewrite (on_wal_eq _ _ _ _ (ReadRecord_ok _ _ _ _ Hw)). by destruct bm.
Qed.

Lemma undo_log_cons txid r rs e1 ext :
  undo_entry txid r e1 -> undo_log txid rs ext -> undo_log txid (r :: rs) (e1 ++ ext).
Proof. intros He (segs & Hs & ->). exists (e1 :: segs). split; [by constructor|done]. Qed.

Lemma undo_cost_cons r rs : undo_cost (r :: rs) = 4139 + record_size r + undo_cost rs.
Proof. done. Qed.

(** The walk along the chain. *)
Lemma rollback_loop_ok txid recs0 : forall rs fuel lsn bm ext L,
  txid < 18446744073709551616 -> txn_chain recs0 lsn rs -> (length rs <= fuel)%nat ->
  bm_ok bm ∅ -> 0 < bm_maxSize bm -> bm_walOn bm = true -> wal_ok (bm_wal bm) (recs0 ++ ext) ->
  leaves_ok bm L -> all_undoable L rs ->
  4 + log_size (recs0 ++ ext) + undo_cost rs < 9223372036854775808 ->
  exists bm' ext', rollback_loop fuel txid lsn bm = (Ok tt, bm') /\ bm_ok bm' ∅
    /\ bm_walOn bm' = true /\ wal_ok (bm_wal bm') (recs0 ++ ext ++ ext')
    /\ log_size ext' <= undo_cost rs /\ undo_log txid rs ext'
    /\ leaves_ok bm' (foldl undo L rs)
    /\ bm_pages bm' = bm_pages bm
    /\ forall id, id ∉ rPageID <$> rs -> page_eqv (view bm' id) (view bm id).
Proof.
  induction rs as [|r rs IH]; intros fuel lsn bm ext L Ht Hc Hf Hok Hsz Hon Hw HL Hi Hb.
  - cbn in Hc. subst lsn. exists bm, []. rewrite app_nil_r. split; [by destruct fuel|].
    split_and!; try done. by exists [].
  - destruct Hc as (H0 & Hin & Hl & Hp & Hc). destruct fuel as [|fuel]; [simpl in Hf; lia|].
    destruct Hi as [Hr Hi]. rewrite undo_cost_cons in Hb.
    assert (Hrf : rec_fits r).
    { pose proof (wo_fits _ _ Hw) as Hfits. rewrite Forall_forall in Hfits. apply Hfits.
      apply elem_of_app. by left. }
    destruct (undo_record_ok bm txid r (recs0 ++ ext) L Hok Hsz Hw HL Hr Hrf Ht)
      as (bm1 & e1 & E1 & [U1 U2 U3 U4 U5 [U6 U7] U8 U9]); [lia|].
    rewrite <-(assoc_L (++)) in U2.
    destruct (IH fuel (rPrevLSN r) bm1 (ext ++ e1) (undo L r)) as
      (bm2 & ext2 & E2 & V1 & V2 & V3 & V4 & Vl & V5 & V6 & V7); try done.
    + simpl in Hf. lia.
    + by rewrite U7.
    + by rewrite U8.
    + rewrite (assoc_L (++)), log_size_app. lia.
    + exists bm2, (e1 ++ ext2). rewrite <-(assoc_L (++)) in V3. split_and!; try done.
      * cbn [rollback_loop]. rewrite (proj2 (N.eqb_neq _ _)) by done. rewrite <-Hl.
        assert (Hin' : r ∈ recs0 ++ ext) by (apply elem_of_app; by left).
        mstep (read_log_ok bm _ r Hon Hw Hin'). by mstep E1.
      * rewrite undo_cost_cons, log_size_app. lia.
      * by apply undo_log_cons.
      * congruence.
      * intros id Hid. rewrite fmap_cons in Hid. apply not_elem_of_cons in Hid as [Hne Hid].
        rewrite V7 by done. by apply U9.
Qed.

(** The whole rollback. *)
Lemma Rollback_ok t txid m recs rs L :
  bm_ok (t_bm t) ∅ -> 0 < bm_maxSize (t_bm t) -> bm_walOn (t_bm t) = true -> t_txm t = Some m ->
  txid < 18446744073709551616 -> wal_ok (bm_wal (t_bm t)) recs ->
  txn_chain recs (GetLastLSN txid m) rs -> leaves_ok (t_bm t) L -> all_undoable L rs ->
  4 + log_size recs + undo_cost rs + 43 < 9223372036854775808 ->
  exists t' m' ext a, Rollback txid t = (Ok tt, t')
    /\ bm_ok (t_bm t') ∅ /\ t_root t' = t_root t /\ leaves_ok (t_bm t') (foldl undo L rs)
    /\ (forall id, id ∉ rPageID <$> rs -> page_eqv (view (t_bm t') id) (view (t_bm t) id))
    /\ wal_ok (bm_wal (t_bm t')) (recs ++ ext ++ [a]) /\ undo_log txid rs ext /\ is_abort txid a
    /\ t_txm t' = Some m' /\ GetStatus txid m' = TXN_ROLLEDBACK
    /\ forall x, x <> txid -> GetStatus x m' = GetStatus x m.
Proof.
  intros Hok Hsz Hon Hm Ht Hw Hc HL Hi Hb.
  pose proof (chain_fuel _ _ _ _ Hw Hc) as Hfuel.
  destruct (rollback_loop_ok txid recs rs (log_fuel (t_bm t)) (GetLastLSN txid m) (t_bm t) [] L)
    as (bm1 & ext & E1 & K1 & O1 & W1 & C1 & Hlog & L1 & P1 & V1); try done.
  { lia. }
  { by rewrite app_nil_r. }
  { rewrite app_nil_r. lia. }
  cbn [app] in W1.
  set (a := next_record (bm_wal bm1) txid 0 0 LogOpAbort [] []).
  assert (Ha : rec_fits a) by (constructor; try done; exact (wal_lsn _ _ W1)).
  destruct (Append_ok _ _ txid 0 0 LogOpAbort [] [] W1 Ha) as (w2 & E2 & W2 & _).
  { rewrite log_size_app. change (record_size (next_record _ _ _ _ _ _ _)) with 43. cbn in C1. lia. }
  set (m1 := SetStatus txid TXN_ROLLINGBACK m).
  exists (mkTree (set_bm_wal w2 bm1) (t_root t) (Some (SetStatus txid TXN_ROLLEDBACK m1))),
    (SetStatus txid TXN_ROLLEDBACK m1), ext, a.
  split.
  { unfold Rollback, on_txm, get_txm. unfold mbind at 1, M_bind at 1. rewrite Hm. fold m1.
    unfold mbind at 1, M_bind at 1. cbn [set_txm t_txm].
    change (GetLastLSN txid m1) with (GetLastLSN txid m).
    assert (E1' : (fuel ← gets log_fuel; rollback_loop fuel txid (GetLastLSN txid m)) (t_bm t) = (Ok tt, bm1))
      by exact E1.
    mstep (on_bm_eq _ (set_txm (Some m1) t) _ _ E1').
    unfold mbind at 1, M_bind at 1, gets at 1. cbn [set_bm set_txm t_bm]. rewrite O1.
    assert (E2' : ignore (on_wal (Append txid 0 0 LogOpAbort [] [])) bm1 = (Ok tt, set_bm_wal w2 bm1)).
    { unfold ignore. by mstep (attempt_ok _ _ _ _ (on_wal_eq _ _ _ _ E2)). }
    by mstep (on_bm_eq _ (set_bm bm1 (set_txm (Some m1) t)) _ _ E2'). }
  cbn [t_bm t_root t_txm].
  split; [destruct K1; constructor; try done; apply (wo_healthy _ _ W2)|].
  split; [done|]. split.
  { intros id kvs Hin. destruct (L1 id kvs Hin) as [N1 Hsp]. split; [|done].
    by eapply node_same; [|exact N1]. }
  split; [exact V1|]. split; [by rewrite (assoc_L (++))|]. split; [done|]. split; [done|].
  split; [done|]. split; [by rewrite GetStatus_SetStatus, decide_True|].
  intros x Hx. unfold m1. by rewrite !GetStatus_SetStatus, !decide_False.
Qed.
End rollback.

(** ** Properties *)

Section rollback_properties.
Context `{MapRange}.

(** C2: rolling back a transaction whose log records are inserts, and deletes whose
    version is still in its leaf, undoes exactly those, latest first, whatever
    other transactions wrote to the same leaves in between: the inserted
    versions are taken out, a deleted one becomes a live cell with the empty
    value, and every other cell and every page no record names keep their
    contents.  The log grows by exactly one compensation record per undone
    record, with its page, key and value and pointing to the record before it
    in the chain, each possibly preceded by a full-page record of that page (the
    one a write fetch appends for a clean page), and at the end by the abort
    record.  The transaction's status becomes rolled
    back and no other changes. *)
Theorem rollback_correct t txid m recs rs L :
  bm_ok (t_bm t) ∅ -> 0 < bm_maxSize (t_bm t) -> bm_walOn (t_bm t) = true -> t_txm t = Some m ->
  txid < 18446744073709551616 -> wal_ok (bm_wal (t_bm t)) recs ->
  txn_chain recs (GetLastLSN txid m) rs -> leaves_ok (t_bm t) L -> all_undoable L rs ->
  4 + log_size recs + undo_cost rs + 43 < 9223372036854775808 ->
  exists t' m' ext a, Rollback txid t = (Ok tt, t')
    /\ bm_ok (t_bm t') ∅ /\ t_root t' = t_root t /\ leaves_ok (t_bm t') (foldl undo L rs)
    /\ (forall id, id ∉ rPageID <$> rs -> page_eqv (view (t_bm t') id) (view (t_bm t) id))
    /\ wal_ok (bm_wal (t_bm t')) (recs ++ ext ++ [a]) /\ undo_log txid rs ext /\ is_abort txid a
    /\ t_txm t' = Some m' /\ GetStatus txid m' = TXN_ROLLEDBACK
    /\ forall x, x <> txid -> GetStatus x m' = GetStatus x m.
Proof. intros. by eapply Rollback_ok. Qed.
End rollback_properties.

(** The demo database with the log record of version 7, rolled back. *)
Definition demo_record : LogRecord := mkLogRecord 4 7 0 1 LogOpInsert (BuildMVCCKey [x6b] 7) [x62].
Definition demo_log : WAL :=
  mkWAL (mkFile (wal_magic ++ LogRecord_Serialize demo_record) []) (4 + record_size demo_record).
Definition demo_logged : BTree :=
  mkTree (set_bm_wal demo_log demo_pool) 1 (Some (SetLastLSN 7 4 demo_txns)).

Lemma demo_log_ok : wal_ok demo_log [demo_record].
Proof.
  constructor.
  - reflexivity.
  - vm_compute. reflexivity.
  - vm_compute. reflexivity.
  - repeat constructor.
  - constructor; [|constructor]. constructor; vm_compute; reflexivity.
  - vm_compute. reflexivity.
Qed.

Lemma rollback_correct_witness :
  exists t', @Rollback canonical_range 7 demo_logged = (Ok tt, t')
    /\ leaf_node (t_bm t') 1 [NewKVCell 0 (BuildMVCCKey [x6b] 5) [x61]].
Proof.
  destruct (@rollback_correct canonical_range demo_logged 7 (SetLastLSN 7 4 demo_txns) [demo_record]
    [demo_record] {[1 := demo_cells]}) as (t' & m' & ext & a & E & _ & _ & HL & _).
  - destruct demo_ok. constructor; assumption || reflexivity.
  - reflexivity.
  - reflexivity.
  - reflexivity.
  - reflexivity.
  - exact demo_log_ok.
  - split; [discriminate|]. split; [by left|]. split; [reflexivity|]. split; [reflexivity|]. reflexivity.
  - intros id kvs [<- <-]%lookup_singleton_Some. split; [|vm_compute; discriminate].
    eapply node_same; [|exact demo_leaf_node]. split; [split; reflexivity|]. intros x. reflexivity.
  - split; [|exact I]. exists demo_cells. split; [apply lookup_singleton_eq|]. left. reflexivity.
  - vm_compute. reflexivity.
  - exists t'. split; [exact E|]. apply (HL 1). vm_compute. reflexivity.
Defined.
