(* ===== verification/Recovery.v ===== *)
(** * Opening, checkpoints and recovery ([internal/storage/recovery.go],
    [NewBTree] and [Checkpoint] of [btree.go])

    Analysis, redo and undo over the log, the checkpoint file, and what opening
    a database does. *)

From S2P Require Import Prelude Crc Cell Page Pager Wal Txn Buffer Tree Overflow Upsert Rollback.

(** The tree and [checkpoint.meta] in its directory; [st_faults] scripts the
    file system calls on that file, as [f_faults] does for the others. *)
Record Store := mkStore {
  st_tree : BTree;
  st_chk : option bytes;
  st_faults : list (option N)
}.

Definition set_tree (t : BTree) (s : Store) := mkStore t (st_chk s) (st_faults s).
Definition set_chk (c : option bytes) (s : Store) := mkStore (st_tree s) c (st_faults s).

Definition on_tree {A} (m : M BTree A) : M Store A := zoom st_tree (fun t s => set_tree t s) m.

Definition dir_call : M Store unit := fun s =>
  match st_faults s with
  | [] => (Ok tt, s)
  | None :: fs => (Ok tt, mkStore (st_tree s) (st_chk s) fs)
  | Some _ :: fs => (Err ErrOS, mkStore (st_tree s) (st_chk s) fs)
  end.

Section recovery.
Context `{MapRange}.

(** The next [for ... range] over a local map. *)
Definition range_map {V} (m : gmap N V) : M BufferManager (list (N * V)) := fun bm =>
  (Ok (map_range (bm_tick bm) m), bump bm).

(** ** Checkpoints *)

Definition Checkpoint : M Store unit :=
  walOn ← gets (fun s => bm_walOn (t_bm (st_tree s)));
  if negb walOn then mret tt else
  dpt ← on_tree (on_bm GetDirtyPageTable);
  tick ← gets (fun s => bm_tick (t_bm (st_tree s)));
  r ← attempt (on_tree (on_bm (on_wal (WriteCheckpoint tick dpt))));
  match r with
  | inr err => throw (ErrCheckpoint err)
  | inl lsn =>
      _ ← dir_call;
      _ ← dir_call;
      modify (set_chk (Some (le_enc 8 lsn)))
  end.

(** ** Analysis *)

(** The entries of a checkpoint's dirty page table.  An entry beyond the
    buffer of the record is out of range; each one takes 12 bytes, which bounds
    the loop. *)
Fixpoint load_dpt (fuel : nat) (value : slice) (numEntries valOffset : N) (dpt : gmap N N)
    : outcome (gmap N N) :=
  if numEntries =? 0 then Ok dpt else
  match fuel with
  | O => Panic
  | S fuel' =>
      pageID ← sl_uint value valOffset 4;
      recLSN ← sl_uint value (valOffset + 4) 8;
      load_dpt fuel' value (numEntries - 1) (valOffset + 12) (<[pageID := recLSN]> dpt)
  end.

(** The dirty page table and the active transaction table. *)
Definition tables : Type := gmap N N * gmap N N.

Definition changes_page (opType : N) : bool :=
  (opType =? LogOpFullPage) || (opType =? LogOpInsert) || (opType =? LogOpDelete)
  || (opType =? LogOpCLR).

Definition analyse (rec : LogRecord) (value : slice) (t : tables) : outcome tables :=
  let '(dpt, att) := t in
  dpt ← (if rOpType rec =? LogOpCheckpoint then
           numEntries ← sl_uint value 0 4;
           load_dpt (length (sl_data value ++ sl_rest value)) value numEntries 4 dpt
         else if changes_page (rOpType rec) then
           Ok (match dpt !! rPageID rec with
               | Some _ => dpt
               | None => <[rPageID rec := rLSN rec]> dpt
               end)
         else Ok dpt);
  let att :=
    if rTxnID rec =? 0 then att
    else if (rOpType rec =? LogOpCommit) || (rOpType rec =? LogOpAbort)
         then delete (rTxnID rec) att
         else <[rTxnID rec := rLSN rec]> att in
  Ok (dpt, att).

(** A record takes at least 43 bytes of the log, which bounds the scans. *)
Fixpoint analysis_loop (fuel : nat) (lsn : N) (t : tables) : M BufferManager (N * tables) :=
  match fuel with
  | O => hang
  | S fuel' =>
      r ← attempt (on_wal (read_record lsn));
      match r with
      | inr _ => mret (lsn, t)
      | inl (rec, value, size) =>
          t ← pure (analyse rec value t);
          analysis_loop fuel' (u64 (lsn + size)) t
      end
  end.

(** [lsn] past the magic header, if the file has one. *)
Definition skip_magic (lsn : N) : M BufferManager N :=
  if lsn =? 0 then
    r ← attempt (on_wal (on_wal_file (ReadAt 4 0)));
    mret (match r with
          | inl buf => if bytes_eqb buf wal_magic then 4 else lsn
          | inr _ => lsn
          end)
  else mret lsn.

Definition min_lsn (eof checkpointLSN : N) (dpt : gmap N N) : M BufferManager N :=
  l ← range_map dpt;
  let minLSN := foldl (fun minLSN '(_, recLSN) => if recLSN <? minLSN then recLSN else minLSN) eof l in
  mret (if N.of_nat (size dpt) =? 0 then checkpointLSN else minLSN).

(** ** Redo *)

Definition redo_on_page (rec : LogRecord) : M page unit :=
  _ ← (if rOpType rec =? LogOpFullPage then modify (fun p => splice p 0 (rValue rec))
       else if (rOpType rec =? LogOpInsert) || (rOpType rec =? LogOpDelete)
            then redoUpsertOnPage (rKey rec) (rValue rec) (rOpType rec)
       else mret tt);
  modify (SetLSN (rLSN rec)).

Definition redo_record (dpt : gmap N N) (rec : LogRecord) : M BufferManager unit :=
  match dpt !! rPageID rec with
  | None => mret tt
  | Some recLSN =>
      if rLSN rec <? recLSN then mret tt else
      r ← attempt (FetchPageForWrite (rPageID rec) PageTypeLeaf);
      match r with
      | inr err => throw (ErrRedoFetch (rPageID rec) err)
      | inl _ =>
          pageLSN ← rd (rPageID rec) GetLSN;
          if (rLSN rec <=? pageLSN) && negb (rLSN rec =? 0) then
            Unpin (rPageID rec) false true
          else
            _ ← on_page (rPageID rec) (redo_on_page rec);
            Unpin (rPageID rec) true true
      end
  end.

Fixpoint redo_loop (fuel : nat) (dpt : gmap N N) (lsn : N) : M BufferManager unit :=
  match fuel with
  | O => hang
  | S fuel' =>
      r ← attempt (on_wal (ReadRecord lsn));
      match r with
      | inr _ => mret tt
      | inl (rec, size) =>
          _ ← redo_record dpt rec;
          redo_loop fuel' dpt (u64 (lsn + size))
      end
  end.

(** ** Undo *)

(** The transaction whose last record is the latest. *)
Definition latest (l : list (N * N)) : N * N :=
  foldl (fun '(maxLSN, maxTxn) '(txn, lsn) =>
           if maxLSN <? lsn then (lsn, txn) else (maxLSN, maxTxn)) (0, 0) l.

Fixpoint undo_loop (fuel : nat) (att : gmap N N) : M BufferManager unit :=
  if N.of_nat (size att) =? 0 then mret tt else
  match fuel with
  | O => hang
  | S fuel' =>
      l ← range_map att;
      let '(maxLSN, maxTxn) := latest l in
      if maxLSN =? 0 then mret tt else
      r ← attempt (on_wal (ReadRecord maxLSN));
      match r with
      | inr _ => mret tt
      | inl (rec, _) =>
          _ ← undo_record maxTxn rec;
          if rPrevLSN rec =? 0 then
            _ ← ignore (on_wal (Append maxTxn 0 0 LogOpAbort [] []));
            undo_loop fuel' (delete maxTxn att)
          else undo_loop fuel' (<[maxTxn := rPrevLSN rec]> att)
      end
  end.

(** ** Recovery *)

(** [Recover] after the checkpoint file was read. *)
Definition recover_from (checkpointLSN : N) : M BufferManager unit :=
  lsn ← skip_magic checkpointLSN;
  fuel ← gets log_fuel;
  '(eof, (dpt, att)) ← analysis_loop fuel lsn (∅, ∅);
  minLSN ← min_lsn eof checkpointLSN dpt;
  lsn ← skip_magic minLSN;
  _ ← redo_loop fuel dpt lsn;
  _ ← modify (set_walOn true);
  undo_loop (fuel * S (size att)) att.

Definition Recover : M Store unit :=
  walOn ← gets (fun s => bm_walOn (t_bm (st_tree s)));
  if negb walOn then mret tt else
  _ ← on_tree (on_bm (modify (set_walOn false)));
  deferring (on_tree (on_bm (modify (set_walOn true)))) (
    r ← attempt dir_call;
    chk ← gets st_chk;
    let checkpointLSN :=
      match r, chk with
      | inl _, Some buf => if len buf =? 8 then le_dec buf else 0
      | _, _ => 0
      end in
    on_tree (on_bm (recover_from checkpointLSN))).

(** ** Opening *)

Definition wrap {S A} (what : string) (m : M S A) : M S A :=
  r ← attempt m;
  match r with inl a => mret a | inr err => throw (ErrInit what err) end.

(** A new database: the meta page and an empty root leaf. *)
Definition init_pages : M BufferManager N :=
  metaID ← wrap "failed to allocate meta page" (on_pager (AllocatePage PageTypeMeta));
  rootID ← wrap "failed to allocate root page" (on_pager (AllocatePage PageTypeLeaf));
  _ ← FetchPageForWrite metaID PageTypeMeta;
  _ ← wr metaID (SetRootPageID rootID);
  _ ← wr metaID (SetFirstFreePageID 0);
  _ ← log_page metaID metaID;
  _ ← Unpin metaID true true;
  mret rootID.

(** The state before it: the files of the directory, already opened. *)
Definition NewBTree : M Store unit :=
  _ ← on_tree (on_bm (on_wal NewWAL));
  _ ← on_tree (on_bm (modify (fun bm => NewBufferManager (bm_pager bm) 100 (bm_wal bm) true)));
  _ ← on_tree (modify (set_root 0));
  _ ← wrap "failed during recovery" Recover;
  size ← wrap "failed to stat db file" (on_tree (on_bm (on_pager Stat)));
  rootID ← on_tree (on_bm (
    if size =? 0 then init_pages
    else
      _ ← wrap "failed to read meta page" (FetchPageForRead MetaPageID PageTypeMeta);
      rootID ← rd MetaPageID GetRootPageID;
      _ ← Unpin MetaPageID false false;
      mret rootID));
  on_tree (modify (set_root rootID)).

(** [Close] closes the log, whose error is dropped, flushes the pool and closes
    the database file. *)
Definition Close : M Store unit := on_tree (on_bm (
  walOn ← gets bm_walOn;
  _ ← (if walOn : bool then ignore (on_wal CloseWAL) else mret tt);
  CloseBufferManager)).
End recovery.

(** The files of an empty directory. *)
Definition empty_store : Store :=
  mkStore (mkTree (NewBufferManager new_file 100 (mkWAL new_file 0) true) 0 None) None [].

(** * Lemmas *)

(** ** The dirty page table in a checkpoint record *)

Definition dpt_entry (e : N * N) : bytes := le_enc 4 e.1 ++ le_enc 8 e.2.
Definition entries (l : list (N * N)) : bytes := concat (dpt_entry <$> l).

Lemma len_dpt_entry e : len (dpt_entry e) = 12.
Proof. unfold dpt_entry. by rewrite len_app, !len_le_enc. Qed.

Lemma len_entries l : len (entries l) = 12 * len l.
Proof.
  induction l as [|e l IH]; [done|]. unfold entries in *. cbn [fmap list_fmap concat].
  rewrite len_app, len_cons, IH, len_dpt_entry. lia.
Qed.

Lemma entries_cons id lsn l : entries ((id, lsn) :: l) = le_enc 4 id ++ le_enc 8 lsn ++ entries l.
Proof. unfold entries. cbn [fmap list_fmap concat]. unfold dpt_entry at 1. by rewrite <-(assoc_L (++)). Qed.

Lemma payload_fold l : forall a off n, off = len a -> n = 12 * len l ->
  foldl (fun '(buf, offset) '(pageID, recLSN) =>
           let buf := splice buf offset (le_enc 4 pageID) in
           let buf := splice buf (offset + 4) (le_enc 8 recLSN) in
           (buf, offset + 12)) (a ++ zeros n, off) l
  = (a ++ entries l, off + n).
Proof.
  induction l as [|[id lsn] l IH]; intros a off n -> ->.
  - cbn. by rewrite N.add_0_r.
  - cbn [foldl]. cbv zeta. rewrite len_cons.
    rewrite splice_zeros by (done || rewrite len_le_enc; lia).
    rewrite splice_zeros by (rewrite ?len_app, ?len_le_enc; lia). rewrite !len_le_enc.
    rewrite (IH ((a ++ le_enc 4 id) ++ le_enc 8 lsn)) by (rewrite ?len_app, ?len_le_enc; lia).
    rewrite entries_cons, <-!(assoc_L (++)). f_equal. lia.
Qed.

Lemma checkpoint_payload_image `{MapRange} tick dpt :
  checkpoint_payload tick dpt
  = le_enc 4 (u32 (N.of_nat (size dpt))) ++ entries (map_range tick dpt).
Proof.
  unfold checkpoint_payload. cbv zeta. rewrite splice_zeros_0 by (rewrite len_le_enc; lia).
  rewrite len_le_enc.
  rewrite (payload_fold _ (le_enc 4 (u32 (N.of_nat (size dpt))))); [done|by rewrite len_le_enc|].
  unfold len. rewrite length_map_range. lia.
Qed.

Lemma sl_uint_mid a b c z off w : off = len a -> w = len b ->
  sl_uint (Slice (a ++ b ++ c) z) off w = Ok (le_dec b).
Proof.
  intros -> ->. unfold sl_uint. rewrite sl_cut_ok; cbn [sl_data sl_rest]; [|lia|len].
  cbn [mbind outcome_bind sl_data]. f_equal. rewrite <-!(assoc_L (++)).
  replace (len a + len b - len a) with (len b) by lia. by apply get_field_at.
Qed.

Lemma load_entries l z : forall fuel a dpt,
  Forall (fun e : N * N => e.1 < 4294967296 /\ e.2 < 18446744073709551616) l -> (length l <= fuel)%nat ->
  load_dpt fuel (Slice (a ++ entries l) z) (len l) (len a) dpt
  = Ok (foldl (fun d (e : N * N) => <[e.1 := e.2]> d) dpt l).
Proof.
  induction l as [|[id lsn] l IH]; intros fuel a dpt Hf Hl.
  - by destruct fuel.
  - destruct fuel as [|fuel]; [simpl in Hl; lia|]. apply Forall_cons in Hf as [[H1 H2] Hf]. cbn in H1, H2.
    rewrite entries_cons. cbn [load_dpt]. rewrite len_cons, (proj2 (N.eqb_neq _ _)) by lia.
    rewrite (sl_uint_mid a (le_enc 4 id) _ z (len a) 4) by (rewrite ?len_le_enc; done).
    cbn [mbind outcome_bind]. rewrite (assoc_L (++) a).
    rewrite (sl_uint_mid _ (le_enc 8 lsn) _ z (len a + 4) 8) by (rewrite ?len_app, ?len_le_enc; done). cbn [mbind outcome_bind].
    rewrite !le_dec_enc_small by done.
    replace (1 + len l - 1) with (len l) by lia.
    replace (len a + 12) with (len ((a ++ le_enc 4 id) ++ le_enc 8 lsn)) by (rewrite !len_app, !len_le_enc; lia).
    rewrite (assoc_L (++) (a ++ _)). cbn [foldl fst snd]. apply IH; [done|simpl in Hl; lia].
Qed.

Lemma foldl_insert (l : list (N * N)) : forall (d : gmap N N), NoDup l.*1 ->
  foldl (fun d (e : N * N) => <[e.1 := e.2]> d) d l = list_to_map l ∪ d.
Proof.
  induction l as [|[k v] l IH]; intros d Hnd; [cbn; by rewrite map_empty_union|].
  cbn in Hnd. apply NoDup_cons in Hnd as [Hk Hnd]. cbn [foldl fst snd]. rewrite IH by done.
  rewrite list_to_map_cons. apply map_eq. intros i. rewrite !lookup_union.
  destruct (decide (i = k)) as [->|Hne].
  - rewrite !lookup_insert_eq. rewrite not_elem_of_list_to_map_1 by done. by destruct (d !! k).
  - by rewrite !lookup_insert_ne.
Qed.

Lemma checkpoint_loads `{MapRange} tick dpt dpt0 z :
  (forall id lsn, dpt !! id = Some lsn -> id < 4294967296 /\ lsn < 18446744073709551616) ->
  N.of_nat (size dpt) < 4294967296 ->
  let value := Slice (checkpoint_payload tick dpt) z in
  sl_uint value 0 4 = Ok (N.of_nat (size dpt))
  /\ load_dpt (length (sl_data value ++ sl_rest value)) value (N.of_nat (size dpt)) 4 dpt0 = Ok (dpt ∪ dpt0).
Proof.
  intros Hf Hs value. unfold value. rewrite checkpoint_payload_image.
  assert (Hu : u32 (N.of_nat (size dpt)) = N.of_nat (size dpt)) by (apply N.mod_small; lia).
  rewrite Hu. split.
  - etrans; [apply (sl_uint_mid []); [done|by rewrite len_le_enc]|]. by rewrite le_dec_enc_small.
  - assert (Hlen : len (map_range tick dpt) = N.of_nat (size dpt)) by (unfold len; by rewrite length_map_range).
    cbn [sl_data sl_rest]. set (v := le_enc 4 (N.of_nat (size dpt)) ++ entries (map_range tick dpt)).
    pose proof (load_entries (map_range tick dpt) z (length (v ++ z)) (le_enc 4 (N.of_nat (size dpt))) dpt0) as E.
    rewrite Hlen, len_le_enc in E. etrans; [apply E|].
    + apply Forall_forall. intros [id lsn] Hin. apply elem_of_map_range in Hin. by apply Hf.
    + unfold v. rewrite !length_app. pose proof (len_entries (map_range tick dpt)) as Hle. unfold len in Hle. lia.
    + rewrite foldl_insert by apply map_range_nodup. do 2 f_equal.
      rewrite (list_to_map_proper _ (map_to_list dpt)); [apply list_to_map_to_list|apply map_range_nodup|].
      apply map_range_perm.
Qed.

(** ** Analysis *)

Definition ends_txn (opType : N) : bool := (opType =? LogOpCommit) || (opType =? LogOpAbort).

(** What one record that is not a checkpoint does to the tables. *)
Definition dpt_step (dpt : gmap N N) (r : LogRecord) : gmap N N :=
  if changes_page (rOpType r) then
    match dpt !! rPageID r with Some _ => dpt | None => <[rPageID r := rLSN r]> dpt end
  else dpt.
Definition att_step (att : gmap N N) (r : LogRecord) : gmap N N :=
  if rTxnID r =? 0 then att
  else if ends_txn (rOpType r) then delete (rTxnID r) att
  else <[rTxnID r := rLSN r]> att.

Definition dpt_after (dpt : gmap N N) (recs : list LogRecord) : gmap N N := foldl dpt_step dpt recs.
Definition att_after (att : gmap N N) (recs : list LogRecord) : gmap N N := foldl att_step att recs.

Definition no_checkpoint (recs : list LogRecord) : Prop :=
  Forall (fun r => rOpType r <> LogOpCheckpoint) recs.

Lemma analyse_step r v dpt att :
  rOpType r <> LogOpCheckpoint -> analyse r v (dpt, att) = Ok (dpt_step dpt r, att_step att r).
Proof.
  intros Hn. unfold analyse, dpt_step, att_step, ends_txn. rewrite (proj2 (N.eqb_neq _ _) Hn).
  by destruct (changes_page (rOpType r)).
Qed.

(** The first record that changes a page gives its entry. *)
Definition first_change (id : N) (recs : list LogRecord) : option LogRecord :=
  find (fun r => changes_page (rOpType r) && (rPageID r =? id)) recs.
(** The last record of a transaction. *)
Definition last_of (txid : N) (recs : list LogRecord) : option LogRecord :=
  find (fun r => rTxnID r =? txid) (rev recs).

Lemma dpt_after_lookup recs : forall dpt id,
  dpt_after dpt recs !! id
  = match dpt !! id with Some l => Some l | None => rLSN <$> first_change id recs end.
Proof.
  induction recs as [|r recs IH]; intros dpt id; cbn [dpt_after foldl first_change find].
  - by destruct (dpt !! id).
  - change (foldl dpt_step (dpt_step dpt r) recs) with (dpt_after (dpt_step dpt r) recs). rewrite IH.
    unfold dpt_step. destruct (changes_page (rOpType r)); cbn [andb]; [|done].
    destruct (dpt !! rPageID r) as [l|] eqn:E.
    + destruct (N.eqb_spec (rPageID r) id) as [<-|Hne]; [by rewrite E|done].
    + destruct (N.eqb_spec (rPageID r) id) as [<-|Hne].
      * by rewrite lookup_insert_eq, E.
      * by rewrite lookup_insert_ne.
Qed.

Lemma att_after_lookup recs att txid : txid <> 0 ->
  att_after att recs !! txid
  = match last_of txid recs with
    | Some r => if ends_txn (rOpType r) then None else Some (rLSN r)
    | None => att !! txid
    end.
Proof.
  intros H0. unfold att_after, last_of. induction recs as [|r recs IH] using rev_ind; [done|].
  rewrite foldl_app, rev_app_distr. cbn [foldl rev app find]. unfold att_step at 1.
  destruct (N.eqb_spec (rTxnID r) txid) as [E|Hne].
  - rewrite E, (proj2 (N.eqb_neq _ _) H0). destruct (ends_txn (rOpType r)).
    + apply lookup_delete_eq.
    + apply lookup_insert_eq.
  - rewrite <-IH. destruct (rTxnID r =? 0); [done|]. destruct (ends_txn (rOpType r)).
    + by rewrite lookup_delete_ne.
    + by rewrite lookup_insert_ne.
Qed.

Section scan.
Context `{MapRange}.

(** Reading a record of the pool's log. *)
Lemma read_at bm pre r post : wal_ok (bm_wal bm) (pre ++ r :: post) ->
  attempt (on_wal (read_record (lsn_after pre))) bm = (Ok (inl (r, value_slice r, record_size r)), bm).
Proof.
  intros Hw. apply attempt_ok. rewrite (on_wal_eq _ _ _ _ (read_record_ok _ _ _ _ Hw)). by destruct bm.
Qed.
Lemma read_end bm recs : wal_ok (bm_wal bm) recs ->
  attempt (on_wal (read_record (lsn_after recs))) bm = (Ok (inr ErrEOF), bm).
Proof.
  intros Hw. unfold attempt. rewrite (on_wal_eq _ _ _ _ (read_record_end _ _ Hw)). by destruct bm.
Qed.

Lemma next_lsn pre r post w : wal_ok w (pre ++ r :: post) ->
  u64 (lsn_after pre + record_size r) = lsn_after (pre ++ [r]).
Proof.
  intros [_ _ _ _ _ Hb]. unfold lsn_after in *. rewrite log_size_app in *. cbn [log_size foldr] in *.
  rewrite N.add_0_r. unfold u64. rewrite N.mod_small; [lia|]. unfold log_size in *. lia.
Qed.

Lemma analysis_ok bm : forall post fuel pre dpt att,
  wal_ok (bm_wal bm) (pre ++ post) -> no_checkpoint post -> (length post < fuel)%nat ->
  analysis_loop fuel (lsn_after pre) (dpt, att) bm
  = (Ok (lsn_after (pre ++ post), (dpt_after dpt post, att_after att post)), bm).
Proof.
  induction post as [|r post IH]; intros fuel pre dpt att Hw Hn Hf; (destruct fuel as [|fuel]; [simpl in Hf; lia|]);
    cbn [analysis_loop].
  - rewrite app_nil_r in *. by mstep (read_end _ _ Hw).
  - mstep (read_at _ _ _ _ Hw). apply Forall_cons in Hn as [Hr Hn].
    rewrite (analyse_step _ _ _ _ Hr). unfold mbind at 1, M_bind at 1, pure at 1.
    rewrite (next_lsn _ _ _ _ Hw). rewrite (IH fuel (pre ++ [r])); rewrite <-?(assoc_L (++)); try done.
    simpl in Hf. lia.
Qed.

Lemma scan_fuel bm pre post : wal_ok (bm_wal bm) (pre ++ post) -> (length post < log_fuel bm)%nat.
Proof.
  intros [_ Hb _ _ _ _]. unfold log_fuel. rewrite Hb, log_bytes_app, !length_app.
  pose proof (log_bytes_longer post). lia.
Qed.
End scan.

(** ** Redo *)

Section redo.
Context `{MapRange}.

(** A record is redone when its page has been dirty since that record or an
    earlier one and does not have the change yet. *)
Definition needs_redo (dpt : gmap N N) (rec : LogRecord) (pageLSN : N) : Prop :=
  exists recLSN, dpt !! rPageID rec = Some recLSN /\ recLSN <= rLSN rec /\ pageLSN < rLSN rec.

#[export] Instance needs_redo_dec dpt rec pageLSN : Decision (needs_redo dpt rec pageLSN).
Proof.
  unfold needs_redo. destruct (dpt !! rPageID rec) as [recLSN|].
  - destruct (decide (recLSN <= rLSN rec /\ pageLSN < rLSN rec)) as [Hd|Hd].
    + left. by exists recLSN.
    + right. intros (r & [= <-] & Hr). by apply Hd.
  - right. by intros (r & [=] & _).
Defined.

(** Any other record is skipped. *)
Lemma redo_skipped bm dpt rec :
  bm_ok bm ∅ -> 0 < bm_maxSize bm -> bm_walOn bm = false -> rPageID rec < bm_pages bm -> 0 < rLSN rec ->
  ~ needs_redo dpt rec (GetLSN (view bm (rPageID rec))) ->
  exists bm', redo_record dpt rec bm = (Ok tt, bm') /\ bm_ok bm' ∅ /\ same_view bm bm'
    /\ view bm' (rPageID rec) = view bm (rPageID rec) /\ bm_walOn bm' = false.
Proof.
  intros Hok Hsz Hoff Hid H0 Hn. unfold redo_record, needs_redo in *.
  destruct (dpt !! rPageID rec) as [recLSN|]; [|by exists bm].
  destruct (N.ltb_spec (rLSN rec) recLSN) as [Hlt|Hge]; [by exists bm|].
  assert (Hl : rLSN rec <= GetLSN (view bm (rPageID rec))).
  { apply N.le_ngt. intros Hlt. apply Hn. by exists recLSN. }
  destruct (fetch_write_exact (rPageID rec) PageTypeLeaf bm ∅ Hok Hoff Hid (lookup_empty _))
    as (bm1 & E1 & K1 & S1 & T1 & W1 & V1); [by right; rewrite map_size_empty|].
  assert (Hh : (<[rPageID rec := HWrite]> (∅ : gmap N hold)) !! rPageID rec = Some HWrite)
    by apply lookup_insert_eq.
  mstep (attempt_ok _ _ _ _ E1). mstep (rd_ok bm1 _ _ HWrite GetLSN K1 Hh). rewrite V1.
  rewrite (proj2 (N.leb_le _ _)), (proj2 (N.eqb_neq _ _)) by lia. cbn [negb andb].
  destruct (unpin_ok bm1 _ _ HWrite false K1 Hh) as (bm2 & E2 & K2 & S2); [done|].
  pose proof (same_array_view _ _ S2) as S3. destruct S2 as [_ V2].
  pose proof (steady_unpin bm_walOn (rPageID rec) false true bm1) as G2. cbn [is_write] in E2. rewrite E2 in G2.
  exists bm2. split; [by apply Unpin_eq|]. split; [|split; [by etrans|rewrite V2, V1; cbn in G2; split; congruence]].
  unfold release in K2. by rewrite Hh, delete_insert_eq, delete_empty in K2.
Qed.

(** A change the page does not have yet is applied and stamped. *)
Lemma redo_applies bm dpt rec p' :
  bm_ok bm ∅ -> 0 < bm_maxSize bm -> bm_walOn bm = false -> rPageID rec < bm_pages bm ->
  needs_redo dpt rec (GetLSN (view bm (rPageID rec))) ->
  redo_on_page rec (view bm (rPageID rec)) = (Ok tt, p') -> len p' = PageSize ->
  exists bm', redo_record dpt rec bm = (Ok tt, bm') /\ bm_ok bm' ∅ /\ bm_walOn bm' = false
    /\ (bm_pages bm' = bm_pages bm /\ bm_maxSize bm' = bm_maxSize bm)
    /\ view bm' (rPageID rec) = p'
    /\ forall id, id <> rPageID rec -> page_eqv (view bm' id) (view bm id).
Proof.
  intros Hok Hsz Hoff Hid (recLSN & Hd & Hr & Hl) Hp Hlen. unfold redo_record.
  rewrite Hd, (proj2 (N.ltb_ge _ _)) by done.
  destruct (fetch_write_exact (rPageID rec) PageTypeLeaf bm ∅ Hok Hoff Hid (lookup_empty _))
    as (bm1 & E1 & K1 & S1 & T1 & W1 & V1); [by right; rewrite map_size_empty|].
  assert (Hh : (<[rPageID rec := HWrite]> (∅ : gmap N hold)) !! rPageID rec = Some HWrite)
    by apply lookup_insert_eq.
  mstep (attempt_ok _ _ _ _ E1). mstep (rd_ok bm1 _ _ HWrite GetLSN K1 Hh). rewrite V1.
  rewrite (proj2 (N.leb_gt _ _)) by done. cbn [andb]. rewrite <-V1 in Hp.
  destruct (on_page_ok bm1 _ _ _ _ p' K1 Hh Hp) as (bm2 & E2 & K2 & ((P2 & Q2) & V2 & O2)); [done|].
  mstep E2. pose proof (steady_on_page bm_walOn (rPageID rec) (redo_on_page rec) bm1) as G2. rewrite E2 in G2.
  destruct (unpin_ok bm2 _ _ HWrite true K2 Hh) as (bm3 & E3 & K3 & [[P3 Q3] V3]); [by intros _ [=]|].
  pose proof (steady_unpin bm_walOn (rPageID rec) true true bm2) as G3. cbn [is_write] in E3. rewrite E3 in G3.
  destruct S1 as [[P1 Q1] S1]. cbn in G2, G3.
  exists bm3. split; [by apply Unpin_eq|]. split; [|split; [congruence|split; [split; congruence|split]]].
  - unfold release in K3. by rewrite Hh, delete_insert_eq, delete_empty in K3.
  - by rewrite V3, V2.
  - intros id Hne. by rewrite V3, O2, S1.
Qed.

Lemma redo_change rec p kvs :
  stores p kvs -> GetPageType p = PageTypeLeaf -> rOpType rec = LogOpInsert \/ rOpType rec = LogOpDelete ->
  KVCell_Size (op_cell (rKey rec) (rValue rec) (rOpType rec)) < 61000 ->
  exists p', redo_on_page rec p = (Ok tt, p')
    /\ stores p' (fitting_cells 4064 (redone (rKey rec) (rValue rec) (rOpType rec) kvs))
    /\ GetPageType p' = PageTypeLeaf /\ GetPageID p' = GetPageID p /\ GetLSN p' = u64 (rLSN rec).
Proof.
  intros Hs Ht Hop Hsz.
  assert (Ho : rOpType rec <> LogOpUndoInsert) by by destruct Hop as [-> | ->].
  set (new := op_cell (rKey rec) (rValue rec) (rOpType rec)) in *.
  assert (Hnew : kv_fits new).
  { split; [lia|]. unfold new, op_cell. by destruct (rOpType rec =? LogOpDelete). }
  pose proof (stored_small _ _ Hs) as Hsm.
  assert (Hsm' : Forall (fun kv => KVCell_Size kv < 61000) kvs).
  { eapply Forall_impl; [exact Hsm|]. intros kv. cbn. by rewrite len_kv_serialize. }
  destruct (redo_kept (rKey rec) (rValue rec) (rOpType rec) p kvs Hs Ht) as (q & E & S & T & I).
  { by apply redone_Forall, (st_fits _ _ Hs). }
  { by apply redone_Forall. }
  pose proof (wf_len _ (st_wf _ _ S)) as Hlen.
  assert (He : page_eqv (SetLSN (rLSN rec) q) q) by by apply SetLSN_eqv.
  assert (Hlen' : len (SetLSN (rLSN rec) q) = PageSize) by by rewrite (page_eqv_len _ _ He).
  exists (SetLSN (rLSN rec) q). split; [|split; [|split; [|split]]].
  - unfold redo_on_page.
    assert (Hb : (rOpType rec =? LogOpFullPage) = false
      /\ (rOpType rec =? LogOpInsert) || (rOpType rec =? LogOpDelete) = true)
      by by destruct Hop as [-> | ->].
    destruct Hb as [-> ->]. by mstep E.
  - eapply eqv_stores; [exact Hlen|symmetry; exact He|exact S].
  - by rewrite (eqv_type _ _ Hlen' He).
  - by rewrite (eqv_id _ _ Hlen' He).
  - by apply GetLSN_SetLSN.
Qed.

(** When the cell fits its leaf, nothing is dropped. *)
Lemma redone_kept key value op kvs :
  Forall kv_fits kvs -> op = LogOpInsert \/ op = LogOpDelete -> leaf_space key (len value) kvs <= PageSize ->
  fitting_cells 4064 (redone key value op kvs) = redone key value op kvs.
Proof.
  intros Hf Hop Hroom. apply fitting_cells_all.
  assert (Ho : op <> LogOpUndoInsert) by by destruct Hop as [-> | ->].
  assert (Hfl : kvFlag (op_cell key value op) < 256) by by destruct Hop as [-> | ->].
  pose proof (redone_upserted key value op kvs Ho) as Hp.
  apply (fits_perm _ _ Hp). by apply room_fits.
Qed.
End redo.

(** ** Properties *)

Section recovery_properties.
Context `{MapRange}.

(** C9: the analysis pass over a whole log without checkpoints finds exactly the
    pages some record changes, each with the LSN of the first such record, and
    exactly the transactions whose last record is neither a commit nor an
    abort, each with the LSN of that record; it ends at the end of the log
    within its fuel and changes nothing. *)
Theorem analysis_exact bm recs :
  wal_ok (bm_wal bm) recs -> no_checkpoint recs ->
  exists dpt att, analysis_loop (log_fuel bm) 4 (∅, ∅) bm = (Ok (lsn_after recs, (dpt, att)), bm)
    /\ (forall id, dpt !! id = rLSN <$> first_change id recs)
    /\ (forall txid, txid <> 0 -> att !! txid =
          match last_of txid recs with
          | Some r => if ends_txn (rOpType r) then None else Some (rLSN r)
          | None => None
          end).
Proof.
  intros Hw Hn. pose proof (scan_fuel bm [] recs Hw) as Hf.
  exists (dpt_after ∅ recs), (att_after ∅ recs). split.
  - exact (analysis_ok bm recs _ [] ∅ ∅ Hw Hn Hf).
  - split; intros; [apply dpt_after_lookup|by apply att_after_lookup].
Qed.

(** C15: a checkpoint's dirty page table survives the log: analysis from the
    checkpoint record starts with exactly that table.  The active transactions
    are only those with records after the checkpoint: one that was active at
    the checkpoint and wrote nothing since is not among them. *)
Theorem checkpoint_restores_dpt bm pre lsn tick dpt0 post :
  let ckpt := mkLogRecord lsn 0 0 0 LogOpCheckpoint [] (checkpoint_payload tick dpt0) in
  wal_ok (bm_wal bm) (pre ++ ckpt :: post) -> no_checkpoint post ->
  (forall id l, dpt0 !! id = Some l -> id < 4294967296 /\ l < 18446744073709551616) ->
  N.of_nat (size dpt0) < 4294967296 ->
  exists dpt att, analysis_loop (log_fuel bm) (lsn_after pre) (∅, ∅) bm
      = (Ok (lsn_after (pre ++ ckpt :: post), (dpt, att)), bm)
    /\ (forall id, dpt !! id = match dpt0 !! id with
                              | Some l => Some l
                              | None => rLSN <$> first_change id post
                              end)
    /\ (forall txid, txid <> 0 -> last_of txid post = None -> att !! txid = None).
Proof.
  intros ckpt Hw Hn Hb Hs. destruct (checkpoint_loads tick dpt0 ∅ (sl_rest (value_slice ckpt)) Hb Hs) as [L1 L2].
  exists (dpt_after dpt0 post), (att_after ∅ post). split.
  - unfold log_fuel. cbn [analysis_loop]. mstep (read_at _ _ _ _ Hw).
    assert (Ha : analyse ckpt (value_slice ckpt) (∅, ∅) = Ok (dpt0, ∅)).
    { unfold analyse. cbn [ckpt rOpType rTxnID N.eqb Pos.eqb LogOpCheckpoint].
      change (value_slice ckpt) with (Slice (checkpoint_payload tick dpt0) (sl_rest (value_slice ckpt))).
      rewrite L1. cbn [mbind outcome_bind]. rewrite L2. cbn [mbind outcome_bind].
      by rewrite map_union_empty. }
    rewrite Ha. unfold mbind at 1, M_bind at 1, pure at 1. rewrite (next_lsn _ _ _ _ Hw).
    replace (pre ++ ckpt :: post) with ((pre ++ [ckpt]) ++ post) in * by by rewrite <-(assoc_L (++)).
    apply (analysis_ok bm post); [done|done|].
    rewrite (wo_bytes _ _ Hw), log_bytes_app, !length_app. pose proof (log_bytes_longer post).
    change (length wal_magic) with 4%nat. lia.
  - split; [intros id; apply dpt_after_lookup|]. intros txid H0 Hl.
    by rewrite att_after_lookup, Hl.
Qed.

(** C8: redo of a logged insert or delete of a leaf, for a record with a nonzero
    LSN and a cell below 61000 bytes.  If the page is in the dirty page table
    with a recLSN not above the record's LSN and the page's LSN is below it, the
    record's change is applied to the leaf, whose cells become the old ones with
    the record's cell in place of or after them, as many, in order, as fit a
    page (all of them, if the leaf has the space), the page is stamped with the
    record's LSN, and every other page keeps its contents.  Otherwise no page
    changes.  In both cases redoing the record again, as after a crash during
    recovery, changes no page. *)
Theorem redo_exactly_once bm dpt rec kvs :
  bm_ok bm ∅ -> 0 < bm_maxSize bm -> bm_walOn bm = false -> leaf_node bm (rPageID rec) kvs ->
  rOpType rec = LogOpInsert \/ rOpType rec = LogOpDelete -> 0 < rLSN rec < 18446744073709551616 ->
  KVCell_Size (op_cell (rKey rec) (rValue rec) (rOpType rec)) < 61000 ->
  let after := redone (rKey rec) (rValue rec) (rOpType rec) kvs in
  let needed := needs_redo dpt rec (GetLSN (view bm (rPageID rec))) in
  exists bm' bm'', redo_record dpt rec bm = (Ok tt, bm')
    /\ (needed -> leaf_node bm' (rPageID rec) (fitting_cells 4064 after)
        /\ (leaf_space (rKey rec) (len (rValue rec)) kvs <= PageSize -> fitting_cells 4064 after = after)
        /\ GetLSN (view bm' (rPageID rec)) = rLSN rec
        /\ forall id, id <> rPageID rec -> page_eqv (view bm' id) (view bm id))
    /\ (~ needed -> same_view bm bm')
    /\ redo_record dpt rec bm' = (Ok tt, bm'') /\ bm_ok bm'' ∅ /\ same_view bm' bm''.
Proof.
  intros Hok Hsz Hoff Hl Hop [H0 Hr] Hc after needed. pose proof (nd_id _ _ _ _ Hl) as Hid.
  destruct (decide needed) as [Hn|Hn].
  - destruct (redo_change rec (view bm (rPageID rec)) kvs (nd_stores _ _ _ _ Hl) (nd_type _ _ _ _ Hl) Hop Hc)
      as (p' & E & S & T & I & G).
    pose proof (wf_len _ (st_wf _ _ S)) as Hlen.
    destruct (redo_applies bm dpt rec p' Hok Hsz Hoff Hid Hn E Hlen) as (bm' & E1 & K1 & W1 & [P1 Q1] & V1 & O1).
    assert (Hu : u64 (rLSN rec) = rLSN rec) by (apply N.mod_small; lia).
    destruct (redo_skipped bm' dpt rec K1) as (bm'' & E2 & K2 & S2 & _); rewrite ?P1, ?Q1; try done.
    { rewrite V1, G, Hu. intros (l & _ & _ & Hlt). lia. }
    exists bm', bm''. split; [done|]. split; [|split; [intros Hc'; by destruct Hc'|done]]. intros _.
    split; [constructor; rewrite ?V1, ?P1; try done; rewrite I; apply Hl|].
    split; [intros Hroom; by apply redone_kept; [apply (st_fits _ _ (nd_stores _ _ _ _ Hl))|..]|].
    by rewrite V1, G.
  - destruct (redo_skipped bm dpt rec Hok Hsz Hoff Hid H0 Hn) as (bm' & E1 & K1 & S1 & V1 & W1).
    assert (HP : bm_pages bm' = bm_pages bm /\ bm_maxSize bm' = bm_maxSize bm) by apply S1.
    destruct HP as [P1 Q1].
    destruct (redo_skipped bm' dpt rec K1) as (bm'' & E2 & K2 & S2 & _); rewrite ?P1, ?Q1, ?V1; try done.
    by exists bm', bm''.
Qed.
End recovery_properties.

(** ** Witnesses *)

Definition demo_logged_pool : BufferManager := set_bm_wal demo_log demo_pool.

Lemma analysis_exact_witness :
  exists dpt att, analysis_loop (log_fuel demo_logged_pool) 4 (∅, ∅) demo_logged_pool
      = (Ok (58, (dpt, att)), demo_logged_pool)
    /\ dpt !! 1 = Some 4 /\ att !! 7 = Some 4.
Proof.
  destruct (analysis_exact demo_logged_pool [demo_record] demo_log_ok) as (dpt & att & E & Hd & Ha).
  - constructor; [discriminate|constructor].
  - exists dpt, att. split; [exact E|]. split; [exact (Hd 1)|]. apply (Ha 7). discriminate.
Defined.

Definition demo_ckpt : LogRecord :=
  mkLogRecord 4 0 0 0 LogOpCheckpoint [] (@checkpoint_payload canonical_range 0 {[3 := 4]}).
Definition demo_ckpt_pool : BufferManager :=
  set_bm_wal (mkWAL (mkFile (wal_magic ++ LogRecord_Serialize demo_ckpt) []) (4 + record_size demo_ckpt))
    demo_pool.

Lemma demo_ckpt_ok : wal_ok (bm_wal demo_ckpt_pool) [demo_ckpt].
Proof.
  constructor.
  - reflexivity.
  - vm_compute. reflexivity.
  - vm_compute. reflexivity.
  - repeat constructor.
  - constructor; [|constructor]. constructor; vm_compute; reflexivity.
  - vm_compute. reflexivity.
Qed.

Lemma checkpoint_restores_dpt_witness :
  exists lsn dpt att, analysis_loop (log_fuel demo_ckpt_pool) 4 (∅, ∅) demo_ckpt_pool
      = (Ok (lsn, (dpt, att)), demo_ckpt_pool) /\ dpt !! 3 = Some 4.
Proof.
  destruct (@checkpoint_restores_dpt canonical_range demo_ckpt_pool [] 4 0 {[3 := 4]} []) as (dpt & att & E & Hd & _).
  - exact demo_ckpt_ok.
  - constructor.
  - intros id l [<- <-]%lookup_singleton_Some. split; reflexivity.
  - vm_compute. reflexivity.
  - eexists _, dpt, att. split; [exact E|exact (Hd 3)].
Defined.

Definition demo_redo : LogRecord := mkLogRecord 9 8 0 1 LogOpInsert (BuildMVCCKey [x6b] 8) [x63].

Lemma redo_exactly_once_witness :
  exists bm' bm'', @redo_record canonical_range {[1 := 4]} demo_redo (set_walOn false demo_pool) = (Ok tt, bm')
    /\ leaf_node bm' 1 (demo_cells ++ [NewKVCell 0 (BuildMVCCKey [x6b] 8) [x63]])
    /\ @redo_record canonical_range {[1 := 4]} demo_redo bm' = (Ok tt, bm'').
Proof.
  destruct (@redo_exactly_once canonical_range (set_walOn false demo_pool) {[1 := 4]} demo_redo demo_cells)
    as (bm' & bm'' & E1 & HA & _ & E2 & _).
  - destruct demo_ok. constructor; assumption.
  - reflexivity.
  - reflexivity.
  - eapply node_same; [|exact demo_leaf_node]. split; [split; reflexivity|]. intros x. reflexivity.
  - left. reflexivity.
  - split; reflexivity.
  - reflexivity.
  - exists bm', bm''. split; [exact E1|]. split; [|exact E2].
    destruct HA as (HL & HK & _).
    + exists 4. split; [apply lookup_singleton_eq|]. split; [discriminate|]. vm_compute. reflexivity.
    + rewrite HK in HL; [exact HL|vm_compute; discriminate].
Defined.
