(* ===== verification/Vacuum.v ===== *)
(** * Vacuum ([internal/storage/vacuum.go])

    The sweep that drops superseded versions and old tombstones from every
    leaf, frees their overflow chains, and prunes the transaction table. *)

From S2P Require Import Prelude Crc Cell Page Pager Wal Txn Buffer Tree Overflow Upsert.

(** [isOldVersion]: a later version of the same user key, in the next slot, is
    older than every active transaction. *)
Definition is_old_version (minActive : N) (kv : KVCell) (next : option KVCell) : bool :=
  match next with
  | None => false
  | Some nextKV =>
      let '(userKey, _) := ExtractMVCCKey (kvKey kv) in
      let '(nextUserKey, nextTxID) := ExtractMVCCKey (kvKey nextKV) in
      bytes_eqb userKey nextUserKey && (nextTxID <? minActive)
  end.

Definition is_dead (minActive : N) (kv : KVCell) (next : option KVCell) : bool :=
  is_old_version minActive kv next
  || (IsDeleted kv && ((ExtractMVCCKey (kvKey kv)).2 <? minActive)).

Section vacuum.
Context `{MapRange}.

(** The loop over the slots: the cells to keep and the number cleaned. *)
Fixpoint vacuum_loop (leaf minActive slotCount : N) (ids : list N) (acc : list bytes * N)
    : M BufferManager (list bytes * N) :=
  match ids with
  | [] => mret acc
  | i :: ids' =>
      let '(cellsToKeep, cleanedCount) := acc in
      c ← slot leaf i;
      '(kv, value) ← pure (decode_kv c);
      next ← (if i <? sub16 slotCount 1 then
                nextC ← slot leaf (u16 (i + 1));
                nextKV ← pure (DeserializeKVCell nextC);
                mret (Some nextKV)
              else mret None);
      if is_dead minActive kv next then
        _ ← (if IsOverflow kv then freeOverflowChain value else mret tt);
        vacuum_loop leaf minActive slotCount ids' (cellsToKeep, cleanedCount + 1)
      else vacuum_loop leaf minActive slotCount ids' (cellsToKeep ++ [sl_data c], cleanedCount)
  end.

Definition vacuumLeaf (pageID minActive : N) : M BufferManager unit :=
  _ ← FetchPageForWrite pageID PageTypeLeaf;
  slotCount ← rd pageID getSlotCount;
  ids ← rd pageID slot_ids;
  '(cellsToKeep, cleanedCount) ← vacuum_loop pageID minActive slotCount ids ([], 0);
  if 0 <? cleanedCount then
    _ ← wr pageID (Init PageTypeLeaf);
    _ ← on_page pageID (insert_cells cellsToKeep);
    UnpinPage pageID true true
  else UnpinPage pageID false true.

(** The recursion over children: a path longer than the file repeats a page,
    and Go's stack overflows.  Errors of a child are dropped. *)
Fixpoint vacuumNode (fuel : nat) (pageID minActive : N) : M BufferManager unit :=
  match fuel with
  | O => panic
  | S fuel' =>
      _ ← FetchPageForRead pageID PageTypeInternal;
      pageType ← rd pageID GetPageType;
      if pageType =? PageTypeLeaf then
        _ ← Unpin pageID false false;
        vacuumLeaf pageID minActive
      else
        ks ← rd pageID key_cells;
        ks ← pure ks;
        _ ← Unpin pageID false false;
        for_each (fun childID =>
          if negb (childID =? 0) then ignore (vacuumNode fuel' childID minActive) else mret tt)
          (kcChild <$> ks)
  end.

(** [txMgr.GetMinActiveTxID()] and [txMgr.PruneTables(...)] range over the
    transaction table; nil panics. *)
Definition vacuum_tick : M BTree nat :=
  _ ← on_bm (modify bump);
  gets (fun t => bm_tick (t_bm t)).

Definition Vacuum : M BTree unit :=
  tick ← vacuum_tick;
  minActive ← get_txm (GetMinActiveTxID tick);
  root ← gets t_root;
  fuel ← gets (fun t => descent_fuel (t_bm t));
  r ← on_bm (attempt (vacuumNode fuel root minActive));
  tick ← vacuum_tick;
  _ ← on_txm (PruneTables tick minActive);
  match r with inl _ => mret tt | inr err => throw err end.
End vacuum.

(** * Lemmas *)

(** ** Version keys of NUL-free user keys *)

(** A user key without the separator byte. *)
Definition nul_free (u : bytes) : Prop := x00 ∉ u.

Lemma between_prefix p a b x :
  bytes_lt (p ++ a) x -> bytes_lt x (p ++ b) -> exists y, x = p ++ y.
Proof.
  unfold bytes_lt. revert x. induction p as [|c p IH]; intros x H1 H2; [by exists x|].
  destruct x as [|d x]; [done|]. cbn in H1, H2.
  destruct (N.compare_spec (b2n c) (b2n d)) as [E|E|E], (N.compare_spec (b2n d) (b2n c)) as [E'|E'|E'];
    try done; try lia.
  destruct (IH x H1 H2) as [y ->]. exists y. cbn. f_equal. symmetry. by apply (inj b2n).
Qed.

Lemma separator_inj u u' y z :
  nul_free u -> nul_free u' -> u ++ x00 :: y = u' ++ x00 :: z -> u = u'.
Proof.
  unfold nul_free. revert u'. induction u as [|c u IH]; intros [|d u'] Hu Hu' E; cbn in E; [done| | |].
  - injection E as E1 _. destruct Hu'. rewrite E1. by left.
  - injection E as E1 _. destruct Hu. rewrite E1. by left.
  - injection E as -> E. f_equal. apply IH; [| |done]; intros Hin; [destruct Hu|destruct Hu']; by right.
Qed.

(** Between two versions of a user key there are only versions of that key. *)
Lemma versions_contiguous u u' a b v :
  nul_free u -> nul_free u' ->
  bytes_lt (BuildMVCCKey u a) (BuildMVCCKey u' v) -> bytes_lt (BuildMVCCKey u' v) (BuildMVCCKey u b) ->
  u' = u.
Proof.
  rewrite !BuildMVCCKey_image. intros Hu Hu' H1 H2.
  rewrite !(cons_middle x00), !(assoc_L (++)) in H1, H2.
  rewrite <-(assoc_L (++) u') in H1, H2.
  destruct (between_prefix _ _ _ _ H1 H2) as [y E]. rewrite <-(assoc_L (++)) in E. cbn in E.
  by eapply separator_inj.
Qed.

(** ** What a sweep keeps *)

Fixpoint kept (minActive : N) (kvs : list KVCell) : list KVCell :=
  match kvs with
  | [] => []
  | kv :: kvs' =>
      if is_dead minActive kv (head kvs') then kept minActive kvs' else kv :: kept minActive kvs'
  end.

Lemma elem_of_kept minActive kvs kv :
  kv ∈ kept minActive kvs <->
  exists i, kvs !! i = Some kv /\ is_dead minActive kv (kvs !! S i) = false.
Proof.
  induction kvs as [|kv' kvs IH]; cbn [kept].
  - split; [by intros ?%elem_of_nil|by intros (i & ? & _)].
  - assert (Hh : head kvs = kvs !! 0%nat) by by destruct kvs.
    rewrite Hh. destruct (is_dead minActive kv' (kvs !! 0%nat)) eqn:Ed.
    + rewrite IH. split; [intros (i & ? & ?); by exists (S i)|].
      intros ([|i] & E1 & E2); cbn in *; [|by exists i]. injection E1 as ->. exfalso. pose proof (eq_trans (eq_sym Ed) E2). discriminate.
    + rewrite elem_of_cons, IH. split.
      * intros [->|(i & ? & ?)]; [by exists 0%nat|by exists (S i)].
      * intros ([|i] & E1 & E2); cbn in *; [left; congruence|right; by exists i].
Qed.

Lemma kept_sub minActive kvs kv : kv ∈ kept minActive kvs -> kv ∈ kvs.
Proof. intros (i & Hi & _)%elem_of_kept. by eapply list_elem_of_lookup_2. Qed.

(** The cells a leaf of the database holds: versions of NUL-free user keys,
    with the flags the tree writes. *)
Definition versioned (kvs : list KVCell) : Prop := forall kv, kv ∈ kvs ->
  exists u v, kvKey kv = BuildMVCCKey u v /\ nul_free u /\ v < 18446744073709551616
    /\ (IsDeleted kv = true -> kvFlag kv = KEY_DELETED_FLAG).

(** No version below the watermark is from a transaction that did not commit. *)
Definition committed_below (minActive : N) (txMgr : option TransactionManager) (kvs : list KVCell) : Prop :=
  forall kv, kv ∈ kvs -> (ExtractMVCCKey (kvKey kv)).2 < minActive ->
    match txMgr with
    | Some t => GetStatus (ExtractMVCCKey (kvKey kv)).2 t = TXN_COMMITED
    | None => True
    end.

(** What a reader sees of the cell it finds. *)
Definition seen (r : option KVCell) : option KVCell :=
  match r with
  | Some kv => if kvFlag kv =? KEY_DELETED_FLAG then None else Some kv
  | None => None
  end.

Section sweep.
Variables (minActive reader : N) (user : bytes) (txMgr : option TransactionManager) (kvs : list KVCell).
Hypothesis Hsorted : sorted_kvs kvs.
Hypothesis Hver : versioned kvs.
Hypothesis Hcom : committed_below minActive txMgr kvs.
Hypothesis Hmin : minActive <= reader < 18446744073709551616.

Let key := BuildMVCCKey user reader.
Let sees (kv : KVCell) : Prop := isVersionVisible (kvKey kv) key txMgr = true.

Lemma sees_iff kv : sees kv <->
  (ExtractMVCCKey (kvKey kv)).1 = user /\ visible txMgr reader (ExtractMVCCKey (kvKey kv)).2.
Proof. unfold sees, key. rewrite isVersionVisible_iff, extract_build by lia. done. Qed.

(** An old version is never the one a reader above the watermark picks. *)
Lemma old_version_hidden i kv :
  kvs !! i = Some kv -> is_old_version minActive kv (kvs !! S i) = true -> sees kv ->
  exists kv', kv' ∈ kvs /\ sees kv' /\ bytes_lt (kvKey kv) (kvKey kv').
Proof.
  intros Hi Ho [Hu _]%sees_iff. unfold is_old_version in Ho.
  destruct (kvs !! S i) as [nx|] eqn:En; [|done].
  destruct (ExtractMVCCKey (kvKey kv)) as [u t] eqn:Ek. destruct (ExtractMVCCKey (kvKey nx)) as [u' t'] eqn:Ek'.
  cbn in Hu. apply andb_true_iff in Ho as [Eu%bytes_eqb_eq Et%N.ltb_lt]. exists nx.
  assert (Hin : nx ∈ kvs) by by eapply list_elem_of_lookup_2.
  split; [done|]. split; [|by eapply (sorted_lookup kvs i (S i)); [| | |lia]].
  apply sees_iff. rewrite Ek'. cbn. split; [congruence|]. right. split; [lia|].
  specialize (Hcom nx Hin). rewrite Ek' in Hcom. by apply Hcom.
Qed.

(** Below a tombstone under the watermark every version of the key is old. *)
Lemma below_tombstone i kv b :
  kvs !! i = Some kv -> b ∈ kvs -> (ExtractMVCCKey (kvKey b)).2 < minActive ->
  (ExtractMVCCKey (kvKey b)).1 = (ExtractMVCCKey (kvKey kv)).1 -> bytes_lt (kvKey kv) (kvKey b) ->
  is_old_version minActive kv (kvs !! S i) = true.
Proof.
  intros Hi (j & Hj)%list_elem_of_lookup Ht Hu Hlt.
  assert (Hij : (i < j)%nat).
  { destruct (lt_eq_lt_dec i j) as [[Hl| ->]|Hl]; [done| |].
    - simplify_eq. by destruct (irreflexivity bytes_lt (kvKey kv)).
    - destruct (irreflexivity bytes_lt (kvKey kv)). etrans; [exact Hlt|]. by eapply (sorted_lookup kvs j i). }
  destruct (lookup_lt_is_Some_2 kvs (S i)) as [nx Hn].
  { apply lookup_lt_Some in Hj. lia. }
  rewrite Hn. unfold is_old_version.
  assert (Hor : nx = b \/ bytes_lt (kvKey nx) (kvKey b)).
  { destruct (decide (S i = j)) as [<-|]; [left; congruence|right].
    eapply (sorted_lookup kvs (S i) j); [done|done|done|lia]. }
  destruct (Hver kv) as (u & t & Ek & Hnu & Hb & _); [by eapply list_elem_of_lookup_2|].
  destruct (Hver nx) as (u' & t' & Ek' & Hnu' & Hb' & _); [by eapply list_elem_of_lookup_2|].
  destruct (Hver b) as (u2 & t2 & Ek2 & Hnu2 & Hb2 & _); [by eapply list_elem_of_lookup_2|].
  rewrite Ek, Ek', Ek2 in *. rewrite !extract_build in * by done. cbn [fst snd] in *. subst u2.
  destruct Hor as [->|Hor].
  { rewrite Ek' in Ek2. apply (f_equal ExtractMVCCKey) in Ek2. rewrite !extract_build in Ek2 by done.
    injection Ek2 as -> ->. rewrite bytes_eqb_refl. apply andb_true_iff. split; [done|]. by apply N.ltb_lt. }
  assert (Hkn : bytes_lt (BuildMVCCKey u t) (BuildMVCCKey u' t')).
  { rewrite <-Ek, <-Ek'. eapply (sorted_lookup kvs i (S i)); [done|done|done|lia]. }
  assert (u' = u) as -> by (by eapply (versions_contiguous u u' t t2 t')).
  rewrite bytes_eqb_refl. apply andb_true_iff. split; [done|]. apply N.ltb_lt.
  unfold bytes_lt in Hor. rewrite version_order in Hor by done.
  apply (proj1 (N.compare_lt_iff _ _)) in Hor. lia.
Qed.

(** The sweep does not change what a reader above the watermark sees. *)
Lemma kept_seen : seen (best_version key txMgr (kept minActive kvs)) = seen (best_version key txMgr kvs).
Proof.
  pose proof (best_version_is_best key txMgr kvs) as Hb.
  pose proof (best_version_is_best key txMgr (kept minActive kvs)) as Hb'.
  destruct (best_version key txMgr kvs) as [b|]; cbn [is_best] in Hb.
  2: { destruct (best_version key txMgr (kept minActive kvs)) as [b'|]; [|done]. destruct Hb' as (B1 & B2 & _).
       rewrite (Hb b' (kept_sub _ _ _ B1)) in B2. done. }
  destruct Hb as (B1 & B2 & B3). pose proof B1 as (i & Hi)%list_elem_of_lookup.
  assert (Hnold : is_old_version minActive b (kvs !! S i) = false).
  { apply not_true_iff_false. intros Ho. destruct (old_version_hidden i b Hi Ho B2) as (kv' & H1 & H2 & H3).
    specialize (B3 kv' H1 H2). apply bytes_ltb_lt in H3. congruence. }
  destruct (is_dead minActive b (kvs !! S i)) eqn:Ed.
  - unfold is_dead in Ed. rewrite Hnold in Ed. cbn [orb] in Ed. apply andb_true_iff in Ed as [Hd Ht%N.ltb_lt].
    destruct (Hver b B1) as (_ & _ & _ & _ & _ & Hfl). cbn [seen]. rewrite (Hfl Hd). cbn.
    destruct (best_version key txMgr (kept minActive kvs)) as [b'|]; [|done]. destruct Hb' as (C1 & C2 & _).
    apply elem_of_kept in C1 as (j & Hj & Hdead). assert (Hin : b' ∈ kvs) by by eapply list_elem_of_lookup_2.
    specialize (B3 b' Hin C2). apply bytes_ltb_ge in B3 as [B3|B3].
    + apply (key_inj kvs) in B3 as <-; [|done..]. unfold is_dead in Hdead. rewrite Hd in Hdead.
      apply orb_false_iff in Hdead as [_ Hdead]. cbn in Hdead. by apply N.ltb_ge in Hdead; lia.
    + exfalso. apply sees_iff in B2 as [Hu _]. apply sees_iff in C2 as [Hu' _].
      unfold is_dead in Hdead. by rewrite (below_tombstone j b' b Hj B1 Ht ltac:(congruence) B3) in Hdead.
  - assert (Hk : b ∈ kept minActive kvs) by (apply elem_of_kept; by exists i).
    destruct (best_version key txMgr (kept minActive kvs)) as [b'|].
    + destruct Hb' as (C1 & C2 & C3). pose proof (kept_sub _ _ _ C1) as Hin.
      specialize (C3 b Hk B2). specialize (B3 b' Hin C2).
      assert (b' = b) as ->; [|done]. apply (key_inj kvs); try done.
      apply bytes_ltb_ge in C3 as [C3|C3]; [done|]. apply bytes_ltb_ge in B3 as [B3|B3]; [done|].
      destruct (irreflexivity bytes_lt (kvKey b)). by etrans.
    + rewrite (Hb' b Hk) in B2. done.
Qed.
End sweep.

(** ** Sweeping a leaf *)

Section leaf.
Context `{MapRange}.

(** The pages of the overflow chains of the cells a sweep drops, each chain on
    pages of its own. *)
Inductive dead_chains (bm : BufferManager) (fl : list N) (minActive : N)
    : list KVCell -> list N -> Prop :=
| dead_none : dead_chains bm fl minActive [] []
| dead_inline kv kvs ids :
    is_dead minActive kv (head kvs) && IsOverflow kv = false ->
    dead_chains bm fl minActive kvs ids -> dead_chains bm fl minActive (kv :: kvs) ids
| dead_overflow kv kvs v ids ids' :
    is_dead minActive kv (head kvs) = true -> IsOverflow kv = true ->
    kvValue kv = chain_metadata (hd 0 ids) (len v) -> len v < 4294967296 ->
    own_chain bm fl ids v -> (forall x, x ∈ ids' -> x ∉ ids) ->
    dead_chains bm fl minActive kvs ids' -> dead_chains bm fl minActive (kv :: kvs) (ids ++ ids').

Lemma dead_chains_type bm fl minActive kvs ids x :
  dead_chains bm fl minActive kvs ids -> x ∈ ids -> GetPageType (view bm x) = PageTypeOverflow.
Proof.
  induction 1 as [|kv kvs ids _ _ IH|kv kvs v ids ids' _ _ _ _ Ho _ _ IH]; [by intros ?%elem_of_nil|done|].
  intros [Hx|Hx]%elem_of_app; [|by apply IH]. by eapply chain_bound; [apply Ho|].
Qed.

(** Freeing other pages leaves them alone. *)
Lemma dead_chains_frame bm bm' fl freed_ids minActive kvs ids :
  freed bm bm' fl freed_ids -> (forall x, x ∈ ids -> x ∉ freed_ids) ->
  dead_chains bm fl minActive kvs ids -> dead_chains bm' (rev freed_ids ++ fl) minActive kvs ids.
Proof.
  intros F Hd Hc. induction Hc as [|kv kvs ids Hb _ IH|kv kvs v ids ids' H1 H2 H3 H4 Ho Hdis _ IH].
  - constructor.
  - apply dead_inline; [done|by apply IH].
  - apply (dead_overflow _ _ _ kv kvs v); try done.
    + apply (own_chain_frame bm bm' fl); [done|done|]. intros x Hx. apply Hd. apply elem_of_app. by left.
    + apply IH. intros x Hx. apply Hd. apply elem_of_app. by right.
Qed.

Definition dropped (minActive : N) (kvs : list KVCell) : N := len kvs - len (kept minActive kvs).

Lemma kept_len minActive kvs : len (kept minActive kvs) <= len kvs.
Proof. induction kvs as [|kv kvs IH]; cbn [kept]; [done|]. destruct (is_dead _ _ _); revert IH; len. Qed.

(** The cell after the one in slot [length pre], as the loop reads it. *)
Lemma next_cell {A} bm h leaf ho kvs pre kv mid (k : option KVCell -> M BufferManager A) :
  bm_ok bm h -> h !! leaf = Some ho -> stores (view bm leaf) kvs -> kvs = pre ++ kv :: mid ->
  (next ← (if N.of_nat (length pre) <? sub16 (len kvs) 1 then
             nextC ← slot leaf (u16 (N.of_nat (length pre) + 1));
             nextKV ← pure (DeserializeKVCell nextC);
             mret (Some nextKV)
           else mret None); k next) bm = k (head mid) bm.
Proof.
  intros Hok Hh Hs E.
  assert (Hb : len kvs < 65536) by (rewrite <-(stores_count _ _ Hs); apply slot_count_bound).
  assert (Hl : len kvs = N.of_nat (length pre) + 1 + len mid)
    by (rewrite E; unfold len; rewrite length_app; simpl; lia).
  assert (Hsub : sub16 (len kvs) 1 = len kvs - 1) by (unfold sub16, u16; lia).
  rewrite Hsub. destruct mid as [|nx mid].
  - rewrite (proj2 (N.ltb_ge _ _)) by (unfold len in *; simpl in *; lia). done.
  - rewrite (proj2 (N.ltb_lt _ _)) by (unfold len in *; simpl in *; lia).
    destruct (slot_ok bm h leaf ho kvs (N.of_nat (length pre) + 1) nx Hok Hh Hs) as (r' & F1 & F2).
    { rewrite E. replace (N.to_nat (N.of_nat (length pre) + 1)) with (length pre + 1)%nat by lia.
      by rewrite lookup_app_r, Nat.add_sub_swap, Nat.sub_diag by lia. }
    assert (Hu : u16 (N.of_nat (length pre) + 1) = N.of_nat (length pre) + 1).
    { unfold u16. apply N.mod_small. lia. }
    rewrite Hu. unfold mbind, M_bind in *. rewrite F1. unfold pure, DeserializeKVCell. by rewrite F2.
Qed.

Lemma vacuum_loop_ok h leaf minActive kvs : h = <[leaf := HWrite]> ∅ -> leaf <> MetaPageID ->
  forall mid pre cells n bm fl ids,
  bm_ok bm h -> leaf_node bm leaf kvs -> 2 < bm_maxSize bm -> free_list (bm_pages bm) (view bm) fl ->
  kvs = pre ++ mid -> dead_chains bm fl minActive mid ids ->
  exists bm',
    vacuum_loop leaf minActive (len kvs) (N.of_nat <$> seq (length pre) (length mid)) (cells, n) bm
    = (Ok (cells ++ (KVCell_Serialize <$> kept minActive mid), n + dropped minActive mid), bm')
    /\ bm_ok bm' h /\ freed bm bm' fl ids /\ leaf_node bm' leaf kvs
    /\ (dropped minActive mid = 0 -> bm' = bm).
Proof.
  intros Hheq Hm. assert (Hh : h !! leaf = Some HWrite) by (rewrite Hheq; apply lookup_insert_eq).
  assert (Hne : forall x, x <> leaf -> h !! x = None).
  { intros x Hx. rewrite Hheq. by rewrite lookup_insert_ne, lookup_empty. }
  assert (Hhs : N.of_nat (size h) = 1) by (by rewrite Hheq, insert_empty, map_size_singleton).
  clear Hheq. induction mid as [|kv mid IH]; intros pre cells n bm fl ids Hok Hl Hsz Hfl E Hc.
  - inversion_clear Hc. exists bm. cbn. rewrite app_nil_r, N.add_0_r. split; [done|]. split; [done|].
    split; [by eapply freed_nil|done].
  - pose proof (nd_stores _ _ _ _ Hl) as Hs. cbn [length seq fmap list_fmap vacuum_loop].
    destruct (slot_ok bm h leaf HWrite kvs (N.of_nat (length pre)) kv Hok Hh Hs) as (r & E1 & E2).
    { rewrite Nat2N.id, E. by apply list_lookup_middle. }
    mstep E1. rewrite E2. unfold mbind at 1, M_bind at 1, pure at 1.
    rewrite (next_cell bm h leaf HWrite kvs pre kv mid _ Hok Hh Hs E).
    assert (IH' : forall cells n bm1 fl1 ids1, bm_ok bm1 h -> leaf_node bm1 leaf kvs -> 2 < bm_maxSize bm1 ->
        free_list (bm_pages bm1) (view bm1) fl1 -> dead_chains bm1 fl1 minActive mid ids1 ->
        exists bm', vacuum_loop leaf minActive (len kvs)
          (N.of_nat <$> seq (S (length pre)) (length mid)) (cells, n) bm1
        = (Ok (cells ++ (KVCell_Serialize <$> kept minActive mid), n + dropped minActive mid), bm')
        /\ bm_ok bm' h /\ freed bm1 bm' fl1 ids1 /\ leaf_node bm' leaf kvs
        /\ (dropped minActive mid = 0 -> bm' = bm1)).
    { intros c m bm1 fl1 ids1 K1 L1 Q1 F1 C1. replace (S (length pre)) with (length (pre ++ [kv])) by (rewrite length_app; simpl; lia).
      apply IH; try done. by rewrite <-(assoc_L (++)). }
    pose proof (kept_len minActive mid) as Hk. unfold dropped in *. cbn [kept].
    inversion Hc as [|? ? ? Hd Hc'|? ? v ids1 ids' Hd Hov Hv Hlen Ho Hdis Hc']; subst.
    + destruct (IH' (if is_dead minActive kv (head mid) then cells else cells ++ [KVCell_Serialize kv])
        (if is_dead minActive kv (head mid) then n + 1 else n) bm fl ids) as (bm' & F & K & Fr & L & N0); try done.
      exists bm'. destruct (is_dead minActive kv (head mid)); cbn [andb] in Hd.
      * rewrite Hd. unfold mbind at 1, M_bind at 1, mret at 1, M_ret at 1. rewrite F. split; [|split_and!; try done].
        -- do 2 f_equal. f_equal. revert Hk; len.
        -- intros Hz. exfalso. revert Hz Hk; len.
      * cbn [sl_data]. rewrite F. split; [|split_and!; try done].
        -- cbn [fmap list_fmap]. rewrite <-(assoc_L (++)). do 2 f_equal. f_equal. revert Hk; len.
        -- intros Hz. apply N0. revert Hz Hk; len.
    + destruct (freeOverflowChain_ok bm h fl ids1 v r Hok ltac:(lia) Hfl Ho Hlen) as (bm1 & E3 & K3 & F3).
      { by apply Hne. }
      { intros x Hx. apply Hne. intros ->. destruct (chain_bound _ _ _ _ (oc_chain _ _ _ _ Ho) Hx) as [_ Ht].
        by rewrite (nd_type _ _ _ _ Hl) in Ht. }
      assert (L1 : leaf_node bm1 leaf (pre ++ kv :: mid)).
      { eapply (freed_node bm bm1); [done..| |done]. intros Hx.
        destruct (chain_bound _ _ _ _ (oc_chain _ _ _ _ Ho) Hx) as [_ Ht].
        by rewrite (nd_type _ _ _ _ Hl) in Ht. }
      destruct (IH' cells (n + 1) bm1 (rev ids1 ++ fl) ids' K3 L1) as (bm' & F & K & Fr & L & _).
      { by rewrite (fd_size _ _ _ _ F3). }
      { apply F3. }
      { by eapply dead_chains_frame. }
      exists bm'. rewrite Hd, Hov, Hv. mstep E3. rewrite F. split; [|split_and!; try done].
      * do 2 f_equal. f_equal. revert Hk; len.
      * by eapply freed_trans.
      * intros Hz. exfalso. revert Hz Hk; len.
Qed.

Lemma kept_space minActive kvs :
  space (KVCell_Serialize <$> kept minActive kvs) <= space (KVCell_Serialize <$> kvs).
Proof.
  unfold space. induction kvs as [|kv kvs IH]; [done|]. cbn [kept fmap list_fmap foldr].
  destruct (is_dead _ _ _); cbn [fmap list_fmap foldr]; lia.
Qed.

Lemma kept_all minActive kvs : dropped minActive kvs = 0 -> kept minActive kvs = kvs.
Proof.
  unfold dropped. induction kvs as [|kv kvs IH]; [done|]. cbn [kept].
  pose proof (kept_len minActive kvs) as Hk.
  destruct (is_dead _ _ _); intros E; [unfold len in *; simpl in *; lia|].
  f_equal. apply IH. unfold len in *. simpl in *. lia.
Qed.

(** Rewriting the leaf, or unpinning it clean when nothing was dropped. *)
Lemma vacuum_finish bm h leaf minActive kvs :
  h = <[leaf := HWrite]> ∅ -> bm_ok bm h -> leaf_node bm leaf kvs ->
  space (KVCell_Serialize <$> kvs) <= 4064 -> (dropped minActive kvs = 0 -> settled bm leaf) ->
  exists bm', (if 0 <? dropped minActive kvs then
      _ ← wr leaf (Init PageTypeLeaf);
      _ ← on_page leaf (insert_cells (KVCell_Serialize <$> kept minActive kvs));
      UnpinPage leaf true true
    else UnpinPage leaf false true) bm = (Ok tt, bm')
    /\ bm_ok bm' ∅ /\ leaf_node bm' leaf (kept minActive kvs)
    /\ (bm_pages bm' = bm_pages bm /\ bm_maxSize bm' = bm_maxSize bm)
    /\ forall id, id <> leaf -> view bm' id = view bm id.
Proof.
  intros -> Hok Hl Hsp Hset.
  assert (Hh : (<[leaf := HWrite]> (∅ : gmap N hold)) !! leaf = Some HWrite) by apply lookup_insert_eq.
  assert (Hrel : release (<[leaf := HWrite]> ∅) leaf = (∅ : gmap N hold)).
  { unfold release. by rewrite Hh, delete_insert_eq, delete_empty. }
  pose proof (nd_stores _ _ _ _ Hl) as St. destruct (0 <? dropped minActive kvs) eqn:Ec.
  - destruct (rewrite_leaf bm _ leaf kvs (kept minActive kvs) Hok Hh Hl) as
      (bm2 & E2 & K2 & N2 & P2 & Q2 & V2 & _).
    { pose proof (kept_space minActive kvs). lia. }
    { apply Forall_forall. intros kv Hkv%kept_sub. pose proof (st_fits _ _ St) as Hf.
      rewrite Forall_forall in Hf. by apply Hf. }
    destruct (unpin_ok bm2 _ leaf HWrite true K2 Hh) as (bm3 & E3 & K3 & [[P3 Q3] V3]); [by intros _ [=]|].
    rewrite Hrel in K3. exists bm3. split; [|split; [done|split; [|split]]].
    + by rewrite (bind_assoc2 _ _ _ _ _ E2).
    + eapply node_same; [|exact N2]. split; [done|]. intros id. by rewrite V3.
    + split; congruence.
    + intros id Hne. by rewrite V3, V2.
  - apply N.ltb_ge in Ec. rewrite (kept_all minActive kvs) by lia.
    destruct (unpin_ok bm _ leaf HWrite false Hok Hh) as (bm3 & E3 & K3 & S3); [intros _ _; apply Hset; lia|].
    pose proof S3 as [[P3 Q3] V3]. rewrite Hrel in K3. exists bm3.
    split; [done|]. split; [done|]. split; [|done].
    eapply node_same; [|exact Hl]. by apply same_array_view.
Qed.

Lemma vacuumLeaf_ok bm leaf minActive kvs fl ids :
  bm_ok bm ∅ -> 2 < bm_maxSize bm -> leaf_node bm leaf kvs -> leaf <> MetaPageID -> leaf ∉ fl ->
  free_list (bm_pages bm) (view bm) fl -> dead_chains bm fl minActive kvs ids ->
  space (KVCell_Serialize <$> kvs) <= 4064 ->
  exists bm', vacuumLeaf leaf minActive bm = (Ok tt, bm') /\ bm_ok bm' ∅
    /\ leaf_node bm' leaf (kept minActive kvs)
    /\ free_list (bm_pages bm') (view bm') (rev ids ++ fl)
    /\ GetRootPageID (view bm' MetaPageID) = GetRootPageID (view bm MetaPageID)
    /\ (bm_pages bm' = bm_pages bm /\ bm_maxSize bm' = bm_maxSize bm)
    /\ forall id, id <> leaf -> id <> MetaPageID -> id ∉ ids -> page_eqv (view bm' id) (view bm id).
Proof.
  intros Hok Hsz Hl Hm Hfr Hfl Hd Hsp.
  destruct (fetch_write_ok leaf PageTypeLeaf bm ∅ Hok (nd_id _ _ _ _ Hl) (lookup_empty _))
    as (bm1 & E1 & K1 & S1 & T1); [right; rewrite map_size_empty; lia|].
  assert (Hh : (<[leaf := HWrite]> (∅ : gmap N hold)) !! leaf = Some HWrite) by apply lookup_insert_eq.
  pose proof (node_same _ _ _ _ _ S1 Hl) as N1. pose proof (nd_stores _ _ _ _ N1) as St.
  pose proof (freed_nil bm bm1 fl ∅ Hok S1 Hfl) as F0.
  assert (Hd1 : dead_chains bm1 fl minActive kvs ids).
  { apply (dead_chains_frame bm bm1 fl []); [done|by intros x _ ?%elem_of_nil|done]. }
  destruct (vacuum_loop_ok _ leaf minActive kvs eq_refl Hm kvs [] [] 0 bm1 fl ids K1 N1)
    as (bm2 & E2 & K2 & F2 & N2 & Hz); [by rewrite (fd_size _ _ _ _ F0)|apply F0|done|done|].
  destruct (vacuum_finish bm2 _ leaf minActive kvs eq_refl K2 N2 Hsp) as (bm3 & E3 & K3 & N3 & [P3 Q3] & V3).
  { intros H0. by rewrite (Hz H0). }
  pose proof (freed_trans bm bm1 bm2 fl [] ids F0 F2) as F. cbn [app] in F.
  assert (Hoff : leaf ∉ ids).
  { intros Hx. pose proof (dead_chains_type _ _ _ _ _ _ Hd1 Hx) as T. by rewrite (nd_type _ _ _ _ N1) in T. }
  destruct (free_list_keep bm2 bm3 _ _ K2 (fd_free _ _ _ _ F) P3) as [G1 G2].
  { intros x Hx. rewrite V3; [done|]. intros ->. destruct Hx as [?|[Hx|Hx]%elem_of_app]; [done| |done].
    apply Hoff. by apply list_elem_of_In, in_rev, list_elem_of_In. }
  exists bm3. split.
  { unfold vacuumLeaf. mstep E1.
    mstep (rd_ok bm1 _ leaf HWrite getSlotCount K1 Hh). mstep (rd_ok bm1 _ leaf HWrite slot_ids K1 Hh).
    rewrite (stores_count _ _ St), (stores_ids _ _ St). mstep E2. cbn [app]. by rewrite N.add_0_l. }
  split; [done|]. split; [done|]. split; [done|]. split; [rewrite G2; apply F|].
  split; [split; [rewrite P3|rewrite Q3]; apply F|].
  intros id Hne H0 Hin. rewrite V3 by done. by apply F.
Qed.
End leaf.

(** ** Properties *)

Section vacuum_properties.
Context `{MapRange}.

(** C10: sweeping a leaf is invisible to every reader at or above the
    watermark, running now or starting later: for each user key the sweep
    leaves in the leaf the version the reader saw there before, and what read
    as absent or deleted still does.  This holds for a leaf of sorted versions
    of user keys without a NUL byte, when the versions below the watermark are
    from committed transactions and each dropped version is stored inline or
    in an overflow chain on pages of its own.  The pages of those chains go
    to the top of the free list, nothing stays pinned, and every page other than
    the leaf, the meta page and the freed ones keeps its contents, the meta page
    its root pointer. *)
Theorem vacuum_invisible bm leaf minActive txMgr kvs fl ids :
  bm_ok bm ∅ -> 2 < bm_maxSize bm -> leaf_node bm leaf kvs -> leaf <> MetaPageID -> leaf ∉ fl ->
  free_list (bm_pages bm) (view bm) fl -> dead_chains bm fl minActive kvs ids ->
  space (KVCell_Serialize <$> kvs) <= 4064 ->
  sorted_kvs kvs -> versioned kvs -> committed_below minActive txMgr kvs ->
  exists bm', vacuumLeaf leaf minActive bm = (Ok tt, bm') /\ bm_ok bm' ∅
    /\ leaf_node bm' leaf (kept minActive kvs)
    /\ free_list (bm_pages bm') (view bm') (rev ids ++ fl)
    /\ GetRootPageID (view bm' MetaPageID) = GetRootPageID (view bm MetaPageID)
    /\ (forall id, id <> leaf -> id <> MetaPageID -> id ∉ ids -> page_eqv (view bm' id) (view bm id))
    /\ forall user reader, minActive <= reader < 18446744073709551616 ->
         seen (best_version (BuildMVCCKey user reader) txMgr (kept minActive kvs))
         = seen (best_version (BuildMVCCKey user reader) txMgr kvs).
Proof.
  intros Hok Hsz Hl Hm Hfr Hfl Hd Hsp Hs Hv Hc.
  destruct (vacuumLeaf_ok bm leaf minActive kvs fl ids Hok Hsz Hl Hm Hfr Hfl Hd Hsp)
    as (bm' & E & K & N1 & F & R & _ & V).
  exists bm'. split_and!; try done. intros user reader Hr. by apply kept_seen.
Qed.
End vacuum_properties.

(** Two committed versions of a key below the watermark, the older one in an
    overflow chain on page 2. *)
Definition vac_cells : list KVCell :=
  [mkKVCell (BuildMVCCKey [x6b] 5) (chain_metadata 2 3) KEY_OVERFLOW_FLAG;
   NewKVCell 0 (BuildMVCCKey [x6b] 7) [x62]].
Definition vac_meta : page := SetRootPageID 1 (NewPage PageTypeMeta).
Definition vac_leaf : page :=
  snd (insert_cells (encode <$> vac_cells) (SetPageID 1 (NewPage PageTypeLeaf))).
Definition vac_overflow : page :=
  splice (SetPageID 2 (NewPage PageTypeOverflow)) overflowDataOffset [x61; x62; x63].
Definition vac_pool : BufferManager :=
  mkBM (mkFile (vac_meta ++ vac_leaf ++ vac_overflow) []) ∅ 10 empty_wal true 0.

Lemma vac_ok : bm_ok vac_pool ∅.
Proof.
  constructor; cbn [vac_pool bm_pager bm_pageTable bm_wal bm_maxSize].
  - constructor; by vm_compute.
  - done.
  - by vm_compute.
  - intros id fr. by rewrite lookup_empty.
  - intros id ho. by rewrite lookup_empty.
Qed.

Lemma vac_node : leaf_node vac_pool 1 vac_cells.
Proof.
  assert (Hv : view vac_pool 1 = vac_leaf) by by vm_compute.
  constructor; rewrite ?Hv; [by vm_compute| |by vm_compute..]. constructor.
  - constructor; [by vm_compute..|]. intros i Hi.
    assert (Hc : getSlotCount vac_leaf = 2) by by vm_compute. rewrite Hc in Hi.
    assert (i = 0 \/ i = 1) as [-> | ->] by lia; split; by vm_compute.
  - by vm_compute.
  - repeat constructor.
Qed.

Lemma vac_chain : own_chain vac_pool [] [2] [x61; x62; x63].
Proof.
  assert (Hv : view vac_pool 2 = vac_overflow) by by vm_compute.
  constructor.
  - cbn [chain]. rewrite Hv. clear Hv. split; [split; vm_compute; reflexivity|].
    do 3 (split; [vm_compute; reflexivity|]). exists [x61; x62; x63], [].
    do 2 (split; [vm_compute; reflexivity|]). split; [split; vm_compute; [reflexivity|discriminate]|].
    split; [intros []; reflexivity|reflexivity].
  - repeat constructor. by intros ?%elem_of_nil.
  - by intros x _ ?%elem_of_nil.
  - intros x ->%list_elem_of_singleton. rewrite Hv. vm_compute. reflexivity.
Qed.

(** The older version is dropped and its page is free. *)
Lemma vacuum_invisible_witness :
  exists bm', @vacuumLeaf canonical_range 1 8 vac_pool = (Ok tt, bm')
    /\ leaf_node bm' 1 [NewKVCell 0 (BuildMVCCKey [x6b] 7) [x62]]
    /\ free_list (bm_pages bm') (view bm') [2].
Proof.
  destruct (@vacuum_invisible canonical_range vac_pool 1 8 None vac_cells [] [2]) as (bm' & E & _ & N1 & F & _).
  - exact vac_ok.
  - reflexivity.
  - exact vac_node.
  - discriminate.
  - intros []%elem_of_nil.
  - constructor; [vm_compute; reflexivity|constructor|vm_compute; reflexivity].
  - apply (dead_overflow _ _ _ _ _ [x61; x62; x63] [2] []);
      [vm_compute; reflexivity|vm_compute; reflexivity|vm_compute; reflexivity|reflexivity| | |].
    + exact vac_chain.
    + intros x []%elem_of_nil.
    + apply dead_inline; [vm_compute; reflexivity|constructor].
  - vm_compute. discriminate.
  - repeat constructor.
  - intros kv Hkv. apply elem_of_cons in Hkv as [->|[->|[]%elem_of_nil]%elem_of_cons].
    + exists [x6b], 5. split; [reflexivity|]. split; [|split; [reflexivity|discriminate]].
      intros Hin%list_elem_of_singleton. discriminate.
    + exists [x6b], 7. split; [reflexivity|]. split; [|split; [reflexivity|discriminate]].
      intros Hin%list_elem_of_singleton. discriminate.
  - intros kv _ _. exact I.
  - exists bm'. split; [exact E|]. split; [exact N1|exact F].
Defined.
