(* ===== verification/Engine.v ===== *)
(** * The MVCC coordinator ([internal/engine/db.go]) and the [Index] interface

    [DB] turns user keys into version keys and rolls a transaction back when a
    write runs into a write-write conflict.  It is written against [Index], as
    in the source; the tree is an instance. *)

From S2P Require Import Prelude Crc Cell Page Pager Wal Txn Buffer Tree Overflow Upsert Rollback.

(** [storage.Index], with the transaction manager its methods are passed kept
    in the state [S]. *)
Class Index (S : Type) := {
  ix_Insert : bytes -> bytes -> M S unit;
  ix_Find : bytes -> M S bytes;
  ix_FindLatest : bytes -> M S bytes;
  ix_Delete : bytes -> M S unit;
  ix_Rollback : N -> M S unit;
  ix_Commit : N -> M S unit
}.

(** [BTree] implements it. *)
#[global] Instance BTree_Index `{MapRange} : Index BTree := {|
  ix_Insert := BTree_Insert;
  ix_Find := fun key => root ← gets t_root; on_bm (Find root key);
  ix_FindLatest := fun key =>
    root ← gets t_root; txMgr ← gets t_txm; on_bm (FindLatest root key txMgr);
  ix_Delete := BTree_Delete;
  ix_Rollback := Upsert.Rollback;
  ix_Commit := Upsert.Commit
|}.

Definition conflict_prefix : string := "write-write conflict".

(** [strings.HasPrefix(err.Error(), "write-write conflict")]. *)
Definition is_conflict (err : error) : bool := String.prefix conflict_prefix (error_string err).

Section db.
Context {S : Type} `{Index S}.

(** What [Set] and [Delete] do with the outcome of the write. *)
Definition finish_write (txID : N) (write : M S unit) : M S unit :=
  r ← attempt write;
  match r with
  | inl _ => mret tt
  | inr err =>
      _ ← (if is_conflict err then ignore (ix_Rollback txID) else mret tt);
      throw err
  end.

Definition DB_Set (txID : N) (key value : string) : M S unit :=
  let mvccKey := BuildMVCCKey (bytes_of_string key) txID in
  finish_write txID (ix_Insert mvccKey (bytes_of_string value)).

Definition DB_Get (txID : N) (key : string) : M S string :=
  let mvccKey := BuildMVCCKey (bytes_of_string key) txID in
  valBytes ← ix_FindLatest mvccKey;
  mret (string_of_bytes valBytes).

Definition DB_Delete (txID : N) (key : string) : M S unit :=
  let mvccKey := BuildMVCCKey (bytes_of_string key) txID in
  finish_write txID (ix_Delete mvccKey).

Definition DB_Rollback (txID : N) : M S unit := ix_Rollback txID.
Definition DB_Commit (txID : N) : M S unit := ix_Commit txID.
End db.

(** * Lemmas *)

Lemma string_bytes_string s : string_of_bytes (bytes_of_string s) = s.
Proof. apply String.string_of_list_byte_of_string. Qed.

(** The conflicts the tree raises are the ones the coordinator recognises. *)
Lemma ww_is_conflict m key kv : is_conflict (conflict_error m key kv) = true.
Proof.
  unfold conflict_error. destruct (ExtractMVCCKey key), (ExtractMVCCKey (kvKey kv)).
  by destruct (GetStatus _ m).
Qed.

Lemma finish_write_ok {S} `{Index S} txID (w : M S unit) s s' :
  w s = (Ok tt, s') -> finish_write txID w s = (Ok tt, s').
Proof. intros E. unfold finish_write. by mstep (attempt_ok _ _ _ _ E). Qed.

(** A conflicting write is rolled back, and its error reported. *)
Lemma finish_write_conflict {S} `{Index S} txID (w : M S unit) s s1 s2 err :
  w s = (Err err, s1) -> is_conflict err = true -> ix_Rollback txID s1 = (Ok tt, s2) ->
  finish_write txID w s = (Err err, s2).
Proof.
  intros E Hc E2. unfold finish_write.
  assert (Ea : attempt w s = (Ok (inr err), s1)) by (unfold attempt; by rewrite E).
  mstep Ea. rewrite Hc. assert (Ei : ignore (ix_Rollback txID) s1 = (Ok tt, s2)).
  { unfold ignore. by mstep (attempt_ok _ _ _ _ E2). }
  by mstep Ei.
Qed.

Lemma chain_app recs ext : forall rs lsn, txn_chain recs lsn rs -> txn_chain (recs ++ ext) lsn rs.
Proof.
  induction rs as [|r rs IH]; intros lsn; [done|]. cbn [txn_chain].
  intros (H0 & H1 & H2 & H3 & H4). split_and!; try done; [apply elem_of_app; by left|by apply IH].
Qed.

(** ** Properties *)

Section db_properties.
Context `{MapRange}.

Let mvcc (key : string) (txID : N) : bytes := BuildMVCCKey (bytes_of_string key) txID.

(** C5: [Get] after [Set] in the same transaction answers the string that was
    set, whatever its length and whatever committed versions of the key by
    earlier transactions exist.  This holds for a [Set] that neither conflicts
    with another transaction's version in its leaf nor splits the leaf (the leaf
    has room for the new cell), when a version the transaction already wrote is
    stored inline or in an overflow chain on pages of its own, and the path to
    the leaf uses no page of the free list. *)
Theorem set_then_get t fl old txID key value leaf path kvs :
  txID < 18446744073709551616 ->
  writable t fl old (mvcc key txID) (bytes_of_string value) leaf path kvs -> path_used fl path ->
  exists t' t'', DB_Set txID key value t = (Ok tt, t')
    /\ DB_Get txID key t' = (Ok value, t'') /\ bm_ok (t_bm t'') ∅.
Proof.
  intros Ht Hw Hu.
  destruct (insert_then_find t fl old _ txID _ leaf path kvs Ht Hw Hu) as (t' & bm' & E1 & E2 & K).
  exists t', (set_bm bm' t'). split; [by apply finish_write_ok|]. split; [|done].
  unfold DB_Get. cbn [ix_FindLatest BTree_Index].
  assert (E3 : (root ← gets t_root; txMgr ← gets t_txm; on_bm (FindLatest root (mvcc key txID) txMgr)) t'
    = (Ok (bytes_of_string value), set_bm bm' t')) by exact (on_bm_eq _ t' _ _ E2).
  mstep E3. by rewrite string_bytes_string.
Qed.

(** C6: [Get] after [Delete] in the same transaction reports the key as
    deleted, whatever older committed versions of it exist, under the same
    conditions as for [Set]: no conflict, room for the tombstone in the leaf
    without a split, a version the transaction already wrote stored inline or in
    a chain on pages of its own, and a path off the free list. *)
Theorem delete_then_get t fl old txID key leaf path kvs :
  txID < 18446744073709551616 ->
  writable t fl old (mvcc key txID) [] leaf path kvs -> path_used fl path ->
  exists t' t'', DB_Delete txID key t = (Ok tt, t')
    /\ DB_Get txID key t' = (Err ErrKeyDeleted, t'') /\ bm_ok (t_bm t'') ∅.
Proof.
  intros Ht Hw Hu.
  destruct (delete_then_find t fl old _ txID leaf path kvs Ht Hw Hu) as (t' & bm' & E1 & E2 & K).
  exists t', (set_bm bm' t'). split; [by apply finish_write_ok|]. split; [|done].
  unfold DB_Get. apply bind_err. exact (on_bm_eq _ t' _ _ E2).
Qed.

(** C1: a [Set] of an inline value whose leaf has another transaction's version
    of the key, running or committed with a greater id, reports the conflict
    with that transaction and rolls its own transaction back: each of its log
    records is undone, latest first, on the leaf it names (an inserted version
    is taken out, a deleted one becomes a live cell with the empty value), all
    other cells and all pages no record names keep their contents, the log grows
    by the compensation records and ends with the abort record, the
    transaction's status is rolled back and no other changes, and nothing stays
    pinned or latched.  The records must be inserts, and deletes whose version
    is still in the leaf they name; no cell before the conflicting one may
    conflict too or be the transaction's own in an overflow chain. *)
Theorem conflict_rolls_back t fl txID key value m recs rs L leaf path pre kv post :
  txID < 18446744073709551616 -> large (bytes_of_string value) = false ->
  reaches t fl (mvcc key txID) (bytes_of_string value) leaf path (pre ++ kv :: post) ->
  bm_walOn (t_bm t) = true -> t_txm t = Some m ->
  no_conflict (t_txm t) (mvcc key txID) pre -> inline_old (mvcc key txID) pre ->
  conflicts m (mvcc key txID) kv ->
  wal_ok (bm_wal (t_bm t)) recs -> txn_chain recs (GetLastLSN txID m) rs ->
  leaves_ok (t_bm t) L -> all_undoable L rs ->
  4 + log_size recs + undo_cost rs + 4182 < 9223372036854775808 ->
  exists t' m' im ext a, DB_Set txID key value t = (Err (conflict_error m (mvcc key txID) kv), t')
    /\ bm_ok (t_bm t') ∅ /\ t_root t' = t_root t /\ leaves_ok (t_bm t') (foldl undo L rs)
    /\ (forall id, id ∉ rPageID <$> rs -> page_eqv (view (t_bm t') id) (view (t_bm t) id))
    /\ wal_ok (bm_wal (t_bm t')) (recs ++ im ++ ext ++ [a])
    /\ (im = [] \/ exists r, is_image leaf r /\ im = [r]) /\ undo_log txID rs ext /\ is_abort txID a
    /\ t_txm t' = Some m' /\ GetStatus txID m' = TXN_ROLLEDBACK
    /\ forall x, x <> txID -> GetStatus x m' = GetStatus x m.
Proof.
  intros Ht Hlg Hre Hon Hm Hc Ho Hw Hwal Hch HL Hi Hb. pose proof Hre as [Hok Hsz _ _ _ Hl _ _].
  destruct (upsert_conflict t fl m (mvcc key txID) (bytes_of_string value) 0 leaf path pre kv post
    Hre (or_introl eq_refl) Hlg Hm Hc Ho Hw) as (bm1 & E1 & K1 & S1 & O1 & G1).
  destruct (log_step_ok _ _ _ _ Hwal G1) as (im & W1 & C1 & I1).
  { pose proof (nd_id _ _ _ _ Hl). pose proof (dbf_bound _ (bo_file _ _ Hok)). unfold bm_pages in *. lia. }
  { lia. }
  pose proof S1 as [[P1 Q1] V1].
  destruct (Rollback_ok (set_bm bm1 t) txID m (recs ++ im) rs L) as
    (t' & m' & ext & a & E2 & K2 & R2 & L2 & V2 & W2 & U2 & A2 & M2 & St2 & O2);
    cbn [set_bm t_bm t_txm]; try done.
  - rewrite Q1. lia.
  - congruence.
  - by apply chain_app.
  - intros id k Hin. destruct (HL id k Hin). split; [by eapply node_same|done].
  - rewrite log_size_app. lia.
  - exists t', m', im, ext, a. rewrite <-(assoc_L (++)) in W2.
    split; [by eapply finish_write_conflict; [exact E1|apply ww_is_conflict|exact E2]|].
    split_and!; try done. intros id Hid. etrans; [by apply V2|apply V1].
Qed.
End db_properties.

(** ** Witnesses *)

Lemma set_then_get_witness :
  exists t' t'', @DB_Set BTree (@BTree_Index canonical_range) 7 "k" "new value" demo_tree = (Ok tt, t')
    /\ @DB_Get BTree (@BTree_Index canonical_range) 7 "k" t' = (Ok "new value", t'').
Proof.
  destruct (@set_then_get canonical_range demo_tree [2] [] 7 "k" "new value" 1 [] demo_cells)
    as (t' & t'' & E1 & E2 & _).
  - reflexivity.
  - apply demo_writable; [apply demo_no_conflict; repeat constructor|vm_compute; discriminate|reflexivity].
  - intros x []%elem_of_nil.
  - exists t', t''. split; [exact E1|exact E2].
Defined.

Lemma delete_then_get_witness :
  exists t' t'', @DB_Delete BTree (@BTree_Index canonical_range) 7 "k" demo_tree = (Ok tt, t')
    /\ @DB_Get BTree (@BTree_Index canonical_range) 7 "k" t' = (Err ErrKeyDeleted, t'').
Proof.
  destruct (@delete_then_get canonical_range demo_tree [2] [] 7 "k" 1 [] demo_cells) as (t' & t'' & E1 & E2 & _).
  - reflexivity.
  - apply demo_writable; [apply demo_no_conflict; repeat constructor|vm_compute; discriminate|reflexivity].
  - intros x []%elem_of_nil.
  - exists t', t''. split; [exact E1|exact E2].
Defined.

(** Transaction 9 inserted a version of another key and then writes "k", of
    which transaction 7 has an uncommitted version. *)
Definition conflict_cells : list KVCell := NewKVCell 0 (BuildMVCCKey [x61] 9) [x79] :: demo_cells.
Definition conflict_leaf : page :=
  snd (insert_cells (encode <$> conflict_cells) (SetPageID 1 (NewPage PageTypeLeaf))).
Definition conflict_record : LogRecord := mkLogRecord 4 9 0 1 LogOpInsert (BuildMVCCKey [x61] 9) [x79].
Definition conflict_log : WAL :=
  mkWAL (mkFile (wal_magic ++ LogRecord_Serialize conflict_record) []) (4 + record_size conflict_record).
Definition conflict_pool : BufferManager :=
  mkBM (mkFile (demo_meta ++ conflict_leaf ++ demo_free) []) ∅ 10 conflict_log true 0.
Definition conflict_txns : TransactionManager :=
  mkTM {[5 := TXN_COMMITED; 7 := TXN_RUNNING; 9 := TXN_RUNNING]} {[9 := 4]}.
Definition conflict_tree : BTree := mkTree conflict_pool 1 (Some conflict_txns).

Lemma conflict_ok : bm_ok conflict_pool ∅.
Proof.
  constructor; cbn [conflict_pool bm_pager bm_pageTable bm_wal bm_maxSize].
  - constructor; vm_compute; reflexivity.
  - reflexivity.
  - vm_compute. discriminate.
  - intros id fr. by rewrite lookup_empty.
  - intros id ho. by rewrite lookup_empty.
Qed.

Lemma conflict_leaf_node : leaf_node conflict_pool 1 conflict_cells.
Proof.
  assert (Hv : view conflict_pool 1 = conflict_leaf) by (vm_compute; reflexivity).
  constructor; rewrite ?Hv; [vm_compute; reflexivity| |vm_compute; reflexivity|vm_compute; reflexivity].
  constructor.
  - constructor; [by vm_compute..|]. intros i Hi.
    assert (Hc : getSlotCount conflict_leaf = 3) by (vm_compute; reflexivity). rewrite Hc in Hi.
    assert (i = 0 \/ i = 1 \/ i = 2) as [-> |[-> | ->]] by lia; split; by vm_compute.
  - by vm_compute.
  - repeat constructor.
Qed.

Lemma conflict_log_ok : wal_ok conflict_log [conflict_record].
Proof.
  constructor.
  - reflexivity.
  - vm_compute. reflexivity.
  - vm_compute. reflexivity.
  - repeat constructor.
  - constructor; [|constructor]. constructor; vm_compute; reflexivity.
  - vm_compute. reflexivity.
Qed.

Lemma conflict_free_list : free_list (bm_pages conflict_pool) (view conflict_pool) [2].
Proof.
  constructor; [vm_compute; reflexivity|repeat constructor; by intros ?%elem_of_nil|].
  split; [vm_compute; reflexivity|]. split; [split; vm_compute; reflexivity|].
  split; vm_compute; reflexivity.
Qed.

Lemma conflict_rolls_back_witness :
  exists t', @DB_Set BTree (@BTree_Index canonical_range) 9 "k" "v" conflict_tree
      = (Err (ErrWWActive [x6b] 7), t')
    /\ leaf_node (t_bm t') 1 demo_cells.
Proof.
  destruct (@conflict_rolls_back canonical_range conflict_tree [2] 9 "k" "v" conflict_txns [conflict_record]
    [conflict_record] {[1 := conflict_cells]} 1 [] (take 2 conflict_cells)
    (NewKVCell 0 (BuildMVCCKey [x6b] 7) [x62]) []) as (t' & m' & im & ext & a & E & _ & _ & HL & _).
  - reflexivity.
  - reflexivity.
  - constructor.
    + exact conflict_ok.
    + reflexivity.
    + exact conflict_free_list.
    + vm_compute. reflexivity.
    + eapply descends_leaf. exact conflict_leaf_node.
    + exact conflict_leaf_node.
    + discriminate.
    + intros Hin%list_elem_of_singleton. discriminate.
  - reflexivity.
  - reflexivity.
  - intros m kv [= <-] Hkv. apply elem_of_cons in Hkv as [->|[->|[]%elem_of_nil]%elem_of_cons].
    + intros (Hu & _). discriminate.
    + intros (_ & _ & [Hs|[_ Hlt]]); vm_compute in *; discriminate.
  - intros kv Hkv _. apply elem_of_cons in Hkv as [->|[->|[]%elem_of_nil]%elem_of_cons]; reflexivity.
  - split; [reflexivity|]. split; [discriminate|]. left. vm_compute. reflexivity.
  - exact conflict_log_ok.
  - split; [discriminate|]. split; [by left|]. split; [reflexivity|]. split; [reflexivity|]. reflexivity.
  - intros id kvs [<- <-]%lookup_singleton_Some. split; [exact conflict_leaf_node|vm_compute; discriminate].
  - split; [|exact I]. exists conflict_cells. split; [apply lookup_singleton_eq|]. left. reflexivity.
  - vm_compute. reflexivity.
  - exists t'. split; [exact E|]. apply (HL 1). vm_compute. reflexivity.
Defined.
