(* ===== verification/Server.v ===== *)
(** * The server ([server.go])

    One client connection as a state machine over command lines: [BEGIN],
    [COMMIT], [ROLLBACK], [QUIT], and [SET], [GET], [DELETE] inside a
    transaction or in auto-commit mode.

    The lines are what [bufio.Scanner] returns, in ASCII.  The clock readings
    of [Begin] and the elapsed times printed after "took" come from the
    environment. *)

From Stdlib Require Import Strings.Ascii.
From S2P Require Import Prelude Crc Cell Page Pager Wal Txn Buffer Tree Overflow Upsert Rollback Engine.

(** ** The parts of [strings] the server uses, on ASCII *)

Definition is_space (c : ascii) : bool :=
  let n := N_of_ascii c in (n =? 32) || ((9 <=? n) && (n <=? 13)).

Definition upper (c : ascii) : ascii :=
  let n := N_of_ascii c in if (97 <=? n) && (n <=? 122) then ascii_of_N (n - 32) else c.

Fixpoint ToUpper (s : string) : string :=
  match s with
  | EmptyString => EmptyString
  | String c s' => String (upper c) (ToUpper s')
  end.

Fixpoint trim_left (s : string) : string :=
  match s with
  | EmptyString => EmptyString
  | String c s' => if is_space c then trim_left s' else s
  end.

Definition TrimSpace (s : string) : string := String.rev (trim_left (String.rev (trim_left s))).

(** The first of [strings.Fields(s)]. *)
Fixpoint take_word (s : string) : string :=
  match s with
  | EmptyString => EmptyString
  | String c s' => if is_space c then EmptyString else String c (take_word s')
  end.
Definition first_field (s : string) : string := take_word (trim_left s).

(** [strings.SplitN(s, " ", n + 1)]. *)
Fixpoint split_spaces (n : nat) (s : string) : list string :=
  match n with
  | O => [s]
  | S n' =>
      (fix go (s word : string) : list string :=
         match s with
         | EmptyString => [String.rev word]
         | String c s' =>
             if bool_decide (c = " "%char) then String.rev word :: split_spaces n' s'
             else go s' (String c word)
         end) s EmptyString
  end.
Definition SplitN3 (s : string) : list string := split_spaces 2 s.

(** [strings.Contains(s, sub)]. *)
Fixpoint Contains (sub s : string) : bool :=
  String.prefix sub s ||
  match s with
  | EmptyString => false
  | String _ s' => Contains sub s'
  end.

Definition quote : string := String (ascii_of_N 34) EmptyString.

(** ** The session *)

Record ClientState := mkClient { InTx : bool; TxID : N }.
Definition NewClientState : ClientState := mkClient false 0.

(** The transaction manager behind the database: [txMgr.Begin()] at a clock
    reading. *)
Class Begins (S : Type) := begin_txn : N -> M S N.

#[global] Instance BTree_Begins : Begins BTree := fun now =>
  txID ← get_txm (fun m => (Begin now m).1);
  _ ← on_txm (fun m => (Begin now m).2);
  mret txID.

(** The database, the client, what was printed on the connection (latest
    line first), and the clock readings to come. *)
Record Session (S : Type) := mkSession {
  ss_db : S;
  ss_client : ClientState;
  ss_out : list string;
  ss_clock : list N
}.
Arguments mkSession {S}.
Arguments ss_db {S}.
Arguments ss_client {S}.
Arguments ss_out {S}.
Arguments ss_clock {S}.

Section server.
Context {S : Type} `{Index S, Begins S}.
(** The rendering of an elapsed time. *)
Context (took : string).

Definition on_db {A} (m : M S A) : M (Session S) A :=
  zoom ss_db (fun db s => mkSession db (ss_client s) (ss_out s) (ss_clock s)) m.

Definition println (line : string) : M (Session S) unit :=
  modify (fun s => mkSession (ss_db s) (ss_client s) (line :: ss_out s) (ss_clock s)).

Definition set_client (c : ClientState) : M (Session S) unit :=
  modify (fun s => mkSession (ss_db s) c (ss_out s) (ss_clock s)).

(** [txMgr.Begin()]: consumes a clock reading. *)
Definition begin_now : M (Session S) N := fun s =>
  match ss_clock s with
  | now :: clock => on_db (begin_txn now) (mkSession (ss_db s) (ss_client s) (ss_out s) clock)
  | [] => (Hang, s)
  end.

(** Reports the outcome of a database call. *)
Definition report {A} (m : M S A) (ok : A -> string) : M (Session S) unit :=
  r ← attempt (on_db m);
  match r with
  | inl a => println (ok a)
  | inr err => _ ← println ("Error: " +:+ error_string err); throw err
  end.

Definition executeCommand (txID : N) (line : string) : M (Session S) unit :=
  let parts := SplitN3 line in
  let command := ToUpper (default EmptyString (head parts)) in
  let ok (_ : unit) := "OK (took " +:+ took +:+ ")" in
  if bool_decide (command = "SET") then
    match parts with
    | [_; key; value] => report (DB_Set txID key value) ok
    | _ => println "Usage: SET <key> <value>"
    end
  else if bool_decide (command = "GET") then
    match parts with
    | _ :: key :: _ => report (DB_Get txID key)
        (fun val => quote +:+ val +:+ quote +:+ " (took " +:+ took +:+ ")")
    | _ => println "Usage: GET <key>"
    end
  else if bool_decide (command = "DELETE") then
    match parts with
    | _ :: key :: _ => report (DB_Delete txID key) ok
    | _ => println "Usage: DELETE <key>"
    end
  else println ("Unknown command: " +:+ command).

(** The body of the loop; false means that the client quits. *)
Definition handle_line (line : string) : M (Session S) bool :=
  let text := TrimSpace line in
  if bool_decide (text = EmptyString) then mret true else
  let cmd := ToUpper (first_field text) in
  client ← gets ss_client;
  if bool_decide (cmd = "BEGIN") then
    _ ← (if InTx client then println "ERR BEGIN calls can not be nested"
         else
           txID ← begin_now;
           _ ← set_client (mkClient true txID);
           println "OK");
    mret true
  else if bool_decide (cmd = "COMMIT") then
    _ ← (if negb (InTx client) then println "ERR COMMIT without BEGIN"
         else
           _ ← ignore (on_db (DB_Commit (TxID client)));
           _ ← set_client (mkClient false (TxID client));
           println "OK");
    mret true
  else if bool_decide (cmd = "ROLLBACK") then
    _ ← (if negb (InTx client) then println "ERR ROLLBACK without BEGIN"
         else
           _ ← ignore (on_db (DB_Rollback (TxID client)));
           _ ← set_client (mkClient false (TxID client));
           println "OK");
    mret true
  else if bool_decide (cmd = "QUIT") || bool_decide (cmd = "EXIT") then
    _ ← println "Goodbye!";
    mret false
  else if InTx client then
    r ← attempt (executeCommand (TxID client) text);
    _ ← match r with
        | inr err =>
            if Contains conflict_prefix (error_string err) then
              _ ← set_client (mkClient false (TxID client));
              println "Transaction automatically aborted due to conflict."
            else mret tt
        | inl _ => mret tt
        end;
    mret true
  else
    txID ← begin_now;
    r ← attempt (executeCommand txID text);
    _ ← match r with
        | inl _ => ignore (on_db (DB_Commit txID))
        | inr _ => mret tt
        end;
    mret true.

(** The deferred rollback of an open transaction. *)
Definition disconnect : M (Session S) unit :=
  client ← gets ss_client;
  if InTx client then ignore (on_db (DB_Rollback (TxID client))) else mret tt.

Fixpoint scan_lines (lines : list string) : M (Session S) unit :=
  match lines with
  | [] => disconnect
  | line :: lines' =>
      continue ← handle_line line;
      if continue : bool then scan_lines lines' else disconnect
  end.

Definition handleConnection (lines : list string) : M (Session S) unit :=
  _ ← set_client NewClientState;
  _ ← println "Welcome to the DB server.";
  scan_lines lines.
End server.

(** * The transactions a session uses

    Any database can be watched: the calls made on it are recorded.  The
    automaton below reads such a record: every read and write must be in the
    transaction begun last, which must not have been committed or rolled back
    since. *)

Inductive event := EvBegin (txID : N) | EvOp (txID : N) | EvEnd (txID : N).

Definition step_event (cur : option N) (e : event) : option (option N) :=
  match e with
  | EvBegin txID => Some (Some txID)
  | EvOp txID => if bool_decide (cur = Some txID) then Some cur else None
  | EvEnd txID => if bool_decide (cur = Some txID) then Some None else None
  end.

(** The transaction in use after the calls, [None] if a call broke the rule. *)
Definition run_events (evs : list event) : option (option N) :=
  foldl (fun st e => cur ← st; step_event cur e) (Some None) evs.

Record Watched (S : Type) := mkWatched { wt_db : S; wt_calls : list event }.
Arguments mkWatched {S}.
Arguments wt_db {S}.
Arguments wt_calls {S}.

Section watched.
Context {S : Type} `{Index S, Begins S}.

Definition watch {A} (e : event) (m : M S A) : M (Watched S) A :=
  _ ← modify (fun w => mkWatched (wt_db w) (wt_calls w ++ [e]));
  zoom wt_db (fun db w => mkWatched db (wt_calls w)) m.

(** The transaction of a version key. *)
Definition txn_of (mvccKey : bytes) : N := (ExtractMVCCKey mvccKey).2.

#[global] Instance Watched_Index : Index (Watched S) := {|
  ix_Insert := fun key value => watch (EvOp (txn_of key)) (ix_Insert key value);
  ix_Find := fun key => watch (EvOp (txn_of key)) (ix_Find key);
  ix_FindLatest := fun key => watch (EvOp (txn_of key)) (ix_FindLatest key);
  ix_Delete := fun key => watch (EvOp (txn_of key)) (ix_Delete key);
  ix_Rollback := fun txID => watch (EvEnd txID) (ix_Rollback txID);
  ix_Commit := fun txID => watch (EvEnd txID) (ix_Commit txID)
|}.

(** Transaction ids are 64-bit words. *)
#[global] Instance Watched_Begins : Begins (Watched S) := fun now w =>
  match begin_txn now (wt_db w) with
  | (Ok txID, db) => (Ok (u64 txID), mkWatched db (wt_calls w ++ [EvBegin (u64 txID)]))
  | (Err e, db) => (Err e, mkWatched db (wt_calls w))
  | (Panic, db) => (Panic, mkWatched db (wt_calls w))
  | (Hang, db) => (Hang, mkWatched db (wt_calls w))
  end.

(** ** A logic for the session code *)

Definition in_use {T} (calls : T -> list event) (cur : option N) (s : T) : Prop :=
  run_events (calls s) = Some cur.
Definition lawful {T} (calls : T -> list event) (s : T) : Prop := exists cur, in_use calls cur s.

(** From [P], a result satisfies [Q], an error [E], and anything else is lawful. *)
Definition triple {T A} (calls : T -> list event) (P : T -> Prop) (m : M T A)
    (Q : A -> T -> Prop) (E : error -> T -> Prop) : Prop := forall s, P s ->
  match m s with
  | (Ok a, s') => Q a s'
  | (Err e, s') => E e s'
  | (_, s') => lawful calls s'
  end.

Lemma triple_bind {T A B} (calls : T -> list event) P (m : M T A) R (k : A -> M T B) Q E :
  triple calls P m R E -> (forall a, triple calls (R a) (k a) Q E) -> triple calls P (m ≫= k) Q E.
Proof.
  intros Hm Hk s Hs. specialize (Hm s Hs). unfold mbind, M_bind.
  destruct (m s) as [[a|e| |] s']; [by apply Hk|done..].
Qed.
Lemma triple_ret {T A} (calls : T -> list event) (Q : A -> T -> Prop) E a :
  triple calls (Q a) (mret a) Q E.
Proof. by intros s Hs. Qed.
Lemma triple_throw {T A} (calls : T -> list event) (Q : A -> T -> Prop) (E : error -> T -> Prop) e :
  triple calls (E e) (throw e) Q E.
Proof. by intros s Hs. Qed.
Lemma triple_attempt {T A} (calls : T -> list event) P (m : M T A) (Q : A + error -> T -> Prop) E :
  triple calls P m (fun a => Q (inl a)) (fun e => Q (inr e)) -> triple calls P (attempt m) Q E.
Proof. intros Hm s Hs. specialize (Hm s Hs). unfold attempt. by destruct (m s) as [[a|e| |] s']. Qed.
Lemma triple_weaken {T A} (calls : T -> list event) (P P' : T -> Prop) (m : M T A) Q Q' (E E' : error -> T -> Prop) :
  triple calls P' m Q' E' -> (forall s, P s -> P' s) -> (forall a s, Q' a s -> Q a s) ->
  (forall e s, E' e s -> E e s) -> triple calls P m Q E.
Proof.
  intros Hm Hp Hq He s Hs. specialize (Hm s (Hp s Hs)). destruct (m s) as [[a|e| |] s']; eauto.
Qed.

Lemma run_snoc evs e cur : run_events evs = Some cur -> run_events (evs ++ [e]) = step_event cur e.
Proof. unfold run_events. rewrite foldl_app. cbn. by intros ->. Qed.

(** ** The calls *)

Lemma watch_op {A} txID (m : M S A) :
  triple wt_calls (in_use wt_calls (Some txID)) (watch (EvOp txID) m)
    (fun _ => in_use wt_calls (Some txID)) (fun _ => in_use wt_calls (Some txID)).
Proof.
  intros w Hw. unfold in_use in *. assert (E : run_events (wt_calls w ++ [EvOp txID]) = Some (Some txID)).
  { rewrite (run_snoc _ _ _ Hw). cbn. by rewrite bool_decide_true. }
  unfold watch, mbind, M_bind, modify, zoom. cbn. destruct (m (wt_db w)) as [[a|e| |] db]; try done.
  all: by eexists.
Qed.

Lemma watch_end {A} txID (m : M S A) :
  triple wt_calls (in_use wt_calls (Some txID)) (watch (EvEnd txID) m)
    (fun _ => in_use wt_calls None) (fun _ => in_use wt_calls None).
Proof.
  intros w Hw. unfold in_use in *. assert (E : run_events (wt_calls w ++ [EvEnd txID]) = Some None).
  { rewrite (run_snoc _ _ _ Hw). cbn. by rewrite bool_decide_true. }
  unfold watch, mbind, M_bind, modify, zoom. cbn. destruct (m (wt_db w)) as [[a|e| |] db]; try done.
  all: by eexists.
Qed.

(** After an error in a transaction: still in use, or rolled back for a conflict. *)
Definition after_error (txID : N) (e : error) (cur : option N) : Prop :=
  cur = Some txID \/ is_conflict e = true /\ cur = None.

Lemma finish_write_triple txID (m : M (Watched S) unit) :
  triple wt_calls (in_use wt_calls (Some txID)) m
    (fun _ => in_use wt_calls (Some txID)) (fun _ => in_use wt_calls (Some txID)) ->
  triple wt_calls (in_use wt_calls (Some txID)) (finish_write txID m)
    (fun _ => in_use wt_calls (Some txID))
    (fun e s => exists cur, in_use wt_calls cur s /\ after_error txID e cur).
Proof.
  intros Hm. unfold finish_write.
  apply triple_bind with (R := fun _ => in_use wt_calls (Some txID)).
  { by apply triple_attempt. }
  intros [[]|err]; [apply (triple_ret _ (fun _ => in_use wt_calls (Some txID)))|].
  apply triple_bind with (R := fun _ s => exists cur, in_use wt_calls cur s /\ after_error txID err cur).
  - destruct (is_conflict err) eqn:Ec.
    + unfold ignore. eapply triple_bind with (R := fun _ => in_use wt_calls None).
      * apply triple_attempt. apply watch_end.
      * intros _ s Hs. exists None. split; [done|]. by right.
    + intros s Hs. exists (Some txID). split; [done|]. by left.
  - intros _. intros s Hs. exact Hs.
Qed.

(** ** The session *)

Definition calls (s : Session (Watched S)) : list event := wt_calls (ss_db s).

(** The client's state and the transaction in use. *)
Definition at_state (c : ClientState) (cur : option N) (s : Session (Watched S)) : Prop :=
  ss_client s = c /\ in_use calls cur s.

Lemma at_lawful c cur s : at_state c cur s -> lawful calls s.
Proof. intros [_ H1]. by exists cur. Qed.

Lemma on_db_triple {A} c cur (m : M (Watched S) A) Q E :
  triple wt_calls (in_use wt_calls cur) m Q E ->
  triple calls (at_state c cur) (on_db m)
    (fun a s => ss_client s = c /\ Q a (ss_db s)) (fun e s => ss_client s = c /\ E e (ss_db s)).
Proof.
  intros Hm s [Hc Hs]. specialize (Hm (ss_db s) Hs). unfold on_db, zoom.
  destruct (m (ss_db s)) as [[a|e| |] db]; done.
Qed.

Lemma println_triple c cur line E :
  triple calls (at_state c cur) (println line) (fun _ => at_state c cur) E.
Proof. by intros s Hs. Qed.

Lemma set_client_triple c c' cur E :
  triple calls (at_state c cur) (set_client c') (fun _ => at_state c' cur) E.
Proof. intros s [_ Hs]. done. Qed.

Lemma report_triple {A} c txID (m : M (Watched S) A) ok :
  triple wt_calls (in_use wt_calls (Some txID)) m (fun _ => in_use wt_calls (Some txID))
    (fun e s => exists cur, in_use wt_calls cur s /\ after_error txID e cur) ->
  triple calls (at_state c (Some txID)) (report m ok) (fun _ => at_state c (Some txID))
    (fun e s => exists cur, at_state c cur s /\ after_error txID e cur).
Proof.
  intros Hm. unfold report.
  apply triple_bind with (R := fun r s => match r with
    | inl _ => at_state c (Some txID) s
    | inr e => exists cur, at_state c cur s /\ after_error txID e cur
    end).
  - apply triple_attempt. eapply triple_weaken; [by apply on_db_triple|done| |].
    + by intros a s [H1 H2].
    + intros e s (H1 & cur & H2 & H3). by exists cur.
  - intros [a|e]; [apply println_triple|].
    apply triple_bind with (R := fun _ s => exists cur, at_state c cur s /\ after_error txID e cur).
    + by intros s Hs.
    + intros _. by intros s Hs.
Qed.

Lemma txn_of_build key txID : txID < 18446744073709551616 -> txn_of (BuildMVCCKey key txID) = txID.
Proof. intros Ht. unfold txn_of. by rewrite extract_build. Qed.

Lemma DB_triple key value txID : txID < 18446744073709551616 ->
  triple wt_calls (in_use wt_calls (Some txID)) (DB_Set txID key value)
    (fun _ => in_use wt_calls (Some txID))
    (fun e s => exists cur, in_use wt_calls cur s /\ after_error txID e cur)
  /\ triple wt_calls (in_use wt_calls (Some txID)) (DB_Delete txID key)
    (fun _ => in_use wt_calls (Some txID))
    (fun e s => exists cur, in_use wt_calls cur s /\ after_error txID e cur)
  /\ triple wt_calls (in_use wt_calls (Some txID)) (DB_Get txID key)
    (fun _ => in_use wt_calls (Some txID))
    (fun e s => exists cur, in_use wt_calls cur s /\ after_error txID e cur).
Proof.
  intros Ht. split; [|split].
  - apply finish_write_triple. cbn [ix_Insert Watched_Index]. rewrite txn_of_build by done. apply watch_op.
  - apply finish_write_triple. cbn [ix_Delete Watched_Index]. rewrite txn_of_build by done. apply watch_op.
  - unfold DB_Get. apply triple_bind with (R := fun _ => in_use wt_calls (Some txID)).
    + cbn [ix_FindLatest Watched_Index]. rewrite txn_of_build by done.
      eapply triple_weaken; [apply watch_op|done|done|]. intros e s Hs. exists (Some txID).
      split; [done|]. by left.
    + intros a. by intros s Hs.
Qed.

Lemma executeCommand_triple took c txID line : txID < 18446744073709551616 ->
  triple calls (at_state c (Some txID)) (executeCommand took txID line) (fun _ => at_state c (Some txID))
    (fun e s => exists cur, at_state c cur s /\ after_error txID e cur).
Proof.
  intros Ht. unfold executeCommand. cbv zeta.
  destruct (DB_triple (default EmptyString (SplitN3 line !! 1%nat)) (default EmptyString (SplitN3 line !! 2%nat)) txID Ht)
    as (T1 & T2 & T3).
  destruct (SplitN3 line) as [|c0 [|key [|value [|x l]]]]; cbn [head default id lookup list_lookup] in *;
    repeat (case_bool_decide; try apply println_triple); by apply report_triple.
Qed.

Lemma begin_now_triple c cur :
  triple calls (at_state c cur) begin_now
    (fun txID s => txID < 18446744073709551616 /\ at_state c (Some txID) s) (fun _ => lawful calls).
Proof.
  intros s [Hc Hs]. unfold begin_now. destruct (ss_clock s) as [|now clock]; [by exists cur|].
  unfold on_db, zoom, begin_txn, Watched_Begins. cbn [ss_db].
  destruct (begin_txn now (wt_db (ss_db s))) as [[txID|e| |] db].
  - split; [apply N.mod_lt; done|]. split; [done|]. unfold in_use, calls in *. cbn [ss_db wt_calls].
    by rewrite (run_snoc _ _ _ Hs).
  - by exists cur.
  - by exists cur.
  - by exists cur.
Qed.

(** In a transaction, it is the one in use. *)
Definition session_inv (s : Session (Watched S)) : Prop :=
  if InTx (ss_client s) then
    TxID (ss_client s) < 18446744073709551616 /\ in_use calls (Some (TxID (ss_client s))) s
  else lawful calls s.

Lemma idle_inv c cur s : InTx c = false -> at_state c cur s -> session_inv s.
Proof. intros Hi [Hc Hs]. unfold session_inv. rewrite Hc, Hi. by exists cur. Qed.

Lemma conflict_contained e : is_conflict e = true -> Contains conflict_prefix (error_string e) = true.
Proof. unfold is_conflict. intros Hp. by destruct (error_string e); cbn [Contains]; rewrite Hp. Qed.

Definition fits_client (c : ClientState) (cur : option N) : Prop :=
  InTx c = true -> cur = Some (TxID c) /\ TxID c < 18446744073709551616.

Lemma at_inv c cur s : fits_client c cur -> at_state c cur s -> session_inv s.
Proof.
  intros Hf [Hc Hs]. unfold session_inv. rewrite Hc. destruct (InTx c) eqn:Ei; [|by exists cur].
  destruct (Hf Ei) as [-> Hb]. done.
Qed.

Lemma triple_client {B} c cur (k : ClientState -> M (Session (Watched S)) B) Q E :
  triple calls (at_state c cur) (k c) Q E ->
  triple calls (at_state c cur) (client ← gets ss_client; k client) Q E.
Proof.
  intros Hk s Hs. unfold mbind, M_bind, gets. rewrite (proj1 Hs). by apply Hk.
Qed.

(** Prints a line and goes on. *)
Lemma say c cur line (b : bool) E : fits_client c cur ->
  triple calls (at_state c cur) (_ ← println line; mret b) (fun _ => session_inv) E.
Proof. intros Hf s Hs. by apply (at_inv c cur). Qed.

(** Ends the transaction in use: [COMMIT] and [ROLLBACK]. *)
Lemma end_txn {A} c (m : M S A) E :
  triple calls (at_state c (Some (TxID c)))
    (_ ← (_ ← ignore (on_db (watch (EvEnd (TxID c)) m)); _ ← set_client (mkClient false (TxID c)); println "OK");
     mret true) (fun _ => session_inv) E.
Proof.
  apply triple_bind with (R := fun _ => at_state (mkClient false (TxID c)) None).
  - apply triple_bind with (R := fun _ => at_state c None).
    + unfold ignore. apply triple_bind with (R := fun _ => at_state c None); [|intros _; by intros s Hs].
      apply triple_attempt. eapply triple_weaken; [apply on_db_triple, watch_end|done| |].
      * by intros a s [H1 H2].
      * by intros e s [H1 H2].
    + intros _. apply triple_bind with (R := fun _ => at_state (mkClient false (TxID c)) None);
        [apply set_client_triple|]. intros _. apply println_triple.
  - intros _ s Hs. by apply (idle_inv (mkClient false (TxID c)) None).
Qed.

Lemma begin_triple c cur E : InTx c = false ->
  (forall e s, lawful calls s -> E e s) ->
  triple calls (at_state c cur)
    (_ ← (txID ← begin_now; _ ← set_client (mkClient true txID); println "OK"); mret true)
    (fun _ => session_inv) E.
Proof.
  intros Hi HE. apply triple_bind with (R := fun _ => session_inv); [|intros _; by intros s Hs].
  eapply triple_bind.
  - eapply triple_weaken; [apply begin_now_triple|done|intros a s Hs; exact Hs|exact HE].
  - intros txID s [Hb Hs]. pose proof (set_client_triple c (mkClient true txID) (Some txID) E s Hs) as H1.
    unfold mbind, M_bind. destruct (set_client _ s) as [[[]|e| |] s']; [|done..].
    destruct H1 as [Hc Hs']. unfold println, modify. unfold session_inv. cbn. rewrite Hc. cbn. done.
Qed.

(** A command inside the client's transaction. *)
Lemma in_txn_triple took c text E : InTx c = true -> TxID c < 18446744073709551616 ->
  triple calls (at_state c (Some (TxID c)))
    (r ← attempt (executeCommand took (TxID c) text);
     _ ← match r with
         | inr err =>
             if Contains conflict_prefix (error_string err) then
               _ ← set_client (mkClient false (TxID c));
               println "Transaction automatically aborted due to conflict."
             else mret tt
         | inl _ => mret tt
         end;
     mret true) (fun _ => session_inv) E.
Proof.
  intros Hi Hb. apply triple_bind with (R := fun r s => match r with
    | inl _ => at_state c (Some (TxID c)) s
    | inr e => exists cur, at_state c cur s /\ after_error (TxID c) e cur
    end); [by apply triple_attempt, executeCommand_triple|].
  intros [a|e] s Hs.
  - apply (at_inv c (Some (TxID c))); [done|exact Hs].
  - destruct Hs as (cur & Hs & Ha). unfold mbind, M_bind.
    destruct (Contains conflict_prefix (error_string e)) eqn:Ec.
    + apply (idle_inv (mkClient false (TxID c)) cur); [done|]. by destruct Hs.
    + apply (at_inv c cur); [|exact Hs]. intros _. destruct Ha as [->|[Hx _]]; [done|].
      apply conflict_contained in Hx. congruence.
Qed.

(** A command in a transaction of its own. *)
Lemma auto_triple took c cur text E : InTx c = false ->
  (forall e s, lawful calls s -> E e s) ->
  triple calls (at_state c cur)
    (txID ← begin_now;
     r ← attempt (executeCommand took txID text);
     _ ← match r with
         | inl _ => ignore (on_db (DB_Commit txID))
         | inr _ => mret tt
         end;
     mret true) (fun _ => session_inv) E.
Proof.
  intros Hi HE. eapply triple_bind.
  { eapply triple_weaken; [apply begin_now_triple|done|intros a s Hs; exact Hs|exact HE]. }
  intros txID s0 [Hb Hs0]. revert s0 Hs0.
  change (triple calls (at_state c (Some txID))
    (r ← attempt (executeCommand took txID text);
     _ ← match r with inl _ => ignore (on_db (DB_Commit txID)) | inr _ => mret tt end;
     mret true) (fun _ => session_inv) E).
  apply triple_bind with (R := fun r s => match r with
    | inl _ => at_state c (Some txID) s
    | inr e => exists cur, at_state c cur s /\ after_error txID e cur
    end); [by apply triple_attempt, executeCommand_triple|].
  intros [a|e].
  - apply triple_bind with (R := fun _ => at_state c None).
    + unfold ignore. apply triple_bind with (R := fun _ => at_state c None); [|intros _; by intros s Hs].
      apply triple_attempt. eapply triple_weaken; [apply on_db_triple, watch_end|done| |].
      * by intros x s [H1 H2].
      * by intros x s [H1 H2].
    + intros _ s Hs. by apply (idle_inv c None).
  - intros s (cur' & Hs & _). by apply (idle_inv c cur').
Qed.

Lemma handle_line_triple took c cur line : fits_client c cur ->
  triple calls (at_state c cur) (handle_line took line) (fun _ => session_inv) (fun _ => lawful calls).
Proof.
  intros Hf. unfold handle_line. cbv zeta. case_bool_decide.
  { intros s Hs. by apply (at_inv c cur). }
  apply triple_client. destruct (InTx c) eqn:Ei.
  - destruct (Hf Ei) as [-> Hb]. repeat case_bool_decide; cbn [orb negb];
      first [by apply say|apply end_txn|by apply in_txn_triple].
  - repeat case_bool_decide; cbn [orb negb];
      first [by apply say|by apply begin_triple|by apply auto_triple].
Qed.

Lemma disconnect_triple c cur : fits_client c cur ->
  triple calls (at_state c cur) disconnect (fun _ => lawful calls) (fun _ => lawful calls).
Proof.
  intros Hf. unfold disconnect. apply triple_client. destruct (InTx c) eqn:Ei.
  - destruct (Hf Ei) as [-> _]. unfold ignore.
    apply triple_bind with (R := fun _ => at_state c None); [|intros _ s Hs; by apply (at_lawful c None)].
    apply triple_attempt. eapply triple_weaken; [apply on_db_triple, watch_end|done| |].
    + by intros x s [H1 H2].
    + by intros x s [H1 H2].
  - intros s Hs. by apply (at_lawful c cur).
Qed.

Lemma inv_at s : session_inv s -> exists cur, fits_client (ss_client s) cur /\ at_state (ss_client s) cur s.
Proof.
  unfold session_inv. destruct (InTx (ss_client s)) eqn:Ei.
  - intros [Hb Hs]. exists (Some (TxID (ss_client s))). split; [by intros _|done].
  - intros [cur Hs]. exists cur. split; [|done]. intros Hx. congruence.
Qed.

Lemma scan_triple took lines :
  triple calls session_inv (scan_lines took lines) (fun _ => lawful calls) (fun _ => lawful calls).
Proof.
  induction lines as [|line lines IH]; intros s Hs; destruct (inv_at s Hs) as (cur & Hf & Ha).
  - by apply (disconnect_triple _ _ Hf).
  - cbn [scan_lines]. refine (triple_bind calls (at_state (ss_client s) cur) _ (fun _ => session_inv) _ _ _
      (handle_line_triple took _ _ line Hf) _ s Ha).
    intros [|]; [exact IH|]. intros s' Hs'. destruct (inv_at s' Hs') as (cur' & Hf' & Ha').
    by apply (disconnect_triple _ _ Hf').
Qed.

(** ** Properties *)

(** C11: whatever lines a client sends and whatever the database answers, a
    session reads and writes only in the transaction it began last, never after
    that transaction was committed or rolled back (also when a conflict rolled
    it back), and commits or rolls back each transaction at most once; this
    holds to the end of the connection, or up to the call that never returns
    or crashes. *)
Theorem session_lawful took lines s :
  calls s = [] -> lawful calls (snd (handleConnection took lines s)).
Proof.
  intros Hs. pose proof (scan_triple took lines) as Ht. unfold handleConnection.
  unfold mbind at 1, M_bind at 1, set_client at 1, modify at 1.
  unfold mbind at 1, M_bind at 1, println at 1, modify at 1.
  match goal with |- context [scan_lines took lines ?s0] => specialize (Ht s0) end.
  destruct (scan_lines took lines _) as [[a|e| |] s']; apply Ht; exists None; exact (f_equal run_events Hs).
Qed.
End watched.

(** A session on the demo database. *)
Definition demo_session : Session (Watched BTree) :=
  mkSession (mkWatched demo_tree []) NewClientState [] [100; 101].

Lemma session_lawful_witness :
  lawful calls (snd (@handleConnection (Watched BTree)
    (@Watched_Index BTree (@BTree_Index canonical_range)) (@Watched_Begins BTree BTree_Begins) "1ms"
    ["BEGIN"; "SET a 1"; "COMMIT"; "GET a"] demo_session)).
Proof.
  apply (@session_lawful BTree (@BTree_Index canonical_range) BTree_Begins "1ms"
    ["BEGIN"; "SET a 1"; "COMMIT"; "GET a"] demo_session). reflexivity.
Defined.
