(* ===== verification/Scenarios.v ===== *)
(** * Whole runs of the database

    Concrete executions of the complete model, from an empty directory, through
    the coordinator, crashes and reopening.  Some show the parts working
    together, the others the flaws that the model brought to light.  Maps are
    ranged over in [canonical_range]'s order. *)

From Stdlib Require Import Strings.Ascii.
From S2P Require Import Prelude Crc Cell Page Pager Wal Txn Buffer Tree Overflow Upsert Rollback Recovery Vacuum Engine Server.

#[local] Existing Instance canonical_range.

(** ** Running *)

(** The database that opening an empty directory gives, with a new
    transaction manager. *)
Definition with_txns (s : Store) : Store := set_tree (set_txm (Some NewTransactionManager) (st_tree s)) s.
Definition fresh : Store := with_txns (snd (NewBTree empty_store)).

(** The process dies: the files stay, the memory goes, and the database is
    opened again.  [flushed] is whether the pool had been written out. *)
Definition crashed (flushed : bool) (s : Store) : Store :=
  let bm := t_bm (st_tree s) in
  let bm := if flushed then snd (FlushAll bm) else bm in
  mkStore (mkTree (NewBufferManager (bm_pager bm) 100 (mkWAL (w_file (bm_wal bm)) 0) true) 0 None)
    (st_chk s) [].
Definition reopen (flushed : bool) : M Store unit := fun s =>
  let (o, s') := NewBTree (crashed flushed s) in (o, with_txns s').

(** [txMgr.Begin()] when the clock reads [now]. *)
Definition begin_at (now : N) : M Store unit := on_tree (on_txm (fun m => snd (Begin now m))).
Definition set_ (txID : N) (key value : string) : M Store unit := on_tree (DB_Set txID key value).
Definition get_ (txID : N) (key : string) : M Store string := on_tree (DB_Get txID key).
Definition delete_ (txID : N) (key : string) : M Store unit := on_tree (DB_Delete txID key).
Definition commit_ (txID : N) : M Store unit := on_tree (DB_Commit txID).
Definition rollback_ (txID : N) : M Store unit := on_tree (DB_Rollback txID).
Definition vacuum_ : M Store unit := on_tree Vacuum.

Fixpoint repeat_char (n : nat) (c : Ascii.ascii) : string :=
  match n with O => EmptyString | S n' => String c (repeat_char n' c) end.

(** Transaction 1 sets the key and commits. *)
Definition committed (key value : string) : M Store unit :=
  _ ← begin_at 1; _ ← set_ 1 key value; commit_ 1.

(** ** Working runs *)

(** An empty directory opens. *)
Theorem fresh_opens : fst (NewBTree empty_store) = Ok tt.
Proof. vm_compute. reflexivity. Qed.

(** A committed write is read by a later transaction, also after a crash with
    nothing but the log written. *)
Theorem committed_survives_crash :
  fst ((_ ← committed "k" "v"; _ ← reopen false; _ ← begin_at 2; get_ 2 "k") fresh) = Ok "v".
Proof. vm_compute. reflexivity. Qed.

(** A transaction open at the crash is undone. *)
Theorem open_undone_by_crash :
  fst ((_ ← committed "k" "v"; _ ← begin_at 2; _ ← set_ 2 "k" "w"; _ ← reopen false;
        _ ← begin_at 3; get_ 3 "k") fresh) = Ok "v".
Proof. vm_compute. reflexivity. Qed.

(** Closing the database writes the pool out: without the log, the files alone
    have the value. *)
Theorem closed_then_opened :
  fst ((_ ← committed "k" "v"; _ ← Close;
        _ ← on_tree (modify (fun t => set_bm (set_bm_wal (mkWAL new_file 0) (t_bm t)) t));
        _ ← reopen false; _ ← begin_at 2; get_ 2 "k") fresh) = Ok "v".
Proof. vm_compute. reflexivity. Qed.

(** A transaction that overwrites its own long value frees the first value's
    chain, and reads the second. *)
Theorem overwrite_frees_chain :
  let run := (_ ← begin_at 1; _ ← set_ 1 "k" (repeat_char 1100 "w"%char); _ ← set_ 1 "k" "v"; get_ 1 "k") in
  fst (run fresh) = Ok "v"
  /\ GetFirstFreePageID (view (t_bm (st_tree (snd (run fresh)))) MetaPageID) = 2.
Proof. vm_compute. split; reflexivity. Qed.

(** ** Flaws *)

(** A transaction that was rolled back comes back after a crash: redo applies
    its insert and skips the compensation record, and analysis does not list
    the transaction because of its abort record. *)
Theorem rolled_back_returns_after_crash :
  fst ((_ ← begin_at 1; _ ← set_ 1 "k" "v"; _ ← rollback_ 1; _ ← begin_at 2; get_ 2 "k") fresh)
    = Err ErrKeyNotFound
  /\ fst ((_ ← begin_at 1; _ ← set_ 1 "k" "v"; _ ← rollback_ 1; _ ← reopen false; _ ← begin_at 2;
           get_ 2 "k") fresh) = Ok "v".
Proof. vm_compute. split; reflexivity. Qed.

(** A deletion that is rolled back leaves the empty value once the vacuum has
    pruned the transaction. *)
Theorem rolled_back_delete_reads_empty :
  fst ((_ ← committed "k" "v"; _ ← begin_at 2; _ ← delete_ 2 "k"; _ ← rollback_ 2; _ ← begin_at 3;
        get_ 3 "k") fresh) = Ok "v"
  /\ fst ((_ ← committed "k" "v"; _ ← begin_at 2; _ ← delete_ 2 "k"; _ ← rollback_ 2; _ ← vacuum_;
           _ ← begin_at 3; get_ 3 "k") fresh) = Ok "".
Proof. vm_compute. split; reflexivity. Qed.

(** Two short keys and two long ones: the second half of the split does not fit
    its page, and the last cell is dropped without an error. *)
Definition long_key (c : Ascii.ascii) : string := repeat_char 1020 c.
Definition long_value : string := repeat_char 1024 "v"%char.

Theorem split_drops_cell :
  let load := (_ ← begin_at 1; _ ← set_ 1 "a" "1"; _ ← set_ 1 "b" "2";
               _ ← set_ 1 (long_key "x"%char) long_value;
               _ ← set_ 1 (long_key "y"%char) long_value; commit_ 1) in
  fst (load fresh) = Ok tt
  /\ fst ((_ ← load; _ ← begin_at 2; get_ 2 (long_key "y"%char)) fresh) = Err ErrKeyNotFound.
Proof. vm_compute. split; reflexivity. Qed.

(** A failed command outside a transaction leaves its transaction running, so
    the watermark of the vacuum stays at it. *)
Theorem auto_commit_leaks :
  let s := snd (handleConnection "1ms" ["GET missing"]
             (mkSession (st_tree fresh) NewClientState [] [7])) in
  match t_txm (ss_db s) with
  | Some m => GetStatus 7 m = TXN_RUNNING /\ GetMinActiveTxID 0 m = 7
  | None => False
  end.
Proof. vm_compute. split; reflexivity. Qed.

(** The pages of the overflow chain of a write that then conflicts are lost:
    they are in no tree and not on the free list. *)
Theorem conflict_leaks_chain :
  let s := snd ((_ ← begin_at 1; _ ← set_ 1 "k" "v"; _ ← begin_at 2; set_ 2 "k" (repeat_char 1100 "w"%char)) fresh) in
  let bm := t_bm (st_tree s) in
  GetPageType (view bm 2) = PageTypeOverflow /\ GetFirstFreePageID (view bm MetaPageID) = 0.
Proof. vm_compute. split; reflexivity. Qed.

(** A checkpoint hides the transactions open at it: their changes, flushed
    before the crash, are not undone. *)
Theorem checkpoint_hides_open_transaction :
  fst ((_ ← committed "k" "v"; _ ← begin_at 2; _ ← set_ 2 "k" "w"; _ ← Checkpoint; _ ← reopen true;
        _ ← begin_at 3; get_ 3 "k") fresh) = Ok "w".
Proof. vm_compute. reflexivity. Qed.

(** An insert that splits its leaf is not undone by its rollback, and becomes
    visible when the vacuum forgets the transaction. *)
Theorem split_insert_not_rolled_back :
  let load := (_ ← begin_at 1;
               _ ← set_ 1 (long_key "x"%char) "1"; _ ← set_ 1 (long_key "y"%char) "2";
               _ ← set_ 1 (long_key "z"%char) "3"; _ ← commit_ 1;
               _ ← begin_at 2; _ ← set_ 2 "a" long_value; _ ← rollback_ 2; vacuum_) in
  fst ((_ ← load; _ ← begin_at 3; get_ 3 "a") fresh) = Ok long_value.
Proof. vm_compute. reflexivity. Qed.

(** Two transactions read the same value and both write it: the younger one
    does not see that the older one committed after it began, so the older
    one's update is lost. *)
Theorem update_lost :
  fst ((_ ← committed "k" "v"; _ ← begin_at 2; _ ← begin_at 3; r2 ← get_ 2 "k"; r3 ← get_ 3 "k";
        _ ← set_ 2 "k" "by 2"; _ ← commit_ 2; _ ← set_ 3 "k" "by 3"; _ ← commit_ 3;
        _ ← begin_at 4; r ← get_ 4 "k"; mret (r2, r3, r)) fresh) = Ok ("v", "v", "by 3").
Proof. vm_compute. reflexivity. Qed.

(** A reader sees an older transaction commit between two of its reads. *)
Theorem read_not_repeatable :
  fst ((_ ← committed "k" "v"; _ ← begin_at 2; _ ← begin_at 3; r ← get_ 3 "k";
        _ ← set_ 2 "k" "by 2"; _ ← commit_ 2; r' ← get_ 3 "k"; mret (r, r')) fresh) = Ok ("v", "by 2").
Proof. vm_compute. reflexivity. Qed.

(** A search looks at one leaf only: when a split separates two versions of a key
    and the later one is uncommitted, readers no longer find the earlier one,
    which is committed. *)
Theorem split_hides_committed :
  let load := (_ ← begin_at 1; _ ← set_ 1 "a" long_value; _ ← set_ 1 "k" long_value;
               _ ← set_ 1 "z" long_value; commit_ 1) in
  fst ((_ ← load; _ ← begin_at 2; _ ← begin_at 3; get_ 3 "k") fresh) = Ok long_value
  /\ fst ((_ ← load; _ ← begin_at 2; _ ← set_ 2 "k" long_value; _ ← begin_at 3; get_ 3 "k") fresh)
     = Err ErrKeyNotFound.
Proof. vm_compute. split; reflexivity. Qed.
